(* ===== verification/_CoqProject ===== *)
-Q . S2P
Prelude.v
World.v
MemMongo.v
AuthEntities.v
GoStd.v
AuthRepo.v
AuthListing.v
AuthService.v
AuthHandlers.v
AuthUserHandlers.v
Fixtures.v
AuthAccess.v
AuthMembership.v
AuthInvariants.v
AuthTheorems.v
AuthSessions.v
AuthAccounts.v
AuthPages.v
Upgrade.v
UpgradeTheorems.v
GitLock.v
EventTracker.v
Float64.v
Paths.v
GraphDocs.v
Experiments.v
RunScore.v
RunScoreTheorems.v
RunEvent.v
RunTheorems.v
RunLedger.v
Pipelines.v
Authorization.v
AuthBridge.v
Environments.v
Infrastructure.v
InfraListing.v
Connections.v
Channels.v
ImageRegistries.v
ProbeProperties.v
Manifests.v
Probes.v
ExperimentOps.v
ExperimentService.v
GitRepo.v
GitOps.v
ServerRoutes.v
HubFiles.v
ChaosHubs.v
ExperimentHandlers.v
ExperimentListing.v
Isolation.v
ProjectRequests.v
HubRequests.v
ProjectAccess.v
GraphFixtures.v
GitHistory.v
ProjectTheorems.v
ExperimentNames.v
GitTheorems.v
InfraTheorems.v
ConnectionTheorems.v
ChannelTheorems.v
ProbeTheorems.v
ProbeRoundtrip.v
ListingTheorems.v
HubTheorems.v
ServerTheorems.v
Cluster.v
Tracker.v
TrackerTheorems.v
AgentEvents.v
AgentOps.v
AgentRequests.v
AgentFixtures.v
AgentReports.v
AgentStart.v
AgentTheorems.v
RunReports.v
