(* ===== verification/Prelude.v ===== *)
(** * ChaosCenter: a verification development

    LitmusChaos' control plane, ChaosCenter ([src/chaoscenter]), is a set of Go
    services around MongoDB: the [authentication] service (users, projects,
    members, tokens; REST for people, gRPC for the other services), the GraphQL
    server (experiments, infrastructures, GitOps), the [subscriber] and the
    [event-tracker] that run in the target clusters, and the [upgrade-agents]
    that migrate the databases. Each service keeps its durable state in
    database or Kubernetes documents and changes it by single calls, each of
    which may fail; requests of different users, goroutines and controllers
    interleave at those calls.

    ** How the code is represented

    - [Prelude.v] (this file): results of Go calls ([Ok], [Err], [Panic]), state
      passing ([M]) with the notations [let?] (return the error) and [let!] (handle it),
      weakest preconditions [wp] with their rules and tactics, the
      hint database [wp_spec], and shared list and string lemmas.
    - [GoStd.v]: what the code uses of Go's standard library, written out on
      byte strings: [TrimSpace], base64 with both alphabets, padded and raw,
      [Atoi], [Itoa], [ParseBool], [Split], [Contains], 64-bit wrap-around.
    - [Float64.v]: [float64] as the standard library's [SpecFloat] computes it,
      with the rounding error of conversions, products and quotients.
    - [World.v]: what the services call outside themselves, as type classes with
      laws. [MongoDriver] takes the number of the call, so every call may fail
      or not; [MongoLaws] states what a result means (a write that reports an
      error may or may not have been applied; a query sees the documents in any
      order; a duplicate-key error means nothing was written and a conflicting document exists).
      [MongoTxn] is the start and commit of transactions, [Runtime] the clock
      and the random ids. Filters and update documents of the code are boolean
      functions and functions on documents.
    - [MemMongo.v]: an in-memory driver with an arbitrary schedule of faults; it
      satisfies [MongoLaws]. [Fixtures.v]: concrete instances of the other
      parameters (signing, hashing, clock, OpenID Connect) with their laws, and
      small databases. Concrete runs and witnesses evaluate on them.

    ** The authentication service ([src/chaoscenter/authentication])

    - [AuthEntities.v]: the structs of [pkg/entities], the error table, the
      database as a record of collections.
    - [AuthRepo.v]: one definition per repository method ([pkg/user],
      [pkg/project], [pkg/session], [pkg/authConfig]).
    - [AuthListing.v]: [GetProjectFilters], the aggregation stages and
      [GetProjectsByUserID].
    - [AuthService.v]: sanitizers and policies, tokens ([session_service.go]),
      RBAC ([pkg/validations]), the deactivation transaction, start-up with the
      collections and indexes ([mongo_database.go]), whose errors are logged, and
      the gRPC handlers.
    - [AuthHandlers.v], [AuthUserHandlers.v]: the JWT middleware and every REST
      handler, each with all its guards and early returns in the order of the
      code. A handler is a function from the request context and body to a
      state-passing computation of the response. They include the routes
      that only report on the process and the check of origins.
    - [AuthAccess.v]: what the guards and lookups guarantee (the interface
      between handlers and theorems).
    - [AuthMembership.v]: the membership protocol as a step relation ([mstep]
      for steps that need a right of the actor, [nstep] for the others), the
      router as [Request]/[route]/[serve], and the proof that every handler
      refines the protocol under every behaviour of the driver.
    - [AuthInvariants.v]: invariants by induction on the steps: well-formedness,
      ownership, who may change an entry.
    - [AuthTheorems.v]: the theorems about runs of the server, its start-up with
      the creation of indexes included ([run_server]);
      [AuthSessions.v]: tokens, RBAC decisions, log-out; [AuthAccounts.v]:
      log-in, passwords, accounts, deactivation, the signing secret;
      [AuthPages.v]: the listing and what answers contain.

    ** Experiment runs ([src/chaoscenter/graphql/server])

    - [Experiments.v]: the documents of experiments and runs
      ([pkg/database/mongodb]), their operators, messages to connected
      infrastructures ([pkg/chaos_infrastructure/infra_utils.go]). The element
      a positional update picks is a parameter ([Positional]): the database
      fixes it only for a single condition on the array.
    - [RunScore.v]: [ProcessCompletedExperimentRun] and [Truncate]; the order in
      which Go visits maps is a parameter ([MapOrder]).
      [RunScoreTheorems.v]: score and counters against an order-free reference,
      the score as a weighted mean between 0 and 100, to the cent.
    - [RunEvent.v]: [ChaosExperimentRunEvent] with its transaction,
      [ParseProbesFromManifestForRuns], [ProcessExperimentRunStop],
      [ProcessExperimentRunDelete] and [StopExperimentRuns]. Decoders of Argo
      and Kubernetes types are parameters ([Decoders]).
      [RunTheorems.v]: the effect of every event and stop on the documents, for
      every behaviour of the driver; [RunLedger.v]: events are atomic, results
      of completed runs are final, a stopped run stays stopped however the stop
      named it, late events are discarded, the ledger of runs stays well formed.

    ** Projects in the GraphQL server

    - [GraphDocs.v]: the documents of environments, infrastructures, image
      registries and probes, and the store of live connections
      ([pkg/data-store]). [Pipelines.v]: what the stages of the listings compute.
    - [Authorization.v] ([pkg/authorization], [pkg/grpc]): roles per request,
      [ValidateRole], the middleware. What the authentication service promises
      is the class [AuthClientLaws]; [AuthBridge.v] discharges it with the
      model of that service and its theorems.
    - [Environments.v], [ImageRegistries.v], [Infrastructure.v],
      [InfraListing.v], [ProbeProperties.v], [Probes.v], [Manifests.v],
      [ExperimentOps.v], [ExperimentService.v], [ExperimentHandlers.v],
      [ExperimentListing.v]: operators, services, handlers and resolvers of the components of the same names.
      Codecs of Argo and Kubernetes types, the files and the configuration of the
      server are parameters ([ManifestCodec], [SourceCodec], [InfraEnv],
      [ServerConfig]).
    - [Isolation.v]: a logic of preorders on databases ([stays]) for what a
      piece of code may change. [ProjectRequests.v], [ProjectAccess.v]: all
      requests about a project as data, [resolve] as the router.
      [ProjectTheorems.v]: a request without the right has no effect, one with it
      changes no document of another project, if it names an experiment or a hub of
      its own; where the code looks documents up without the project, concrete
      runs show what crosses.
      [ExperimentNames.v]: names of experiments stay unique while GitOps is off.
      [ProbeTheorems.v]: every stored probe has the properties of its type.
      [ProbeRoundtrip.v]: what a probe keeps from a manifest to an engine.
      [InfraTheorems.v]: registration, confirmation and the access key, the
      statistics. [ListingTheorems.v]: the listing of experiments holds what the
      request describes, the lookup of a run stays in the project when an
      identifier is given, statistics are counts of documents.
    - [Connections.v]: agents and browsers that connect and leave. The two
      halves of a connection and of its end are separate steps ([cstep]) that
      interleave. [ConnectionTheorems.v]: the map of connected agents refines
      the newest open connection; the flag of the database follows it when
      agents come one at a time, and need not otherwise.
    - [Channels.v]: the same functions as programs that stop at every use of the
      mutex, the maps and the channels of the store, so that sends block and
      goroutines interleave at every step ([act]). [ChannelTheorems.v]: the maps
      are only used under the mutex, a send under it goes to the registered
      connection, and the mutex is lost for ever exactly when its owner sends to
      a full channel that nobody reads.
    - [GraphFixtures.v]: concrete instances of all parameters, a database with
      two projects.

    ** The agent in the target cluster ([src/chaoscenter/subscriber])

    - [Cluster.v]: the objects of Kubernetes, Argo and the chaos operator that
      the agent reads, its own messages ([pkg/types]), and its environment as
      classes: [Cluster] (the API of the cluster, any call of which may fail),
      [Endpoint] (the server behind HTTP), [AgentCodec] (encodings),
      [VendorConstants].
    - [AgentEvents.v] ([pkg/events]): the watchers, whose informers are a sequence of
      notifications ([Notification]); workflows and engines become events; what is
      remembered between events ([eventMap]) and the reports.
      [AgentOps.v] ([pkg/k8s], [pkg/graphql]): health of components, registration,
      operations on objects, namespaces, objects and logs, with the texts of the
      payloads. [AgentRequests.v] ([pkg/requests], [pkg/utils], [init] of
      [subscriber.go]): the requests of the server and the start of the process.
      It ends with the subscription ([AgentConnect]) and the loop over the
      messages that are read; actions are processed in order until the connection
      is lost.
    - [AgentReports.v]: reports carry the last chaos data of a run since its last
      event with an end, only open runs
      are remembered, the status of a run, what an event says about a workflow.
      [AgentStart.v]: agent and server together agree on the access key over
      starts, unless a start is interrupted between its two writes.
      [AgentTheorems.v]: requests reach their code, listing namespaces ends with
      all of them, the user of an action returns with the events.
      [RunReports.v]: agent and server together, over HTTP: every run of the server
      is as it was or says what one report said, an answered report has been
      recorded, and from the objects of the cluster to the database only the run of
      an object that ended or is shut down becomes completed.
      [AgentFixtures.v]: a cluster in memory.

    ** The upgrade agent ([src/chaoscenter/upgrade-agents/control-plane])

    - [Upgrade.v]: version texts, the sorted path, [Run], the stored version,
      the 3.9.0 migration of the authentication database and the 0.0.0 manager, the
      template of such migrations. [UpgradeTheorems.v]:
      round trip of version texts, the path is the interval between the two
      versions, the migration is atomic, due exactly when the path passes 3.9.0,
      idempotent, and keeps the invariants of the authentication database.

    ** GitOps ([graphql/server/pkg/gitops])

    - [GitRepo.v] ([gitops.go]): the repository of a project: clone, pull, commit,
      push, and the walk through the history ([walk]). The git library and the
      disk ([GitLibrary]) and text formats ([GitData]) are parameters; every call
      that changes them is recorded in [g_gitcalls] when it succeeds.
    - [GitOps.v] ([service.go], [graph/gitops.resolvers.go]): [SyncDBToGit] from
      git to the database, [UpsertExperimentToGit] and [DeleteExperimentFromGit]
      the other way, which the handlers of experiments call, the rounds of the
      background sync, and the requests.
    - [GitHistory.v]: histories with merges, and the order of the committers' times in
      which they are listed ([by_committer_time]). The walk reports exactly the files
      mentioned before the known commit is reached, among them every file that
      differs when the history is linear or the line of first parents leads to the
      known commit; a merge with the known commit as second parent can hide a file.
      The groups of a round.
      [GitTheorems.v]: what a save that succeeds has done, which projects the
      background sync touches, and runs in which git and database come apart.
    - [GitLock.v] ([git-lock.go]): [Lock] and [Unlock]
      as atomic actions of any number of goroutines. Refinement to a table of owners, mutual
      exclusion, no unlock of an unlocked mutex. A goroutine that nests two locks
      counts as two threads. The operations of [GitOps.v]
      hold these locks; there they run one after the other.

    ** Chaos hubs ([graphql/server/pkg/chaoshub])

    - [Paths.v]: [filepath.Clean], [Join] and [Dir], and what lies below a directory.
    - [HubFiles.v] ([ops/gitops.go], [handler]): a hub is a clone in the directory of
      its project; charts, predefined experiments and icons are read
      from it, remote hubs are downloaded and unpacked. [ChaosHubs.v]
      ([service.go], operators, resolvers): the requests, SSH keys and one round of
      each of the background loops. The disk, HTTP and YAML are parameters ([HubLibrary],
      [HubDisk], [HubConfig]); calls that change the disk are recorded with those
      of git.
    - [HubRequests.v]: hubs in the isolation of projects. [HubTheorems.v]: archives
      and requests stay in the directory of the project as long as hubs have names
      that name a directory; runs that show what other names, missing role checks
      and announced lengths do.

    ** Next to GraphQL ([graphql/server/server.go])

    - [ServerRoutes.v] ([pkg/handlers], [cluster_jwt.go], [api/middleware],
      [pkg/projects], [mongodb/config], [mongodb/init.go]): manifests by token, status
      and readiness, origins, the events of new projects, the version in the
      database, and the head of [main] with the collections and indexes ([start]).
    - [ServerTheorems.v]: which manifests a token shows, and that the route as it is
      wired shows none; a new project gets its image registry; the version is
      recorded once; a server that starts has the indexes of six collections, and
      can start without those of the others.

    ** The event tracker

    - [EventTracker.v] ([event-tracker/pkg/utils], [controllers]): policy conditions
      and their meaning, what [Reconcile] does to triggers. [Tracker.v]: the handlers
      of the informers, [PolicyAuditor], [SendRequest] and [Reconcile] as programs
      that stop at every call ([Prog]).
    - [TrackerTheorems.v]: the programs interleave at their calls with each other and
      with users, reads may be stale and calls fail; a logic of credits ([backed])
      shows that requests never exceed the triggers that became pending, by
      experiment. Without interference, what a change of a workload and a
      reconciliation do exactly, also where the data of the agent is missing or its
      infrastructure is not confirmed.

    ** Bounds and termination

    Every definition is total. Loops of the code are structural recursions on
    the list they range over; [TrimSpace] has the length of the text as fuel,
    which is enough because every round removes a byte; the retries of
    [Reconcile] count down from the four attempts of the client library, and its
    programs are finite trees; the
    check of components has its six rounds; the loop over the pages of
    namespaces counts the calls that fit before the deadline of its context,
    after which a call is an error, and one call per name is enough; the loops
    that form the groups of a round have one more than the number of
    configurations as fuel, proved to be enough. The
    score theorem assumes weightages that sum to at most 2^36, where the error
    of two roundings stays below the distance of two candidate means.
    Integers that the code computes with and that can leave 64 bits are wrapped
    ([int64]).

    ** What is not modelled

    HTTP, JSON and BSON encodings (handlers start from the decoded body, [None] when decoding
    fails), contexts and timeouts, logging and metrics. Requests
    are sequential in the theorems about the authentication service: two
    handlers that interleave between a check and its write are not covered
    there. The index on user names is part of the database, and accounts are only
    unique by name where it exists. The operations on documents of the GraphQL
    server assume that its unique indexes exist;
    [ServerTheorems.v] says which of them a server that starts is sure to have. [log.Fatal] is a
    [Panic], also inside a transaction, which is then not committed. A send on a
    channel is taken to complete except in [Channels.v]. Two requests of the
    GraphQL server interleave only where connections do ([Connections.v],
    [Channels.v]). Generated code, the web front
    end, the rest of the wiring of the main functions (environment, TLS, ports,
    metrics), the configuration of the clients of Kubernetes, and functions that
    nothing calls ([getWfRunDetails], [ParseProbesFromManifest], [RestCall] and
    others of [graphql/server/utils]) are not modelled. *)

From stdpp Require Export base tactics option list strings sets gmap relations.
From stdpp Require Export numbers list.
From Stdlib Require Export Lia.

(** Notations and lemmas of the development live in [chaos_scope]. *)
Declare Scope chaos_scope.
Delimit Scope chaos_scope with chaos.
Open Scope chaos_scope.

(** ** Results of Go calls

    A Go call that returns [(A, error)] either returns a value, returns an
    error, or panics (failed type assertion, slice bound out of range, nil
    dereference). *)
Inductive result (E A : Type) : Type :=
| Ok (a : A)
| Err (e : E)
| Panic.
Arguments Ok {E A} _.
Arguments Err {E A} _.
Arguments Panic {E A}.

Definition is_ok {E A} (r : result E A) : bool :=
  match r with Ok _ => true | _ => false end.

#[export] Instance result_eq_dec {E A} `{EqDecision E} `{EqDecision A} :
  EqDecision (result E A).
Proof. solve_decision. Defined.

(** The type of an outcome that can also stand for a panic. *)
Class HasPanic (B : Type) := panic : B.
#[export] Instance result_panic {E A} : HasPanic (result E A) := Panic.

(** ** State passing

    Code that reads or changes the world [W] (database contents, clock,
    random source) is a function from the world to a value and the next
    world. *)
Definition M (W A : Type) : Type := W → A * W.

#[export] Instance M_ret {W} : MRet (M W) := λ _ a w, (a, w).
#[export] Instance M_bind {W} : MBind (M W) := λ _ _ k m w, k (m w).1 (m w).2.
#[export] Instance M_fmap {W} : FMap (M W) := λ _ _ f m w, (f (m w).1, (m w).2).

(** Go's [x, err := m; if err != nil { h }; k]. A panic of [m] is a panic of
    the caller. *)
Definition on_err {W E A B} `{HasPanic B} (m : M W (result E A))
    (h : E → M W B) (k : A → M W B) : M W B :=
  r ← m;
  match r with
  | Ok a => k a
  | Err e => h e
  | Panic => mret panic
  end.

Notation "'let!' x := m 'or' e => h 'in' k" := (on_err m (λ e, h) (λ x, k))
  (at level 10, x binder, e binder, m at level 200, h at level 200, k at level 200,
   format "'[v' 'let!'  x  :=  m  'or'  e  =>  h  'in' '/' k ']'") : chaos_scope.

(** Go's [x, err := m; if err != nil { return err }; k]. *)
Notation "'let?' x := m 'in' k" := (on_err m (λ e, mret (Err e)) (λ x, k))
  (at level 10, x binder, m at level 200, k at level 200,
   format "'[v' 'let?'  x  :=  m  'in' '/' k ']'") : chaos_scope.

(** ** Weakest preconditions of state-passing code *)
Definition wp {W A} (m : M W A) (Q : A → W → Prop) (w : W) : Prop :=
  Q (m w).1 (m w).2.

Section wp.
Context {W : Type}.

Lemma wp_ret {A} (a : A) (Q : A → W → Prop) w : Q a w → wp (mret a) Q w.
Proof. done. Qed.

Lemma wp_bind {A B} (m : M W A) (k : A → M W B) Q w :
  wp m (λ a w', wp (k a) Q w') w → wp (m ≫= k) Q w.
Proof. done. Qed.

Lemma wp_mono {A} (m : M W A) (P Q : A → W → Prop) w :
  wp m P w → (∀ a w', P a w' → Q a w') → wp m Q w.
Proof. unfold wp; eauto. Qed.

(** Every run ends: what holds of all outcomes holds of this one. *)
Lemma wp_any {A} (m : M W A) (Q : A → W → Prop) w : (∀ a w', Q a w') → wp m Q w.
Proof. unfold wp; eauto. Qed.

Lemma wp_conj {A} (m : M W A) (P Q : A → W → Prop) w :
  wp m P w → wp m Q w → wp m (λ a w', P a w' ∧ Q a w') w.
Proof. unfold wp; eauto. Qed.

Lemma wp_on_err {E A B} `{HasPanic B} (m : M W (result E A)) h (k : A → M W B) Q w :
  wp m (λ r w', match r with
                | Ok a => wp (k a) Q w'
                | Err e => wp (h e) Q w'
                | Panic => Q panic w'
                end) w →
  wp (on_err m h k) Q w.
Proof.
  unfold wp, on_err, mbind, M_bind. by destruct (m w) as [[a|e|] w'].
Qed.

(** Any run gives a value and a world: a [wp] for every run is a fact about
    the concrete result of the run. *)
Lemma wp_run {A} (m : M W A) (Q : A → W → Prop) w a w' :
  wp m Q w → m w = (a, w') → Q a w'.
Proof. unfold wp. intros HQ E. by rewrite E in HQ. Qed.
End wp.

(** Specifications of operations are registered in [wp_spec]; [wp_use L]
    applies one of them. *)
Create HintDb wp_spec.

Tactic Notation "wp_use" uconstr(L) := eapply wp_mono; [eapply L|cbv beta].

(** One step of symbolic execution: returns, sequencing, tests. *)
Ltac wp_step :=
  lazymatch goal with
  | |- wp (mret _) _ _ => apply wp_ret
  | |- wp (on_err _ _ _) _ _ => apply wp_on_err
  | |- wp (_ ≫= _) _ _ => apply wp_bind
  | |- wp (if ?b then _ else _) _ _ => destruct b eqn:?
  | |- wp (match ?x with _ => _ end) _ _ => destruct x eqn:?
  | |- wp (let _ := _ in _) _ _ => cbv zeta
  | |- wp _ _ _ => eapply wp_mono; [solve [eauto 3 with wp_spec nocore]|cbv beta]
  end.

(** ** Lists and strings shared by the components *)

(** Membership test on string lists (Mongo's [$in], Go's loops that search). *)
Definition str_in (x : string) (l : list string) : bool := bool_decide (x ∈ l).

Lemma str_in_true x l : str_in x l = true ↔ x ∈ l.
Proof. apply bool_decide_eq_true. Qed.

Definition str_eq (x y : string) : bool := bool_decide (x = y).

Lemma str_eq_true x y : str_eq x y = true ↔ x = y.
Proof. apply bool_decide_eq_true. Qed.

Lemma str_eq_refl x : str_eq x x = true.
Proof. by apply str_eq_true. Qed.

Lemma str_eq_false x y : str_eq x y = false ↔ x ≠ y.
Proof. apply bool_decide_eq_false. Qed.

(** In a list without duplicate keys an element is determined by its key. *)
Lemma NoDup_key_inj {A K} (k : A → K) l x y :
  NoDup (k <$> l) → x ∈ l → y ∈ l → k x = k y → x = y.
Proof.
  intros HN [i Hi]%list_elem_of_lookup [j Hj]%list_elem_of_lookup Hk.
  assert (i = j) as ->; [|congruence].
  eapply NoDup_lookup; [done|by rewrite list_lookup_fmap, Hi|].
  by rewrite list_lookup_fmap, Hj, Hk.
Qed.

Lemma NoDup_sublist {A} (l l' : list A) : l' `sublist_of` l → NoDup l → NoDup l'.
Proof. intros. by eapply sublist_NoDup. Qed.

Lemma filter_sublist {A} (f : A → bool) l : List.filter f l `sublist_of` l.
Proof. induction l as [|x l IH]; cbn; [done|]. destruct (f x); by constructor. Qed.

Lemma fmap_sublist {A B} (f : A → B) l l' : l' `sublist_of` l → f <$> l' `sublist_of` f <$> l.
Proof. induction 1; cbn; by constructor. Qed.

Lemma elem_of_filterb {A} (f : A → bool) l x : x ∈ List.filter f l ↔ x ∈ l ∧ f x = true.
Proof. by rewrite !list_elem_of_In, filter_In. Qed.

Lemma Forall_sublist {A} (P : A → Prop) l l' : l' `sublist_of` l → Forall P l → Forall P l'.
Proof.
  induction 1; intros HF; [done| |]; apply Forall_cons in HF as [??];
    [constructor|]; auto.
Qed.

Lemma sublist_elem {A} (l l' : list A) x : l' `sublist_of` l → x ∈ l' → x ∈ l.
Proof. induction 1; set_solver. Qed.

Lemma filter_filterb {A} (f g : A → bool) l :
  List.filter g (List.filter f l) = List.filter (λ x, f x && g x) l.
Proof.
  induction l as [|x l IH]; cbn; [done|]. destruct (f x); cbn; [|done]. destruct (g x); by rewrite IH.
Qed.

Lemma filterb_perm {A} (f : A → bool) l l' : l ≡ₚ l' → List.filter f l ≡ₚ List.filter f l'.
Proof.
  induction 1 as [|x l l' ? IH|x y l|l1 l2 l3 _ IH1 _ IH2]; cbn; [done|..|by rewrite IH1].
  - destruct (f x); by rewrite IH.
  - destruct (f x), (f y); done || apply Permutation_swap.
Qed.

Lemma filterb_none {A} (f : A → bool) l : (∀ x, x ∈ l → f x = false) → List.filter f l = [].
Proof.
  intros Hl. induction l as [|y l IH]; cbn; [done|]. rewrite (Hl y) by set_solver. apply IH. set_solver.
Qed.
