(* ===== verification/World.v ===== *)
(** * World.v: the database and the other services the servers call

    The servers keep all their durable state in MongoDB collections, and read
    the clock and a random source. None of those is code of the repository:
    each is a parameter of the model, a typeclass whose laws state the
    documented behaviour the code relies on. *)
From S2P Require Import Prelude.

(** ** Go errors

    [AppError] are the package-level sentinels of
    [authentication/pkg/utils/errors.go]; [ErrNoDocuments] and
    [ErrDuplicateKey] are the two driver errors the code tests for;
    [ErrDriver] any other driver error; [ErrNew] an error made by
    [errors.New] or [fmt.Errorf]. *)
Inductive AppError : Type :=
| ErrInvalidCredentials
| ErrServerError
| ErrInvalidRequest
| ErrStrictPasswordPolicyViolation
| ErrStrictUsernamePolicyViolation
| ErrUnauthorized
| ErrUserExists
| ErrUserNotFound
| ErrProjectNotFound
| ErrWrongPassword
| ErrUpdatingAdmin
| ErrUserDeactivated
| ErrUserAlreadyDeactivated
| ErrEmptyProjectName
| ErrInvalidRole
| ErrInvalidEmail
| ErrPasswordNotUpdated
| ErrOldPassword.

#[export] Instance AppError_eq_dec : EqDecision AppError.
Proof. solve_decision. Defined.

Inductive error : Type :=
| ErrApp (e : AppError)
| ErrNoDocuments
| ErrDuplicateKey
| ErrDriver (code : Z)
| ErrNew (msg : string).

#[export] Instance error_eq_dec : EqDecision error.
Proof. solve_decision. Defined.

Abbreviation res := (result error).

(** ** The world

    [db] holds the collections of one server; [tick] counts the calls made so
    far to the outside, so that every call may behave differently. *)
Record World (DB : Type) : Type := mkWorld { db : DB; tick : nat }.
Arguments mkWorld {DB} _ _.
Arguments db {DB} _.
Arguments tick {DB} _.

(** A collection of documents [D] inside the database [DB]. *)
Class Collection (DB D : Type) := {
  docs : DB → list D;
  set_docs : list D → DB → DB;
  docs_set_docs l s : docs (set_docs l s) = l;
  set_docs_docs s : set_docs (docs s) s = s;
}.
(** The document type selects the collection. *)
#[export] Hint Mode Collection - ! : typeclass_instances.

(** ** MongoDB

    Each method gets the number of the call, the parameters of the query and
    the contents of the collection. Filters are translated to boolean
    functions and updates to functions on documents; [key] is the relation
    "violates a unique index" between a stored and a new document. *)
Class MongoDriver := {
  mongo_find_one {D} (n : nat) (q : D → bool) (l : list D) : res D;
  mongo_aggregate {D R} (n : nat) (p : list D → list R) (l : list D) : res (list R);
  mongo_insert_one {D} (key : D → D → bool) (n : nat) (d : D) (l : list D) : res unit * list D;
  mongo_update_one {D} (n : nat) (q : D → bool) (f : D → D) (l : list D) : res nat * list D;
  mongo_update_many {D} (n : nat) (q : D → bool) (f : D → D) (l : list D) : res unit * list D;
  mongo_delete_one {D} (n : nat) (q : D → bool) (l : list D) : res nat * list D;
}.

(** What a completed call did to the collection. *)
Definition inserted {D} (key : D → D → bool) (d : D) (l l' : list D) : Prop :=
  l' ≡ₚ d :: l ∧ Forall (λ d', key d' d = false) l.

Definition updated_one {D} (q : D → bool) (f : D → D) (l l' : list D) : Prop :=
  ∃ l1 d l2, l = l1 ++ d :: l2 ∧ q d = true ∧ l' = l1 ++ f d :: l2.

Definition deleted_one {D} (q : D → bool) (l l' : list D) : Prop :=
  ∃ l1 d l2, l = l1 ++ d :: l2 ∧ q d = true ∧ l' = l1 ++ l2.

Definition no_match {D} (q : D → bool) (l : list D) : Prop :=
  Forall (λ d, q d = false) l.

(** Every document is either untouched or, when it matches, updated: all of
    them when the call succeeds, an unknown part of them when it fails. *)
Definition updated_some {D} (q : D → bool) (f : D → D) (l l' : list D) : Prop :=
  Forall2 (λ d d', d' = d ∨ (q d = true ∧ d' = f d)) l l'.

(** The errors a driver call reports. *)
Definition driver_error (e : error) : Prop :=
  match e with ErrNoDocuments | ErrDuplicateKey | ErrDriver _ => True | _ => False end.

(** What a call guarantees, from its result. A query sees the documents in an
    unspecified order; a write that reports an error may or may not have been
    applied. *)
Definition find_one_post {D} (q : D → bool) (l : list D) (r : res D) : Prop :=
  match r with
  | Ok d => d ∈ l ∧ q d = true
  | Err e => driver_error e ∧ (e = ErrNoDocuments → no_match q l)
  | Panic => False
  end.

Definition aggregate_post {D R} (p : list D → list R) (l : list D) (r : res (list R)) : Prop :=
  match r with
  | Ok x => ∃ l', l' ≡ₚ l ∧ x = p l'
  | Err e => driver_error e ∧ e ≠ ErrNoDocuments
  | Panic => False
  end.

Definition insert_one_post {D} (key : D → D → bool) (d : D) (r : res unit) (l l' : list D) : Prop :=
  match r with
  | Ok _ => inserted key d l l'
  | Err e => driver_error e ∧ (l' = l ∨ inserted key d l l') ∧
             (e = ErrDuplicateKey → l' = l ∧ ∃ d', d' ∈ l ∧ key d' d = true)
  | Panic => False
  end.

Definition update_one_post {D} (q : D → bool) (f : D → D) (r : res nat) (l l' : list D) : Prop :=
  match r with
  | Ok c => (c = 0 ∧ l' = l ∧ no_match q l) ∨ (c = 1 ∧ updated_one q f l l')
  | Err e => driver_error e ∧ (l' = l ∨ updated_one q f l l')
  | Panic => False
  end.

Definition update_many_post {D} (q : D → bool) (f : D → D) (r : res unit) (l l' : list D) : Prop :=
  match r with
  | Ok _ => l' = (λ d, if q d then f d else d) <$> l
  | Err e => driver_error e ∧ updated_some q f l l'
  | Panic => False
  end.

Definition delete_one_post {D} (q : D → bool) (r : res nat) (l l' : list D) : Prop :=
  match r with
  | Ok c => (c = 0 ∧ l' = l ∧ no_match q l) ∨ (c = 1 ∧ deleted_one q l l')
  | Err e => driver_error e ∧ (l' = l ∨ deleted_one q l l')
  | Panic => False
  end.

(** The documented behaviour of the driver. *)
Class MongoLaws (drv : MongoDriver) : Prop := {
  find_one_law {D} n (q : D → bool) l : find_one_post q l (mongo_find_one n q l);
  aggregate_law {D R} n (p : list D → list R) l : aggregate_post p l (mongo_aggregate n p l);
  insert_one_law {D} key n (d : D) l :
    insert_one_post key d (mongo_insert_one key n d l).1 l (mongo_insert_one key n d l).2;
  update_one_law {D} n (q : D → bool) f l :
    update_one_post q f (mongo_update_one n q f l).1 l (mongo_update_one n q f l).2;
  update_many_law {D} n (q : D → bool) f l :
    update_many_post q f (mongo_update_many n q f l).1 l (mongo_update_many n q f l).2;
  delete_one_law {D} n (q : D → bool) l :
    delete_one_post q (mongo_delete_one n q l).1 l (mongo_delete_one n q l).2;
}.

(** Sessions and transactions: starting them may fail; a commit that reports an
    error may or may not have been applied, one that reports success was. *)
Class MongoTxn := {
  txn_start_session (n : nat) : res unit;
  txn_start (n : nat) : res unit;
  txn_commit (n : nat) : res unit * bool;
}.
Class MongoTxnLaws (tx : MongoTxn) : Prop := {
  start_session_law n : txn_start_session n ≠ Panic;
  start_law n : txn_start n ≠ Panic;
  commit_law n : match txn_commit n with
                 | (Ok _, applied) => applied = true
                 | (Err _, _) => True
                 | (Panic, _) => False
                 end;
}.

(** [session.AbortTransaction] *)
Class MongoAbort := txn_abort : nat → res unit.

(** The order in which Go visits the keys of a map: any order. *)
Class MapOrder := map_order : nat → list string → list string.
Class MapOrderLaws (mo : MapOrder) : Prop := map_order_perm : ∀ n l, map_order n l ≡ₚ l.

(** The clock ([time.Now], in milliseconds), the calendar ([Time.AddDate] with
    a number of days) and the random source ([uuid.NewRandom]). *)
Class Runtime := {
  clock : nat → Z;
  add_days (ms days : Z) : Z;
  fresh_uuid : nat → string;
}.

(** ** Calls of the code to the outside *)
Section calls.
Context {DB : Type} `{MongoDriver} `{Runtime}.

Definition bump (w : World DB) : World DB := mkWorld (db w) (S (tick w)).

(** [time.Now().UnixMilli()] *)
Definition now : M (World DB) Z := λ w, (clock (tick w), bump w).

(** [uuid.Must(uuid.NewRandom()).String()] *)
Definition NewUUID : M (World DB) string := λ w, (fresh_uuid (tick w), bump w).

Definition FindOne {D} `{Collection DB D} (q : D → bool) : M (World DB) (res D) :=
  λ w, (mongo_find_one (tick w) q (docs (db w)), bump w).

Definition Aggregate {D R} `{Collection DB D} (p : list D → list R) :
    M (World DB) (res (list R)) :=
  λ w, (mongo_aggregate (tick w) p (docs (db w)), bump w).

Definition Find {D} `{Collection DB D} (q : D → bool) : M (World DB) (res (list D)) :=
  Aggregate (List.filter q).

Definition write {D A} `{Collection DB D} (f : nat → list D → res A * list D) :
    M (World DB) (res A) :=
  λ w, let o := f (tick w) (docs (db w)) in
       (o.1, mkWorld (set_docs o.2 (db w)) (S (tick w))).

Definition InsertOne {D} `{Collection DB D} (key : D → D → bool) (d : D) :=
  write (λ n, mongo_insert_one key n d).
Definition UpdateOne {D} `{Collection DB D} (q : D → bool) (f : D → D) :=
  write (λ n, mongo_update_one n q f).
Definition UpdateMany {D} `{Collection DB D} (q : D → bool) (f : D → D) :=
  write (λ n, mongo_update_many n q f).
Definition DeleteOne {D} `{Collection DB D} (q : D → bool) :=
  write (λ n l, mongo_delete_one n q l).
End calls.

(** ** Specifications of the calls *)

(** The call changed one collection, as [R] says. *)
Definition changed {DB D} `{Collection DB D} (R : list D → list D → Prop)
    (w w' : World DB) : Prop :=
  ∃ l', db w' = set_docs l' (db w) ∧ R (docs (db w)) l'.

Section specs.
Context {DB : Type} {drv : MongoDriver} {laws : MongoLaws drv} {rt : Runtime}.
Implicit Types w : World DB.

Lemma wp_now w : wp now (λ t w', db w' = db w) w.
Proof. done. Qed.

Lemma wp_NewUUID w : wp NewUUID (λ u w', db w' = db w) w.
Proof. done. Qed.

Lemma wp_FindOne `{Collection DB D} (q : D → bool) w :
  wp (FindOne q) (λ r w', db w' = db w ∧ find_one_post q (docs (db w)) r) w.
Proof. split; [done|]. apply find_one_law. Qed.

Lemma wp_Aggregate `{Collection DB D} {R} (p : list D → list R) w :
  wp (Aggregate p) (λ r w', db w' = db w ∧ aggregate_post p (docs (db w)) r) w.
Proof. split; [done|]. apply aggregate_law. Qed.

Lemma wp_Find `{Collection DB D} (q : D → bool) w :
  wp (Find q) (λ r w', db w' = db w ∧ aggregate_post (List.filter q) (docs (db w)) r) w.
Proof. apply wp_Aggregate. Qed.

Lemma wp_InsertOne `{Collection DB D} key (d : D) w :
  wp (InsertOne key d) (λ r w', changed (insert_one_post key d r) w w') w.
Proof. eexists. split; [done|]. apply insert_one_law. Qed.

Lemma wp_UpdateOne `{Collection DB D} (q : D → bool) f w :
  wp (UpdateOne q f) (λ r w', changed (update_one_post q f r) w w') w.
Proof. eexists. split; [done|]. apply update_one_law. Qed.

Lemma wp_UpdateMany `{Collection DB D} (q : D → bool) f w :
  wp (UpdateMany q f) (λ r w', changed (update_many_post q f r) w w') w.
Proof. eexists. split; [done|]. apply update_many_law. Qed.

Lemma wp_DeleteOne `{Collection DB D} (q : D → bool) w :
  wp (DeleteOne q) (λ r w', changed (delete_one_post q r) w w') w.
Proof. eexists. split; [done|]. apply delete_one_law. Qed.
End specs.

#[export] Hint Resolve wp_now wp_NewUUID wp_FindOne wp_Aggregate wp_Find wp_InsertOne
  wp_UpdateOne wp_UpdateMany wp_DeleteOne : wp_spec.

(** ** Consequences used by the components *)
Section posts.
Context {D : Type}.
Implicit Types (l : list D) (q : D → bool) (f : D → D).

Lemma updated_some_refl q f l : updated_some q f l l.
Proof. apply Forall_Forall2_diag, Forall_true. auto. Qed.

Lemma updated_one_some q f l l' : updated_one q f l l' → updated_some q f l l'.
Proof.
  intros (l1 & d & l2 & -> & Hq & ->). unfold updated_some.
  apply Forall2_app; [|constructor; [auto|]]; apply updated_some_refl.
Qed.

Lemma updated_all_some q f l : updated_some q f l ((λ d, if q d then f d else d) <$> l).
Proof.
  unfold updated_some. apply Forall2_fmap_r, Forall_Forall2_diag, Forall_true.
  intros d. cbn. destruct (q d); auto.
Qed.

(** Whatever an update reports, it changed matching documents only. *)
Lemma update_one_some q f r l l' : update_one_post q f r l l' → updated_some q f l l'.
Proof.
  destruct r as [c|e|]; cbn; [| |done].
  - intros [(_ & -> & _)|[_ ?]]; eauto using updated_some_refl, updated_one_some.
  - intros [_ [->|?]]; eauto using updated_some_refl, updated_one_some.
Qed.

Lemma update_many_some q f r l l' : update_many_post q f r l l' → updated_some q f l l'.
Proof. destruct r; cbn; [intros ->; apply updated_all_some|by intros []|done]. Qed.

Lemma updated_some_Forall (P : D → Prop) q f l l' :
  updated_some q f l l' → (∀ d, d ∈ l → P d → q d = true → P (f d)) → Forall P l → Forall P l'.
Proof.
  intros HU. induction HU as [|d d' ?? [->|[? ->]] ? IH]; intros HP ?; [done| |];
    decompose_Forall_hyps; constructor; [done| |apply HP; set_solver|];
    apply IH; set_solver.
Qed.

Lemma updated_some_keys {K} (k : D → K) q f l l' :
  updated_some q f l l' → (∀ d, k (f d) = k d) → k <$> l' = k <$> l.
Proof.
  intros HU Hk. induction HU as [|d d' ?? [->|[? ->]] ? IH]; cbn; [done| |];
    by rewrite ?Hk, IH.
Qed.

(** Each new document comes from an old one. *)
Lemma updated_some_elem q f l l' d' :
  updated_some q f l l' → d' ∈ l' → ∃ d, d ∈ l ∧ (d' = d ∨ (q d = true ∧ d' = f d)).
Proof.
  intros HU. induction HU as [|x x' ?? Hx ? IH]; [by intros ?%elem_of_nil|].
  intros [->|Hin]%elem_of_cons; [set_solver|].
  destruct (IH Hin) as (y & ? & ?). exists y. set_solver.
Qed.

Lemma insert_one_elem key (d : D) r l l' d' :
  insert_one_post key d r l l' → d' ∈ l' → d' ∈ l ∨ d' = d.
Proof.
  assert (inserted key d l l' → d' ∈ l' → d' ∈ l ∨ d' = d) as Hins.
  { intros [-> _]. set_solver. }
  destruct r as [?|?|]; cbn; naive_solver.
Qed.

Lemma insert_one_Forall (P : D → Prop) key d r l l' :
  insert_one_post key d r l l' → P d → Forall P l → Forall P l'.
Proof.
  intros HI Hd. rewrite !Forall_forall. intros HF x Hx.
  destruct (insert_one_elem _ _ _ _ _ _ HI Hx) as [?| ->]; auto.
Qed.

Lemma insert_one_keys {K} (k : D → K) key d r l l' :
  insert_one_post key d r l l' → (∀ x, key x d = false → k x ≠ k d) →
  NoDup (k <$> l) → NoDup (k <$> l').
Proof.
  intros HI Hk HN.
  assert (inserted key d l l' → NoDup (k <$> l')) as Hins.
  { intros [-> HF]. cbn. apply NoDup_cons. split; [|done].
    intros (x & Hx & Hin)%list_elem_of_fmap. rewrite Forall_forall in HF.
    by apply (Hk x); [apply HF|]. }
  destruct r as [?|?|]; cbn in HI; naive_solver.
Qed.

Lemma deleted_sublist q l l' : deleted_one q l l' → l' `sublist_of` l.
Proof.
  intros (l1 & d & l2 & -> & _ & ->). apply sublist_app; [done|]. by constructor.
Qed.

Lemma delete_one_sublist q r l l' : delete_one_post q r l l' → l' `sublist_of` l.
Proof. destruct r as [?|?|]; cbn; naive_solver eauto using deleted_sublist. Qed.
End posts.

(** ** Collections and indexes

    What the servers set up when they start. An index has its fields, may be
    unique, may be limited to the documents with a field of a value, and may remove
    documents some seconds after the time in its field. *)
Record IndexModel : Type := mkIndexModel {
  im_Keys : list string; im_Unique : bool; im_Partial : option (string * bool); im_ExpireAfterSeconds : option Z
}.
#[export] Instance IndexModel_eq_dec : EqDecision IndexModel.
Proof. solve_decision. Defined.

(** Commands that create collections and indexes, and [mongo.Connect]: each may
    fail, and one that reports an error may have been applied. *)
Class IndexAdmin := {
  admin_error : nat → option error;
  admin_applied : nat → bool;
  mongo_open (n : nat) (url user password : string) : res unit;
}.
Definition admin_call `{IndexAdmin} (n : nat) : res unit := match admin_error n with Some e => Err e | None => Ok tt end.

(** The database server as the set-up of the GraphQL server sees it: [mongo.Connect] and [Ping],
    [CreateCollection] and [Indexes().CreateMany]. *)
Class Catalog (C : Type) := {
  mongo_connect (url user password : string) : M C (res unit);
  mongo_ping : M C (res unit);
  create_collection (name : string) : M C (res unit);
  create_indexes (name : string) (indexes : list IndexModel) : M C (res unit);
  indexes_of : C → string → list IndexModel;
}.
(** No index is lost, and indexes whose creation succeeds are there. *)
Definition keeps_indexes `{Catalog C} (c c' : C) : Prop :=
  ∀ name, indexes_of c name ⊆ indexes_of c' name.
Class CatalogLaws `{Catalog C} : Prop := {
  connect_keeps url user password c : wp (mongo_connect url user password) (λ r c', r ≠ Panic ∧ keeps_indexes c c') c;
  ping_keeps c : wp mongo_ping (λ r c', r ≠ Panic ∧ keeps_indexes c c') c;
  create_collection_keeps name c : wp (create_collection name) (λ r c', r ≠ Panic ∧ keeps_indexes c c') c;
  create_indexes_law name indexes c :
    wp (create_indexes name indexes) (λ r c', r ≠ Panic ∧ keeps_indexes c c' ∧ (r = Ok tt → indexes ⊆ indexes_of c' name)) c;
}.
#[export] Instance keeps_indexes_preorder `{Catalog C} : PreOrder keeps_indexes.
Proof. split; [by intros c name|]. intros c1 c2 c3 H1 H2 name. specialize (H1 name). specialize (H2 name). set_solver. Qed.
