(* ===== verification/MemMongo.v ===== *)
(** * MemMongo.v: an in-memory MongoDB with a fault schedule

    An executable instance of the driver interface of [World.v]. The schedule
    says, for every call, whether it fails and, if it is a write, whether it
    was applied before the failure was reported. The instance satisfies every
    law, so the theorems proved from the laws apply to it, and it is what the
    concrete runs of the development evaluate. *)
From S2P Require Import Prelude World.

Section mem.
Context (fault : nat → option (Z * bool)).

Fixpoint mem_first {D} (q : D → bool) (l : list D) : option D :=
  match l with
  | [] => None
  | d :: l => if q d then Some d else mem_first q l
  end.

Fixpoint mem_update {D} (q : D → bool) (f : D → D) (l : list D) : nat * list D :=
  match l with
  | [] => (0, [])
  | d :: l => if q d then (1, f d :: l)
              else let o := mem_update q f l in (o.1, d :: o.2)
  end.

Fixpoint mem_delete {D} (q : D → bool) (l : list D) : nat * list D :=
  match l with
  | [] => (0, [])
  | d :: l => if q d then (1, l) else let o := mem_delete q l in (o.1, d :: o.2)
  end.

(** The outcome of a write whose fault-free result is [(r, l')]. *)
Definition mem_faulty {A D} (n : nat) (l : list D) (o : res A * list D) : res A * list D :=
  match fault n with
  | None => o
  | Some (c, applied) => (Err (ErrDriver c), if applied then o.2 else l)
  end.

#[export] Instance mem_driver : MongoDriver := {|
  mongo_find_one D n q l :=
    match fault n with
    | Some (c, _) => Err (ErrDriver c)
    | None => match mem_first q l with Some d => Ok d | None => Err ErrNoDocuments end
    end;
  mongo_aggregate D R n p l :=
    match fault n with Some (c, _) => Err (ErrDriver c) | None => Ok (p l) end;
  mongo_insert_one D key n d l :=
    if existsb (λ d', key d' d) l then (Err ErrDuplicateKey, l)
    else mem_faulty n l (Ok tt, l ++ [d]);
  mongo_update_one D n q f l :=
    mem_faulty n l (let o := mem_update q f l in (Ok o.1, o.2));
  mongo_update_many D n q f l :=
    mem_faulty n l (Ok tt, (λ d, if q d then f d else d) <$> l);
  mongo_delete_one D n q l :=
    mem_faulty n l (let o := mem_delete q l in (Ok o.1, o.2));
|}.

Lemma mem_first_spec {D} (q : D → bool) l :
  match mem_first q l with
  | Some d => d ∈ l ∧ q d = true
  | None => no_match q l
  end.
Proof.
  induction l as [|d l IH]; cbn; [constructor|].
  destruct (q d) eqn:Hq; [set_solver|].
  destruct (mem_first q l); [set_solver|by constructor].
Qed.

Lemma mem_update_spec {D} (q : D → bool) f l :
  let o := mem_update q f l in
  (o.1 = 0 ∧ o.2 = l ∧ no_match q l) ∨ (o.1 = 1 ∧ updated_one q f l o.2).
Proof.
  induction l as [|d l IH]; cbn; [by left; repeat constructor|].
  destruct (q d) eqn:Hq; cbn; [right; split; [done|by exists [], d, l]|].
  destruct IH as [(-> & -> & ?)|[-> (l1 & x & l2 & -> & ? & ->)]].
  - left. repeat split. by constructor.
  - right. split; [done|]. by exists (d :: l1), x, l2.
Qed.

Lemma mem_delete_spec {D} (q : D → bool) l :
  let o := mem_delete q l in
  (o.1 = 0 ∧ o.2 = l ∧ no_match q l) ∨ (o.1 = 1 ∧ deleted_one q l o.2).
Proof.
  induction l as [|d l IH]; cbn; [by left; repeat constructor|].
  destruct (q d) eqn:Hq; cbn; [right; split; [done|by exists [], d, l]|].
  destruct IH as [(-> & -> & ?)|[-> (l1 & x & l2 & -> & ? & ->)]].
  - left. repeat split. by constructor.
  - right. split; [done|]. by exists (d :: l1), x, l2.
Qed.

(** The in-memory driver has the documented behaviour, whatever the fault
    schedule. *)
#[export] Instance mem_laws : MongoLaws mem_driver.
Proof.
  split; cbn; intros; unfold mem_faulty.
  - destruct (fault n) as [[]|]; [done|].
    pose proof (mem_first_spec q l). by destruct (mem_first q l).
  - destruct (fault n) as [[]|]; cbn; eauto.
  - destruct (existsb _ _) eqn:Hex; cbn.
    { apply existsb_exists in Hex as (d' & ?%list_elem_of_In & ?). eauto 10. }
    assert (inserted key d l (l ++ [d])).
    { split; [by rewrite (comm (++))|]. apply Forall_forall. intros x Hx%list_elem_of_In.
      apply not_true_is_false. intros Hk.
      enough (existsb (λ d', key d' d) l = true) by congruence.
      apply existsb_exists. eauto. }
    destruct (fault n) as [[? []]|]; cbn; naive_solver.
  - pose proof (mem_update_spec q f l) as Hu. destruct (mem_update q f l) as [c l'].
    cbn in *. destruct (fault n) as [[? []]|]; cbn; naive_solver.
  - destruct (fault n) as [[? []]|]; cbn;
      [split; [done|apply updated_all_some]|split; [done|apply updated_some_refl]|done].
  - pose proof (mem_delete_spec q l) as Hu. destruct (mem_delete q l) as [c l'].
    cbn in *. destruct (fault n) as [[? []]|]; cbn; naive_solver.
Qed.
End mem.
