(* ===== verification/AuthEntities.v ===== *)
(** * AuthEntities.v: the data of the authentication service

    The structs of [authentication/pkg/entities], the error tables of
    [pkg/utils/errors.go], the database of the service and the responses its
    handlers write. *)
From S2P Require Import Prelude World.
Local Open Scope string_scope.
Local Open Scope Z_scope.

(** ** Roles and invitations: Go string types with named constants *)
Abbreviation MemberRole := string (only parsing).
Definition RoleOwner : MemberRole := "Owner".
Definition RoleEditor : MemberRole := "Editor".
Definition RoleExecutor : MemberRole := "Executor".
Definition RoleViewer : MemberRole := "Viewer".

Abbreviation Invitation := string (only parsing).
Definition PendingInvitation : Invitation := "Pending".
Definition AcceptedInvitation : Invitation := "Accepted".
Definition DeclinedInvitation : Invitation := "Declined".
Definition ExitedProject : Invitation := "Exited".

Abbreviation Role := string (only parsing).
Definition RoleAdmin : Role := "admin".
Definition RoleUser : Role := "user".

(** [entities.State] *)
Definition StateAccepted : string := "accepted".
Definition StateNotAccepted : string := "not_accepted".
Definition StateAll : string := "all".

(** ** Structs *)
Record UserDetailResponse : Type := mkUserDetail {
  ud_UserID : string; ud_Username : string; ud_Email : string
}.
Definition no_detail : UserDetailResponse := mkUserDetail "" "" "".

Record Audit : Type := mkAudit {
  a_UpdatedAt : Z; a_CreatedAt : Z;
  a_CreatedBy : UserDetailResponse; a_UpdatedBy : UserDetailResponse;
  a_IsRemoved : bool
}.
Definition no_audit : Audit := mkAudit 0 0 no_detail no_detail false.

Record Member : Type := mkMember {
  m_UserID : string; m_Username : string; m_Email : string; m_Name : string;
  m_Role : MemberRole; m_Invitation : Invitation;
  m_JoinedAt : Z; m_DeactivatedAt : option Z
}.
Definition no_member : Member := mkMember "" "" "" "" "" "" 0 None.

Record Project : Type := mkProject {
  p_Audit : Audit; p_ID : string; p_Name : string; p_Members : list Member;
  p_State : option string; p_Tags : list string; p_Description : option string
}.

Record User : Type := mkUser {
  u_Audit : Audit; u_ID : string; u_Username : string; u_Password : string;
  u_Salt : string; u_Email : string; u_Name : string; u_Role : Role;
  u_DeactivatedAt : option Z; u_IsInitialLogin : bool
}.

Record RevokedToken : Type := mkRevokedToken {
  rt_Token : string; rt_ExpiresAt : Z; rt_CreatedAt : Z
}.

Record ApiToken : Type := mkApiToken {
  at_UserID : string; at_Name : string; at_Token : string;
  at_ExpiresAt : Z; at_CreatedAt : Z
}.

Record AuthConfig : Type := mkAuthConfig { ac_Key : string; ac_Value : string }.

(** *** Request bodies *)
Record CreateProjectInput : Type := mkCreateProjectInput {
  cp_ProjectName : string; cp_Description : option string; cp_Tags : option (list string)
}.
Record ProjectInput : Type := mkProjectInput { pi_ProjectID : string; pi_ProjectName : string }.
Record MemberInput : Type := mkMemberInput {
  mi_ProjectID : string; mi_UserID : string; mi_Role : option MemberRole
}.
Record UserPassword : Type := mkUserPassword {
  up_Username : string; up_OldPassword : string; up_NewPassword : string
}.
Record UserDetails : Type := mkUserDetails { det_ID : string; det_Email : string; det_Name : string }.
Record UpdateUserStateInput : Type := mkUpdateUserState {
  us_Username : string; us_IsDeactivate : option bool
}.
Record ApiTokenInput : Type := mkApiTokenInput {
  ati_UserID : string; ati_Name : string; ati_DaysUntilExpiration : Z
}.
Record DeleteApiTokenInput : Type := mkDeleteApiToken { dat_Token : string; dat_UserID : string }.

(** *** Field updates of the [$set] documents *)
Definition set_invitation (i : Invitation) (m : Member) : Member :=
  mkMember (m_UserID m) (m_Username m) (m_Email m) (m_Name m) (m_Role m) i
    (m_JoinedAt m) (m_DeactivatedAt m).
Definition set_role (r : MemberRole) (m : Member) : Member :=
  mkMember (m_UserID m) (m_Username m) (m_Email m) (m_Name m) r (m_Invitation m)
    (m_JoinedAt m) (m_DeactivatedAt m).
Definition set_joined_at (t : Z) (m : Member) : Member :=
  mkMember (m_UserID m) (m_Username m) (m_Email m) (m_Name m) (m_Role m) (m_Invitation m)
    t (m_DeactivatedAt m).
Definition set_member_deactivated (t : option Z) (m : Member) : Member :=
  mkMember (m_UserID m) (m_Username m) (m_Email m) (m_Name m) (m_Role m) (m_Invitation m)
    (m_JoinedAt m) t.

Definition set_removed (b : bool) (a : Audit) : Audit :=
  mkAudit (a_UpdatedAt a) (a_CreatedAt a) (a_CreatedBy a) (a_UpdatedBy a) b.

Definition set_members (ms : list Member) (p : Project) : Project :=
  mkProject (p_Audit p) (p_ID p) (p_Name p) ms (p_State p) (p_Tags p) (p_Description p).
Definition set_name (n : string) (p : Project) : Project :=
  mkProject (p_Audit p) (p_ID p) n (p_Members p) (p_State p) (p_Tags p) (p_Description p).
Definition set_project_removed (b : bool) (p : Project) : Project :=
  mkProject (set_removed b (p_Audit p)) (p_ID p) (p_Name p) (p_Members p) (p_State p)
    (p_Tags p) (p_Description p).

Definition set_password (h : string) (u : User) : User :=
  mkUser (u_Audit u) (u_ID u) (u_Username u) h (u_Salt u) (u_Email u) (u_Name u) (u_Role u)
    (u_DeactivatedAt u) (u_IsInitialLogin u).
Definition set_initial_login (b : bool) (u : User) : User :=
  mkUser (u_Audit u) (u_ID u) (u_Username u) (u_Password u) (u_Salt u) (u_Email u) (u_Name u)
    (u_Role u) (u_DeactivatedAt u) b.
Definition set_user_state (t : option Z) (b : bool) (u : User) : User :=
  mkUser (set_removed b (u_Audit u)) (u_ID u) (u_Username u) (u_Password u) (u_Salt u)
    (u_Email u) (u_Name u) (u_Role u) t (u_IsInitialLogin u).
Definition set_email_name (email name : string) (u : User) : User :=
  mkUser (u_Audit u) (u_ID u) (u_Username u) (u_Password u) (u_Salt u) email name
    (u_Role u) (u_DeactivatedAt u) (u_IsInitialLogin u).

(** [User.SanitizedUser] *)
Definition SanitizedUser (u : User) : User := set_password "" u.

(** [Member.GetMemberOutput] and [Project.GetProjectOutput]. The audit block
    of the output takes [CreatedBy] from [UpdatedBy], as the code does. *)
Definition GetMemberOutput (m : Member) : Member :=
  mkMember (m_UserID m) "" "" "" (m_Role m) (m_Invitation m) (m_JoinedAt m) None.

Definition GetProjectOutput (p : Project) : Project :=
  mkProject
    (mkAudit (a_UpdatedAt (p_Audit p)) (a_CreatedAt (p_Audit p)) (a_UpdatedBy (p_Audit p))
       (a_UpdatedBy (p_Audit p)) (a_IsRemoved (p_Audit p)))
    (p_ID p) (p_Name p) (GetMemberOutput <$> p_Members p) (p_State p) [] None.

(** ** The error tables *)
Definition AppErrorStatus (e : AppError) : Z :=
  match e with
  | ErrInvalidRequest => 400
  | ErrInvalidCredentials => 401
  | ErrServerError => 500
  | ErrUnauthorized => 401
  | ErrUserExists => 401
  | ErrStrictPasswordPolicyViolation => 401
  | ErrStrictUsernamePolicyViolation => 401
  | ErrUserNotFound => 400
  | ErrProjectNotFound => 400
  | ErrUpdatingAdmin => 400
  | ErrUserDeactivated => 400
  | ErrUserAlreadyDeactivated => 400
  | ErrEmptyProjectName => 400
  | ErrInvalidRole => 400
  | ErrInvalidEmail => 400
  | ErrPasswordNotUpdated => 401
  | ErrOldPassword => 400
  | ErrWrongPassword => 0 (* no entry in the map: Go's zero value *)
  end.

(** [ErrorStatusCodes[err]]: a key that is no [AppError] gives 0. *)
Definition ErrorStatusCodes (e : error) : Z :=
  match e with ErrApp a => AppErrorStatus a | _ => 0 end.

(** ** The database of the service *)
Record AuthDB : Type := mkAuthDB {
  users : list User; projects : list Project; revoked_tokens : list RevokedToken;
  api_tokens : list ApiToken; auth_configs : list AuthConfig;
  auth_indexes : list (string * IndexModel) (* by collection *)
}.

#[export, refine] Instance users_collection : Collection AuthDB User := {|
  docs := users;
  set_docs l s := mkAuthDB l (projects s) (revoked_tokens s) (api_tokens s) (auth_configs s) (auth_indexes s)
|}.
Proof. all: by try intros []. Defined.
#[export, refine] Instance projects_collection : Collection AuthDB Project := {|
  docs := projects;
  set_docs l s := mkAuthDB (users s) l (revoked_tokens s) (api_tokens s) (auth_configs s) (auth_indexes s)
|}.
Proof. all: by try intros []. Defined.
#[export, refine] Instance revoked_collection : Collection AuthDB RevokedToken := {|
  docs := revoked_tokens;
  set_docs l s := mkAuthDB (users s) (projects s) l (api_tokens s) (auth_configs s) (auth_indexes s)
|}.
Proof. all: by try intros []. Defined.
#[export, refine] Instance api_collection : Collection AuthDB ApiToken := {|
  docs := api_tokens;
  set_docs l s := mkAuthDB (users s) (projects s) (revoked_tokens s) l (auth_configs s) (auth_indexes s)
|}.
Proof. all: by try intros []. Defined.
#[export, refine] Instance config_collection : Collection AuthDB AuthConfig := {|
  docs := auth_configs;
  set_docs l s := mkAuthDB (users s) (projects s) (revoked_tokens s) (api_tokens s) l (auth_indexes s)
|}.
Proof. all: by try intros []. Defined.

(** The unique index on user names, which exists if the set-up made it. *)
Definition username_index : IndexModel := mkIndexModel ["username"] true None None.
Definition names_indexed (s : AuthDB) : bool := bool_decide (("users", username_index) ∈ auth_indexes s).

Abbreviation AuthWorld := (World AuthDB).
Abbreviation AuthM := (M (World AuthDB)).
