(* ===== verification/GoStd.v ===== *)
(** * GoStd.v: what the code uses of Go's standard library

    Bytes and character classes, [strings.TrimSpace], [encoding/base64],
    [strconv.ParseBool], [strconv.Atoi] and 64-bit integer arithmetic. Go
    strings are byte strings, as [string] is. *)
From S2P Require Import Prelude.
From stdpp Require Import pretty.
From Stdlib Require Import Ascii.
Local Open Scope Z_scope.

(** ** Bytes *)
Definition code (c : ascii) : Z := Z.of_N (N_of_ascii c).
Definition char (z : Z) : ascii := ascii_of_N (Z.to_N z).

Definition in_range (lo hi : Z) (c : ascii) : bool :=
  bool_decide (lo ≤ code c) && bool_decide (code c ≤ hi).

Definition is_digit : ascii → bool := in_range 48 57.
Definition is_lower : ascii → bool := in_range 97 122.
Definition is_upper : ascii → bool := in_range 65 90.
Definition is_alnum (c : ascii) : bool := is_lower c || is_upper c || is_digit c.

(** The bytes of a string, and back. *)
Fixpoint chars (s : string) : list ascii :=
  match s with
  | EmptyString => []
  | String c s => c :: chars s
  end.
Fixpoint of_chars (l : list ascii) : string :=
  match l with
  | [] => EmptyString
  | c :: l => String c (of_chars l)
  end.

Lemma of_chars_chars s : of_chars (chars s) = s.
Proof. induction s; by simpl; f_equal. Qed.
Lemma chars_of_chars l : chars (of_chars l) = l.
Proof. induction l; by simpl; f_equal. Qed.
Lemma chars_app s t : chars (s +:+ t) = chars s ++ chars t.
Proof.
  induction s as [|c s IH]; [done|]. change (c :: chars (s +:+ t) = c :: chars s ++ chars t). by rewrite IH.
Qed.
Lemma length_chars s : length (chars s) = String.length s.
Proof. induction s; by simpl; f_equal. Qed.

Lemma code_bound c : 0 ≤ code c < 256.
Proof. unfold code. pose proof (N_ascii_bounded c). lia. Qed.
Lemma char_code c : char (code c) = c.
Proof. unfold char, code. by rewrite N2Z.id, ascii_N_embedding. Qed.
Lemma code_char z : 0 ≤ z < 256 → code (char z) = z.
Proof.
  intros. unfold char, code. rewrite N_ascii_embedding by lia. lia.
Qed.

(** A statement about every byte is checked on the 256 of them. *)
Definition all_chars : list ascii := char ∘ Z.of_nat <$> seq 0 256.

Lemma forall_chars (P : ascii → bool) : forallb P all_chars = true → ∀ c, P c = true.
Proof.
  intros HP c. rewrite forallb_forall in HP. apply HP, list_elem_of_In.
  apply list_elem_of_fmap. exists (Z.to_nat (code c)). pose proof (code_bound c). split.
  - unfold compose. by rewrite Z2Nat.id, char_code by lia.
  - apply elem_of_seq. lia.
Qed.

(** ** [strings.TrimSpace]

    The encodings of the characters that [unicode.IsSpace] accepts. *)
Definition bytes (l : list Z) : list ascii := char <$> l.
Definition space_encodings : list (list ascii) :=
  bytes <$>
  ([[9]; [10]; [11]; [12]; [13]; [32]; [194; 133]; [194; 160]; [225; 154; 128]] ++
   ((λ k, [226; 128; 128 + Z.of_nat k]) <$> seq 0 11) ++
   [[226; 128; 168]; [226; 128; 169]; [226; 128; 175]; [226; 129; 159]; [227; 128; 128]]).

Fixpoint strip_prefix (p l : list ascii) : option (list ascii) :=
  match p, l with
  | [], _ => Some l
  | a :: p, b :: l => if bool_decide (a = b) then strip_prefix p l else None
  | _ :: _, [] => None
  end.

Fixpoint strip_any (ps : list (list ascii)) (l : list ascii) : option (list ascii) :=
  match ps with
  | [] => None
  | p :: ps => match strip_prefix p l with Some l' => Some l' | None => strip_any ps l end
  end.

Fixpoint trim_with (fuel : nat) (ps : list (list ascii)) (l : list ascii) : list ascii :=
  match fuel with
  | O => l
  | S fuel => match strip_any ps l with Some l' => trim_with fuel ps l' | None => l end
  end.

Definition trim_left (l : list ascii) : list ascii := trim_with (length l) space_encodings l.
Definition trim_right (l : list ascii) : list ascii :=
  reverse (trim_with (length l) (reverse <$> space_encodings) (reverse l)).

Definition TrimSpace (s : string) : string := of_chars (trim_right (trim_left (chars s))).

Lemma strip_prefix_app p l l' : strip_prefix p l = Some l' ↔ l = p ++ l'.
Proof.
  revert l. induction p as [|a p IH]; intros l; cbn; [naive_solver|].
  destruct l as [|b l]; [naive_solver|]. case_bool_decide; [|naive_solver].
  rewrite IH. naive_solver.
Qed.

Lemma strip_any_Some ps l l' : strip_any ps l = Some l' → ∃ p, p ∈ ps ∧ l = p ++ l'.
Proof.
  induction ps as [|p ps IH]; cbn; [done|].
  destruct (strip_prefix p l) eqn:Hp.
  - intros [= ->]. apply strip_prefix_app in Hp. set_solver.
  - intros (p' & ? & ?)%IH. set_solver.
Qed.

Lemma strip_any_None ps l : strip_any ps l = None ↔ ∀ p, p ∈ ps → ¬ p `prefix_of` l.
Proof.
  induction ps as [|p ps IH]; cbn; [set_solver|].
  destruct (strip_prefix p l) as [l'|] eqn:Hp.
  - split; [done|]. intros Hn. destruct (Hn p); [set_solver|].
    exists l'. by apply strip_prefix_app.
  - rewrite IH. split; [|set_solver].
    intros Hn p' [->|?]%elem_of_cons [l' Hl]; [|by eapply Hn; [|exists l']].
    by apply strip_prefix_app in Hl; congruence.
Qed.

Lemma trim_with_end fuel ps l :
  (length l ≤ fuel)%nat → (∀ p, p ∈ ps → p ≠ []) → strip_any ps (trim_with fuel ps l) = None.
Proof.
  revert l. induction fuel as [|fuel IH]; intros l Hl Hne; cbn.
  - assert (l = []) as -> by (destruct l; cbn in *; [done|lia]).
    apply strip_any_None. intros p Hp [k Hk].
    by destruct p; [apply (Hne []) in Hp|].
  - destruct (strip_any ps l) as [l'|] eqn:Hs; [|done].
    apply IH; [|done]. apply strip_any_Some in Hs as (p & Hp & ->).
    rewrite length_app in Hl. specialize (Hne p Hp). destruct p; [done|]. cbn in Hl. lia.
Qed.

Lemma trim_with_id fuel ps l : strip_any ps l = None → trim_with fuel ps l = l.
Proof. intros Hs. destruct fuel; cbn; [done|]. by rewrite Hs. Qed.

(** A string of printable non-space ASCII bytes is its own trimmed form. *)
Definition is_graph : ascii → bool := in_range 33 126.

Lemma space_not_graph p : p ∈ space_encodings → existsb (negb ∘ is_graph) p = true.
Proof.
  revert p. apply Forall_forall.
  assert (forallb (λ p, existsb (negb ∘ is_graph) p) space_encodings = true) as H
    by (vm_compute; reflexivity).
  rewrite forallb_forall in H. apply Forall_forall. intros p Hp. by apply H, list_elem_of_In.
Qed.

Lemma graph_no_space ps l :
  (∀ p, p ∈ ps → existsb (negb ∘ is_graph) p = true) →
  forallb is_graph l = true → strip_any ps l = None.
Proof.
  intros Hps Hl. apply strip_any_None. intros p Hp [k ->].
  apply Hps, existsb_exists in Hp as (c & Hc & Hn). rewrite forallb_forall in Hl.
  unfold compose in Hn. by rewrite Hl in Hn by (apply in_app_iff; auto).
Qed.

Lemma forallb_reverse {A} (f : A → bool) l : forallb f (reverse l) = forallb f l.
Proof.
  apply eq_true_iff_eq. rewrite !forallb_forall.
  setoid_rewrite <-list_elem_of_In. by setoid_rewrite elem_of_reverse.
Qed.

Lemma existsb_reverse {A} (f : A → bool) l : existsb f (reverse l) = existsb f l.
Proof.
  apply eq_true_iff_eq. rewrite !existsb_exists.
  setoid_rewrite <-list_elem_of_In. by setoid_rewrite elem_of_reverse.
Qed.

Lemma TrimSpace_graph s : forallb is_graph (chars s) = true → TrimSpace s = s.
Proof.
  intros Hg. unfold TrimSpace, trim_left, trim_right.
  rewrite (trim_with_id _ _ (chars s)) by (apply graph_no_space; auto using space_not_graph).
  rewrite trim_with_id, reverse_involutive, of_chars_chars; [done|].
  apply graph_no_space; [|by rewrite forallb_reverse].
  intros p (p' & -> & ?)%list_elem_of_fmap. rewrite existsb_reverse. by apply space_not_graph.
Qed.

(** ** [encoding/base64]

    The two alphabets differ in the digits 62 and 63. *)
Definition b64_digit (plus slash : ascii) (i : Z) : ascii :=
  if bool_decide (i < 26) then char (65 + i)
  else if bool_decide (i < 52) then char (97 + (i - 26))
  else if bool_decide (i < 62) then char (48 + (i - 52))
  else if bool_decide (i = 62) then plus else slash.

Definition std_digit : Z → ascii := b64_digit "+" "/".
Definition url_digit : Z → ascii := b64_digit "-" "_".
Definition pad : ascii := "=".

(** [Encoding.EncodeToString] *)
Fixpoint b64_encode (digit : Z → ascii) (l : list ascii) : list ascii :=
  match l with
  | a :: b :: c :: l =>
      let v := code a * 65536 + code b * 256 + code c in
      digit (v / 262144) :: digit (v / 4096 mod 64) :: digit (v / 64 mod 64) ::
      digit (v mod 64) :: b64_encode digit l
  | [a; b] =>
      let v := code a * 65536 + code b * 256 in
      [digit (v / 262144); digit (v / 4096 mod 64); digit (v / 64 mod 64); pad]
  | [a] =>
      let v := code a * 65536 in
      [digit (v / 262144); digit (v / 4096 mod 64); pad; pad]
  | [] => []
  end.

(** [Encoding.decodeMap]: the value of a digit of an alphabet. *)
Definition b64_value (plus slash : ascii) (c : ascii) : option Z :=
  if is_upper c then Some (code c - 65)
  else if is_lower c then Some (code c - 97 + 26)
  else if is_digit c then Some (code c - 48 + 52)
  else if bool_decide (c = plus) then Some 62
  else if bool_decide (c = slash) then Some 63 else None.

Definition std_value : ascii → option Z := b64_value "+" "/".
Definition url_value : ascii → option Z := b64_value "-" "_".

(** [Encoding.DecodeString]: newlines are skipped, then groups of four digits
    are read; padding is allowed at the end only. *)
Definition not_newline (c : ascii) : bool :=
  negb (bool_decide (code c = 10) || bool_decide (code c = 13)).

Fixpoint b64_decode_groups (value : ascii → option Z) (l : list ascii) : option (list ascii) :=
  match l with
  | [] => Some []
  | w :: x :: y :: z :: l' =>
      a ← value w; b ← value x;
      if bool_decide (y = pad) then
        if bool_decide (z = pad) then
          match l' with [] => Some [char (a * 4 + b / 16)] | _ => None end
        else None
      else
        c ← value y;
        if bool_decide (z = pad) then
          match l' with
          | [] => Some [char (a * 4 + b / 16); char (b mod 16 * 16 + c / 4)]
          | _ => None
          end
        else
          d ← value z;
          t ← b64_decode_groups value l';
          Some (char (a * 4 + b / 16) :: char (b mod 16 * 16 + c / 4) ::
                char (c mod 4 * 64 + d) :: t)
  | _ => None
  end.

(** The encodings without padding: the last group has two or three digits. *)
Fixpoint b64_decode_raw (value : ascii → option Z) (l : list ascii) : option (list ascii) :=
  match l with
  | [] => Some []
  | [w; x] => a ← value w; b ← value x; Some [char (a * 4 + b / 16)]
  | [w; x; y] =>
      a ← value w; b ← value x; c ← value y;
      Some [char (a * 4 + b / 16); char (b mod 16 * 16 + c / 4)]
  | w :: x :: y :: z :: l' =>
      a ← value w; b ← value x; c ← value y; d ← value z;
      t ← b64_decode_raw value l';
      Some (char (a * 4 + b / 16) :: char (b mod 16 * 16 + c / 4) ::
            char (c mod 4 * 64 + d) :: t)
  | _ => None
  end.

Definition url_encode (s : string) : string := of_chars (b64_encode url_digit (chars s)).
Definition std_encode (s : string) : string := of_chars (b64_encode std_digit (chars s)).
Definition url_decode (s : string) : option string :=
  of_chars <$> b64_decode_groups url_value (List.filter not_newline (chars s)).
Definition std_decode (s : string) : option string :=
  of_chars <$> b64_decode_groups std_value (List.filter not_newline (chars s)).
Definition raw_url_decode (s : string) : option string :=
  of_chars <$> b64_decode_raw url_value (List.filter not_newline (chars s)).

(** What both alphabets satisfy: digits have their values, and are neither the
    padding nor newlines. *)
Class Alphabet (digit : Z → ascii) (value : ascii → option Z) : Prop :=
  digits_ok : forallb (λ i, bool_decide (value (digit (Z.of_nat i)) = Some (Z.of_nat i)) &&
                            negb (bool_decide (digit (Z.of_nat i) = pad)) &&
                            not_newline (digit (Z.of_nat i))) (seq 0 64) = true.
#[export] Instance url_alphabet : Alphabet url_digit url_value.
Proof. vm_compute. reflexivity. Qed.
#[export] Instance std_alphabet : Alphabet std_digit std_value.
Proof. vm_compute. reflexivity. Qed.

(** A test that holds for the 64 digits. *)
Lemma forall_digits (digit : Z → ascii) (P : ascii → bool) i :
  forallb (λ k, P (digit (Z.of_nat k))) (seq 0 64) = true → 0 ≤ i < 64 → P (digit i) = true.
Proof.
  intros H Hi. rewrite forallb_forall in H. specialize (H (Z.to_nat i) ltac:(apply in_seq; lia)).
  by rewrite Z2Nat.id in H by lia.
Qed.

Section alphabet.
Context {digit : Z → ascii} {value : ascii → option Z} {ab : Alphabet digit value}.
Lemma digit_spec i : 0 ≤ i < 64 → value (digit i) = Some i ∧ digit i ≠ pad ∧ not_newline (digit i) = true.
Proof.
  intros Hi. pose proof digits_ok as H. rewrite forallb_forall in H.
  specialize (H (Z.to_nat i) ltac:(apply in_seq; lia)). rewrite Z2Nat.id in H by lia.
  rewrite !andb_true_iff, negb_true_iff in H. destruct H as [[H1 H2] H3].
  by apply bool_decide_eq_true in H1; apply bool_decide_eq_false in H2.
Qed.
Lemma value_digit i : 0 ≤ i < 64 → value (digit i) = Some i.
Proof. apply digit_spec. Qed.
Lemma digit_pad i : 0 ≤ i < 64 → bool_decide (digit i = pad) = false.
Proof. intros. by apply bool_decide_eq_false_2, digit_spec. Qed.
Lemma digit_newline i : 0 ≤ i < 64 → not_newline (digit i) = true.
Proof. apply digit_spec. Qed.
End alphabet.

(** Induction three bytes at a time. *)
Lemma triples_ind (P : list ascii → Prop) :
  P [] → (∀ a, P [a]) → (∀ a b, P [a; b]) →
  (∀ a b c l, P l → P (a :: b :: c :: l)) → ∀ l, P l.
Proof.
  intros H0 H1 H2 H3. fix IH 1.
  intros [|a [|b [|c l]]]; [done..|]. apply H3, IH.
Qed.

Ltac b64_arith := Z.to_euclidean_division_equations; lia.

Lemma b64_encode_no_newline {digit value} {ab : Alphabet digit value} l : List.filter not_newline (b64_encode digit l) = b64_encode digit l.
Proof.
  induction l as [|a|a b|a b c l IH] using triples_ind; [done|..];
    pose proof (code_bound a); try pose proof (code_bound b); try pose proof (code_bound c);
    cbn [b64_encode List.filter];
    rewrite ?digit_newline by b64_arith; [done|done|].
  by rewrite IH.
Qed.

Lemma b64_decode_encode {digit value} {ab : Alphabet digit value} l : b64_decode_groups value (b64_encode digit l) = Some l.
Proof.
  induction l as [|a|a b|a b c l IH] using triples_ind; [done|..];
    pose proof (code_bound a); try pose proof (code_bound b); try pose proof (code_bound c);
    cbn [b64_encode b64_decode_groups];
    rewrite ?value_digit by b64_arith; cbn [mbind option_bind];
    rewrite ?digit_pad by b64_arith.
  - rewrite !bool_decide_eq_true_2 by done. do 2 f_equal.
    rewrite <-(char_code a) at 3. f_equal. b64_arith.
  - rewrite !bool_decide_eq_true_2 by done.
    cbn. do 2 f_equal; [|f_equal].
    + rewrite <-(char_code a) at 3. f_equal. b64_arith.
    + rewrite <-(char_code b) at 3. f_equal. b64_arith.
  - rewrite IH. cbn. do 2 f_equal; [|f_equal; [|f_equal]].
    + rewrite <-(char_code a) at 3. f_equal. b64_arith.
    + rewrite <-(char_code b) at 3. f_equal. b64_arith.
    + rewrite <-(char_code c) at 3. f_equal. b64_arith.
Qed.

(** Decoding inverts encoding, on every byte string. *)
Lemma url_decode_encode s : url_decode (url_encode s) = Some s.
Proof.
  unfold url_decode, url_encode. rewrite chars_of_chars, b64_encode_no_newline, b64_decode_encode.
  cbn. by rewrite of_chars_chars.
Qed.
Lemma std_decode_encode s : std_decode (std_encode s) = Some s.
Proof.
  unfold std_decode, std_encode. rewrite chars_of_chars, b64_encode_no_newline, b64_decode_encode.
  cbn. by rewrite of_chars_chars.
Qed.

(** The text of a URL-encoded string, padding included. *)
Definition is_b64_char (c : ascii) : bool :=
  is_alnum c || bool_decide (c = "-"%char) || bool_decide (c = "_"%char) || bool_decide (c = pad).

Lemma is_b64_char_code c : is_b64_char c = true → code c < 128 ∧ code c mod 64 < 62.
Proof.
  intros Hc.
  assert (∀ c, implb (is_b64_char c)
    (bool_decide (code c < 128) && bool_decide (code c mod 64 < 62)) = true) as H
    by (apply forall_chars; vm_compute; reflexivity).
  specialize (H c). rewrite Hc in H. cbn in H. rewrite andb_true_iff in H.
  by rewrite !bool_decide_eq_true in H.
Qed.

(** A test that holds for the digits and the padding holds for every character of
    an encoded text. *)
Lemma b64_encode_forall digit (P : ascii → bool) l :
  forallb (λ k, P (digit (Z.of_nat k))) (seq 0 64) = true → P pad = true → forallb P (b64_encode digit l) = true.
Proof.
  intros Hd Hp. induction l as [|a|a b|a b c l IH] using triples_ind; [done|..];
    pose proof (code_bound a); try pose proof (code_bound b); try pose proof (code_bound c);
    cbn [b64_encode forallb]; rewrite ?(forall_digits digit P) by (done || b64_arith); cbn; rewrite ?Hp; done.
Qed.
Lemma b64_encode_chars l : forallb is_b64_char (b64_encode url_digit l) = true.
Proof. apply b64_encode_forall; vm_compute; reflexivity. Qed.

Lemma std_url_digit i : i < 62 → std_digit i = url_digit i.
Proof.
  intros Hi. unfold std_digit, url_digit, b64_digit.
  by rewrite (bool_decide_eq_true_2 (i < 62)).
Qed.

(** On URL-encoded text the two alphabets give the same encoding: no group of
    such bytes produces the digits 62 and 63. *)
Lemma b64_encode_std_url l :
  forallb is_b64_char l = true → b64_encode std_digit l = b64_encode url_digit l.
Proof.
  induction l as [|a|a b|a b c l IH] using triples_ind; cbn [forallb];
    rewrite ?andb_true_iff; [done|..].
  - intros [[??]%is_b64_char_code _]. pose proof (code_bound a). cbn.
    by rewrite !std_url_digit by b64_arith.
  - intros ([??]%is_b64_char_code & [??]%is_b64_char_code & _).
    pose proof (code_bound a). pose proof (code_bound b). cbn.
    by rewrite !std_url_digit by b64_arith.
  - intros ([??]%is_b64_char_code & [??]%is_b64_char_code & [??]%is_b64_char_code & Hl).
    pose proof (code_bound a). pose proof (code_bound b). pose proof (code_bound c).
    cbn [b64_encode]. rewrite IH by done. by rewrite !std_url_digit by b64_arith.
Qed.

Lemma std_encode_url_text s : std_encode (url_encode s) = url_encode (url_encode s).
Proof.
  unfold std_encode, url_encode. rewrite chars_of_chars.
  by rewrite b64_encode_std_url by apply b64_encode_chars.
Qed.

(** ** Integers *)

(** Two's complement wrap-around of a 64-bit [int]. *)
Definition int64 (z : Z) : Z := (z + 2 ^ 63) mod 2 ^ 64 - 2 ^ 63.

Definition is_int64 (z : Z) : Prop := - 2 ^ 63 ≤ z < 2 ^ 63.

Lemma int64_range z : is_int64 (int64 z).
Proof. unfold is_int64, int64. b64_arith. Qed.

Lemma int64_id z : is_int64 z → int64 z = z.
Proof. unfold is_int64, int64. intros. rewrite Z.mod_small; lia. Qed.

(** [strconv.Atoi]: an optional sign and at least one decimal digit, the value
    within 64 bits. *)
Fixpoint digits_value (acc : Z) (l : list ascii) : option Z :=
  match l with
  | [] => Some acc
  | c :: l => if is_digit c then digits_value (acc * 10 + (code c - 48)) l else None
  end.

Definition split_sign (l : list ascii) : bool * list ascii :=
  match l with
  | "-"%char :: l => (true, l)
  | "+"%char :: l => (false, l)
  | _ => (false, l)
  end.

Definition Atoi (s : string) : option Z :=
  let '(neg, ds) := split_sign (chars s) in
  match ds with
  | [] => None
  | _ => v ← digits_value 0 ds;
         let v := if (neg : bool) then - v else v in
         if bool_decide (- 2 ^ 63 ≤ v) && bool_decide (v < 2 ^ 63) then Some v else None
  end.

Lemma Atoi_range s v : Atoi s = Some v → is_int64 v.
Proof.
  unfold Atoi. destruct (split_sign (chars s)) as [neg ds].
  destruct ds as [|d ds]; [done|]. destruct (digits_value 0 (d :: ds)); [cbn|done].
  destruct neg; case_bool_decide; case_bool_decide; cbn; intros [= <-]; done.
Qed.

(** The number [Atoi] returns next to its error: 0 for a text that is no number,
    the nearest end of the range for a number out of range. [ParseUint] stops at
    the digit that leaves the range of [uint64]; its cutoff is [2^64 / 10 + 1]. *)
Fixpoint uint_scan (acc : Z) (l : list ascii) : option Z :=
  match l with
  | [] => Some acc
  | c :: l =>
      if is_digit c then
        let n1 := acc * 10 + (code c - 48) in
        if bool_decide (1844674407370955162 ≤ acc) || bool_decide (2 ^ 64 ≤ n1) then Some (2 ^ 64 - 1)
        else uint_scan n1 l
      else None
  end.

Definition Atoi_value (s : string) : Z :=
  let '(neg, ds) := split_sign (chars s) in
  match ds with
  | [] => 0
  | _ => match uint_scan 0 ds with
         | None => 0
         | Some un => if (neg : bool) then - Z.min un (2 ^ 63) else Z.min un (2 ^ 63 - 1)
         end
  end.

Lemma digits_value_ge l acc v : digits_value acc l = Some v → 0 ≤ acc → acc ≤ v.
Proof.
  revert acc. induction l as [|c l IH]; cbn; intros acc; [by intros [= ->]|].
  destruct (is_digit c) eqn:Hc; [|done]. intros Hv Hacc.
  unfold is_digit, in_range in Hc. apply andb_true_iff in Hc as [H1%bool_decide_eq_true H2%bool_decide_eq_true].
  apply IH in Hv; lia.
Qed.

Lemma uint_scan_digits l acc v :
  digits_value acc l = Some v → 0 ≤ acc → v < 2 ^ 64 → uint_scan acc l = Some v.
Proof.
  revert acc. induction l as [|c l IH]; cbn [digits_value uint_scan]; intros acc; [done|].
  destruct (is_digit c) eqn:Hc; [|done]. intros Hv Hacc Hlt.
  unfold is_digit, in_range in Hc. apply andb_true_iff in Hc as [H1%bool_decide_eq_true H2%bool_decide_eq_true].
  pose proof (digits_value_ge _ _ _ Hv ltac:(lia)).
  rewrite !bool_decide_eq_false_2 by lia. cbn. apply IH; [done|lia|done].
Qed.

(** On a number in range [Atoi] returns it. *)
Lemma Atoi_value_Some s v : Atoi s = Some v → Atoi_value s = v.
Proof.
  unfold Atoi, Atoi_value. destruct (split_sign (chars s)) as [neg ds].
  destruct ds as [|d ds]; [done|]. destruct (digits_value 0 (d :: ds)) as [u|] eqn:E; [cbn [mbind option_bind]|done].
  pose proof (digits_value_ge _ _ _ E ltac:(lia)).
  intros Hv. assert (uint_scan 0 (d :: ds) = Some u) as ->.
  { apply uint_scan_digits; [done|lia|].
    destruct neg; repeat case_bool_decide; simplify_eq/=; lia. }
  destruct neg; repeat case_bool_decide; simplify_eq/=; lia.
Qed.

(** [strconv.ParseBool] *)
Definition ParseBool (s : string) : option bool :=
  if str_in s ["1"; "t"; "T"; "true"; "TRUE"; "True"]%string then Some true
  else if str_in s ["0"; "f"; "F"; "false"; "FALSE"; "False"]%string then Some false
  else None.

(** ** [strings.Split] with a separator that is not empty, and [strconv.Itoa] *)
Fixpoint split_go (sep : list ascii) (skip : nat) (cur l : list ascii) : list (list ascii) :=
  match l with
  | [] => [reverse cur]
  | c :: l' =>
      match skip with
      | S k => split_go sep k cur l'
      | O => match strip_prefix sep l with
             | Some _ => reverse cur :: split_go sep (length sep - 1) [] l'
             | None => split_go sep 0 (c :: cur) l'
             end
      end
  end.
Definition Split (s sep : string) : list string :=
  of_chars <$> split_go (chars sep) 0 [] (chars s).

Lemma split_go_skip sep p l cur : split_go sep (length p) cur (p ++ l) = split_go sep 0 cur l.
Proof. induction p as [|c p IH]; [done|]. apply IH. Qed.

(** A piece without the first byte of the separator is read up to what follows. *)
Lemma split_go_piece c sep a cur l :
  c ∉ a → split_go (c :: sep) 0 cur (a ++ l) = split_go (c :: sep) 0 (reverse a ++ cur) l.
Proof.
  revert cur. induction a as [|x a IH]; intros cur Hc; [done|].
  apply not_elem_of_cons in Hc as [Hx Hc].
  cbn [split_go strip_prefix app]. rewrite bool_decide_eq_false_2 by done. rewrite IH by done.
  by rewrite reverse_cons, <-app_assoc.
Qed.

Lemma split_go_end c sep a : c ∉ a → split_go (c :: sep) 0 [] a = [a].
Proof.
  intros Hc. rewrite <-(app_nil_r a) at 1. rewrite split_go_piece by done. cbn.
  by rewrite app_nil_r, reverse_involutive.
Qed.

Lemma split_go_sep c sep a l :
  c ∉ a → split_go (c :: sep) 0 [] (a ++ c :: sep ++ l) = a :: split_go (c :: sep) 0 [] l.
Proof.
  intros Hc. rewrite split_go_piece by done. cbn [split_go].
  assert (strip_prefix (c :: sep) (c :: sep ++ l) = Some l) as -> by by apply strip_prefix_app.
  rewrite app_nil_r, reverse_involutive. f_equal. cbn [length Nat.sub].
  rewrite Nat.sub_0_r. apply split_go_skip.
Qed.

Lemma digits_value_go x s :
  digits_value 0 (chars (pretty_N_go x s)) = digits_value (Z.of_N x) (chars s).
Proof.
  revert s. induction (N.lt_wf_0 x) as [x _ IH]; intros s.
  assert (x = 0 ∨ 0 < x)%N as [->|Hx] by lia; [by rewrite pretty_N_go_0|].
  rewrite pretty_N_go_step, IH by (try apply N.div_lt; lia). cbn [chars digits_value].
  assert (x `mod` 10 < 10)%N as Hm by (apply N.mod_lt; lia).
  assert (is_digit (pretty_N_char (x `mod` 10)) = true ∧
          code (pretty_N_char (x `mod` 10)) - 48 = Z.of_N (x `mod` 10)) as [-> ->].
  { generalize dependent (x `mod` 10)%N. intros m Hm.
    destruct m as [|p]; [done|]. by do 4 (destruct p as [p|p|]; try done; try lia). }
  f_equal. pose proof (N.div_mod' x 10). lia.
Qed.

Lemma digits_go x s :
  forallb is_digit (chars s) = true → forallb is_digit (chars (pretty_N_go x s)) = true.
Proof.
  revert s. induction (N.lt_wf_0 x) as [x _ IH]; intros s Hs.
  assert (x = 0 ∨ 0 < x)%N as [->|Hx] by lia; [by rewrite pretty_N_go_0|].
  rewrite pretty_N_go_step by lia. apply IH; [apply N.div_lt; lia|]. cbn. rewrite Hs, andb_true_r.
  assert (x `mod` 10 < 10)%N as Hm by (apply N.mod_lt; lia).
  generalize dependent (x `mod` 10)%N. intros m Hm.
  destruct m as [|p]; [done|]. by do 4 (destruct p as [p|p|]; try done; try lia).
Qed.

Definition Itoa (z : Z) : string := pretty z.

Lemma Itoa_digits z : 0 ≤ z →
  forallb is_digit (chars (Itoa z)) = true ∧ digits_value 0 (chars (Itoa z)) = Some z ∧ Itoa z ≠ ""%string.
Proof.
  intros Hz. unfold Itoa. destruct z as [|p|p]; [done| |lia]. unfold pretty, pretty_Z, pretty, pretty_positive.
  unfold pretty, pretty_N. rewrite decide_False by done.
  assert (digits_value 0 (chars (pretty_N_go (N.pos p) "")) = Some (Z.pos p)) as E.
  { by rewrite digits_value_go. }
  split; [by apply digits_go|]. split; [done|]. intros E0. by rewrite E0 in E.
Qed.

Lemma Atoi_Itoa z : 0 ≤ z < 2 ^ 63 → Atoi (Itoa z) = Some z.
Proof.
  intros Hz. destruct (Itoa_digits z) as (Hd & Hv & Hne); [lia|]. unfold Atoi.
  destruct (chars (Itoa z)) as [|c l] eqn:E.
  { by rewrite <-(of_chars_chars (Itoa z)), E in Hne. }
  assert (is_digit c = true) as Hc by (cbn in Hd; by apply andb_true_iff in Hd as [? _]).
  assert (split_sign (c :: l) = (false, c :: l)) as ->.
  { assert (Hs : ∀ c, implb (is_digit c) (negb (bool_decide (c ∈ ["-"; "+"]%char))) = true) by by apply forall_chars.
    specialize (Hs c). rewrite Hc in Hs. cbn in Hs. apply negb_true_iff, bool_decide_eq_false in Hs.
    destruct c as [[] [] [] [] [] [] [] []]; try done; exfalso; set_solver. }
  rewrite Hv. cbn. rewrite !bool_decide_eq_true_2 by lia. done.
Qed.

(** ** [strings.Contains] *)
Fixpoint contains_go (p l : list ascii) : bool :=
  match strip_prefix p l, l with
  | Some _, _ => true
  | None, [] => false
  | None, _ :: l => contains_go p l
  end.
Definition Contains (s sub : string) : bool := contains_go (chars sub) (chars s).

Lemma contains_go_spec p l : contains_go p l = true ↔ ∃ a b, l = a ++ p ++ b.
Proof.
  induction l as [|x l IH]; cbn [contains_go].
  all: destruct (strip_prefix p _) as [b|] eqn:E; [apply strip_prefix_app in E; split; [|done]; intros _; by exists [], b|].
  - split; [done|]. intros (a & b & E'). exfalso.
    symmetry in E'. apply app_eq_nil in E' as [_ [-> ->]%app_eq_nil]. done.
  - rewrite IH. split; [intros (a & b & ->); by exists (x :: a), b|].
    intros ([|y a] & b & E'); [|simplify_eq/=; by eauto].
    exfalso. enough (strip_prefix p (x :: l) = Some b) by congruence. by apply strip_prefix_app.
Qed.

(** Exactly the substrings are contained. *)
Lemma Contains_spec s sub :
  Contains s sub = true ↔ ∃ a b, chars s = a ++ chars sub ++ b.
Proof. apply contains_go_spec. Qed.

(** ** [strings.Join], [strings.Replace] of every occurrence, [strings.TrimRight] of one
    character, [strings.HasPrefix] *)
Fixpoint Join (l : list string) (sep : string) : string :=
  match l with
  | [] => ""
  | [x] => x
  | x :: l => x +:+ sep +:+ Join l sep
  end.
Definition ReplaceAll (s old new : string) : string := Join (Split s old) new.
Fixpoint drop_char (c : ascii) (l : list ascii) : list ascii :=
  match l with
  | x :: l' => if bool_decide (x = c) then drop_char c l' else l
  | [] => []
  end.
Definition TrimRightChar (s : string) (c : ascii) : string := of_chars (reverse (drop_char c (reverse (chars s)))).
Definition HasPrefix (s p : string) : bool := bool_decide (is_Some (strip_prefix (chars p) (chars s))).

(** [base64.RawURLEncoding]: the text without its padding. *)
Definition raw_url_encode (s : string) : string := TrimRightChar (url_encode s) pad.

Lemma drop_char_app c d l1 l2 : d ≠ c → drop_char c (l1 ++ d :: l2) = drop_char c l1 ++ d :: l2.
Proof.
  intros Hd. induction l1 as [|x l1 IH]; cbn; [by rewrite bool_decide_eq_false_2|]. by case_bool_decide.
Qed.
Definition trim_pad (l : list ascii) : list ascii := reverse (drop_char pad (reverse l)).
Lemma trim_pad_digit l1 l2 i : 0 ≤ i < 64 → trim_pad (l1 ++ url_digit i :: l2) = l1 ++ url_digit i :: trim_pad l2.
Proof.
  intros Hi%(digit_pad (digit := url_digit))%bool_decide_eq_false. unfold trim_pad.
  rewrite reverse_app, reverse_cons, <- app_assoc. cbn [app].
  rewrite drop_char_app by done. by rewrite reverse_app, reverse_cons, reverse_involutive, <- app_assoc.
Qed.

Lemma trim_pad_2 w i l : 0 ≤ i < 64 → trim_pad (w :: url_digit i :: l) = w :: url_digit i :: trim_pad l.
Proof. apply (trim_pad_digit [w]). Qed.
Lemma trim_pad_3 w x i l : 0 ≤ i < 64 → trim_pad (w :: x :: url_digit i :: l) = w :: x :: url_digit i :: trim_pad l.
Proof. apply (trim_pad_digit [w; x]). Qed.
Lemma trim_pad_4 w x y i l :
  0 ≤ i < 64 → trim_pad (w :: x :: y :: url_digit i :: l) = w :: x :: y :: url_digit i :: trim_pad l.
Proof. apply (trim_pad_digit [w; x; y]). Qed.

Lemma b64_raw_decode_encode l :
  b64_decode_raw url_value (trim_pad (b64_encode url_digit l)) = Some l ∧
  List.filter not_newline (trim_pad (b64_encode url_digit l)) = trim_pad (b64_encode url_digit l).
Proof.
  induction l as [|a|a b|a b c l [IH IHn]] using triples_ind; [done|..];
    pose proof (code_bound a); try pose proof (code_bound b); try pose proof (code_bound c); cbn [b64_encode].
  - rewrite trim_pad_2 by b64_arith. cbn. split.
    + rewrite !value_digit by b64_arith. cbn. do 2 f_equal. rewrite <-(char_code a) at 3. f_equal. b64_arith.
    + by rewrite !digit_newline by b64_arith.
  - rewrite trim_pad_3 by b64_arith. cbn. split.
    + rewrite !value_digit by b64_arith. cbn. do 2 f_equal; [|f_equal].
      * rewrite <-(char_code a) at 3. f_equal. b64_arith.
      * rewrite <-(char_code b) at 3. f_equal. b64_arith.
    + by rewrite !digit_newline by b64_arith.
  - rewrite trim_pad_4 by b64_arith. cbn. split.
    + rewrite !value_digit by b64_arith. cbn. rewrite IH. cbn. do 2 f_equal; [|f_equal; [|f_equal]].
      * rewrite <-(char_code a) at 3. f_equal. b64_arith.
      * rewrite <-(char_code b) at 3. f_equal. b64_arith.
      * rewrite <-(char_code c) at 3. f_equal. b64_arith.
    + by rewrite !digit_newline, IHn by b64_arith.
Qed.

Lemma raw_url_decode_encode s : raw_url_decode (raw_url_encode s) = Some s.
Proof.
  unfold raw_url_decode, raw_url_encode, TrimRightChar, url_encode. rewrite !chars_of_chars.
  fold (trim_pad (b64_encode url_digit (chars s))). destruct (b64_raw_decode_encode (chars s)) as [Hd ->].
  rewrite Hd. cbn. by rewrite of_chars_chars.
Qed.
