(* ===== verification/AuthRepo.v ===== *)
(** * AuthRepo.v: the repositories of the authentication service

    [pkg/user], [pkg/project], [pkg/session] and [pkg/authConfig]: one
    definition per repository method, each translating the filter and update
    documents it sends to MongoDB. *)
From S2P Require Import Prelude World GoStd AuthEntities.
Local Open Scope string_scope.
Local Open Scope Z_scope.

(** ** Third-party cryptography

    JSON Web Token claims as [jwt.MapClaims] holds them; a missing claim is
    [None]. The service signs only texts under [uid], [role] and [username], and
    a token with another signature is refused, so claims of other types do not
    occur. Signing and parsing (signature and expiry check) are the jwt
    package's, password hashing is bcrypt's and address parsing [net/mail]'s. *)
Record Claims : Type := mkClaims {
  c_uid : option string; c_role : option string; c_username : option string; c_exp : option Z
}.

Class Crypto := {
  bcrypt_generate (n : nat) (password : string) : res string;
  bcrypt_compare (hash password : string) : bool;
  jwt_sign (secret : string) (c : Claims) : res string;
  jwt_parse (now : Z) (secret token : string) : res Claims;
  mail_valid (address : string) : bool;
  random_bytes (n len : nat) : res string;
}.

(** Documented behaviour: bcrypt accepts the password it hashed; a token that
    was signed with a secret parses with that secret until its expiry time and
    not after; parsing reports errors and does not panic. *)
Class CryptoLaws (cr : Crypto) : Prop := {
  bcrypt_accepts n p h : bcrypt_generate n p = Ok h → bcrypt_compare h p = true;
  jwt_roundtrip s c t now e :
    jwt_sign s c = Ok t → c_exp c = Some e → (now < e)%Z → jwt_parse now s t = Ok c;
  jwt_expired s c t now e :
    jwt_sign s c = Ok t → c_exp c = Some e → (e ≤ now)%Z → is_ok (jwt_parse now s t) = false;
  jwt_parse_no_panic now s t : jwt_parse now s t ≠ Panic;
}.

Section repositories.
Context `{MongoDriver} `{Runtime} `{Crypto}.

Definition bcrypt_GenerateFromPassword (p : string) : AuthM (res string) :=
  λ w, (bcrypt_generate (tick w) p, bump w).

(** ** [pkg/user/repository.go]

    The users collection has the unique index [_id], and that on [username] if it
    was created ([indexed]). *)
Definition user_key (indexed : bool) (stored new : User) : bool :=
  str_eq (u_ID stored) (u_ID new) || indexed && str_eq (u_Username stored) (u_Username new).
Definition InsertUser (user : User) : AuthM (res unit) := λ w, InsertOne (user_key (names_indexed (db w))) user w.

Definition by_username (name : string) (u : User) : bool := str_eq (u_Username u) name.
Definition by_uid (uid : string) (u : User) : bool := str_eq (u_ID u) uid.

Definition set_user_id (i : string) (u : User) : User :=
  mkUser (u_Audit u) i (u_Username u) (u_Password u) (u_Salt u) (u_Email u) (u_Name u)
    (u_Role u) (u_DeactivatedAt u) (u_IsInitialLogin u).

Definition userRepo_LoginUser (user : User) : AuthM (res User) :=
  id ← NewUUID;
  let? hashed := bcrypt_GenerateFromPassword (u_Password user) in
  let user := set_password hashed (set_user_id id user) in
  r ← InsertUser user;
  match r with
  | Ok _ => mret (Ok (SanitizedUser user))
  | Err ErrDuplicateKey =>
      let? found := FindOne (by_username (u_Username user)) in
      mret (Ok found)
  | Err e => mret (Err e)
  | Panic => mret Panic
  end.

Definition userRepo_GetUser (uid : string) : AuthM (res User) :=
  let? u := FindOne (by_uid uid) in
  mret (Ok (SanitizedUser u)).

Definition userRepo_GetUsers : AuthM (res (list User)) :=
  let? us := Find (λ _ : User, true) in
  mret (Ok (SanitizedUser <$> us)).

Definition userRepo_InviteUsers (invited : list string) : AuthM (res (list User)) :=
  let? us := Find (λ u, negb (str_in (u_ID u) invited) && bool_decide (u_DeactivatedAt u = None)) in
  mret (Ok (SanitizedUser <$> us)).

Definition userRepo_FindUsersByUID (uids : list string) : AuthM (res (list User)) :=
  let? us := Find (λ u, str_in (u_ID u) uids) in
  mret (Ok (SanitizedUser <$> us)).

Definition userRepo_FindUserByUsername (username : string) : AuthM (res User) :=
  FindOne (by_username username).

Definition userRepo_CheckPasswordHash (hash password : string) : res unit :=
  if bcrypt_compare hash password then Ok tt else Err (ErrApp ErrWrongPassword).

(** The result of [bcrypt.GenerateFromPassword] is used without a test of its
    error: a failure leaves a nil slice, the empty string. *)
Definition userRepo_UpdatePassword (up : UserPassword) (isAdminBeingReset : bool) :
    AuthM (res unit) :=
  let? user := FindOne (by_username (up_Username up)) in
  gen ← bcrypt_GenerateFromPassword (up_NewPassword up);
  let newHashedPassword := match gen with Ok h => h | _ => "" end in
  let update (setLogin : bool) :=
    let? matched := UpdateOne (by_username (u_Username user))
      (λ u, (if setLogin then set_initial_login false else id)
              (set_password newHashedPassword u)) in
    if bool_decide (matched = 0%nat)
    then mret (Err (ErrNew "could not find matching username in database"))
    else mret (Ok tt) in
  if isAdminBeingReset then
    if negb (bcrypt_compare (u_Password user) (up_OldPassword up))
    then mret (Err (ErrNew "invalid credentials"))
    else if bcrypt_compare (u_Password user) (up_NewPassword up)
    then mret (Err (ErrNew "old and new passwords can't be same"))
    else update true
  else update false.

Definition userRepo_CreateUser (user : User) : AuthM (res User) :=
  r ← InsertUser user;
  match r with
  | Ok _ => mret (Ok (SanitizedUser user))
  | Err ErrDuplicateKey => mret (Err (ErrApp ErrUserExists))
  | Err e => mret (Err e)
  | Panic => mret Panic
  end.

(** [toDoc] drops the empty fields of [UserDetails] ([omitempty]); the field
    it calls [id] is no field of [User]. *)
Definition userRepo_UpdateUser (d : UserDetails) : AuthM (res unit) :=
  UpdateMany (by_uid (det_ID d))
    (λ u, set_email_name (if str_eq (det_Email d) "" then u_Email u else det_Email d)
                         (if str_eq (det_Name d) "" then u_Name u else det_Name d) u).

(** The caller gives filter and update. *)
Definition userRepo_UpdateUserByQuery (filter : User → bool) (updateQuery : User → User) : AuthM (res unit) :=
  let? _ := UpdateOne filter updateQuery in
  mret (Ok tt).

Definition userRepo_IsAdministrator (id username : string) : AuthM (res unit) :=
  let? u := FindOne (λ u, by_uid id u && by_username username u) in
  if str_eq (u_Role u) RoleAdmin then mret (Ok tt)
  else mret (Err (ErrApp ErrInvalidCredentials)).

Definition userRepo_UpdateUserState (username : string) (isDeactivate : bool)
    (deactivateTime : Z) : AuthM (res unit) :=
  let? _ := UpdateOne (by_username username)
    (if isDeactivate then set_user_state (Some deactivateTime) true
     else set_user_state None false) in
  mret (Ok tt).

(** ** [pkg/project/repository.go] *)
Definition project_key (stored new : Project) : bool := str_eq (p_ID stored) (p_ID new).
Definition by_project_id (pid : string) (p : Project) : bool := str_eq (p_ID p) pid.

(** [members.$[elem]] with the array filter [elem.user_id = uid]. *)
Definition update_elem (uid : string) (f : Member → Member) (p : Project) : Project :=
  set_members ((λ m, if str_eq (m_UserID m) uid then f m else m) <$> p_Members p) p.

Definition accepted (m : Member) : bool := str_eq (m_Invitation m) AcceptedInvitation.
Definition is_owner (m : Member) : bool := str_eq (m_Role m) RoleOwner.

Definition no_such_project : error := ErrNew "could not find matching projectID in database".

Definition projectRepo_GetProjectByProjectID (pid : string) : AuthM (res Project) :=
  FindOne (by_project_id pid).

Definition projectRepo_GetProjects (q : Project → bool) : AuthM (res (list Project)) :=
  Find q.

Definition projectRepo_CreateProject (p : Project) : AuthM (res unit) :=
  r ← InsertOne project_key p;
  match r with
  | Ok _ => mret (Ok tt)
  | Err ErrDuplicateKey => mret (Err (ErrApp ErrUserExists))
  | Err e => mret (Err e)
  | Panic => mret Panic
  end.

Definition matched_or (e : error) (m : AuthM (res nat)) : AuthM (res unit) :=
  let? matched := m in
  if bool_decide (matched = 0%nat) then mret (Err e) else mret (Ok tt).

Definition projectRepo_AddMember (pid : string) (m : Member) : AuthM (res unit) :=
  matched_or no_such_project
    (UpdateOne (by_project_id pid) (λ p, set_members (p_Members p ++ [m]) p)).

(** [$pull: {members: {user_id: uid}}] *)
Definition pull_member (uid : string) (p : Project) : Project :=
  set_members (List.filter (λ m, negb (str_eq (m_UserID m) uid)) (p_Members p)) p.

Definition projectRepo_RemoveInvitation (pid uid : string) (i : Invitation) : AuthM (res unit) :=
  matched_or no_such_project (UpdateOne (by_project_id pid) (pull_member uid)).

(** An unknown invitation leaves the update document empty, which the driver
    refuses. A nil role is stored as null, which reads back as the empty
    string. *)
Definition projectRepo_UpdateInvite (pid uid : string) (i : Invitation)
    (role : option MemberRole) : AuthM (res unit) :=
  t ← now;
  let update f := matched_or no_such_project (UpdateOne (by_project_id pid) (update_elem uid f)) in
  if str_eq i PendingInvitation then update (λ m, set_role (default "" role) (set_invitation i m))
  else if str_eq i DeclinedInvitation then update (set_invitation i)
  else if str_eq i AcceptedInvitation then update (λ m, set_joined_at t (set_invitation i m))
  else if str_eq i ExitedProject then update (set_invitation i)
  else mret (Err (ErrNew "update document must have at least one element")).

Definition projectRepo_UpdateProjectName (pid name : string) : AuthM (res unit) :=
  let? _ := UpdateOne (by_project_id pid) (set_name name) in
  mret (Ok tt).

Definition projectRepo_UpdateMemberRole (pid uid : string) (role : option MemberRole) :
    AuthM (res unit) :=
  let? _ := UpdateOne (by_project_id pid) (update_elem uid (set_role (default "" role))) in
  mret (Ok tt).

(** [members: {$elemMatch: {user_id: uid, role: Owner}}] *)
Definition owned_by (uid : string) (p : Project) : bool :=
  existsb (λ m, str_eq (m_UserID m) uid && is_owner m) (p_Members p).

Definition projectRepo_UpdateProjectState (uid : string) (deactivateTime : Z)
    (isDeactivate : bool) : AuthM (res unit) :=
  let? _ := UpdateMany (λ _, true)
              (update_elem uid (set_member_deactivated (Some deactivateTime))) in
  let? _ := UpdateMany (owned_by uid) (set_project_removed isDeactivate) in
  mret (Ok tt).

(** The caller gives the pipeline, as the three listings below do. *)
Definition projectRepo_GetAggregateProjects {R} (pipeline : list Project → list R) : AuthM (res (list R)) :=
  Aggregate pipeline.

Definition projectRepo_GetOwnerProjects (uid : string) : AuthM (res (list Project)) :=
  Aggregate (λ l : list Project,
    (λ p, mkProject (p_Audit p) (p_ID p) (p_Name p) (List.filter accepted (p_Members p))
            (p_State p) [] None) <$> List.filter (owned_by uid) l).

Definition projectRepo_GetProjectOwners (pid : string) : AuthM (res (list Member)) :=
  let? p := FindOne (by_project_id pid) in
  mret (Ok (List.filter (λ m, is_owner m && accepted m) (p_Members p))).

Definition projectRepo_GetProjectRole (pid uid : string) : AuthM (res (option MemberRole)) :=
  let? p := FindOne (by_project_id pid) in
  mret (Ok (m_Role <$> List.find (λ m, str_eq (m_UserID m) uid && accepted m) (p_Members p))).

Definition projectRepo_GetProjectMembers (pid state : string) : AuthM (res (list Member)) :=
  let keep m := if str_eq state StateAccepted then accepted m
                else if str_eq state StateNotAccepted then negb (accepted m)
                else true in
  let? found := Aggregate (λ l : list Project,
                  (λ p, List.filter keep (p_Members p)) <$> List.filter (by_project_id pid) l) in
  mret (Ok (match found with ms :: _ => ms | [] => [] end)).

(** [ListInvitations]: a state other than the two leaves an empty pipeline
    stage, which MongoDB refuses. *)
Definition invitation_match (uid : string) (i : Invitation) (p : Project) : bool :=
  existsb (λ m, str_eq (m_UserID m) uid && str_eq (m_Invitation m) i &&
                (str_eq i PendingInvitation || negb (is_owner m))) (p_Members p).

Definition projectRepo_ListInvitations (uid : string) (i : Invitation) :
    AuthM (res (list Project)) :=
  if str_eq i PendingInvitation || str_eq i AcceptedInvitation then
    Aggregate (λ l : list Project,
      (λ p, mkProject no_audit (p_ID p) (p_Name p)
              (List.filter (λ m, (str_eq (m_Invitation m) i && str_eq (m_UserID m) uid) || is_owner m)
                 (p_Members p)) None [] None)
      <$> List.filter (invitation_match uid i) l)
  else mret (Err (ErrNew "A pipeline stage specification object must contain exactly one field.")).

Definition projectRepo_DeleteProject (pid : string) : AuthM (res unit) :=
  matched_or (ErrNew "no project found with the given projectID")
    (DeleteOne (by_project_id pid)).

Record ProjectStats : Type := mkProjectStats {
  ps_Name : string; ps_ProjectID : string; ps_Owner : list (string * string); ps_Total : nat
}.

Definition projectRepo_GetProjectStats : AuthM (res (list ProjectStats)) :=
  Aggregate (λ l : list Project,
    (λ p, mkProjectStats (p_Name p) (p_ID p)
            ((λ m, (m_UserID m, m_Username m)) <$> List.filter is_owner (p_Members p))
            (length (List.filter accepted (p_Members p)))) <$> l).

(** ** [pkg/session] *)
Definition sessionRepo_RevokeToken (t : RevokedToken) : AuthM (res unit) :=
  InsertOne (λ _ _, false) t.

(** Any failure of the query counts as "not revoked". *)
Definition sessionRepo_IsTokenRevoked (token : string) : AuthM bool :=
  r ← FindOne (λ t, str_eq (rt_Token t) token);
  mret (is_ok r).

Definition sessionRepo_CreateApiToken (t : ApiToken) : AuthM (res unit) :=
  InsertOne (λ _ _, false) t.

Definition sessionRepo_GetApiTokensByUserID (uid : string) : AuthM (res (list ApiToken)) :=
  Find (λ t, str_eq (at_UserID t) uid).

Definition sessionRepo_DeleteApiToken (token : string) : AuthM (res unit) :=
  let? _ := DeleteOne (λ t, str_eq (at_Token t) token) in
  mret (Ok tt).

(** ** [pkg/authConfig/repository.go] *)
Definition configRepo_CreateConfig (c : AuthConfig) : AuthM (res unit) :=
  InsertOne (λ _ _, false) c.

Definition configRepo_GetConfig (key : string) : AuthM (res AuthConfig) :=
  let? config := FindOne (λ c, str_eq (ac_Key c) key) in
  match url_decode (ac_Value config) with
  | Some v => mret (Ok (mkAuthConfig (ac_Key config) v))
  | None => mret (Err (ErrNew "illegal base64 data"))
  end.

Definition configRepo_UpdateConfig (key value : string) : AuthM (res unit) :=
  let? _ := UpdateOne (λ c, str_eq (ac_Key c) key) (λ c, mkAuthConfig (ac_Key c) value) in
  mret (Ok tt).

End repositories.
