(* ===== verification/AuthListing.v ===== *)
(** * AuthListing.v: the project listing

    [api/utils/project_utils.go] (query parameters and pipeline stages) and
    [GetProjectsByUserID] of [pkg/project/repository.go]. *)
From S2P Require Import Prelude World GoStd AuthEntities AuthRepo.
From stdpp Require Import sorting.
Local Open Scope string_scope.
Local Open Scope Z_scope.

Inductive ProjectSortingField : Type := ProjectSortingFieldName | ProjectSortingFieldTime.

Record SortInput : Type := mkSortInput {
  so_Field : option ProjectSortingField; so_Ascending : option bool
}.
Record ListProjectInputFilter : Type := mkFilter {
  fi_ProjectName : option string; fi_CreatedByMe : option bool
}.
Record Pagination : Type := mkPagination { pg_Page : Z; pg_Limit : Z }.
Record ListProjectRequest : Type := mkListProjectRequest {
  lr_UserID : string; lr_Sort : option SortInput; lr_Filter : option ListProjectInputFilter;
  lr_Pagination : option Pagination
}.

(** Case-insensitive regular-expression search of MongoDB. *)
Class Regex := regex_search : string → string → bool.

(** ** [GetProjectFilters]: [query] gives the query parameters, "" when absent;
    the text of a wrapped [ParseBool] error is not kept *)
Definition GetProjectFilters (uid : option string) (query : string → string) :
    res ListProjectRequest :=
  let UserID := default "" uid in
  let build createdByMe ascending :=
    let name := query "projectName" in
    let field := if str_eq (query "sortField") "name" then ProjectSortingFieldName
                 else ProjectSortingFieldTime in
    let page := default 0 (Atoi (query "page")) in
    let limit := default 15 (Atoi (query "limit")) in
    Ok (mkListProjectRequest UserID
          (Some (mkSortInput (Some field) ascending))
          (Some (mkFilter (if str_eq name "" then None else Some name) createdByMe))
          (Some (mkPagination page limit))) in
  let parse key (k : option bool → res ListProjectRequest) :=
    if str_eq (query key) "" then k None
    else match ParseBool (query key) with
         | Some b => k (Some b)
         | None => Err (ErrNew ("invalid value for " +:+ key))
         end in
  parse "createdByMe" (λ createdByMe, parse "sortAscending" (λ ascending, build createdByMe ascending)).

(** ** Pipeline stages *)
Inductive Stage : Type :=
| Match (q : Project → bool)
| Sort (field : ProjectSortingField) (direction : Z)
| Skip (n : Z)
| Limit (n : Z).

Section stages.
Context `{Regex}.

Definition hidden_invitations : list Invitation :=
  [PendingInvitation; DeclinedInvitation; ExitedProject].

Definition visible_to (userID : string) (p : Project) : bool :=
  negb (a_IsRemoved (p_Audit p)) &&
  existsb (λ m, str_eq (m_UserID m) userID && negb (str_in (m_Invitation m) hidden_invitations))
    (p_Members p).

Definition CreateMatchStage (userID : string) : Stage := Match (visible_to userID).

Definition CreateFilterStages (filter : option ListProjectInputFilter) (userID : string) :
    list Stage :=
  match filter with
  | None => []
  | Some f =>
      match fi_CreatedByMe f with
      | None => []
      | Some true => [Match (λ p, str_eq (ud_UserID (a_CreatedBy (p_Audit p))) userID)]
      | Some false => [Match (λ p, negb (str_eq (ud_UserID (a_CreatedBy (p_Audit p))) userID))]
      end ++
      match fi_ProjectName f with
      | None => []
      | Some name => [Match (λ p, regex_search name (p_Name p))]
      end
  end.

Definition CreateSortStage (sort : option SortInput) : option Stage :=
  s ← sort; field ← so_Field s;
  Some (Sort field (match so_Ascending s with Some true => 1 | _ => -1 end)).

Definition CreatePaginationStage (pagination : option Pagination) : list Stage :=
  match pagination with
  | Some p =>
      let limit := if bool_decide (pg_Limit p > 50) then 50 else pg_Limit p in
      [Skip (int64 (pg_Page p * limit)); Limit limit]
  | None => [Limit 10]
  end.

(** ** What the stages do: [$match], [$sort], [$skip], [$limit] *)
Definition project_le (field : ProjectSortingField) (direction : Z) (p q : Project) : Prop :=
  let '(a, b) := if bool_decide (direction < 0) then (q, p) else (p, q) in
  match field with
  | ProjectSortingFieldName => String.leb (p_Name a) (p_Name b) = true
  | ProjectSortingFieldTime => a_UpdatedAt (p_Audit a) ≤ a_UpdatedAt (p_Audit b)
  end.
#[export] Instance project_le_dec field direction : RelDecision (project_le field direction).
Proof.
  intros p q. unfold project_le.
  destruct (bool_decide _), field; apply _.
Defined.

Definition run_stage (s : Stage) (l : list Project) : list Project :=
  match s with
  | Match q => List.filter q l
  | Sort field direction => merge_sort (project_le field direction) l
  | Skip n => drop (Z.to_nat n) l
  | Limit n => take (Z.to_nat n) l
  end.
Definition run_stages (ss : list Stage) (l : list Project) : list Project :=
  foldl (λ l s, run_stage s l) l ss.

(** The server refuses a negative [$skip] and a [$limit] that is not positive. *)
Definition stage_valid (s : Stage) : bool :=
  match s with
  | Skip n => bool_decide (0 ≤ n)
  | Limit n => bool_decide (0 < n)
  | _ => true
  end.

Definition list_stages (request : ListProjectRequest) : list Stage :=
  CreateMatchStage (lr_UserID request) ::
  (match lr_Filter request with
   | Some _ => CreateFilterStages (lr_Filter request) (lr_UserID request)
   | None => []
   end) ++
  match CreateSortStage (lr_Sort request) with Some s => [s] | None => [] end.

Context `{MongoDriver}.

Record ListProjectResponse : Type := mkListProjectResponse {
  lp_Projects : list Project; lp_Total : Z
}.

(** The [$facet] stage counts the matching projects and pages them; with no
    matching project [$count] emits nothing and the empty response is made. *)
Definition GetProjectsByUserID (request : ListProjectRequest) : AuthM (res ListProjectResponse) :=
  let page := CreatePaginationStage (lr_Pagination request) in
  let? result :=
    (if forallb stage_valid page then
       Aggregate (λ l : list Project,
         let matching := run_stages (list_stages request) l in
         [(Z.of_nat (length matching), run_stages page matching)])
     else mret (Err (ErrDriver 15958))) in
  match result with
  | (total, ps) :: _ => if bool_decide (total = 0) then mret (Ok (mkListProjectResponse [] 0))
                        else mret (Ok (mkListProjectResponse ps total))
  | [] => mret (Ok (mkListProjectResponse [] 0))
  end.

End stages.
