(* ===== verification/AuthService.v ===== *)
(** * AuthService.v: sessions, access control and account state

    [pkg/services] (session and transaction services), [pkg/validations]
    (RBAC), [pkg/utils] (sanitizers, random strings), the JWT middleware, the
    salt set-up and the gRPC handlers. *)
From S2P Require Import Prelude World GoStd AuthEntities AuthRepo.
From stdpp Require Import pretty.
From Stdlib Require Import Ascii.
Local Open Scope string_scope.
Local Open Scope Z_scope.

(** [JWTExpiryDuration] and the administrator's credentials come from the
    environment of the process. *)
Class Config := {
  JWTExpiryDuration : Z;
  AdminName : string;
  AdminPassword : string;
}.

(** ** [pkg/utils/sanitizers.go] *)
Definition SanitizeString (s : string) : string := TrimSpace s.

Definition is_special (c : ascii) : bool := bool_decide (c ∈ chars "@$!%*?_&#").

Definition ValidateStrictPassword (input : string) : res unit :=
  if bool_decide (String.length input < 8)%nat
  then Err (ErrNew "password length is less than 8 characters")
  else if bool_decide (16 < String.length input)%nat
  then Err (ErrNew "password length is more than 16 characters")
  else if negb (existsb is_digit (chars input))
  then Err (ErrNew "password does not contain digits")
  else if negb (existsb is_lower (chars input))
  then Err (ErrNew "password does not contain lowercase alphabets")
  else if negb (existsb is_upper (chars input))
  then Err (ErrNew "password does not contain uppercase alphabets")
  else if negb (existsb is_special (chars input))
  then Err (ErrNew "password does not contain special characters")
  else Ok tt.

(** The regular expression [^[a-zA-Z0-9][a-zA-Z0-9._@+-]{2,253}$]: a first
    character and 2 to 253 further ones, each of one byte. *)
Definition username_char (c : ascii) : bool := is_alnum c || bool_decide (c ∈ chars "._@+-").

Definition username_regexp (s : string) : bool :=
  match chars s with
  | [] => false
  | c :: l => is_alnum c && forallb username_char l &&
              bool_decide (2 ≤ length l ≤ 253)%nat
  end.

Definition ValidateStrictUsername (username : string) : res unit :=
  if username_regexp username then Ok tt
  else Err (ErrNew "username should be at least 3 characters long and at most 254 characters long, must start with a letter or digit, and can only contain letters, digits, and the characters . _ - @ +").

Section services.
Context `{MongoDriver} `{MongoTxn} `{Runtime} `{Crypto} `{Config}.

Definition crypto_Read (len : nat) : AuthM (res string) :=
  λ w, (random_bytes (tick w) len, bump w).

Definition RandomString (n : Z) : AuthM (res string) :=
  if bool_decide (n > 0) then
    let? b := crypto_Read (Z.to_nat n) in
    mret (Ok (url_encode b))
  else mret (Err (ErrNew "length should be greater than 0")).

(** ** [api/handlers/salt.go] *)
Definition AddSalt : AuthM (res unit) :=
  getSalt ← configRepo_GetConfig "salt";
  match getSalt with
  | Panic => mret Panic
  | Ok _ => mret (Ok tt)
  | Err ErrNoDocuments =>
      let? salt := RandomString 32 in
      configRepo_CreateConfig (mkAuthConfig "salt" (std_encode salt))
  | Err e => mret (Err e)
  end.

(** ** [pkg/services/session_service.go] *)
Definition parseToken (encodedToken : string) : AuthM (res Claims) :=
  let! salt := configRepo_GetConfig "salt"
  or _ => mret (Err (ErrNew "couldn't fetch jwt secret")) in
  t ← now;
  mret (jwt_parse (t / 1000) (ac_Value salt) encodedToken).

(** [claims["exp"].(float64)] panics when the claim is missing. *)
Definition RevokeToken (tokenString : string) : AuthM (res unit) :=
  let? claims := parseToken tokenString in
  match c_exp claims with
  | None => mret Panic
  | Some exp =>
      t ← now;
      sessionRepo_RevokeToken (mkRevokedToken tokenString exp t)
  end.

Definition ValidateToken (encodedToken : string) : AuthM (res Claims) :=
  let? claims := parseToken encodedToken in
  revoked ← sessionRepo_IsTokenRevoked encodedToken;
  if (revoked : bool) then mret (Err (ErrNew "token revoked")) else mret (Ok claims).

Definition user_claims (u : User) (exp : Z) : Claims :=
  mkClaims (Some (u_ID u)) (Some (u_Role u)) (Some (u_Username u)) (Some exp).

Definition GetSignedJWT (u : User) (jwtSecret : string) : AuthM (res string) :=
  t ← now;
  mret (jwt_sign jwtSecret (user_claims u ((t + JWTExpiryDuration * 60000) / 1000))).

Definition CreateApiToken (u : User) (request : ApiTokenInput) : AuthM (res string) :=
  t ← now;
  let expiresAt := add_days t (ati_DaysUntilExpiration request) / 1000 in
  let! salt := configRepo_GetConfig "salt"
  or _ => mret (Err (ErrNew "couldn't fetch jwt secret")) in
  match jwt_sign (ac_Value salt) (user_claims u expiresAt) with
  | Ok tokenString =>
      created ← now;
      let? _ := sessionRepo_CreateApiToken
                  (mkApiToken (u_ID u) (ati_Name request) tokenString expiresAt created) in
      mret (Ok tokenString)
  | Err e => mret (Err e)
  | Panic => mret Panic
  end.

(** ** [pkg/validations] *)
Definition all_roles : list MemberRole := [RoleOwner; RoleViewer; RoleExecutor; RoleEditor].

Definition MutationRbacRules (rule : string) : list MemberRole :=
  if str_in rule ["sendInvitation"; "removeInvitation"; "updateProjectName";
                  "updateMemberRole"; "deleteProject"; "getActiveProjectMembers"]
  then [RoleOwner]
  else if str_in rule ["acceptInvitation"; "declineInvitation"; "leaveProject"; "getProject"]
  then all_roles
  else [].

Definition member_matches (uid : string) (roles : list string) (i : Invitation) (m : Member) : bool :=
  str_eq (m_UserID m) uid && str_in (m_Role m) roles && str_eq (m_Invitation m) i.

Definition rbac_filter (uid pid : string) (roles : list string) (i : Invitation) (p : Project) : bool :=
  by_project_id pid p && existsb (member_matches uid roles i) (p_Members p).

Definition RbacValidator (uid projectID : string) (requiredRoles : list string)
    (invitation : Invitation) : AuthM (res unit) :=
  let? user := userRepo_GetUser uid in
  if bool_decide (u_DeactivatedAt user ≠ None)
  then mret (Err (ErrNew "auth gRPC - Deactivated User"))
  else
    let? project := projectRepo_GetProjects (rbac_filter uid projectID requiredRoles invitation) in
    if bool_decide (length project = 0%nat)
    then mret (Err (ErrNew "auth gRPC - Unauthorized"))
    else mret (Ok tt).

(** [api/handlers/rest/validations.go] *)
Definition CheckInitialLogin (uid : string) : AuthM (res bool) :=
  let? user := userRepo_GetUser uid in
  mret (Ok (u_IsInitialLogin user)).

(** ** [pkg/services/transaction_service.go]

    The writes of the transaction are made on a copy of the database that
    replaces the database when the commit is applied. *)
Definition transaction_body (username : string) (isDeactivate : bool) : AuthM (res unit) :=
  let! user := userRepo_FindUserByUsername username
  or _ => mret (Err (ErrApp ErrUserNotFound)) in
  if str_eq (u_Role user) RoleAdmin then mret (Err (ErrApp ErrUpdatingAdmin))
  else
    t ← (if isDeactivate then now else mret 0);
    if isDeactivate && bool_decide (u_DeactivatedAt user ≠ None)
    then mret (Err (ErrApp ErrUserAlreadyDeactivated))
    else
      let! _ := userRepo_UpdateUserState username isDeactivate t
      or _ => mret (Err (ErrApp ErrServerError)) in
      let! _ := projectRepo_UpdateProjectState (u_ID user) t isDeactivate
      or _ => mret (Err (ErrApp ErrServerError)) in
      mret (Ok tt).

Definition with_transaction (body : AuthM (res unit)) : AuthM (res unit) :=
  λ w, let '(r, w1) := body w in
       let rollback := mkWorld (db w) (S (tick w1)) in
       match r with
       | Ok _ => let '(c, applied) := txn_commit (tick w1) in
                 (c, if (applied : bool) then mkWorld (db w1) (S (tick w1)) else rollback)
       | _ => (r, rollback)
       end.

Definition outside (f : nat → res unit) : AuthM (res unit) := λ w, (f (tick w), bump w).

Definition UpdateStateTransaction (request : UpdateUserStateInput) : AuthM (res unit) :=
  let? _ := outside txn_start_session in
  let? _ := outside txn_start in
  match us_IsDeactivate request with
  | None =>
      (* the role tests come first, then the dereference of a nil pointer *)
      let! user := userRepo_FindUserByUsername (us_Username request)
      or _ => mret (Err (ErrApp ErrUserNotFound)) in
      if str_eq (u_Role user) RoleAdmin then mret (Err (ErrApp ErrUpdatingAdmin)) else mret Panic
  | Some isDeactivate => with_transaction (transaction_body (us_Username request) isDeactivate)
  end.

(** ** [pkg/utils/mongo_database.go], and the collections in [api/main.go] *)
Section collections.
Context `{IndexAdmin}.
Definition MongoConnection (url user password : string) : AuthM (res unit) := outside (λ n, mongo_open n url user password).
Definition CreateCollection (collectionName : string) : AuthM (res unit) :=
  let! _ := outside admin_call or err =>
    mret (match err with
          | ErrNew msg => if Contains msg "already exists" then Ok tt else Err err
          | _ => Err err
          end) in
  mret (Ok tt).

(** [Indexes().CreateOne]: a unique index is refused when keys occur twice. *)
Definition add_index (name : string) (ix : IndexModel) (s : AuthDB) : AuthDB :=
  mkAuthDB (users s) (projects s) (revoked_tokens s) (api_tokens s) (auth_configs s) ((name, ix) :: auth_indexes s).
Definition admits_index (name : string) (ix : IndexModel) (s : AuthDB) : bool :=
  if bool_decide ((name, ix) = ("users", username_index)) then bool_decide (NoDup (u_Username <$> users s)) else true.
Definition CreateOne (name : string) (ix : IndexModel) : AuthM (res unit) := λ w,
  if admits_index name ix (db w) then
    match admin_call (tick w) with
    | Ok _ => (Ok tt, mkWorld (add_index name ix (db w)) (S (tick w)))
    | r => (r, mkWorld (if admin_applied (tick w) then add_index name ix (db w) else db w) (S (tick w)))
    end
  else (Err ErrDuplicateKey, bump w).
Definition CreateIndex (collectionName field : string) : AuthM (res unit) :=
  CreateOne collectionName (mkIndexModel [field] true None None).
Definition CreateTTLIndex (collectionName : string) : AuthM (res unit) :=
  CreateOne collectionName (mkIndexModel ["expires_at"] false None (Some 0)).

(** Errors are logged, and the start goes on: the result is what is logged. *)
Definition log_error (m : AuthM (res unit)) : AuthM (list error) :=
  r ← m; mret (match r with Err e => [e] | _ => [] end).
Definition create_collections : AuthM (list error) :=
  e1 ← log_error (CreateCollection "users");
  e2 ← log_error (CreateIndex "users" "username");
  e3 ← log_error (CreateCollection "project");
  e4 ← log_error (CreateCollection "auth-config");
  e5 ← log_error (CreateCollection "revoked-token");
  e6 ← log_error (CreateTTLIndex "revoked-token");
  e7 ← log_error (CreateCollection "api-token");
  mret (e1 ++ e2 ++ e3 ++ e4 ++ e5 ++ e6 ++ e7)%list.
End collections.

(** ** [api/main.go], [validatedAdminSetup] *)
Definition validatedAdminSetup : AuthM (res unit) :=
  uID ← NewUUID;
  gen ← bcrypt_GenerateFromPassword AdminPassword;
  let password := match gen with Ok h => h | _ => "" end in
  created ← now;
  updated ← now;
  let admin := mkUser (mkAudit updated created no_detail no_detail false) uID AdminName password
                 "" "" "" RoleAdmin None true in
  r ← userRepo_CreateUser admin;
  match r with
  | Ok _ => mret (Ok tt)
  | Err (ErrApp ErrUserExists) => mret (Ok tt)
  | Err e => mret (Err e) (* log.Fatalf: the process stops *)
  | Panic => mret Panic
  end.

(** ** [api/handlers/grpc/grpc_handler.go] *)
Definition ValidateRequest (jwt projectId : string) (requiredRoles : list string)
    (invitation : Invitation) : AuthM (res bool) :=
  let? claims := ValidateToken jwt in
  match c_uid claims with
  | None => mret (Ok false)
  | Some uid =>
      let? _ := RbacValidator uid projectId requiredRoles invitation in
      mret (Ok true)
  end.

Record ProtoMember : Type := mkProtoMember {
  pm_Email : string; pm_Username : string; pm_Invitation : string; pm_Uid : string;
  pm_JoinedAt : string
}.
Record ProtoProject : Type := mkProtoProject {
  pp_Id : string; pp_Name : string; pp_Members : list ProtoMember; pp_CreatedAt : string;
  pp_UpdatedAt : string
}.

(** [memberMap]: later entries overwrite earlier ones. *)
Definition member_map (us : list User) : gmap string User :=
  foldl (λ m u, <[u_ID u := u]> m) ∅ us.

Definition GetProjectById (pid : string) : AuthM (res ProtoProject) :=
  let? project := projectRepo_GetProjectByProjectID pid in
  let uids := m_UserID <$> p_Members project in
  let? authUsers := userRepo_FindUsersByUID uids in
  let memberMap := member_map authUsers in
  mret (Ok (mkProtoProject (p_ID project) (p_Name project)
    ((λ m, mkProtoMember
             (default "" (u_Email <$> memberMap !! m_UserID m))
             (default "" (u_Username <$> memberMap !! m_UserID m))
             (m_Invitation m) (m_UserID m) (pretty (m_JoinedAt m))) <$> p_Members project)
    (pretty (a_CreatedAt (p_Audit project))) (pretty (a_UpdatedAt (p_Audit project))))).

Record ProtoUser : Type := mkProtoUser {
  pu_Id : string; pu_Name : string; pu_Username : string; pu_CreatedAt : string;
  pu_UpdatedAt : string; pu_DeactivatedAt : string; pu_Role : string; pu_Email : string
}.

Definition GetUserById (uid : string) : AuthM (res ProtoUser) :=
  let? u := userRepo_GetUser uid in
  mret (Ok (mkProtoUser (u_ID u) (u_Name u) (u_Username u)
    (pretty (a_CreatedAt (u_Audit u))) (pretty (a_UpdatedAt (u_Audit u)))
    (match u_DeactivatedAt u with Some t => pretty t | None => "" end) (u_Role u) (u_Email u))).

End services.
