(* ===== verification/AuthHandlers.v ===== *)
(** * AuthHandlers.v: the REST handlers of the authentication service

    [api/middleware/jwt_middlware.go], [api/handlers/rest/project_handler.go],
    [user_handlers.go] and [dex_auth_handler.go]. A handler gets the values the
    middleware stored in the request context, the URL and query parameters and
    the decoded body ([None] when [BindJSON] fails), and gives the response it
    writes. *)
From S2P Require Import Prelude World GoStd AuthEntities AuthRepo AuthListing.
From S2P Require Import AuthService.
Local Open Scope string_scope.
Local Open Scope Z_scope.

(** ** Requests and responses *)
Record Ctx : Type := mkCtx {
  ctx_uid : option string; ctx_role : option string; ctx_username : option string
}.

Record ListInvitationResponse : Type := mkListInvitationResponse {
  li_ProjectID : string; li_ProjectName : string; li_ProjectOwner : Member;
  li_InvitationRole : MemberRole
}.
Record UserWithProject : Type := mkUserWithProject {
  uw_ID : string; uw_Username : string; uw_Email : string; uw_Name : string;
  uw_Projects : list Project
}.

Inductive Body : Type :=
| BError (e : error)               (* presenter.CreateErrorResponse *)
| BMessage (m : string)
| BUser (u : User)
| BUsers (us : list User)
| BUserWithProject (u : UserWithProject)
| BProject (p : Project)
| BProjects (ps : list Project)
| BProjectList (r : ListProjectResponse)
| BProjectStats (s : list ProjectStats)
| BMembers (ms : list Member)
| BMember (m : Member)
| BInvitations (l : list ListInvitationResponse)
| BRole (r : string)
| BLogin (token projectID : string) (expiresIn : Z)
| BToken (token : string)
| BApiTokens (ts : list ApiToken)
| BPasswordUpdated (projectID : string).

Inductive Response : Type :=
| JSON (status : Z) (b : Body)
| Redirect (status : Z) (url : string)
| NoResponse                        (* the handler returns without writing *)
| PanicResponse.                    (* gin's recovery answers 500 *)

#[export] Instance response_panic : HasPanic Response := PanicResponse.

(** Requests that were served: a success status. *)
Definition served (r : Response) : Prop := match r with JSON 200 _ => True | _ => False end.

Definition fail_as (status e : AppError) : Response := JSON (AppErrorStatus status) (BError (ErrApp e)).
Definition fail (e : AppError) : Response := fail_as e e.
Definition ok (b : Body) : Response := JSON 200 b.

(** [c.MustGet(k).(string)] and [c.BindJSON]. *)
Definition must {B} `{HasPanic B} (v : option string) (k : string → AuthM B) : AuthM B :=
  match v with Some x => k x | None => mret panic end.
Definition bind_json {A} (body : option A) (k : A → AuthM Response) : AuthM Response :=
  match body with Some x => k x | None => mret (fail ErrInvalidRequest) end.

Notation "'let*' x := 'must' v 'in' k" := (must v (λ x, k))
  (at level 10, x binder, v at level 200, k at level 200) : chaos_scope.
Notation "'let*' x := 'body' v 'in' k" := (bind_json v (λ x, k))
  (at level 10, x binder, v at level 200, k at level 200) : chaos_scope.

Section handlers.
Context `{MongoDriver} `{MongoTxn} `{Runtime} `{Crypto} `{Config} `{Regex}.

(** ** The JWT middleware *)
Definition drop_bearer (header : string) : option string :=
  if bool_decide (7 ≤ String.length header)%nat
  then Some (String.substring 7 (String.length header - 7) header) else None.

Definition JwtMiddleware (authHeader : string) (next : Ctx → AuthM Response) : AuthM Response :=
  if str_eq authHeader "" then mret (fail ErrUnauthorized)
  else let* tokenString := must (drop_bearer authHeader) in
       let! claims := ValidateToken tokenString or _ => mret (fail ErrUnauthorized) in
       next (mkCtx (c_uid claims) (c_role claims) (c_username claims)).

(** The test every mutating handler makes: has the caller changed the default
    password? *)
Definition require_password_changed (uid : string) (k : AuthM Response) : AuthM Response :=
  let! initialLogin := CheckInitialLogin uid or _ => mret (fail ErrServerError) in
  if (initialLogin : bool) then mret (fail_as ErrServerError ErrPasswordNotUpdated) else k.

Definition require_rbac (uid pid rule : string) (i : Invitation) (k : AuthM Response) :
    AuthM Response :=
  let! _ := RbacValidator uid pid (MutationRbacRules rule) i
  or _ => mret (fail ErrUnauthorized) in k.

(** ** Project handlers that read *)
Definition GetUserWithProject (c : Ctx) (username : string) (query : string → string) :
    AuthM Response :=
  let* role := must (ctx_role c) in
  let* self := must (ctx_username c) in
  if negb (str_eq self username) && negb (str_eq role RoleAdmin)
  then mret (fail ErrUnauthorized)
  else
    let! user := userRepo_FindUserByUsername username or _ => mret (fail ErrUserNotFound) in
    match GetProjectFilters (ctx_uid c) query with
    | Err e => mret (JSON 400 (BError e))
    | Panic => mret PanicResponse
    | Ok request =>
        let request := mkListProjectRequest (u_ID user) (lr_Sort request) (lr_Filter request)
                         (lr_Pagination request) in
        let! found := GetProjectsByUserID request or _ => mret (fail ErrServerError) in
        mret (ok (BUserWithProject (mkUserWithProject (u_ID user) (u_Username user)
                    (u_Email user) (u_Name user) (lp_Projects found))))
    end.

Definition GetProject (c : Ctx) (projectID : string) : AuthM Response :=
  let* userRole := must (ctx_role c) in
  let read :=
    let! project := projectRepo_GetProjectByProjectID projectID or _ => mret (fail ErrServerError) in
    mret (ok (BProject project)) in
  if str_eq userRole RoleAdmin then read
  else let* uid := must (ctx_uid c) in
       require_rbac uid projectID "getProject" AcceptedInvitation read.

(** The test for an empty result precedes the test of the error, and a failed
    query has no result. *)
Definition GetProjectsByUserID_handler (c : Ctx) (query : string → string) : AuthM Response :=
  match GetProjectFilters (ctx_uid c) query with
  | Err e => mret (JSON 400 (BError e))
  | Panic => mret PanicResponse
  | Ok request =>
      found ← GetProjectsByUserID request;
      match found with
      | Panic => mret PanicResponse
      | Err _ => mret (ok (BMessage "No projects found"))
      | Ok r => if bool_decide (lp_Total r = 0) then mret (ok (BMessage "No projects found"))
                else mret (ok (BProjectList r))
      end
  end.

Definition GetProjectStats_handler (c : Ctx) : AuthM Response :=
  let* role := must (ctx_role c) in
  if negb (str_eq role RoleAdmin)
  then mret (JSON 400 (BMessage "Permission denied, user is not admin"))
  else
    let! stats := projectRepo_GetProjectStats or _ => mret (fail ErrServerError) in
    mret (ok (BProjectStats stats)).

Definition GetActiveProjectMembers (c : Ctx) (projectID state : string) : AuthM Response :=
  let* role := must (ctx_role c) in
  let read :=
    let! members := projectRepo_GetProjectMembers projectID state or _ => mret (fail ErrServerError) in
    mret (ok (BMembers members)) in
  if str_eq role RoleAdmin then read
  else let* uid := must (ctx_uid c) in
       require_rbac uid projectID "getActiveProjectMembers" AcceptedInvitation read.

Definition GetActiveProjectOwners (projectID : string) : AuthM Response :=
  let! owners := projectRepo_GetProjectOwners projectID or _ => mret (fail ErrServerError) in
  mret (ok (BMembers owners)).

(** The invitation of the first matching member, "" for no member. *)
Fixpoint first_invitation (uid : string) (ms : list Member) : Invitation :=
  match ms with
  | [] => ""
  | m :: ms => if str_eq (m_UserID m) uid then m_Invitation m else first_invitation uid ms
  end.

Definition getInvitation (member : MemberInput) : AuthM (res Invitation) :=
  let? project := projectRepo_GetProjectByProjectID (mi_ProjectID member) in
  mret (Ok (first_invitation (mi_UserID member) (p_Members project))).

Definition invitation_response (p : Project) : ListInvitationResponse :=
  foldl (λ r m, if is_owner m
                then mkListInvitationResponse (li_ProjectID r) (li_ProjectName r) m (li_InvitationRole r)
                else mkListInvitationResponse (li_ProjectID r) (li_ProjectName r) (li_ProjectOwner r) (m_Role m))
    (mkListInvitationResponse (p_ID p) (p_Name p) no_member "") (p_Members p).

Definition ListInvitations (c : Ctx) (invitationState : string) : AuthM Response :=
  let* uID := must (ctx_uid c) in
  let! projects := projectRepo_ListInvitations uID invitationState
  or _ => mret (fail ErrServerError) in
  mret (ok (BInvitations (invitation_response <$> projects))).

Definition GetOwnerProjects (c : Ctx) : AuthM Response :=
  let* uid := must (ctx_uid c) in
  let! found := projectRepo_GetOwnerProjects uid or _ => mret (fail ErrServerError) in
  mret (ok (BProjects found)).

Definition GetProjectRole (c : Ctx) (projectID : string) : AuthM Response :=
  let* uid := must (ctx_uid c) in
  let! role := projectRepo_GetProjectRole projectID uid
  or e => mret (if bool_decide (e = ErrNoDocuments) then fail ErrProjectNotFound
                else fail ErrServerError) in
  mret (ok (BRole (default "N/A" role))).

(** ** Project handlers that change the database *)
Definition user_detail (u : User) : UserDetailResponse :=
  mkUserDetail (u_ID u) (u_Username u) (u_Email u).

(** The owner entry stores the user's [Name] as [Username] and leaves [Name]
    empty. *)
Definition CreateProject (c : Ctx) (request : option CreateProjectInput) : AuthM Response :=
  let* userRequest := body request in
  let* userID := must (ctx_uid c) in
  require_password_changed userID
  (if str_eq (cp_ProjectName userRequest) "" then mret (fail ErrEmptyProjectName)
   else
     let description := default "" (cp_Description userRequest) in
     let tags := default [] (cp_Tags userRequest) in
     let! user := userRepo_GetUser userID or _ => mret (fail ErrServerError) in
     let! found := projectRepo_GetProjects (λ p, str_eq (p_Name p) (cp_ProjectName userRequest))
     or _ => mret NoResponse in
     if bool_decide (0 < length found)%nat
     then mret (JSON 400 (BMessage ("project with name:" +:+ cp_ProjectName userRequest +:+ " already exists")))
     else
       pID ← NewUUID;
       joined ← now;
       let newMember := mkMember (u_ID user) (u_Name user) (u_Email user) "" RoleOwner
                          AcceptedInvitation joined None in
       created ← now;
       updated ← now;
       let newProject := mkProject (mkAudit updated created (user_detail user) (user_detail user) false)
                           pID (cp_ProjectName userRequest) [newMember] (Some "active") tags
                           (Some description) in
       let! _ := projectRepo_CreateProject newProject or _ => mret (fail ErrServerError) in
       mret (ok (BProject (GetProjectOutput newProject)))).

Definition valid_role (role : option MemberRole) : option MemberRole :=
  match role with
  | Some r => if str_in r [RoleExecutor; RoleViewer; RoleOwner; RoleEditor] then Some r else None
  | None => None
  end.

Definition SendInvitation (c : Ctx) (request : option MemberInput) : AuthM Response :=
  let* member := body request in
  let* uid := must (ctx_uid c) in
  require_rbac uid (mi_ProjectID member) "sendInvitation" AcceptedInvitation
  (require_password_changed uid
  (match valid_role (mi_Role member) with
   | None => mret (fail ErrInvalidRole)
   | Some role =>
     let! user := userRepo_GetUser (mi_UserID member)
     or e => mret (if bool_decide (e = ErrNoDocuments) then fail ErrUserNotFound
                   else fail ErrServerError) in
     let! invitation := getInvitation member
     or e => mret (if bool_decide (e = ErrNoDocuments) then fail ErrProjectNotFound
                   else fail ErrServerError) in
     if str_eq invitation AcceptedInvitation
     then mret (JSON (AppErrorStatus ErrInvalidRequest) (BMessage "user is already a member of this project"))
     else if str_in invitation [PendingInvitation; DeclinedInvitation; ExitedProject]
     then
       let! _ := projectRepo_UpdateInvite (mi_ProjectID member) (mi_UserID member)
                   PendingInvitation (mi_Role member)
       or _ => mret (fail ErrServerError) in
       mret (ok (BMessage "Invitation sent successfully"))
     else
       joined ← now;
       let newMember := mkMember (u_ID user) (u_Username user) (u_Email user) (u_Name user) role
                          PendingInvitation joined None in
       let! _ := projectRepo_AddMember (mi_ProjectID member) newMember
       or _ => mret (fail ErrServerError) in
       mret (ok (BMember newMember))
   end)).

Definition AcceptInvitation (c : Ctx) (request : option MemberInput) : AuthM Response :=
  let* member := body request in
  let* uid := must (ctx_uid c) in
  require_password_changed uid
  (require_rbac uid (mi_ProjectID member) "acceptInvitation" PendingInvitation
  (let! _ := projectRepo_UpdateInvite (mi_ProjectID member) uid AcceptedInvitation None
   or _ => mret (fail ErrServerError) in
   mret (ok (BMessage "Successful")))).

Definition DeclineInvitation (c : Ctx) (request : option MemberInput) : AuthM Response :=
  let* member := body request in
  let* uid := must (ctx_uid c) in
  require_password_changed uid
  (require_rbac uid (mi_ProjectID member) "declineInvitation" PendingInvitation
  (let! _ := projectRepo_UpdateInvite (mi_ProjectID member) uid DeclinedInvitation None
   or _ => mret (fail ErrServerError) in
   mret (ok (BMessage "successful")))).

(** The number of owners is tested only when the request itself says that the
    caller is an owner. *)
Definition LeaveProject (c : Ctx) (request : option MemberInput) : AuthM Response :=
  let* member := body request in
  let leave :=
    let* uid := must (ctx_uid c) in
    require_password_changed uid
    (require_rbac uid (mi_ProjectID member) "leaveProject" AcceptedInvitation
    (let! _ := projectRepo_UpdateInvite (mi_ProjectID member) uid ExitedProject None
     or _ => mret (fail ErrServerError) in
     mret (ok (BMessage "successful")))) in
  if bool_decide (mi_Role member = Some RoleOwner) then
    let! owners := projectRepo_GetProjectOwners (mi_ProjectID member)
    or _ => mret (fail ErrServerError) in
    if bool_decide (length owners = 1%nat)
    then mret (JSON (AppErrorStatus ErrInvalidRequest)
                 (BMessage "Cannot leave project. There must be at least one owner."))
    else leave
  else leave.

Definition RemoveInvitation (c : Ctx) (request : option MemberInput) : AuthM Response :=
  let* member := body request in
  if str_eq (mi_UserID member) "" then mret (fail ErrInvalidRequest)
  else
    let* uid := must (ctx_uid c) in
    require_password_changed uid
    (require_rbac uid (mi_ProjectID member) "removeInvitation" AcceptedInvitation
    (if str_eq uid (mi_UserID member)
     then mret (JSON 400 (BMessage "User cannot remove invitation of themselves use Leave Project."))
     else
       let! invitation := getInvitation member or _ => mret (fail ErrServerError) in
       if str_in invitation [AcceptedInvitation; PendingInvitation] then
         let! _ := projectRepo_RemoveInvitation (mi_ProjectID member) (mi_UserID member) invitation
         or _ => mret (fail ErrServerError) in
         mret (ok (BMessage "successful"))
       else if str_in invitation [DeclinedInvitation; ExitedProject]
       then mret (JSON 400 (BMessage "User is not a part of your project"))
       else mret (ok (BMessage "successful")))).

(** [{name: ..., members.user_id: uid, members.role: Owner}]: the two member
    conditions may hold of different members. *)
Definition name_filter (name uid : string) (p : Project) : bool :=
  str_eq (p_Name p) name && existsb (λ m, str_eq (m_UserID m) uid) (p_Members p) &&
  existsb is_owner (p_Members p).

Definition UpdateProjectName (c : Ctx) (request : option ProjectInput) : AuthM Response :=
  let* userRequest := body request in
  let* uid := must (ctx_uid c) in
  require_password_changed uid
  (require_rbac uid (pi_ProjectID userRequest) "updateProjectName" AcceptedInvitation
  (let! found := projectRepo_GetProjects (name_filter (pi_ProjectName userRequest) uid)
   or _ => mret NoResponse in
   if bool_decide (0 < length found)%nat
   then mret (JSON 400 (BMessage ("project with name: " +:+ pi_ProjectName userRequest +:+ " already exists")))
   else
     let! _ := projectRepo_UpdateProjectName (pi_ProjectID userRequest) (pi_ProjectName userRequest)
     or _ => mret (fail ErrServerError) in
     mret (ok (BMessage "successful")))).

Definition UpdateMemberRole (c : Ctx) (request : option MemberInput) : AuthM Response :=
  let* member := body request in
  match valid_role (mi_Role member) with
  | None => mret (fail ErrInvalidRole)
  | Some role =>
    let* uid := must (ctx_uid c) in
    require_rbac uid (mi_ProjectID member) "updateMemberRole" AcceptedInvitation
    (if str_eq uid (mi_UserID member)
     then mret (JSON 400 (BMessage "User cannot change their own role."))
     else
       let! _ := projectRepo_UpdateMemberRole (mi_ProjectID member) (mi_UserID member) (mi_Role member)
       or _ => mret (fail ErrServerError) in
       mret (ok (BMessage "successful")))
  end.

Definition DeleteProject (c : Ctx) (projectID : string) : AuthM Response :=
  let* uid := must (ctx_uid c) in
  require_rbac uid projectID "deleteProject" AcceptedInvitation
  (let! _ := projectRepo_DeleteProject projectID or _ => mret (fail ErrServerError) in
   mret (ok (BMessage "Successfully deleted project."))).

End handlers.
