(* ===== verification/AuthUserHandlers.v ===== *)
(** * AuthUserHandlers.v: the user, token and OAuth handlers

    [api/handlers/rest/user_handlers.go] and [dex_auth_handler.go]; and the routes
    without accounts: [misc_handlers.go], [capabilities_handler.go], [pkg/misc] and
    the middleware for origins ([api/middleware/cors.go]), none of which writes. *)
From S2P Require Import Prelude World GoStd AuthEntities AuthRepo AuthListing.
From S2P Require Import AuthService AuthHandlers.
Local Open Scope string_scope.
Local Open Scope Z_scope.

(** OpenID Connect: the state token check, the provider set-up, the code
    exchange (with the raw id token, if any) and the verification of the id
    token with its claims. *)
Record OIDCClaims : Type := mkOIDCClaims { oc_Name : string; oc_Email : string; oc_Verified : bool }.
Class OIDC := {
  oauth_state_valid (n : nat) (state : string) : bool;
  oauth_config (n : nat) : res unit;
  oauth_exchange (n : nat) (authcode : string) : res (option string);
  oidc_verify (n : nat) (rawIDToken : string) : res OIDCClaims;
}.

Section handlers.
Context `{MongoDriver} `{MongoTxn} `{Runtime} `{Crypto} `{Config} `{Regex} `{OIDC}.

(** [strings.Contains(err.Error(), s)] for the errors the code makes itself. *)
Definition error_contains (e : error) (s : string) : bool :=
  match e with
  | ErrNew m => bool_decide (is_Some (String.index 0 s m))
  | _ => false
  end.

(** The project with the user as only member that [LoginUser],
    [UpdatePassword] and [OAuthCallback] create. *)
Definition new_default_project (user : User) : AuthM (res string) :=
  joined ← now;
  let newMember := mkMember (u_ID user) (u_Username user) (u_Email user) (u_Name user) RoleOwner
                     AcceptedInvitation joined None in
  pID ← NewUUID;
  created ← now;
  updated ← now;
  let newProject := mkProject (mkAudit updated created (user_detail user) (user_detail user) false)
                      pID (u_Username user +:+ "-project") [newMember] (Some "active") [] None in
  let? _ := projectRepo_CreateProject newProject in
  mret (Ok pID).

(** [ownerProjects, err := GetOwnerProjectIDs(...)]: the error is not tested,
    and a failed query counts as no project. *)
Definition owner_projects (uid : string) : AuthM (list Project) :=
  r ← projectRepo_GetOwnerProjects uid;
  mret (match r with Ok ps => ps | _ => [] end).

Definition CreateUser (c : Ctx) (request : option User) : AuthM Response :=
  let* userRole := must (ctx_role c) in
  if negb (str_eq userRole RoleAdmin) then mret (fail ErrUnauthorized)
  else
    let* u := body request in
    if negb (str_eq (u_Role u) RoleUser) && negb (str_eq (u_Role u) RoleAdmin)
    then mret (fail ErrInvalidRequest)
    else
      let username := SanitizeString (u_Username u) in
      if str_eq (u_Role u) "" || str_eq username "" || str_eq (u_Password u) ""
      then mret (fail ErrInvalidRequest)
      else if negb (is_ok (ValidateStrictUsername username))
      then mret (fail ErrStrictUsernamePolicyViolation)
      else
        uID ← NewUUID;
        let! hashed := bcrypt_GenerateFromPassword (u_Password u)
        or _ => mret (fail ErrServerError) in
        if negb (str_eq (u_Email u) "") && negb (mail_valid (u_Email u))
        then mret (fail ErrInvalidEmail)
        else
          createdAt ← now;
          let a := u_Audit u in
          let user := mkUser (mkAudit (a_UpdatedAt a) createdAt (a_CreatedBy a) (a_UpdatedBy a) (a_IsRemoved a))
                        uID username hashed (u_Salt u) (u_Email u) (u_Name u) (u_Role u)
                        (u_DeactivatedAt u) true in
          let! created := userRepo_CreateUser user
          or e => mret (if bool_decide (e = ErrApp ErrUserExists) then fail ErrUserExists
                        else fail ErrServerError) in
          mret (ok (BUser created)).

Definition UpdateUser (c : Ctx) (request : option UserDetails) : AuthM Response :=
  let* d := body request in
  let* uid := must (ctx_uid c) in
  require_password_changed uid
  (let! _ := userRepo_UpdateUser (mkUserDetails uid (det_Email d) (det_Name d))
   or _ => mret (fail ErrServerError) in
   mret (ok (BMessage "User details updated successfully"))).

Definition GetUser (c : Ctx) (uid : string) : AuthM Response :=
  let* role := must (ctx_role c) in
  let* self := must (ctx_uid c) in
  if negb (str_eq self uid) && negb (str_eq role RoleAdmin) then mret (fail ErrUnauthorized)
  else
    let! user := userRepo_GetUser uid or _ => mret (fail ErrUserNotFound) in
    mret (ok (BUser user)).

Definition FetchUsers (c : Ctx) : AuthM Response :=
  let* userRole := must (ctx_role c) in
  if negb (str_eq userRole RoleAdmin) then mret (fail ErrUnauthorized)
  else
    let! us := userRepo_GetUsers or _ => mret (fail ErrServerError) in
    mret (ok (BUsers us)).

(** The error of [GetProjectMembers] is overwritten before it is tested. *)
Definition InviteUsers (c : Ctx) (projectID : string) : AuthM Response :=
  if str_eq projectID "" then mret (fail ErrInvalidRequest)
  else
    let* uid := must (ctx_uid c) in
    require_rbac uid projectID "sendInvitation" AcceptedInvitation
    (r ← projectRepo_GetProjectMembers projectID "all";
     let projectMembers := match r with Ok ms => ms | _ => [] end in
     let! us := userRepo_InviteUsers (m_UserID <$> projectMembers)
     or _ => mret (fail ErrServerError) in
     mret (ok (BUsers us))).

Definition LoginUser (request : option User) : AuthM Response :=
  let* u := body request in
  let username := SanitizeString (u_Username u) in
  if str_eq username "" || str_eq (u_Password u) "" then mret (fail ErrInvalidRequest)
  else
    let! user := userRepo_FindUserByUsername username or _ => mret (fail ErrInvalidCredentials) in
    if bool_decide (u_DeactivatedAt user ≠ None) then mret (fail ErrInvalidCredentials)
    else if negb (is_ok (userRepo_CheckPasswordHash (u_Password user) (u_Password u)))
    then mret (fail ErrInvalidCredentials)
    else
      let! salt := configRepo_GetConfig "salt" or _ => mret (fail ErrServerError) in
      let! token := GetSignedJWT user (ac_Value salt) or _ => mret (fail ErrServerError) in
      let expiryTime := JWTExpiryDuration * 60 in
      ownerProjects ← owner_projects (u_ID user);
      match ownerProjects with
      | p :: _ => mret (ok (BLogin token (p_ID p) expiryTime))
      | [] =>
          if u_IsInitialLogin user then mret (ok (BLogin token "" expiryTime))
          else
            let! pid := new_default_project user or _ => mret NoResponse in
            mret (ok (BLogin token pid expiryTime))
      end.

Definition LogoutUser (authHeader : string) : AuthM Response :=
  if str_eq authHeader "" then mret (fail ErrUnauthorized)
  else
    let* tokenString := must (drop_bearer authHeader) in
    let! _ := RevokeToken tokenString or _ => mret (fail ErrServerError) in
    mret (ok (BMessage "successfully logged out")).

Definition UpdatePassword (c : Ctx) (request : option UserPassword) : AuthM Response :=
  let* up := body request in
  let* username := must (ctx_username c) in
  let! user := userRepo_FindUserByUsername username
  or _ => mret (fail_as ErrUserNotFound ErrInvalidCredentials) in
  if str_eq (up_NewPassword up) "" then mret (fail ErrInvalidRequest)
  else if negb (is_ok (ValidateStrictPassword (up_NewPassword up)))
  then mret (fail ErrStrictPasswordPolicyViolation)
  else
    let! _ := userRepo_UpdatePassword (mkUserPassword username (up_OldPassword up) (up_NewPassword up)) true
    or e => mret (if error_contains e "old and new passwords can't be same" then fail ErrOldPassword
                  else if error_contains e "invalid credentials" then fail ErrInvalidCredentials
                  else fail ErrServerError) in
    ownerProjects ← owner_projects (u_ID user);
    match ownerProjects with
    | p :: _ => mret (ok (BPasswordUpdated (p_ID p)))
    | [] =>
        let! pid := new_default_project user or _ => mret NoResponse in
        mret (ok (BPasswordUpdated pid))
    end.

Definition ResetPassword (c : Ctx) (request : option UserPassword) : AuthM Response :=
  let* userRole := must (ctx_role c) in
  if negb (str_eq userRole RoleAdmin) then mret (fail ErrUnauthorized)
  else
    let* up := body request in
    let* uid := must (ctx_uid c) in
    let* adminName := must (ctx_username c) in
    require_password_changed uid
    (if negb (str_eq (up_NewPassword up) "") && negb (is_ok (ValidateStrictPassword (up_NewPassword up)))
     then mret (fail ErrStrictPasswordPolicyViolation)
     else if str_eq (up_Username up) "" || str_eq (up_NewPassword up) ""
     then mret (fail ErrInvalidRequest)
     else
       let! _ := userRepo_IsAdministrator uid adminName or _ => mret (fail ErrUnauthorized) in
       let! _ := userRepo_UpdatePassword up false or _ => mret (fail ErrServerError) in
       mret (ok (BMessage "password has been reset successfully"))).

Definition UpdateUserState (c : Ctx) (request : option UpdateUserStateInput) : AuthM Response :=
  let* userRole := must (ctx_role c) in
  let* adminName := must (ctx_username c) in
  let* uid := must (ctx_uid c) in
  require_password_changed uid
  (if negb (str_eq userRole RoleAdmin) then mret (fail ErrUnauthorized)
   else
     let* us := body request in
     if bool_decide (us_IsDeactivate us = None) then mret (fail ErrInvalidRequest)
     else
       let! _ := userRepo_IsAdministrator uid adminName or _ => mret (fail ErrUnauthorized) in
       let! _ := UpdateStateTransaction us
       or e => mret (JSON (ErrorStatusCodes e) (BError e)) in
       mret (ok (BMessage "user's state updated successfully"))).

Definition CreateApiToken_handler (c : Ctx) (request : option ApiTokenInput) : AuthM Response :=
  let* t := body request in
  let* uid := must (ctx_uid c) in
  if negb (str_eq uid (ati_UserID t)) then mret (fail ErrUnauthorized)
  else
    require_password_changed (ati_UserID t)
    (let! user := userRepo_GetUser (ati_UserID t) or _ => mret (fail ErrUserNotFound) in
     let! token := CreateApiToken user t or _ => mret (fail ErrServerError) in
     mret (ok (BToken token))).

Definition GetApiTokens (c : Ctx) (uid : string) : AuthM Response :=
  let* self := must (ctx_uid c) in
  if negb (str_eq self uid) then mret (fail ErrUnauthorized)
  else
    let! ts := sessionRepo_GetApiTokensByUserID uid or _ => mret (fail ErrServerError) in
    mret (ok (BApiTokens ts)).

Definition DeleteApiToken_handler (c : Ctx) (request : option DeleteApiTokenInput) : AuthM Response :=
  let* d := body request in
  let* uid := must (ctx_uid c) in
  if negb (str_eq uid (dat_UserID d)) then mret (fail ErrUnauthorized)
  else
    require_password_changed (dat_UserID d)
    (let! _ := sessionRepo_DeleteApiToken (dat_Token d) or _ => mret (fail ErrServerError) in
     let! _ := RevokeToken (dat_Token d) or _ => mret (fail ErrServerError) in
     mret (ok (BMessage "api token deleted successfully"))).

(** ** [OAuthCallback] *)
Definition oauth {A} (f : nat → A) : AuthM A := λ w, (f (tick w), bump w).

Definition OAuthCallback (state authcode : string) : AuthM Response :=
  validated ← oauth (λ n, oauth_state_valid n state);
  if negb validated then mret (Redirect 307 "/")
  else
    let! _ := oauth oauth_config or _ => mret (fail ErrServerError) in
    let! raw := oauth (λ n, oauth_exchange n authcode) or _ => mret (fail ErrServerError) in
    match raw with
    | None => mret (fail ErrServerError)
    | Some rawIDToken =>
      let! claims := oauth (λ n, oidc_verify n rawIDToken) or _ => mret (fail ErrServerError) in
      if str_eq (oc_Email claims) "" || negb (oc_Verified claims)
      then mret (fail ErrUnauthorized)
      else
        createdAt ← now;
        let userData := mkUser (mkAudit createdAt createdAt no_detail no_detail false) ""
                          (oc_Email claims) "" "" (oc_Email claims) (oc_Name claims) RoleUser None false in
        let! signedInUser := userRepo_LoginUser userData or _ => mret (fail ErrServerError) in
        let! salt := configRepo_GetConfig "salt" or _ => mret (fail ErrServerError) in
        let! jwtToken := GetSignedJWT signedInUser (ac_Value salt) or _ => mret (fail ErrServerError) in
        ownerProjects ← owner_projects (u_ID signedInUser);
        let finish pid := Redirect 308 ("/login?jwtToken=" +:+ jwtToken +:+ "&projectID=" +:+ pid
                                         +:+ "&projectRole=" +:+ RoleOwner) in
        match ownerProjects with
        | p :: _ => mret (finish (p_ID p))
        | [] =>
            let! pid := new_default_project signedInUser or _ => mret NoResponse in
            mret (finish pid)
        end
    end.

End handlers.

(** ** Routes without accounts *)

(** Names of databases and collections, Go's regular expressions, the signature of
    the state of a log-in with an expiry in seconds, and the address of the
    provider for a state. *)
Class MiscEnv := {
  list_database_names (n : nat) : res (list string);
  list_collection_names (n : nat) : res (list string);
  match_string (pattern s : string) : res bool;
  sign_oauth_state (exp : Z) : res string;
  auth_code_url (state : string) : string;
  OAuthEnabled : bool;
  OAuthJWTExpDuration : Z;
}.

Inductive MiscResponse : Type :=
| APIStatus (code : Z) (status : string)
| ReadinessAPIStatus (code : Z) (dataBase collections : string)
| CapabilitiesResponse (dexEnabled : bool)
| InvalidOrigin.

Section misc.
Context `{MongoDriver} `{Runtime} `{Crypto} `{Config} `{OIDC} `{MiscEnv}.

Definition ListDataBase : AuthM (res (list string)) := oauth list_database_names.
Definition ListCollection : AuthM (res (list string)) := oauth list_collection_names.
Definition contains (s : list string) (str : string) : bool := existsb (λ v, str_eq v str) s.

Definition Status : AuthM MiscResponse :=
  r ← userRepo_GetUsers;
  mret (if is_ok r then APIStatus 200 "up" else APIStatus 500 "down").

(** A database that is missing is reported, with status 200. *)
Definition Readiness : AuthM MiscResponse :=
  dbs ← ListDataBase;
  match dbs with
  | Ok dbs =>
      let dbFlag := if contains dbs "auth" then "up" else "down" in
      cols ← ListCollection;
      mret (match cols with
            | Ok cols =>
                let colFlag := if negb (contains cols "project") || negb (contains cols "users") then "down" else "up" in
                ReadinessAPIStatus 200 dbFlag colFlag
            | _ => ReadinessAPIStatus 500 dbFlag "down"
            end)
  | _ => mret (ReadinessAPIStatus 500 "down" "unknown")
  end.

Definition GetCapabilities : AuthM MiscResponse := mret (CapabilitiesResponse OAuthEnabled).

(** [GenerateOAuthJWT]: the state expires after some minutes. *)
Definition GenerateOAuthJWT : AuthM (res string) :=
  t ← now; mret (sign_oauth_state (t / 1000 + 60 * OAuthJWTExpDuration)).
Definition OAuthLogin : AuthM Response :=
  let! stateToken := GenerateOAuthJWT or _ => mret (fail ErrServerError) in
  let! _ := oauth oauth_config or _ => mret (fail ErrServerError) in
  mret (Redirect 307 (auth_code_url stateToken)).

(** [ValidateCors]: a request passes when a pattern matches its origin, or its
    host when it has none. *)
Definition ValidateCors (allowedOrigins : list string) (origin host : string) (next : AuthM Response) :
    AuthM (MiscResponse + Response) :=
  let origin := if str_eq origin "" then host else origin in
  if negb (existsb (λ p, match match_string p origin with Ok b => b | _ => false end) allowedOrigins)
  then mret (inl InvalidOrigin)
  else r ← next; mret (inr r).

(** ** The database is only read *)
Theorem misc_routes_only_read w :
  db (Status w).2 = db w ∧ db (Readiness w).2 = db w ∧ db (GetCapabilities w).2 = db w ∧ db (OAuthLogin w).2 = db w.
Proof.
  split_and!; [unfold Status, userRepo_GetUsers|unfold Readiness|done|unfold OAuthLogin, GenerateOAuthJWT]; unfold on_err, mbind, M_bind, mret, M_ret; cbn;
    by repeat (case_match; cbn).
Qed.
(** A request whose origin no pattern matches is not passed on. *)
Theorem other_origins_are_refused allowedOrigins origin host next w :
  (∀ p, p ∈ allowedOrigins → match_string p (if str_eq origin "" then host else origin) ≠ Ok true) →
  ValidateCors allowedOrigins origin host next w = (inl InvalidOrigin, w).
Proof.
  intros Hp. unfold ValidateCors. destruct (existsb _ _) eqn:E; [|done].
  apply existsb_exists in E as (p & Hin%list_elem_of_In & Hm). destruct (match_string p _) as [[]| |] eqn:Em; [|done..].
  by apply Hp in Hin.
Qed.
End misc.
