(* ===== verification/Fixtures.v ===== *)
(** * Fixtures.v: a concrete environment

    Executable instances of the parameters of the authentication service, with
    their laws, and small databases. Concrete runs of the handlers evaluate on
    them. *)
From S2P Require Import Prelude World MemMongo GoStd AuthEntities AuthRepo.
From S2P Require Import AuthListing AuthService AuthHandlers AuthUserHandlers.
From stdpp Require Import countable pretty.
From Stdlib Require Import Ascii.
Local Open Scope string_scope.
Local Open Scope Z_scope.

(** ** Tokens: a reversible text for claims and secret *)
Fixpoint pos_bits (p : positive) : string :=
  match p with
  | xH => "1"
  | xO p => String "0"%char (pos_bits p)
  | xI p => String "I"%char (pos_bits p)
  end.
Fixpoint bits_pos (s : string) : option positive :=
  match s with
  | "1" => Some xH
  | String "0"%char s => xO <$> bits_pos s
  | String "I"%char s => xI <$> bits_pos s
  | _ => None
  end.

Lemma bits_pos_bits p : bits_pos (pos_bits p) = Some p.
Proof.
  induction p as [p IH|p IH|]; cbn [pos_bits]; [..|done].
  - cbn [bits_pos]. by rewrite IH.
  - cbn [bits_pos]. by rewrite IH.
Qed.

Definition token_data : Type := string * option string * option string * option string * option Z.

Definition token_text (secret : string) (c : Claims) : string :=
  pos_bits (encode ((secret, c_uid c, c_role c, c_username c, c_exp c) : token_data)).

Definition token_parse (now : Z) (secret token : string) : res Claims :=
  match bits_pos token ≫= decode (A:=token_data) with
  | Some (s, uid, role, username, exp) =>
      if str_eq s secret then
        match exp with
        | Some e => if bool_decide (now < e) then Ok (mkClaims uid role username exp)
                    else Err (ErrNew "token is expired")
        | None => Ok (mkClaims uid role username exp)
        end
      else Err (ErrNew "signature is invalid")
  | None => Err (ErrNew "token is malformed")
  end.

#[export] Instance fix_crypto : Crypto := {|
  bcrypt_generate n p := Ok ("hash:" +:+ p);
  bcrypt_compare h p := str_eq h ("hash:" +:+ p);
  jwt_sign s c := Ok (token_text s c);
  jwt_parse := token_parse;
  mail_valid a := bool_decide (is_Some (String.index 0 "@" a));
  random_bytes n len := Ok (of_chars (repeat "x"%char len));
|}.

#[export] Instance fix_crypto_laws : CryptoLaws fix_crypto.
Proof.
  split; cbn; unfold token_parse.
  - intros n p h [= <-]. apply str_eq_refl.
  - intros s [] t now e [= <-] He Hlt. unfold token_text. rewrite bits_pos_bits. cbn.
    rewrite decode_encode, str_eq_refl. cbn in He. rewrite He. by rewrite bool_decide_eq_true_2.
  - intros s [] t now e [= <-] He Hlt. unfold token_text. rewrite bits_pos_bits. cbn.
    rewrite decode_encode, str_eq_refl. cbn in He. rewrite He. rewrite bool_decide_eq_false_2; [done|lia].
  - intros now s t. by repeat case_match.
Qed.

#[export] Instance fix_runtime : Runtime := {|
  clock n := 1700000000000 + Z.of_nat n;
  add_days ms days := ms + days * 86400000;
  fresh_uuid n := "uuid-" +:+ pretty n;
|}.
#[export] Instance fix_config : Config := {|
  JWTExpiryDuration := 1440; AdminName := "admin"; AdminPassword := "litmus"
|}.
#[export] Instance fix_txn : MongoTxn := {|
  txn_start_session n := Ok tt; txn_start n := Ok tt; txn_commit n := (Ok tt, true)
|}.
#[export] Instance fix_txn_laws : MongoTxnLaws fix_txn.
Proof. by split. Qed.
#[export] Instance fix_regex : Regex := λ pat s, bool_decide (is_Some (String.index 0 pat s)).
#[export] Instance fix_oidc : OIDC := {|
  oauth_state_valid n st := true; oauth_config n := Ok tt;
  oauth_exchange n c := Ok (Some c);
  oidc_verify n raw := Ok (mkOIDCClaims raw raw true)
|}.

(** A driver without faults, and one whose call number [k] fails. *)
Definition no_fault : nat → option (Z * bool) := λ _, None.
Definition fault_at (k : nat) (applied : bool) : nat → option (Z * bool) :=
  λ n, if bool_decide (n = k) then Some (11600, applied) else None.

#[export] Instance demo_driver : MongoDriver := mem_driver no_fault.
#[export] Instance demo_laws : MongoLaws demo_driver := mem_laws no_fault.

(** ** Databases *)
Definition mk_user (id name role : string) (deactivated : option Z) (initial : bool) : User :=
  mkUser no_audit id name ("hash:" +:+ name) "" (name +:+ "@x.io") name role deactivated initial.
Definition mk_member (id name role : string) (i : Invitation) : Member :=
  mkMember id name "" name role i 1 None.
Definition mk_project (id name : string) (ms : list Member) : Project :=
  mkProject no_audit id name ms (Some "active") [] None.

Definition salt_config : AuthConfig := mkAuthConfig "salt" (url_encode "secret").

Definition demo_db : AuthDB := mkAuthDB
  [mk_user "a" "admin" RoleAdmin None false; mk_user "u1" "alice" RoleUser None false;
   mk_user "u2" "bobby" RoleUser None false; mk_user "u3" "carol" RoleUser (Some 5) false]
  [mk_project "p1" "alpha"
     [mk_member "u1" "alice" RoleOwner AcceptedInvitation;
      mk_member "u2" "bobby" RoleViewer PendingInvitation];
   mk_project "p2" "beta" [mk_member "u2" "bobby" RoleOwner AcceptedInvitation]]
  [] [] [salt_config] [("users", username_index)].

Definition demo : AuthWorld := mkWorld demo_db 0.
Definition empty_world : AuthWorld := mkWorld (mkAuthDB [] [] [] [] [] []) 0.

(** Commands of the set-up fail from the call [n] on. *)
Definition admin_until (n : nat) : IndexAdmin := {|
  admin_error k := if bool_decide (k < n)%nat then None else Some (ErrDriver 86);
  admin_applied _ := false; mongo_open _ _ _ _ := Ok tt
|}.
#[export] Instance fix_admin : IndexAdmin := {|
  admin_error _ := None; admin_applied _ := false; mongo_open _ _ _ _ := Ok tt
|}.

Definition ctx_of (uid role name : string) : Ctx := mkCtx (Some uid) (Some role) (Some name).
Definition alice : Ctx := ctx_of "u1" RoleUser "alice".
Definition bobby : Ctx := ctx_of "u2" RoleUser "bobby".
Definition admin : Ctx := ctx_of "a" RoleAdmin "admin".

(** A token of [alice], as [GetSignedJWT] makes it. *)
Definition alice_token : string :=
  token_text "secret" (mkClaims (Some "u1") (Some RoleUser) (Some "alice") (Some 1800000000)).
