(* ===== verification/AuthAccess.v ===== *)
(** * AuthAccess.v: access control of the authentication service

    What the checks that guard the handlers guarantee: RBAC, the
    default-password check and the lookups they use. The lemmas here are the
    interface between the handlers and the theorems about them. *)
From S2P Require Import Prelude World GoStd AuthEntities AuthRepo AuthListing.
From S2P Require Import AuthService AuthHandlers AuthUserHandlers.
Local Open Scope string_scope.
Local Open Scope Z_scope.

(** The caller [uid] is an active user with a matching membership entry. *)
Definition authorized (s : AuthDB) (uid pid : string) (roles : list string) (i : Invitation) : Prop :=
  (∃ u, u ∈ users s ∧ u_ID u = uid ∧ u_DeactivatedAt u = None) ∧
  (∃ p m, p ∈ projects s ∧ p_ID p = pid ∧ m ∈ p_Members p ∧
          m_UserID m = uid ∧ m_Role m ∈ roles ∧ m_Invitation m = i).

(** The caller is an active user that has changed the default password. *)
Definition password_changed (s : AuthDB) (uid : string) : Prop :=
  ∃ u, u ∈ users s ∧ u_ID u = uid ∧ u_IsInitialLogin u = false.

Definition refused (r : Response) : Prop := ¬ served r.

Lemma refused_fail_as st e : refused (fail_as st e).
Proof. destruct st; exact (λ H, H). Qed.
Lemma refused_fail e : refused (fail e).
Proof. apply refused_fail_as. Qed.

Section access.
Context {drv : MongoDriver} {laws : MongoLaws drv} {tx : MongoTxn} {rt : Runtime} {cr : Crypto}
  {cf : Config}.
Implicit Types (w : AuthWorld) (s : AuthDB).

Lemma wp_InsertUser u w :
  wp (InsertUser u) (λ r w', changed (insert_one_post (user_key (names_indexed (db w))) u r) w w') w.
Proof. exact (wp_InsertOne (user_key (names_indexed (db w))) u w). Qed.

(** *** Reads leave the database alone *)
Lemma wp_GetUser uid w :
  wp (userRepo_GetUser uid) (λ r w', db w' = db w ∧
    match r with
    | Ok u => ∃ u0, u0 ∈ users (db w) ∧ u_ID u0 = uid ∧ u = SanitizedUser u0
    | Err e => driver_error e ∧ (e = ErrNoDocuments → no_match (by_uid uid) (users (db w)))
    | Panic => False
    end) w.
Proof.
  unfold userRepo_GetUser. wp_step. wp_step.
  intros [u|e|] w' [? Hp]; [destruct Hp as [? Hp]|split; [done|naive_solver]|done].
  apply str_eq_true in Hp. wp_step. eauto 6.
Qed.

Lemma wp_FindUserByUsername name w :
  wp (userRepo_FindUserByUsername name) (λ r w', db w' = db w ∧
    match r with
    | Ok u => u ∈ users (db w) ∧ u_Username u = name
    | Err e => driver_error e
    | Panic => False
    end) w.
Proof.
  unfold userRepo_FindUserByUsername. wp_use wp_FindOne. intros [u|e|] w' [? Hp]; [destruct Hp as [? Hp]|by destruct Hp|done].
  by apply str_eq_true in Hp.
Qed.

Lemma wp_GetProjectByProjectID pid w :
  wp (projectRepo_GetProjectByProjectID pid) (λ r w', db w' = db w ∧
    match r with
    | Ok p => p ∈ projects (db w) ∧ p_ID p = pid
    | Err e => driver_error e
    | Panic => False
    end) w.
Proof.
  unfold projectRepo_GetProjectByProjectID. wp_use wp_FindOne. intros [u|e|] w' [? Hp]; [destruct Hp as [? Hp]|by destruct Hp|done].
  by apply str_eq_true in Hp.
Qed.

Lemma wp_getInvitation member w :
  wp (getInvitation member) (λ r w', db w' = db w ∧
    match r with
    | Ok i => ∃ p, p ∈ projects (db w) ∧ p_ID p = mi_ProjectID member ∧
                   i = first_invitation (mi_UserID member) (p_Members p)
    | Err e => driver_error e
    | Panic => False
    end) w.
Proof.
  unfold getInvitation. wp_step. wp_use wp_GetProjectByProjectID.
  intros [p|e|] w' [? Hp]; try done. destruct Hp. wp_step. eauto.
Qed.

Lemma wp_GetProjectOwners pid w :
  wp (projectRepo_GetProjectOwners pid) (λ r w', db w' = db w ∧
    match r with
    | Ok ms => ∃ p, p ∈ projects (db w) ∧ p_ID p = pid ∧
                    ms = List.filter (λ m, is_owner m && accepted m) (p_Members p)
    | Err e => driver_error e
    | Panic => False
    end) w.
Proof.
  unfold projectRepo_GetProjectOwners. wp_step. wp_use wp_FindOne.
  intros [u|e|] w' [? Hp]; [destruct Hp as [? Hp]|by destruct Hp|done].
  apply str_eq_true in Hp. wp_step. eauto 6.
Qed.

Lemma wp_Find_projects (q : Project → bool) w :
  wp (projectRepo_GetProjects q) (λ r w', db w' = db w ∧
    match r with
    | Ok ps => ∀ p, p ∈ ps ↔ p ∈ projects (db w) ∧ q p = true
    | Err e => driver_error e ∧ e ≠ ErrNoDocuments
    | Panic => False
    end) w.
Proof.
  unfold projectRepo_GetProjects. wp_use wp_Find. intros [ps|e|] w' [? Hp]; cbn in Hp; try done.
  destruct Hp as (l & Hl & ->). split; [done|]. intros p.
  rewrite list_elem_of_In, filter_In, <-list_elem_of_In, Hl. done.
Qed.

(** *** The guards *)
Lemma wp_CheckInitialLogin uid w :
  wp (CheckInitialLogin uid) (λ r w', db w' = db w ∧
    match r with
    | Ok b => ∃ u, u ∈ users (db w) ∧ u_ID u = uid ∧ u_IsInitialLogin u = b
    | Err e => driver_error e
    | Panic => False
    end) w.
Proof.
  unfold CheckInitialLogin. wp_step. wp_use wp_GetUser.
  intros [u|e|] w' [? Hp]; [|wp_step; naive_solver|done].
  destruct Hp as (u0 & ? & ? & ->). wp_step. eauto.
Qed.

Lemma rbac_filter_true uid pid roles i p :
  rbac_filter uid pid roles i p = true ↔
  p_ID p = pid ∧ ∃ m, m ∈ p_Members p ∧ m_UserID m = uid ∧ m_Role m ∈ roles ∧ m_Invitation m = i.
Proof.
  unfold rbac_filter, by_project_id, member_matches.
  rewrite andb_true_iff, str_eq_true, existsb_exists.
  setoid_rewrite andb_true_iff. setoid_rewrite andb_true_iff.
  setoid_rewrite str_eq_true. setoid_rewrite str_in_true. setoid_rewrite <-list_elem_of_In.
  naive_solver.
Qed.

Definition member_of (s : AuthDB) (uid pid : string) (roles : list string) (i : Invitation) : Prop :=
  ∃ p m, p ∈ projects s ∧ p_ID p = pid ∧ m ∈ p_Members p ∧
         m_UserID m = uid ∧ m_Role m ∈ roles ∧ m_Invitation m = i.

Lemma wp_RbacValidator uid pid roles i w :
  wp (RbacValidator uid pid roles i) (λ r w', db w' = db w ∧
    match r with
    | Ok _ => authorized (db w) uid pid roles i
    | Err (ErrNew e) =>
        (∃ u, u ∈ users (db w) ∧ u_ID u = uid ∧ u_DeactivatedAt u ≠ None) ∨
        ¬ member_of (db w) uid pid roles i
    | Err ErrNoDocuments => no_match (by_uid uid) (users (db w))
    | Err _ => True
    | Panic => False
    end) w.
Proof.
  unfold RbacValidator. wp_step. wp_use wp_GetUser. intros [u|e|] w1 [E1 Hu]; try done.
  2: { wp_step. split; [done|]. destruct e; naive_solver. }
  destruct Hu as (u0 & Hu0 & <- & ->). wp_step.
  { wp_step. apply bool_decide_eq_true in Heqb. split; [done|]. left. eauto. }
  apply bool_decide_eq_false, dec_stable in Heqb.
  wp_step. wp_use wp_Find_projects. rewrite E1. intros [ps|e|] w2 [E2 Hps]; try done.
  2: { wp_step. split; [done|]. destruct Hps. by destruct e. }
  setoid_rewrite rbac_filter_true in Hps.
  wp_step; wp_step; (split; [done|]).
  - right. intros (p & m & Hm). apply bool_decide_eq_true in Heqb0.
    destruct ps; [|done]. assert (p ∈ []) as []%elem_of_nil. apply Hps. naive_solver.
  - apply bool_decide_eq_false in Heqb0. destruct ps as [|p ps]; [done|].
    split; [eauto|]. destruct (Hps p) as [Hp _]. destruct Hp as (? & ? & m & ?); [set_solver|].
    exists p, m. naive_solver.
Qed.

(** *** Rules for the handlers' guards

    A guard that fails answers with an error and leaves the database alone. *)
Lemma wp_require_password_changed uid k Q w :
  (∀ r w', db w' = db w → refused r → Q r w') →
  (∀ w', db w' = db w → password_changed (db w) uid → wp k Q w') →
  wp (require_password_changed uid k) Q w.
Proof.
  intros Hr Hk. unfold require_password_changed. wp_step. wp_use wp_CheckInitialLogin.
  intros [b|e|] w' [? Hp]; [|wp_step; auto using refused_fail|done].
  destruct b; [wp_step; auto using refused_fail_as|]. apply Hk; [done|]. exact Hp.
Qed.

Lemma wp_require_rbac uid pid rule i k Q w :
  (∀ r w', db w' = db w → refused r → Q r w') →
  (∀ w', db w' = db w → authorized (db w) uid pid (MutationRbacRules rule) i → wp k Q w') →
  wp (require_rbac uid pid rule i k) Q w.
Proof.
  intros Hr Hk. unfold require_rbac. wp_step. wp_use wp_RbacValidator.
  intros [b|e|] w' [? Hp]; [auto|wp_step; auto using refused_fail|done].
Qed.

Lemma wp_must v (k : string → AuthM Response) Q w :
  (v = None → Q PanicResponse w) → (∀ x, v = Some x → wp (k x) Q w) → wp (must v k) Q w.
Proof. intros H0 Hk. destruct v; [by apply Hk|by apply wp_ret, H0]. Qed.

Lemma wp_body {A} (v : option A) k Q w :
  (v = None → Q (fail ErrInvalidRequest) w) → (∀ x, v = Some x → wp (k x) Q w) →
  wp (bind_json v k) Q w.
Proof. intros H0 Hk. destruct v; [by apply Hk|by apply wp_ret, H0]. Qed.

Lemma wp_matched_or e (m : AuthM (res nat)) Q w :
  wp m (λ r w', match r with
                | Ok c => Q (if bool_decide (c = 0%nat) then Err e else Ok tt) w'
                | Err e => Q (Err e) w'
                | Panic => Q Panic w'
                end) w →
  wp (matched_or e m) Q w.
Proof.
  intros Hm. unfold matched_or. wp_step. eapply wp_mono; [done|].
  intros [c|?|] w' HQ; cbn in *; [|done..]. by case_bool_decide.
Qed.
End access.

#[export] Hint Resolve wp_GetUser wp_FindUserByUsername wp_GetProjectByProjectID
  wp_getInvitation wp_GetProjectOwners wp_Find_projects wp_CheckInitialLogin
  wp_RbacValidator : wp_spec.

(** Symbolic execution of a handler: the guards, then the plain steps. *)
Ltac handler_step :=
  lazymatch goal with
  | |- wp (require_password_changed _ _) _ _ => apply wp_require_password_changed
  | |- wp (require_rbac _ _ _ _ _) _ _ => apply wp_require_rbac
  | |- wp (must _ _) _ _ => apply wp_must
  | |- wp (bind_json _ _) _ _ => apply wp_body
  | |- ∀ _, _ => intros ?
  | |- match ?x with _ => _ end => destruct x eqn:?
  | |- _ => wp_step
  end.

(** Facts that say that a read left the database alone are used at once. *)
Ltac clean_world :=
  repeat match goal with
  | H : False |- _ => destruct H
  | H : _ ∧ _ |- _ => destruct H
  | H : ∃ _, _ |- _ => destruct H
  | H : changed _ _ _ |- _ => destruct H as (? & ? & ?)
  | H : db ?w = _ |- context [db ?w] => rewrite H
  | H : db ?w = _, H' : context [db ?w] |- _ =>
      lazymatch H' with H => fail | _ => rewrite H in H' end
  end.

Ltac run_handler := repeat (handler_step; clean_world).
