(* ===== verification/AuthMembership.v ===== *)
(** * AuthMembership.v: projects, members and invitations

    The protocol by which users join and leave projects, as a step relation on
    the database, and the proof that every handler performs only steps of the
    protocol, whatever the database driver does. Invariants are then proved by
    induction on the steps. *)
From S2P Require Import Prelude World GoStd AuthEntities AuthRepo AuthListing.
From S2P Require Import AuthService AuthHandlers AuthUserHandlers AuthAccess.
Local Open Scope string_scope.
Local Open Scope Z_scope.

Definition all_invitations : list Invitation :=
  [PendingInvitation; AcceptedInvitation; DeclinedInvitation; ExitedProject].

(** ** The protocol

    [step a s s']: the actor [a] (the authenticated caller, if any) may take
    the database from [s] to [s']. The guards are the rights the protocol asks
    for; each update is applied to the named project or not at all. *)
Definition upd (q : Project → bool) (f : Project → Project) (s s' : AuthDB) : Prop :=
  ∃ ps, s' = set_docs ps s ∧ updated_some q f (projects s) ps.

Definition owner (s : AuthDB) (a pid : string) : Prop :=
  authorized s a pid [RoleOwner] AcceptedInvitation.

(** What an update of a user document must keep. *)
Definition same_account (u u' : User) : Prop :=
  u_ID u' = u_ID u ∧ u_Username u' = u_Username u ∧ u_Role u' = u_Role u.

(** Steps that need a right of the actor [a] in the project, by the request
    they belong to. *)
Inductive action : Type :=
| AInvite | AAccept | ADecline | ALeave | ARemove | ARole | ARename | ADelete.

Inductive mstep (a : string) (s s' : AuthDB) : action → Prop :=
| step_invite pid p m :
    owner s a pid → p ∈ projects s → p_ID p = pid →
    m_Role m ∈ all_roles → m_Invitation m = PendingInvitation →
    first_invitation (m_UserID m) (p_Members p) ∉ all_invitations →
    upd (by_project_id pid) (λ p, set_members (p_Members p ++ [m]) p) s s' →
    mstep a s s' AInvite
| step_reinvite pid p u r :
    owner s a pid → p ∈ projects s → p_ID p = pid → r ∈ all_roles →
    first_invitation u (p_Members p) ∈ [PendingInvitation; DeclinedInvitation; ExitedProject] →
    upd (by_project_id pid) (update_elem u (λ m, set_role r (set_invitation PendingInvitation m))) s s' →
    mstep a s s' AInvite
| step_accept pid t :
    authorized s a pid all_roles PendingInvitation →
    upd (by_project_id pid) (update_elem a (λ m, set_joined_at t (set_invitation AcceptedInvitation m))) s s' →
    mstep a s s' AAccept
| step_decline pid :
    authorized s a pid all_roles PendingInvitation →
    upd (by_project_id pid) (update_elem a (set_invitation DeclinedInvitation)) s s' →
    mstep a s s' ADecline
| step_leave pid :
    authorized s a pid all_roles AcceptedInvitation →
    upd (by_project_id pid) (update_elem a (set_invitation ExitedProject)) s s' →
    mstep a s s' ALeave
| step_remove pid u :
    owner s a pid → u ≠ a →
    upd (by_project_id pid) (pull_member u) s s' →
    mstep a s s' ARemove
| step_role pid u r :
    owner s a pid → u ≠ a → r ∈ all_roles →
    upd (by_project_id pid) (update_elem u (set_role r)) s s' →
    mstep a s s' ARole
| step_rename pid name :
    owner s a pid →
    upd (by_project_id pid) (set_name name) s s' →
    mstep a s s' ARename
| step_delete pid ps :
    owner s a pid →
    s' = set_docs ps s → deleted_one (by_project_id pid) (projects s) ps →
    mstep a s s' ADelete.

(** Steps that leave the members of the existing projects alone, apart from the
    time of deactivation. *)
Inductive nstep (s s' : AuthDB) : Prop :=
| step_create p m ps :
    s' = set_docs ps s → inserted project_key p (projects s) ps →
    p_Members p = [m] → m_Role m = RoleOwner → m_Invitation m = AcceptedInvitation →
    nstep s s'
| step_state u t :
    upd (λ _, true) (update_elem u (set_member_deactivated t)) s s' → nstep s s'
| step_removed q b :
    upd q (set_project_removed b) s s' → nstep s s'
| step_new_user u us :
    s' = set_docs us s → inserted (user_key (names_indexed s)) u (users s) us →
    u_Role u ∈ [RoleAdmin; RoleUser] →
    nstep s s'
| step_user q f us :
    s' = set_docs us s → updated_some q f (users s) us → (∀ u, same_account u (f u)) →
    nstep s s'
| step_tokens :
    users s' = users s → projects s' = projects s → auth_indexes s' = auth_indexes s →
    nstep s s'.

Definition steps : AuthDB → AuthDB → Prop := rtc nstep.

(** What one request may do: a step for one of the actions [k], or steps that
    need no right. *)
Definition effect (k : list action) (a : option string) (s s' : AuthDB) : Prop :=
  steps s s' ∨ ∃ uid x, a = Some uid ∧ x ∈ k ∧ mstep uid s s' x.

(** ** Every handler follows the protocol *)
Section refinement.
Context {drv : MongoDriver} {laws : MongoLaws drv} {tx : MongoTxn} {txlaws : MongoTxnLaws tx}
  {rt : Runtime} {cr : Crypto} {crlaws : CryptoLaws cr} {cf : Config} {rx : Regex} {oi : OIDC}.
Implicit Types (w : AuthWorld) (s : AuthDB).

(** *** Writes *)
Lemma upd_one q f r s ps : update_one_post q f r (projects s) ps → upd q f s (set_docs ps s).
Proof. intros Hp. exists ps. split; [done|]. by eapply update_one_some. Qed.

Lemma wp_upd_one q (f : Project → Project) e w :
  wp (matched_or e (UpdateOne q f)) (λ _ w', upd q f (db w) (db w')) w.
Proof.
  apply wp_matched_or. wp_use wp_UpdateOne.
  intros r w' (ps & E & Hp). apply upd_one in Hp. rewrite <-E in Hp. by destruct r.
Qed.

Lemma wp_CreateProject p w :
  wp (projectRepo_CreateProject p) (λ r w',
    ∃ ps, db w' = set_docs ps (db w) ∧ (ps = projects (db w) ∨ inserted project_key p (projects (db w)) ps)
          ∧ (is_ok r = true → inserted project_key p (projects (db w)) ps)) w.
Proof.
  unfold projectRepo_CreateProject. wp_step. wp_use wp_InsertOne.
  intros r w' (ps & E & Hp). destruct r as [|e|]; cbn in Hp; [|destruct Hp as (? & Hp & ?)|done].
  - wp_step. exists ps. naive_solver.
  - destruct e; wp_step; exists ps; naive_solver.
Qed.

Lemma steps_refl s s' : s' = s → steps s s'.
Proof. intros ->. apply rtc_refl. Qed.

Lemma steps_one s s' : nstep s s' → steps s s'.
Proof. apply rtc_once. Qed.

Lemma effect_refl k a s s' : s' = s → effect k a s s'.
Proof. intros ->. left. apply rtc_refl. Qed.

Lemma effect_one x a uid s s' : a = Some uid → mstep uid s s' x → effect [x] a s s'.
Proof. right. exists uid, x. set_solver. Qed.

Lemma set_docs_same s : set_docs (projects s) s = s.
Proof. by destruct s. Qed.

Lemma steps_create p m s ps :
  (ps = projects s ∨ inserted project_key p (projects s) ps) →
  p_Members p = [m] → m_Role m = RoleOwner → m_Invitation m = AcceptedInvitation →
  steps s (set_docs ps s).
Proof.
  intros [->|Hi] ???; [rewrite set_docs_same; by apply steps_refl|].
  eapply steps_one, step_create; eauto.
Qed.

Lemma wp_delete_one q e w :
  wp (matched_or e (DeleteOne q)) (λ r w',
    ∃ ps, db w' = set_docs ps (db w) ∧ (ps = projects (db w) ∨ deleted_one q (projects (db w)) ps)
          ∧ (r = Ok tt → deleted_one q (projects (db w)) ps)) w.
Proof.
  apply wp_matched_or. wp_use wp_DeleteOne. intros r w' (ps & E & Hp).
  destruct r as [c| |]; cbn in Hp; [|exists ps; naive_solver|done].
  exists ps. case_bool_decide; naive_solver.
Qed.

Lemma effect_delete uid pid s ps :
  owner s uid pid →
  (ps = projects s ∨ deleted_one (by_project_id pid) (projects s) ps) →
  effect [ADelete] (Some uid) s (set_docs ps s).
Proof.
  intros ? [->|?]; [rewrite set_docs_same; by apply effect_refl|].
  eapply effect_one, step_delete; eauto.
Qed.

#[local] Hint Resolve wp_upd_one wp_CreateProject wp_delete_one : wp_spec.

(** *** Handlers *)
Definition refines (k : list action) (a : option string) (h : AuthM Response) : Prop :=
  ∀ w, wp h (λ _ w', effect k a (db w) (db w')) w.

Ltac stays := solve [apply effect_refl; first [reflexivity|done]].

Lemma CreateProject_refines c req : refines [] (ctx_uid c) (CreateProject c req).
Proof.
  intros w. unfold CreateProject. run_handler; try stays; left; by eapply steps_create.
Qed.

Lemma all_roles_valid r r' : valid_role r = Some r' → r = Some r' ∧ r' ∈ all_roles.
Proof.
  unfold valid_role. destruct r as [r|]; [|done]. destruct (str_in _ _) eqn:E; [|done].
  apply str_in_true in E. intros [= <-]. split; [done|]. set_solver.
Qed.

(** The rules of [MutationRbacRules] used by the handlers. *)
Lemma owner_rules r :
  r ∈ ["sendInvitation"; "removeInvitation"; "updateProjectName"; "updateMemberRole"; "deleteProject"] →
  MutationRbacRules r = [RoleOwner].
Proof. rewrite !elem_of_cons. intros [->|[->|[->|[->|[->|[]%elem_of_nil]]]]]; reflexivity. Qed.
Lemma member_rules r :
  r ∈ ["acceptInvitation"; "declineInvitation"; "leaveProject"] → MutationRbacRules r = all_roles.
Proof. rewrite !elem_of_cons. intros [->|[->|[->|[]%elem_of_nil]]]; reflexivity. Qed.

Ltac rules := rewrite ?owner_rules, ?member_rules in * by set_solver.

Lemma first_invitation_other i :
  i ≠ AcceptedInvitation → i ∉ [PendingInvitation; DeclinedInvitation; ExitedProject] →
  i ∉ all_invitations.
Proof. unfold all_invitations. set_solver. Qed.

Lemma SendInvitation_refines c req : refines [AInvite] (ctx_uid c) (SendInvitation c req).
Proof.
  intros w. unfold SendInvitation, projectRepo_UpdateInvite, projectRepo_AddMember.
  run_handler; try stays; rules;
    match goal with H : valid_role _ = _ |- _ => apply all_roles_valid in H as [Hr ?] end;
    apply str_eq_false in Heqb.
  1-3: apply str_in_true in Heqb0; eapply effect_one, step_reinvite; subst; eauto; by rewrite Hr in *.
  all: apply (bool_decide_eq_false _) in Heqb0; eapply effect_one, step_invite; subst; eauto;
    cbn; try done.
  all: match goal with H : u_ID _ = _ |- _ => rewrite H end; by apply first_invitation_other.
Qed.

Lemma AcceptInvitation_refines c req : refines [AAccept] (ctx_uid c) (AcceptInvitation c req).
Proof.
  intros w. unfold AcceptInvitation, projectRepo_UpdateInvite.
  run_handler; try stays; rules; by eapply effect_one, step_accept.
Qed.

Lemma DeclineInvitation_refines c req : refines [ADecline] (ctx_uid c) (DeclineInvitation c req).
Proof.
  intros w. unfold DeclineInvitation, projectRepo_UpdateInvite.
  run_handler; try stays; rules; by eapply effect_one, step_decline.
Qed.

Lemma LeaveProject_refines c req : refines [ALeave] (ctx_uid c) (LeaveProject c req).
Proof.
  intros w. unfold LeaveProject, projectRepo_UpdateInvite.
  run_handler; try stays; rules; by eapply effect_one, step_leave.
Qed.

Lemma RemoveInvitation_refines c req : refines [ARemove] (ctx_uid c) (RemoveInvitation c req).
Proof.
  intros w. unfold RemoveInvitation, projectRepo_RemoveInvitation.
  run_handler; try stays; rules; apply str_eq_false in Heqb0;
    eapply effect_one, step_remove; eauto.
Qed.

Lemma UpdateProjectName_refines c req : refines [ARename] (ctx_uid c) (UpdateProjectName c req).
Proof.
  intros w. unfold UpdateProjectName, projectRepo_UpdateProjectName.
  run_handler; try stays; rules;
    match goal with H : update_one_post _ _ _ _ _ |- _ => apply upd_one in H end;
    by eapply effect_one, step_rename.
Qed.

Lemma UpdateMemberRole_refines c req : refines [ARole] (ctx_uid c) (UpdateMemberRole c req).
Proof.
  intros w. unfold UpdateMemberRole, projectRepo_UpdateMemberRole.
  run_handler; try stays; rules;
    match goal with H : update_one_post _ _ _ _ _ |- _ => apply upd_one in H end;
    apply all_roles_valid in Heqo as [Hr ?]; rewrite Hr in *;
    apply str_eq_false in Heqb; eapply effect_one, step_role; eauto.
Qed.

Lemma DeleteProject_refines c pid : refines [ADelete] (ctx_uid c) (DeleteProject c pid).
Proof.
  intros w. unfold DeleteProject, projectRepo_DeleteProject.
  run_handler; try stays; rules;
    match goal with H : ctx_uid c = _ |- _ => rewrite H end; by eapply effect_delete.
Qed.

(** *** Code that needs no membership right: a compositional argument

    [follows m]: every run of [m] performs steps of the protocol. *)
Definition follows {A} (m : AuthM A) : Prop :=
  ∀ w, wp m (λ _ w', steps (db w) (db w')) w.

Lemma follows_ret {A} (x : A) : follows (mret x).
Proof. intros w. by apply wp_ret, steps_refl. Qed.

Lemma follows_bind {A B} (m : AuthM A) (k : A → AuthM B) :
  follows m → (∀ x, follows (k x)) → follows (m ≫= k).
Proof.
  intros Hm Hk w. apply wp_bind. eapply wp_mono; [apply Hm|]. intros x w1 H1.
  eapply wp_mono; [apply Hk|]. intros y w2 H2. unfold steps in *. by etrans.
Qed.

Lemma follows_on_err {A B} `{HasPanic B} (m : AuthM (res A)) h (k : A → AuthM B) :
  follows m → (∀ e, follows (h e)) → (∀ x, follows (k x)) → follows (on_err m h k).
Proof.
  intros Hm Hh Hk. unfold on_err. apply follows_bind; [done|].
  intros [x|e|]; auto using follows_ret.
Qed.

Lemma follows_must {B} `{HasPanic B} v (k : string → AuthM B) :
  (∀ x, v = Some x → follows (k x)) → follows (must v k).
Proof. intros Hk. destruct v; cbn; auto using follows_ret. Qed.

Lemma follows_body {A} (v : option A) k : (∀ x, follows (k x)) → follows (bind_json v k).
Proof. intros Hk. destruct v; cbn; auto using follows_ret. Qed.

(** A call that leaves the database alone. *)
Lemma follows_same {A} (m : AuthM A) : (∀ w, wp m (λ _ w', db w' = db w) w) → follows m.
Proof. intros Hm w. eapply wp_mono; [apply Hm|]. intros _ w' ->. by apply steps_refl. Qed.

Lemma follows_now : follows now.
Proof. by apply follows_same. Qed.
Lemma follows_uuid : follows NewUUID.
Proof. by apply follows_same. Qed.
Lemma follows_bcrypt p : follows (bcrypt_GenerateFromPassword p).
Proof. by apply follows_same. Qed.
Lemma follows_oauth {A} (f : nat → A) : follows (oauth f).
Proof. by apply follows_same. Qed.
Lemma follows_outside f : follows (outside f).
Proof. by apply follows_same. Qed.
Lemma follows_find_one {D} `{Collection AuthDB D} (q : D → bool) : follows (FindOne q).
Proof. by apply follows_same. Qed.
Lemma follows_aggregate {D R} `{Collection AuthDB D} (p : list D → list R) : follows (Aggregate p).
Proof. by apply follows_same. Qed.

Lemma follows_user_update q f :
  (∀ u, same_account u (f u)) → follows (UpdateOne (D:=User) q f).
Proof.
  intros Hf w. wp_use wp_UpdateOne. intros r w' (us & -> & Hp).
  eapply steps_one, step_user; eauto using update_one_some.
Qed.
Lemma follows_user_update_many q f :
  (∀ u, same_account u (f u)) → follows (UpdateMany (D:=User) q f).
Proof.
  intros Hf w. wp_use wp_UpdateMany. intros r w' (us & -> & Hp).
  eapply steps_one, step_user; eauto using update_many_some.
Qed.
Lemma follows_new_user u : u_Role u ∈ [RoleAdmin; RoleUser] → follows (InsertUser u).
Proof.
  intros Hr w. wp_use wp_InsertUser. intros r w' (us & -> & Hp).
  assert (us = users (db w) ∨ inserted (user_key (names_indexed (db w))) u (users (db w)) us) as [->|Hi].
  { destruct r; cbn in Hp; naive_solver. }
  - apply steps_refl. by destruct (db w).
  - eapply steps_one, step_new_user; eauto.
Qed.
Lemma follows_tokens {D A} `{Collection AuthDB D} (f : nat → list D → res A * list D) :
  (∀ (l : list D) s, users (set_docs l s) = users s ∧ projects (set_docs l s) = projects s ∧ auth_indexes (set_docs l s) = auth_indexes s) →
  follows (write f).
Proof. intros Hs w. eapply steps_one, step_tokens; cbn; apply Hs. Qed.

Lemma follows_founder p m :
  p_Members p = [m] → m_Role m = RoleOwner → m_Invitation m = AcceptedInvitation →
  follows (projectRepo_CreateProject p).
Proof.
  intros ??? w. wp_use wp_CreateProject. intros r w' (ps & -> & Hp & _).
  by eapply steps_create.
Qed.

Lemma follows_state q f :
  (∃ u t, q = (λ _, true) ∧ f = update_elem u (set_member_deactivated t)) ∨
  (∃ b, f = set_project_removed b) →
  follows (UpdateMany (D:=Project) q f).
Proof.
  intros Hf w. wp_use wp_UpdateMany. intros r w' (ps & -> & Hp%update_many_some).
  destruct Hf as [(u & t & -> & ->)|(b & ->)].
  - eapply steps_one, step_state. by exists ps.
  - eapply steps_one, step_removed. by exists ps.
Qed.

Lemma follows_transaction body : follows body → follows (with_transaction body).
Proof.
  intros Hb w. unfold wp, with_transaction. specialize (Hb w). unfold wp in Hb.
  destruct (body w) as [[?|?|] w1]; cbn in *; [|by apply steps_refl..].
  destruct (txn_commit (tick w1)) as [? []]; cbn; [done|by apply steps_refl].
Qed.

(** Composes the lemmas above along the code. *)
Ltac follow :=
  repeat lazymatch goal with
  | |- follows (mret _) => apply follows_ret
  | |- follows (on_err _ _ _) => apply follows_on_err; [|intros ?|intros ?]
  | |- follows (_ ≫= _) => apply follows_bind; [|intros ?]
  | |- follows (must _ _) => apply follows_must; intros ? ?
  | |- follows (bind_json _ _) => apply follows_body; intros ?
  | |- follows (if ?b then _ else _) => destruct b eqn:?
  | |- follows (match ?x with _ => _ end) => destruct x eqn:?
  | |- follows now => apply follows_now
  | |- follows NewUUID => apply follows_uuid
  | |- follows (bcrypt_GenerateFromPassword _) => apply follows_bcrypt
  | |- follows (oauth _) => apply follows_oauth
  | |- follows (outside _) => apply follows_outside
  | |- follows (FindOne _) => apply follows_find_one
  | |- follows (Aggregate _) => apply follows_aggregate
  | |- follows (UpdateOne _ _) => apply follows_user_update; intros ?
  | |- follows (UpdateMany _ _) =>
      first [apply follows_user_update_many; intros ?|apply follows_state; eauto 6]
  | |- follows (with_transaction _) => apply follows_transaction
  | |- follows (write _) => apply follows_tokens; intros ? []; done
  | |- follows (projectRepo_CreateProject _) => by eapply follows_founder
  | |- follows (let _ := _ in _) => cbv zeta
  end.

Lemma follows_GetConfig key : follows (configRepo_GetConfig key).
Proof. unfold configRepo_GetConfig. follow. Qed.
Lemma follows_parseToken t : follows (parseToken t).
Proof. unfold parseToken. follow. apply follows_GetConfig. Qed.
Lemma follows_RevokeToken t : follows (RevokeToken t).
Proof. unfold RevokeToken, sessionRepo_RevokeToken, InsertOne. follow. apply follows_parseToken. Qed.
Lemma follows_ValidateToken t : follows (ValidateToken t).
Proof. unfold ValidateToken, sessionRepo_IsTokenRevoked. follow. apply follows_parseToken. Qed.
Lemma follows_Rbac uid pid roles i : follows (RbacValidator uid pid roles i).
Proof. unfold RbacValidator, userRepo_GetUser, projectRepo_GetProjects, Find. follow. Qed.
Lemma follows_changed uid k : follows k → follows (require_password_changed uid k).
Proof. intros. unfold require_password_changed, CheckInitialLogin, userRepo_GetUser. by follow. Qed.
Lemma follows_rbac uid pid rule i k : follows k → follows (require_rbac uid pid rule i k).
Proof. intros. unfold require_rbac. by follow; [apply follows_Rbac|]. Qed.
Lemma follows_default_project u : follows (new_default_project u).
Proof. unfold new_default_project. follow. Qed.
Lemma follows_owner_projects uid : follows (owner_projects uid).
Proof. unfold owner_projects, projectRepo_GetOwnerProjects. follow. Qed.
Lemma follows_listing r : follows (GetProjectsByUserID r).
Proof. unfold GetProjectsByUserID. follow. Qed.
Lemma follows_AddSalt : follows AddSalt.
Proof.
  unfold AddSalt, RandomString, configRepo_CreateConfig, InsertOne.
  follow; [apply follows_GetConfig|by apply follows_same].
Qed.
Lemma follows_update_password up b : follows (userRepo_UpdatePassword up b).
Proof. unfold userRepo_UpdatePassword. by follow. Qed.
Lemma follows_state_transaction r : follows (UpdateStateTransaction r).
Proof.
  unfold UpdateStateTransaction, transaction_body, userRepo_FindUserByUsername,
    userRepo_UpdateUserState, projectRepo_UpdateProjectState. follow. by case_match.
Qed.
Lemma follows_create_user u :
  u_Role u ∈ [RoleAdmin; RoleUser] → follows (userRepo_CreateUser u).
Proof. intros. unfold userRepo_CreateUser. follow. by apply follows_new_user. Qed.

(** The helpers above, applied where [follow] stops. *)
Ltac follow_calls :=
  repeat first
    [ progress follow
    | apply follows_changed | apply follows_rbac
    | apply follows_GetConfig | apply follows_RevokeToken | apply follows_default_project
    | apply follows_owner_projects
    | apply follows_listing | apply follows_update_password | apply follows_state_transaction ].

(** ** The server

    Every request of [routes/user_router.go], [project_router.go] and
    [dex_router.go], with the values the handlers read from it. *)
Inductive Request : Type :=
| GET_user_with_project (username : string) (query : string → string)
| GET_project (pid : string)
| GET_list_projects (query : string → string)
| GET_projects_stats
| GET_project_members (pid state : string)
| GET_project_owners (pid : string)
| GET_list_invitations (state : string)
| GET_owner_projects
| GET_project_role (pid : string)
| POST_create_project (b : option CreateProjectInput)
| POST_send_invitation (b : option MemberInput)
| POST_accept_invitation (b : option MemberInput)
| POST_decline_invitation (b : option MemberInput)
| POST_remove_invitation (b : option MemberInput)
| POST_leave_project (b : option MemberInput)
| POST_update_project_name (b : option ProjectInput)
| POST_update_member_role (b : option MemberInput)
| POST_delete_project (pid : string)
| GET_api_tokens (uid : string)
| POST_create_token (b : option ApiTokenInput)
| POST_remove_token (b : option DeleteApiTokenInput)
| POST_update_password (b : option UserPassword)
| POST_reset_password (b : option UserPassword)
| POST_create_user (b : option User)
| POST_update_details (b : option UserDetails)
| GET_user (uid : string)
| GET_users
| GET_invite_users (pid : string)
| POST_update_state (b : option UpdateUserStateInput).

Definition route (r : Request) (c : Ctx) : AuthM Response :=
  match r with
  | GET_user_with_project u q => GetUserWithProject c u q
  | GET_project pid => GetProject c pid
  | GET_list_projects q => GetProjectsByUserID_handler c q
  | GET_projects_stats => GetProjectStats_handler c
  | GET_project_members pid st => GetActiveProjectMembers c pid st
  | GET_project_owners pid => GetActiveProjectOwners pid
  | GET_list_invitations st => ListInvitations c st
  | GET_owner_projects => GetOwnerProjects c
  | GET_project_role pid => GetProjectRole c pid
  | POST_create_project b => CreateProject c b
  | POST_send_invitation b => SendInvitation c b
  | POST_accept_invitation b => AcceptInvitation c b
  | POST_decline_invitation b => DeclineInvitation c b
  | POST_remove_invitation b => RemoveInvitation c b
  | POST_leave_project b => LeaveProject c b
  | POST_update_project_name b => UpdateProjectName c b
  | POST_update_member_role b => UpdateMemberRole c b
  | POST_delete_project pid => DeleteProject c pid
  | GET_api_tokens uid => GetApiTokens c uid
  | POST_create_token b => CreateApiToken_handler c b
  | POST_remove_token b => DeleteApiToken_handler c b
  | POST_update_password b => UpdatePassword c b
  | POST_reset_password b => ResetPassword c b
  | POST_create_user b => CreateUser c b
  | POST_update_details b => UpdateUser c b
  | GET_user uid => GetUser c uid
  | GET_users => FetchUsers c
  | GET_invite_users pid => InviteUsers c pid
  | POST_update_state b => UpdateUserState c b
  end.

Ltac unfold_handlers :=
  unfold GetUserWithProject, GetProject, GetProjectsByUserID_handler, GetProjectStats_handler,
    GetActiveProjectMembers, GetActiveProjectOwners, ListInvitations, GetOwnerProjects,
    GetProjectRole, GetApiTokens, CreateApiToken_handler, DeleteApiToken_handler, UpdatePassword,
    ResetPassword, UpdateUser, GetUser, FetchUsers, InviteUsers, UpdateUserState,
    userRepo_FindUserByUsername, projectRepo_GetProjectByProjectID, projectRepo_GetProjectStats,
    projectRepo_GetProjectMembers, projectRepo_GetProjectOwners, projectRepo_ListInvitations,
    projectRepo_GetOwnerProjects, projectRepo_GetProjectRole, sessionRepo_GetApiTokensByUserID,
    CreateApiToken, sessionRepo_CreateApiToken, sessionRepo_DeleteApiToken,
    userRepo_GetUser, userRepo_GetUsers, userRepo_InviteUsers, userRepo_UpdateUser,
    userRepo_IsAdministrator, Find, InsertOne, DeleteOne.

Lemma CreateUser_follows c b : follows (CreateUser c b).
Proof.
  unfold CreateUser. follow_calls. apply follows_create_user. cbn.
  rewrite andb_false_iff, !negb_false_iff, !str_eq_true in Heqb1. set_solver.
Qed.

Lemma follows_effect k a h : follows h → refines k a h.
Proof. intros Hf w. eapply wp_mono; [apply Hf|]. intros ? w' ?. by left. Qed.

(** The membership action a request asks for. *)
Definition actions (r : Request) : list action :=
  match r with
  | POST_send_invitation _ => [AInvite]
  | POST_accept_invitation _ => [AAccept]
  | POST_decline_invitation _ => [ADecline]
  | POST_remove_invitation _ => [ARemove]
  | POST_leave_project _ => [ALeave]
  | POST_update_project_name _ => [ARename]
  | POST_update_member_role _ => [ARole]
  | POST_delete_project _ => [ADelete]
  | _ => []
  end.

(** Every authenticated request either performs the one membership step it
    asks for or only steps that need no membership right. *)
Lemma route_effect r c : refines (actions r) (ctx_uid c) (route r c).
Proof.
  destruct r; cbn [route actions].
  10: apply CreateProject_refines. 10: apply SendInvitation_refines.
  10: apply AcceptInvitation_refines. 10: apply DeclineInvitation_refines.
  10: apply RemoveInvitation_refines. 10: apply LeaveProject_refines.
  10: apply UpdateProjectName_refines. 10: apply UpdateMemberRole_refines.
  10: apply DeleteProject_refines. 15: apply follows_effect, CreateUser_follows.
  all: apply follows_effect; unfold_handlers; by follow_calls.
Qed.

(** The requests served without a token: [UserRouter] registers [/login] and
    [/logout] before the middleware, [OAuthRouter] has no middleware. *)
Inductive Call : Type :=
| Authenticated (authHeader : string) (r : Request)
| POST_login (b : option User)
| POST_logout (authHeader : string)
| GET_oauth_callback (state authcode : string).

Definition serve (call : Call) : AuthM Response :=
  match call with
  | Authenticated authHeader r => JwtMiddleware authHeader (route r)
  | POST_login b => LoginUser b
  | POST_logout authHeader => LogoutUser authHeader
  | GET_oauth_callback state authcode => OAuthCallback state authcode
  end.

Definition any_step (s s' : AuthDB) : Prop := nstep s s' ∨ ∃ a x, mstep a s s' x.

Lemma effect_any k a s s' : effect k a s s' → rtc any_step s s'.
Proof.
  intros [Hs|(uid & x & _ & _ & Hm)]; [|apply rtc_once; right; eauto].
  induction Hs; [apply rtc_refl|eapply rtc_l; [by left|done]].
Qed.

Lemma refines_any k a h w : refines k a h → wp h (λ _ w', rtc any_step (db w) (db w')) w.
Proof. intros Hm. eapply wp_mono; [apply Hm|]. intros ? w'. apply effect_any. Qed.

Lemma serve_any call w : wp (serve call) (λ _ w', rtc any_step (db w) (db w')) w.
Proof.
  destruct call as [h r|b|h|st cd]; cbn [serve].
  - unfold JwtMiddleware. run_handler; try done. eapply wp_mono; [apply follows_ValidateToken|].
    intros [c|e|] w' Hs; assert (rtc any_step (db w) (db w')) by (apply (effect_any [] None); by left);
      cbn; [|done..].
    eapply wp_mono; [apply route_effect|]. intros ? w2 H2%effect_any. by etrans.
  - apply (refines_any [] None), follows_effect.
    unfold LoginUser, userRepo_FindUserByUsername, GetSignedJWT. by follow_calls.
  - apply (refines_any [] None), follows_effect. unfold LogoutUser. by follow_calls.
  - apply (refines_any [] None), follows_effect.
    unfold OAuthCallback, userRepo_LoginUser, GetSignedJWT. follow_calls.
    all: apply follows_new_user; cbn; set_solver.
Qed.

(** [main] of [api/main.go] up to the servers: the connection, the collections
    and indexes, the secret and the administrator. [log.Fatal] ends the process;
    the result is what was logged. *)
Definition boot `{IndexAdmin} (url user password : string) : AuthM (res (list error)) :=
  let! _ := MongoConnection url user password or _ => mret Panic in
  logged ← create_collections;
  let! _ := AddSalt or _ => mret Panic in
  let! _ := validatedAdminSetup or _ => mret Panic in
  mret (Ok logged).

Lemma setup_any {A} (a : A) w :
  wp (let! _ := AddSalt or _ => mret Panic in let! _ := validatedAdminSetup or _ => mret Panic in mret (Ok a : res A))
    (λ r w', rtc any_step (db w) (db w') ∧ (r = Ok a ∨ r = Panic)) w.
Proof.
  apply wp_conj.
  - assert (follows (let! _ := AddSalt or _ => mret Panic in let! _ := validatedAdminSetup or _ => mret Panic in mret (Ok a : res A))) as Hb.
    { unfold validatedAdminSetup. follow_calls; [apply follows_AddSalt|].
      apply follows_create_user. cbn. set_solver. }
    eapply wp_mono; [apply Hb|]. intros ? w' Hs. apply (effect_any [] None). by left.
  - wp_step. apply wp_any. intros [] ?; [|apply wp_ret; by right..].
    wp_step. apply wp_any. intros [] ?; apply wp_ret; auto.
Qed.
End refinement.
