(* ===== verification/AuthInvariants.v ===== *)
(** * AuthInvariants.v: what holds of the database in every state

    Invariants of the protocol of [AuthMembership.v], by induction on its
    steps, and the theorems about the server that follow from them. *)
From S2P Require Import Prelude World MemMongo GoStd AuthEntities AuthRepo.
From S2P Require Import AuthListing AuthService AuthHandlers AuthUserHandlers AuthAccess AuthMembership.
Local Open Scope string_scope.
Local Open Scope Z_scope.

(** ** Well-formed databases *)
Definition wf_member (m : Member) : Prop :=
  m_Role m ∈ all_roles ∧ m_Invitation m ∈ all_invitations.

Definition wf_project (p : Project) : Prop :=
  NoDup (m_UserID <$> p_Members p) ∧ Forall wf_member (p_Members p).

(** User names are unique where the index is there. *)
Definition wf_users (indexed : bool) (us : list User) : Prop :=
  NoDup (u_ID <$> us) ∧ (indexed = true → NoDup (u_Username <$> us)) ∧
  Forall (λ u, u_Role u ∈ [RoleAdmin; RoleUser]) us.

Definition wf_db (s : AuthDB) : Prop :=
  wf_users (names_indexed s) (users s) ∧ NoDup (p_ID <$> projects s) ∧ Forall wf_project (projects s).

(** ** Members *)
Lemma update_elem_ids u f p :
  (∀ m, m_UserID (f m) = m_UserID m) →
  m_UserID <$> p_Members (update_elem u f p) = m_UserID <$> p_Members p.
Proof.
  intros Hf. cbn. rewrite <-list_fmap_compose. apply list_fmap_ext. intros _ m _. cbn.
  destruct (str_eq _ _); [apply Hf|done].
Qed.

Lemma update_elem_wf u f p :
  (∀ m, m_UserID (f m) = m_UserID m) → (∀ m, wf_member m → wf_member (f m)) →
  wf_project p → wf_project (update_elem u f p).
Proof.
  intros Hid Hf [HN HF]. split; [by rewrite update_elem_ids|].
  cbn. apply Forall_fmap. eapply Forall_impl; [done|]. intros m Hm. cbn.
  destruct (str_eq _ _); auto.
Qed.

Lemma pull_member_wf u p : wf_project p → wf_project (pull_member u p).
Proof.
  intros [HN HF]. split; cbn.
  - eapply NoDup_sublist; [apply fmap_sublist, filter_sublist|done].
  - apply Forall_forall. intros m [Hm _]%elem_of_filterb. by eapply Forall_forall in HF.
Qed.

Lemma first_invitation_elem uid ms :
  uid ∈ m_UserID <$> ms → ∃ m, m ∈ ms ∧ m_UserID m = uid ∧ first_invitation uid ms = m_Invitation m.
Proof.
  induction ms as [|m ms IH]; cbn; [by intros ?%elem_of_nil|].
  intros Hin. destruct (str_eq (m_UserID m) uid) eqn:E.
  - apply str_eq_true in E. exists m. set_solver.
  - apply str_eq_false in E. destruct IH as (m' & ? & ? & ?); [set_solver|]. exists m'. set_solver.
Qed.

Lemma add_member_wf p m :
  wf_member m → first_invitation (m_UserID m) (p_Members p) ∉ all_invitations →
  wf_project p → wf_project (set_members (p_Members p ++ [m]) p).
Proof.
  intros Hm Hi [HN HF]. split; cbn.
  - rewrite fmap_app. apply NoDup_app. split; [done|]. split; [|by apply NoDup_singleton].
    intros x Hx ->%list_elem_of_singleton. apply first_invitation_elem in Hx as (m' & Hm' & _ & E).
    rewrite E in Hi. eapply Forall_forall in HF as [_ ?]; done.
  - by apply Forall_app; split; [|constructor].
Qed.

(** ** Every step keeps the database well formed *)
Lemma upd_wf q f s s' :
  upd q f s s' → (∀ p, p_ID (f p) = p_ID p) →
  (∀ p, p ∈ projects s → wf_project p → q p = true → wf_project (f p)) →
  wf_db s → wf_db s'.
Proof.
  intros (ps & -> & HU) Hid Hf (Hus & HN & HF). split; [done|]. cbn. split.
  - by erewrite updated_some_keys.
  - by eapply updated_some_Forall.
Qed.

Lemma mstep_wf a s s' x : mstep a s s' x → wf_db s → wf_db s'.
Proof.
  intros Hs Hwf. destruct Hs as [pid p m ? Hp Hpid ??? Hu|pid p u r ????? Hu|pid t ? Hu
    |pid ? Hu|pid ? Hu|pid u ?? Hu|pid u r ??? Hu|pid name ? Hu|pid ps ? -> Hd].
  9: { destruct Hwf as (? & ? & HF). apply deleted_sublist in Hd. split; [done|]. cbn. split.
       - by eapply NoDup_sublist; [apply fmap_sublist|].
       - by eapply Forall_sublist. }
  all: eapply upd_wf; [exact Hu|done| |done]; intros p' Hp' ? Hq.
  - apply add_member_wf; [by split; [|set_solver]| |done].
    apply str_eq_true in Hq. destruct Hwf as (_ & HN & _).
    rewrite (NoDup_key_inj _ _ _ _ HN Hp' Hp) by congruence. done.
  - by apply update_elem_wf; [|intros ? []; split; [|set_solver]|].
  - by apply update_elem_wf; [|intros ? []; split; [|set_solver]|].
  - by apply update_elem_wf; [|intros ? []; split; [|set_solver]|].
  - by apply update_elem_wf; [|intros ? []; split; [|set_solver]|].
  - by apply pull_member_wf.
  - by apply update_elem_wf; [|intros ? []; split|].
  - done.
Qed.

Lemma nstep_wf s s' : nstep s s' → wf_db s → wf_db s'.
Proof.
  intros Hs Hwf. destruct Hs as [p m ps -> [Hi Hk] Hm Hr Hv|u t Hu|q b Hu|u us -> [Hi Hk] ?
    |q f us -> Hu Hf|Hus Hps Hix].
  - destruct Hwf as (? & HN & HF). split; [done|]. cbn. rewrite Hi. split; cbn.
    + apply NoDup_cons. split; [|done]. intros (p' & E & Hp')%list_elem_of_fmap.
      eapply Forall_forall in Hk; [|done]. unfold project_key in Hk.
      apply str_eq_false in Hk. congruence.
    + constructor; [|done]. split; rewrite Hm; [apply NoDup_singleton|].
      constructor; [|constructor]. split; [rewrite Hr|rewrite Hv]; set_solver.
  - eapply upd_wf; [exact Hu|done| |done]. intros p ???. by apply update_elem_wf.
  - by eapply upd_wf; [exact Hu|done| |done].
  - destruct Hwf as ((HN1 & HN2 & HR) & ? & ?). split; [|done]. cbn. rewrite Forall_forall in Hk.
    split_and!; [rewrite Hi; apply NoDup_cons; split; [|done]| |rewrite Hi; by constructor].
    + intros (u' & E & Hin)%list_elem_of_fmap. specialize (Hk _ Hin). unfold user_key in Hk.
      rewrite orb_false_iff, str_eq_false in Hk. naive_solver.
    + intros Hix. change (names_indexed s = true) in Hix. rewrite Hi. apply NoDup_cons. split; [|by apply HN2].
      intros (u' & E & Hin)%list_elem_of_fmap. specialize (Hk _ Hin). unfold user_key in Hk.
      rewrite Hix, andb_true_l, orb_false_iff, !str_eq_false in Hk. naive_solver.
  - destruct Hwf as ((HN1 & HN2 & HR) & ? & ?). split; [|done]. cbn.
    split_and!; [|intros Hix; specialize (HN2 Hix)|]; [erewrite updated_some_keys; [done|done|apply Hf]..|].
    eapply updated_some_Forall; [done| |done]. intros u _ Hu' _. cbn.
    by destruct (Hf u) as (_ & _ & ->).
  - unfold wf_db, names_indexed. by rewrite Hus, Hps, Hix.
Qed.

Lemma any_steps_wf s s' : rtc any_step s s' → wf_db s → wf_db s'.
Proof.
  induction 1 as [|s s1 s' [Hn|(a & x & Hm)] _ IH]; [done| |]; eauto using nstep_wf, mstep_wf.
Qed.

(** ** Ownership

    A project has an owner when some member has the role and has accepted. *)
Definition has_owner (p : Project) : Prop :=
  ∃ m, m ∈ p_Members p ∧ m_Role m = RoleOwner ∧ m_Invitation m = AcceptedInvitation.

Definition owned_db (s : AuthDB) : Prop := Forall has_owner (projects s).

(** An owner whose entry is not the updated one is still there. *)
Lemma update_elem_owner u f p m :
  m ∈ p_Members p → m_Role m = RoleOwner → m_Invitation m = AcceptedInvitation →
  m_UserID m ≠ u → has_owner (update_elem u f p).
Proof.
  intros Hm ?? Hne. exists m. split; [|done]. cbn. apply list_elem_of_fmap.
  exists m. split; [|done]. by rewrite (proj2 (str_eq_false _ _)).
Qed.

(** An update that keeps the owner entries keeps the owner. *)
Lemma update_elem_keeps u f p :
  (∀ m, m ∈ p_Members p → m_UserID m = u → m_Role m = RoleOwner → m_Invitation m = AcceptedInvitation →
        m_Role (f m) = RoleOwner ∧ m_Invitation (f m) = AcceptedInvitation) →
  has_owner p → has_owner (update_elem u f p).
Proof.
  intros Hf (m & Hm & Hr & Hi). destruct (decide (m_UserID m = u)) as [E|E].
  - exists (f m). split; [|by apply Hf]. cbn. apply list_elem_of_fmap. exists m.
    by rewrite (proj2 (str_eq_true _ _)).
  - by eapply update_elem_owner.
Qed.

Lemma member_unique p m m' :
  wf_project p → m ∈ p_Members p → m' ∈ p_Members p → m_UserID m = m_UserID m' → m = m'.
Proof. intros [HN _]. by apply NoDup_key_inj. Qed.

Lemma project_unique s p p' :
  wf_db s → p ∈ projects s → p' ∈ projects s → p_ID p = p_ID p' → p = p'.
Proof. intros (_ & HN & _). by apply NoDup_key_inj. Qed.

Lemma wf_db_project s p : wf_db s → p ∈ projects s → wf_project p.
Proof. intros (_ & _ & HF) Hp. by eapply Forall_forall in HF. Qed.

Lemma upd_owned q f s s' :
  upd q f s s' → (∀ p, p ∈ projects s → has_owner p → q p = true → has_owner (f p)) →
  owned_db s → owned_db s'.
Proof. intros (ps & -> & HU) Hf HF. cbn. by eapply updated_some_Forall. Qed.

(** The entry of a caller that is authorized with an invitation. *)
Lemma authorized_entry s a pid roles i p :
  wf_db s → authorized s a pid roles i → p ∈ projects s → p_ID p = pid →
  ∃ m, m ∈ p_Members p ∧ m_UserID m = a ∧ m_Role m ∈ roles ∧ m_Invitation m = i.
Proof.
  intros Hwf [_ (p' & m & Hp' & Hid' & ?)] Hp Hid.
  assert (p' = p) as -> by (eapply project_unique; eauto; congruence). eauto.
Qed.

Lemma pending_not_owner s a pid p :
  wf_db s → authorized s a pid all_roles PendingInvitation → p ∈ projects s → p_ID p = pid →
  ∀ m, m ∈ p_Members p → m_UserID m = a → m_Invitation m = AcceptedInvitation → False.
Proof.
  intros Hwf Ha Hp Hid m Hm Hu Hi.
  destruct (authorized_entry s a pid _ _ p Hwf Ha Hp Hid) as (m' & Hm' & Hu' & _ & Hi').
  assert (m = m') as <- by (eapply member_unique; eauto using wf_db_project; congruence).
  rewrite Hi in Hi'. discriminate.
Qed.

(** The only step that can take the owner away is leaving. *)
Lemma mstep_owned a s s' x :
  mstep a s s' x → x ≠ ALeave → wf_db s → owned_db s → owned_db s'.
Proof.
  intros Hs Hl Hwf Ho. destruct Hs as [pid p m ? Hp Hpid ??? Hu|pid p u r ? Hp Hpid ? Hf Hu|pid t Ha Hu
    |pid Ha Hu|pid ? Hu|pid u Ha ? Hu|pid u r Ha ?? Hu|pid name ? Hu|pid ps ? -> Hd].
  5: done.
  8: { apply deleted_sublist in Hd. cbn. by eapply Forall_sublist. }
  all: eapply upd_owned; [exact Hu| |done]; intros p' Hp' Hown Hq; try apply str_eq_true in Hq.
  - destruct Hown as (o & Ho' & ?). exists o. split; [cbn; set_solver|done].
  - apply update_elem_keeps; [|done]. intros m Hm Hid Hr Hi.
    assert (p' = p) as -> by (eapply project_unique; eauto; congruence).
    destruct (first_invitation_elem u (p_Members p)) as (m' & Hm' & Hid' & E).
    { apply list_elem_of_fmap. eauto. }
    assert (m = m') as <- by (eapply member_unique; eauto using wf_db_project; congruence).
    rewrite E, Hi in Hf. set_solver.
  - apply update_elem_keeps; [|done]. intros. exfalso. by eapply pending_not_owner.
  - apply update_elem_keeps; [|done]. intros. exfalso. by eapply pending_not_owner.
  - destruct (authorized_entry s a pid _ _ p' Hwf Ha Hp' Hq) as (m & Hm & Hid & Hr & Hi).
    exists m. split; [|split; [set_solver|done]]. cbn. apply elem_of_filterb. split; [done|].
    rewrite negb_true_iff, str_eq_false. congruence.
  - destruct (authorized_entry s a pid _ _ p' Hwf Ha Hp' Hq) as (m & Hm & Hid & Hr & Hi).
    eapply update_elem_owner; eauto; [set_solver|congruence].
  - done.
Qed.

Lemma nstep_owned s s' : nstep s s' → owned_db s → owned_db s'.
Proof.
  intros Hs Ho. destruct Hs as [p m ps -> [Hi _] Hm Hr Hv|u t Hu|q b Hu|u us -> _ _
    |q f us -> Hu Hf|_ Hps]; [|..|done|done|by unfold owned_db; rewrite Hps].
  - unfold owned_db. cbn. rewrite Hi. constructor; [|done]. exists m. rewrite Hm. set_solver.
  - eapply upd_owned; [exact Hu| |done]. intros. by apply update_elem_keeps.
  - by eapply upd_owned; [exact Hu| |done].
Qed.

(** ** Who may change an entry *)
Definition entry (s : AuthDB) (pid uid : string) (r : MemberRole) (i : Invitation) : Prop :=
  ∃ p m, p ∈ projects s ∧ p_ID p = pid ∧ m ∈ p_Members p ∧
         m_UserID m = uid ∧ m_Role m = r ∧ m_Invitation m = i.

(** A new entry of [uid] in project [pid] after a request of the actor [a]. *)
Inductive entitled (a : option string) (s : AuthDB) (pid uid : string) (r : MemberRole)
    (i : Invitation) : Prop :=
| entitled_self i0 :          (* the user answers or leaves, keeping the role *)
    a = Some uid → entry s pid uid r i0 →
    (i = AcceptedInvitation → i0 = PendingInvitation) → i ≠ PendingInvitation →
    entitled a s pid uid r i
| entitled_owner o :          (* an owner invites, or changes a role *)
    a = Some o → o ≠ uid → owner s o pid →
    (i ≠ PendingInvitation → ∃ r0, entry s pid uid r0 i) →
    entitled a s pid uid r i
| entitled_new :              (* the project did not exist *)
    pid ∉ (p_ID <$> projects s) → r = RoleOwner → i = AcceptedInvitation →
    entitled a s pid uid r i.

Lemma upd_entry q f s s' pid uid r i :
  upd q f s s' → (∀ p, p_ID (f p) = p_ID p) → entry s' pid uid r i →
  entry s pid uid r i ∨
  ∃ p m, p ∈ projects s ∧ p_ID p = pid ∧ q p = true ∧ m ∈ p_Members (f p) ∧
         m_UserID m = uid ∧ m_Role m = r ∧ m_Invitation m = i.
Proof.
  intros (ps & -> & HU) Hid (p' & m & Hp' & Hpid & Hm). cbn in Hp'.
  destruct (updated_some_elem _ _ _ _ _ HU Hp') as (p & Hp & [->|[Hq ->]]); [left|right].
  - by exists p, m.
  - exists p, m. by rewrite <-(Hid p).
Qed.

Lemma update_elem_member u f p m :
  m ∈ p_Members (update_elem u f p) →
  m ∈ p_Members p ∨ ∃ m0, m0 ∈ p_Members p ∧ m_UserID m0 = u ∧ m = f m0.
Proof.
  cbn. intros (m0 & -> & Hm0)%list_elem_of_fmap.
  destruct (str_eq _ _) eqn:E; [right|by left]. apply str_eq_true in E. eauto.
Qed.

Lemma owner_entry s a pid : owner s a pid → entry s pid a RoleOwner AcceptedInvitation.
Proof. intros [_ (p & m & ? & ? & ? & ? & Hr & ?)]. exists p, m. set_solver. Qed.

(** In a well-formed database an entry is unique. *)
Lemma entry_unique s pid uid r r' i i' :
  wf_db s → entry s pid uid r i → entry s pid uid r' i' → r = r' ∧ i = i'.
Proof.
  intros Hwf (p & m & ? & ? & ? & ? & <- & <-) (p' & m' & ? & ? & ? & ? & <- & <-).
  assert (p = p') as <- by (eapply project_unique; eauto; congruence).
  assert (m = m') as <- by (eapply member_unique; eauto using wf_db_project; congruence). done.
Qed.

Lemma first_invitation_entry s p uid :
  p ∈ projects s → uid ∈ m_UserID <$> p_Members p →
  ∃ r, entry s (p_ID p) uid r (first_invitation uid (p_Members p)).
Proof.
  intros Hp (m & Hm & Hid & ->)%first_invitation_elem. exists (m_Role m), p, m. done.
Qed.

Lemma first_invitation_in uid ms :
  first_invitation uid ms ≠ "" → uid ∈ m_UserID <$> ms.
Proof.
  induction ms as [|m ms IH]; cbn; [done|]. destruct (str_eq _ _) eqn:E.
  - apply str_eq_true in E. set_solver.
  - set_solver.
Qed.

(** An owner is no one an invitation can be sent to. *)
Lemma owner_accepted s a p :
  wf_db s → owner s a (p_ID p) → p ∈ projects s →
  first_invitation a (p_Members p) = AcceptedInvitation.
Proof.
  intros Hwf Ho Hp.
  destruct (authorized_entry s a _ _ _ p Hwf Ho Hp eq_refl) as (m & Hm & Hid & _ & Hi).
  destruct (first_invitation_entry s p a Hp) as [r He].
  { apply list_elem_of_fmap. eauto. }
  by destruct (entry_unique _ _ _ _ _ _ _ Hwf (owner_entry _ _ _ Ho) He) as [_ <-].
Qed.

(** Entries made by an update of the caller's own entry. *)
Lemma self_entitled f i0 i1 a pid roles s s' pid' uid r i :
  (∀ m, m_UserID (f m) = m_UserID m ∧ m_Role (f m) = m_Role m ∧ m_Invitation (f m) = i1) →
  wf_db s → authorized s a pid roles i0 → (i1 = AcceptedInvitation → i0 = PendingInvitation) →
  i1 ≠ PendingInvitation →
  upd (by_project_id pid) (update_elem a f) s s' → entry s' pid' uid r i →
  entry s pid' uid r i ∨ entitled (Some a) s pid' uid r i.
Proof.
  intros Hf Hwf Ha Hi Hp Hu He. eapply upd_entry in He; [|exact Hu|done].
  destruct He as [?|(p & m & Hin & Hid & Hq & Hm & Hm')]; [by left|].
  apply str_eq_true in Hq. apply update_elem_member in Hm as [Hm|(m0 & Hm & Ham & ->)].
  { left. by exists p, m. }
  right. destruct (Hf m0) as (E1 & E2 & E3). rewrite E1, E2, E3 in Hm'. destruct Hm' as (<- & <- & <-).
  eapply (entitled_self _ _ _ _ _ _ (m_Invitation m0)); [congruence|by exists p, m0| |done].
  intros Hacc%Hi. subst i0.
  destruct (authorized_entry s a pid _ _ p Hwf Ha Hin Hq) as (m1 & ? & ? & _ & Hi1).
  by rewrite (member_unique p m0 m1) by (eauto using wf_db_project; congruence).
Qed.

Lemma mstep_entitled a s s' x pid uid r i :
  mstep a s s' x → wf_db s → entry s' pid uid r i →
  entry s pid uid r i ∨ entitled (Some a) s pid uid r i.
Proof.
  intros Hs Hwf He. destruct Hs as [pid' p m Ho Hp Hpid ? Hi Hn Hu|pid' p u r' Ho Hp Hpid ? Hf Hu
    |pid' t Ha Hu|pid' Ha Hu|pid' Ha Hu|pid' u Ha ? Hu|pid' u r' Ho Hne ? Hu|pid' name ? Hu|pid' ps ? -> Hd].
  3: by eapply (self_entitled _ PendingInvitation AcceptedInvitation); [| |exact Ha| | |exact Hu|exact He].
  3: by eapply (self_entitled _ PendingInvitation DeclinedInvitation); [| |exact Ha| | |exact Hu|exact He].
  3: by eapply (self_entitled _ AcceptedInvitation ExitedProject); [| |exact Ha| | |exact Hu|exact He].
  6: { left. destruct He as (p & m & Hp & ?). exists p, m. split; [|done]. cbn in Hp.
       apply deleted_sublist in Hd. by eapply sublist_elem. }
  all: eapply upd_entry in He; [|exact Hu|done];
    destruct He as [?|(p' & m' & Hin & Hid & Hq & Hm & Hm')]; [by left|]; apply str_eq_true in Hq.
  - apply elem_of_app in Hm as [Hm|Hm%list_elem_of_singleton]; [left; by exists p', m'|right].
    subst m'. assert (pid = pid') as -> by congruence. destruct Hm' as (<- & <- & <-).
    apply (entitled_owner _ _ _ _ _ _ a); [done| |done|done].
    intros ->. subst pid'. rewrite (owner_accepted s) in Hn by done. set_solver.
  - apply update_elem_member in Hm as [Hm|(m0 & Hm & Ham & ->)]; [left; by exists p', m'|right].
    assert (pid = pid') as -> by congruence. cbn in Hm'. destruct Hm' as (Hid0 & <- & <-).
    apply (entitled_owner _ _ _ _ _ _ a); [done| |done|done].
    intros ->. subst pid'. rewrite <-Ham, Hid0, (owner_accepted s) in Hf by done. set_solver.
  - left. exists p', m'. apply elem_of_filterb in Hm as [Hm _]. done.
  - apply update_elem_member in Hm as [Hm|(m0 & Hm & Ham & ->)]; [left; by exists p', m'|right].
    assert (pid = pid') as -> by congruence. cbn in Hm'. destruct Hm' as (Hid0 & <- & Hi0).
    apply (entitled_owner _ _ _ _ _ _ a); [done|congruence|done|].
    intros _. by exists (m_Role m0), p', m0.
  - left. by exists p', m'.
Qed.

Lemma nstep_entitled s s' pid uid r i :
  nstep s s' → entry s' pid uid r i →
  entry s pid uid r i ∨ (pid ∉ (p_ID <$> projects s) ∧ r = RoleOwner ∧ i = AcceptedInvitation).
Proof.
  intros Hs He. destruct Hs as [p m ps -> [Hi Hk] Hm Hr Hv|u t Hu|q b Hu|u us -> _ _
    |q f us -> Hu Hf|_ Hps]; [| | |left; exact He|left; exact He|].
  - destruct He as (p' & m' & Hp' & Hid & Hin & Hm'). cbn in Hp'. rewrite Hi in Hp'.
    apply elem_of_cons in Hp' as [->|Hp']; [right|left; by exists p', m'].
    rewrite Hm in Hin. apply list_elem_of_singleton in Hin as ->.
    destruct Hm' as (_ & <- & <-). split; [|done]. intros (p'' & E & Hin)%list_elem_of_fmap.
    eapply Forall_forall in Hk; [|done]. unfold project_key in Hk.
    apply str_eq_false in Hk. congruence.
  - eapply upd_entry in He; [|exact Hu|done].
    destruct He as [?|(p & m & ? & ? & _ & Hm & Hm')]; [by left|left].
    apply update_elem_member in Hm as [?|(m0 & ? & ? & ->)]; [by exists p, m|by exists p, m0].
  - eapply upd_entry in He; [|exact Hu|done].
    destruct He as [?|(p & m & ? & ? & _ & Hm & Hm')]; [by left|left]. by exists p, m.
  - left. unfold entry in *. by rewrite Hps in He.
Qed.

Lemma nstep_ids s s' pid : nstep s s' → pid ∈ p_ID <$> projects s → pid ∈ p_ID <$> projects s'.
Proof.
  intros Hs Hin. destruct Hs as [p m ps -> [Hi _] _ _ _|u t (ps & -> & Hu)|q b (ps & -> & Hu)|u us -> _ _
    |q f us -> Hu Hf|_ Hps]; cbn; [rewrite Hi; set_solver| | |done|done|by rewrite Hps];
    by erewrite updated_some_keys.
Qed.

Lemma steps_entitled s s' pid uid r i :
  steps s s' → entry s' pid uid r i →
  entry s pid uid r i ∨ (pid ∉ (p_ID <$> projects s) ∧ r = RoleOwner ∧ i = AcceptedInvitation).
Proof.
  intros Hs. induction Hs as [|s s1 s' Hn _ IH]; [by left|]. intros He%IH.
  destruct He as [He|(Hf & ? & ?)]; [by eapply nstep_entitled|].
  right. split; [|done]. intros Hin. by eapply Hf, nstep_ids.
Qed.

Lemma effect_entitled k a s s' pid uid r i :
  effect k a s s' → wf_db s → entry s' pid uid r i →
  entry s pid uid r i ∨ entitled a s pid uid r i.
Proof.
  intros [Hs|(o & x & -> & _ & Hm)] Hwf He; [|by eapply mstep_entitled].
  eapply steps_entitled in He as [?|(? & ? & ?)]; [by left| |done].
  right. by apply entitled_new.
Qed.
