(* ===== verification/AuthTheorems.v ===== *)
(** * AuthTheorems.v: the theorems about the authentication service

    Each theorem holds for every database driver with the documented behaviour
    ([MongoLaws]), whatever calls fail, and for every clock and random source.
    Witnesses run the theorem on the concrete environment of [Fixtures.v]. *)
From S2P Require Import Prelude World MemMongo GoStd AuthEntities AuthRepo.
From S2P Require Import AuthListing AuthService AuthHandlers AuthUserHandlers Fixtures AuthAccess.
From S2P Require Import AuthMembership AuthInvariants.
Local Open Scope string_scope.
Local Open Scope Z_scope.

(** ** Runs of the server: a sequence of requests *)
Fixpoint serve_all `{MongoDriver} `{MongoTxn} `{Runtime} `{Crypto} `{Config} `{Regex} `{OIDC}
    (calls : list Call) : AuthM (list Response) :=
  match calls with
  | [] => mret []
  | c :: calls => r ← serve c; rs ← serve_all calls; mret (r :: rs)
  end.

Section theorems.
Context {drv : MongoDriver} {laws : MongoLaws drv} {tx : MongoTxn} {txlaws : MongoTxnLaws tx}
  {rt : Runtime} {cr : Crypto} {crlaws : CryptoLaws cr} {cf : Config} {rx : Regex} {oi : OIDC} {ia : IndexAdmin}.
Implicit Types (w : AuthWorld) (s : AuthDB).

Lemma serve_all_any calls w : wp (serve_all calls) (λ _ w', rtc any_step (db w) (db w')) w.
Proof.
  revert w. induction calls as [|c calls IH]; intros w; cbn [serve_all].
  - by apply wp_ret, rtc_refl.
  - apply wp_bind. wp_use serve_any. intros r w1 H1.
    apply wp_bind. wp_use IH. intros rs w2 H2.
    apply wp_ret. cbv beta. by etrans.
Qed.

(** *** Indexes *)

(** Requests leave the indexes alone. *)
Lemma any_step_indexes s s' : any_step s s' → auth_indexes s' = auth_indexes s.
Proof.
  intros [Hn|(a & x & Hm)]; [destruct Hn|destruct Hm];
    try match goal with H : upd _ _ _ _ |- _ => destruct H as (? & -> & _) end; by subst.
Qed.
Lemma any_steps_indexes s s' : rtc any_step s s' → auth_indexes s' = auth_indexes s.
Proof. induction 1 as [|s s1 s' Hs _ IH]; [done|]. by rewrite IH, (any_step_indexes _ _ Hs). Qed.

(** The set-up of indexes keeps the invariants and loses no index; a unique index
    is created only where the keys are unique. *)
Definition more_indexes s s' : Prop := (wf_db s → wf_db s') ∧ auth_indexes s ⊆ auth_indexes s'.
#[local] Instance more_indexes_preorder : PreOrder more_indexes.
Proof. split; [by split|]. intros s1 s2 s3 [] []. split; [auto|set_solver]. Qed.
Lemma add_index_more name ix s : admits_index name ix s = true → more_indexes s (add_index name ix s).
Proof.
  intros Ha. split; [|cbn; set_solver]. intros ((HN & Hn & HR) & Hp & HF). split_and!; [|done..]. split_and!; [done| |done].
  unfold names_indexed. rewrite bool_decide_eq_true. cbn. intros [E|Hin]%elem_of_cons; [|by apply Hn, bool_decide_eq_true].
  unfold admits_index in Ha. rewrite bool_decide_eq_true_2 in Ha by done. by apply bool_decide_eq_true in Ha.
Qed.
Lemma wp_CreateOne name ix w :
  wp (CreateOne name ix) (λ r w', r ≠ Panic ∧ more_indexes (db w) (db w') ∧ (r = Ok tt → (name, ix) ∈ auth_indexes (db w'))) w.
Proof.
  unfold wp, CreateOne, admin_call. destruct (admits_index name ix (db w)) eqn:Ha; [|done].
  pose proof (add_index_more name ix (db w) Ha). destruct (admin_error (tick w)); cbn; [by destruct (admin_applied _)|].
  split_and!; [done..|]. set_solver.
Qed.
Lemma wp_CreateCollection name w :
  wp (CreateCollection name) (λ r w', r ≠ Panic ∧ more_indexes (db w) (db w') ∧ (r = Ok tt → True)) w.
Proof.
  unfold CreateCollection, outside, admin_call. wp_step. unfold wp at 1. cbn. destruct (admin_error (tick w)) as [e|]; cbn; [|by wp_step].
  wp_step. split_and!; [|done..]. by destruct e; [..|destruct (Contains _ _)].
Qed.

(** A step of the set-up: what it would establish holds, if nothing is logged. *)
Lemma wp_logged {A} (m : AuthM (res unit)) (P : AuthDB → Prop) s0 (k : list error → AuthM A) Q w :
  wp m (λ r w', r ≠ Panic ∧ more_indexes (db w) (db w') ∧ (r = Ok tt → P (db w'))) w → more_indexes s0 (db w) →
  (∀ l w', more_indexes s0 (db w') → more_indexes (db w) (db w') → (l = [] → P (db w')) → wp (k l) Q w') →
  wp (log_error m ≫= k) Q w.
Proof.
  intros Hm H0 Hk. wp_step. unfold log_error. wp_step. eapply wp_mono; [exact Hm|].
  intros [[]|e|] w' (Hp & Hs & Ho); [| |done]; wp_step; (apply Hk; [by etrans|done|]); auto. done.
Qed.

Lemma wp_create_collections w :
  wp create_collections (λ l w', more_indexes (db w) (db w') ∧ (l = [] → names_indexed (db w') = true)) w.
Proof.
  unfold create_collections, CreateIndex, CreateTTLIndex.
  apply (wp_logged _ (λ _, True) (db w)); [apply wp_CreateCollection|done|]. intros e1 w1 H1 _ _.
  apply (wp_logged _ (λ s, ("users", username_index) ∈ auth_indexes s) (db w)); [apply wp_CreateOne|done|]. intros e2 w2 H2 _ He.
  apply (wp_logged _ (λ _, True) (db w2)); [apply wp_CreateCollection|done|]. intros e3 w3 H3 _ _.
  apply (wp_logged _ (λ _, True) (db w2)); [apply wp_CreateCollection|done|]. intros e4 w4 H4 _ _.
  apply (wp_logged _ (λ _, True) (db w2)); [apply wp_CreateCollection|done|]. intros e5 w5 H5 _ _.
  apply (wp_logged _ (λ _, True) (db w2)); [|done|]. { eapply wp_mono; [apply wp_CreateOne|]. by intros r w' (? & ? & _). }
  intros e6 w6 H6 _ _.
  apply (wp_logged _ (λ _, True) (db w2)); [apply wp_CreateCollection|done|]. intros e7 w7 H7 _ _.
  wp_step. split; [by etrans|]. intros (-> & Hnil)%app_nil. apply app_nil in Hnil as [-> _].
  unfold names_indexed. apply bool_decide_eq_true. destruct H7 as [_ Hsub]. apply Hsub. auto.
Qed.

Lemma wp_boot url user password w :
  wp (boot url user password) (λ r w', ∃ s1, more_indexes (db w) s1 ∧ rtc any_step s1 (db w') ∧
    (r = Ok [] → names_indexed s1 = true)) w.
Proof.
  unfold boot, MongoConnection, outside. wp_step. unfold wp at 1. cbn [fst snd].
  destruct (mongo_open _ _ _ _); [|exists (db w); by split_and!..].
  wp_step. eapply wp_mono; [apply wp_create_collections|]. intros logged w1 [Hm Hix].
  eapply wp_mono; [apply setup_any|]. intros r w2 [H2 Hr]. exists (db w1). split_and!; [done..|].
  intros ->. destruct Hr as [[= <-]|?]; [auto|done].
Qed.

(** The process: start-up, then any sequence of requests. *)
Definition run_server (url user password : string) (calls : list Call) : AuthM (res (list error * list Response)) :=
  let? logged := boot url user password in
  rs ← serve_all calls;
  mret (Ok (logged, rs)).

(** C3. In every state the server reaches from a database that is well formed, the
    empty one for example, by its start-up and any sequence of requests by any
    callers, user ids and project ids are unique, no project lists a user twice,
    every role and invitation is one of the declared constants, and user names
    are unique if the index on them exists. The server also serves requests when
    it could not create that index; if nothing was logged during the set-up it
    exists, and names are unique. *)
Theorem server_keeps_database_well_formed url user password calls w :
  wf_db (db w) →
  wp (run_server url user password calls) (λ r w', wf_db (db w') ∧
    ∀ logged rs, r = Ok (logged, rs) → logged = [] → NoDup (u_Username <$> users (db w'))) w.
Proof.
  intros Hwf. unfold run_server. wp_step. eapply wp_mono; [apply wp_boot|].
  intros r w1 (s1 & [Hwf1 _] & Hs1 & Hix). specialize (Hwf1 Hwf).
  destruct r as [logged|e|]; [|apply wp_ret; split; [by eapply any_steps_wf|done]..].
  wp_step. eapply wp_mono; [apply serve_all_any|]. intros rs w2 H2. wp_step.
  assert (rtc any_step s1 (db w2)) as H12 by (by etrans).
  assert (wf_db (db w2)) as Hwf2 by (by eapply any_steps_wf). split; [done|].
  intros ?? [= <- <-] ->. apply Hwf2. unfold names_indexed. rewrite (any_steps_indexes _ _ H12). by apply Hix.
Qed.

(** C2. Every authenticated request changes the database only by steps of the
    membership protocol: at most one step for the action that the request asks
    for, whose right the caller has in the state before the request, or steps
    that need no right. This holds
    when database calls fail, writes that report an error included. *)
Theorem request_refines_protocol r c w :
  wp (route r c) (λ _ w', effect (actions r) (ctx_uid c) (db w) (db w')) w.
Proof. apply route_effect. Qed.

(** C4. A membership entry that a request creates or changes is one the caller
    was entitled to: the user's own answer to an invitation or departure, with
    the role unchanged and acceptance only from a pending invitation; an
    owner's invitation or change of role of another member, which cannot accept
    in that member's name; or the owner entry of a project that did not exist. *)
Theorem membership_changes_are_entitled r c w :
  wf_db (db w) →
  wp (route r c) (λ _ w', ∀ pid uid role i,
    entry (db w') pid uid role i →
    entry (db w) pid uid role i ∨ entitled (ctx_uid c) (db w) pid uid role i) w.
Proof.
  intros Hwf. wp_use route_effect. intros resp w' He pid uid role i. by eapply effect_entitled.
Qed.

(** ** Ownership *)
Lemma steps_owned s s' : steps s s' → owned_db s → owned_db s'.
Proof. induction 1; eauto using nstep_owned. Qed.

(** C5. No request other than [/leave_project] takes the last owner of a project
    away: removing members, changing roles and answering invitations leave every
    project with a member that has accepted the owner role. *)
Theorem requests_keep_an_owner r c w :
  ALeave ∉ actions r → wf_db (db w) → owned_db (db w) →
  wp (route r c) (λ _ w', owned_db (db w')) w.
Proof.
  intros Hl Hwf Ho. wp_use route_effect.
  intros _ w' [Hs|(a & x & _ & Hx & Hm)]; [by eapply steps_owned|].
  eapply mstep_owned; [done| |done..]. intros ->. done.
Qed.

(** *** Leaving *)
#[local] Hint Resolve wp_upd_one : wp_spec.

(** What [LeaveProject] establishes before it writes. *)
Lemma wp_LeaveProject c m w :
  wp (LeaveProject c (Some m)) (λ r w', db w' = db w ∨ ∃ uid,
    ctx_uid c = Some uid ∧ authorized (db w) uid (mi_ProjectID m) all_roles AcceptedInvitation ∧
    upd (by_project_id (mi_ProjectID m)) (update_elem uid (set_invitation ExitedProject)) (db w) (db w') ∧
    (mi_Role m = Some RoleOwner → ∃ p, p ∈ projects (db w) ∧ p_ID p = mi_ProjectID m ∧
       length (List.filter (λ m, is_owner m && accepted m) (p_Members p)) ≠ 1%nat)) w.
Proof.
  unfold LeaveProject, projectRepo_UpdateInvite. apply wp_body; [done|]. intros m' [= <-].
  run_handler; try (left; first [reflexivity|done]);
    rewrite ?member_rules in * by set_solver; right; eexists; (split; [done|]); (split; [done|]);
    (split; [eassumption|]); intros Hr; try (apply bool_decide_eq_false in Heqb; done).
  all: eexists; split; [eassumption|]; split; [done|]; apply bool_decide_eq_false in Heqb0; by subst.
Qed.

(** Among two or more owners, someone else than [a] is one. *)
Lemma another_owner p a :
  wf_project p → length (List.filter (λ m, is_owner m && accepted m) (p_Members p)) ≠ 1%nat →
  has_owner p → ∃ m, m ∈ p_Members p ∧ m_UserID m ≠ a ∧ m_Role m = RoleOwner ∧
                     m_Invitation m = AcceptedInvitation.
Proof.
  intros Hwf Hlen (o & Ho & Hr & Hi).
  set (l := List.filter _ _) in Hlen.
  assert (∀ m, m ∈ l ↔ m ∈ p_Members p ∧ m_Role m = RoleOwner ∧ m_Invitation m = AcceptedInvitation) as Hl.
  { intros m. unfold l. rewrite elem_of_filterb, andb_true_iff. unfold is_owner, accepted.
    by rewrite !str_eq_true. }
  assert (NoDup (m_UserID <$> l)) as HN.
  { eapply NoDup_sublist; [apply fmap_sublist, filter_sublist|apply Hwf]. }
  destruct l as [|x [|y l]]; [|done|].
  { assert (o ∈ []) as []%elem_of_nil. by apply Hl. }
  destruct (proj1 (Hl x)) as (?&?&?); [set_solver|]. destruct (proj1 (Hl y)) as (?&?&?); [set_solver|].
  destruct (decide (m_UserID x = a)) as [Ex|]; [|by exists x].
  exists y. split; [done|]. split; [|done]. intros Ey. cbn in HN. apply NoDup_cons in HN as [HN _].
  apply HN. rewrite Ex, Ey. set_solver.
Qed.

(** Leaving a project keeps it owned when the role field of the request is
    the caller's role in the project: the last owner is refused. *)
Theorem truthful_leave_keeps_an_owner c m w :
  wf_db (db w) → owned_db (db w) →
  (∀ uid r, ctx_uid c = Some uid → entry (db w) (mi_ProjectID m) uid r AcceptedInvitation →
            mi_Role m = Some r) →
  wp (LeaveProject c (Some m)) (λ _ w', owned_db (db w')) w.
Proof.
  intros Hwf Ho Hrole. wp_use wp_LeaveProject. intros _ w' [->|(uid & Hc & Ha & Hu & Hn)]; [done|].
  eapply upd_owned; [exact Hu| |done]. intros p Hp Hown Hq%str_eq_true.
  destruct (authorized_entry _ _ _ _ _ p Hwf Ha Hp Hq) as (me & Hme & Hid & _ & Hi).
  assert (mi_Role m = Some (m_Role me)) as Hr.
  { apply (Hrole uid); [done|]. by exists p, me. }
  destruct (decide (m_Role me = RoleOwner)) as [E|E].
  - rewrite E in Hr. destruct (Hn Hr) as (p' & Hp' & Hid' & Hlen).
    assert (p' = p) as -> by (eapply project_unique; eauto; congruence).
    destruct (another_owner p uid) as (o & ? & ? & ? & ?); eauto using wf_db_project.
    by eapply update_elem_owner.
  - destruct Hown as (o & Hin & ? & ?). apply (update_elem_owner _ _ _ o); [done..|]. intros Eo.
    assert (o = me) as -> by (eapply member_unique; eauto using wf_db_project; congruence). done.
Qed.
End theorems.

(** ** The demo database meets the invariants *)
Lemma demo_wf : wf_db demo_db.
Proof.
  repeat split; cbn; repeat first [apply NoDup_nil_2|apply NoDup_cons_2|constructor|set_solver].
  all: unfold wf_member; cbn; set_solver.
Qed.
Lemma demo_owned : owned_db demo_db.
Proof.
  repeat constructor; eexists; (split; [apply elem_of_cons; by left|done]).
Qed.

Lemma empty_wf : wf_db (db empty_world).
Proof. repeat split; cbn; try constructor; set_solver. Qed.

Lemma server_keeps_database_well_formed_witness :
  wp (run_server "mongodb://db" "root" "1234" [POST_login None])
    (λ r w', wf_db (db w') ∧
      ∀ logged rs, r = Ok (logged, rs) → logged = [] → NoDup (u_Username <$> users (db w'))) empty_world.
Proof. apply (server_keeps_database_well_formed "mongodb://db" "root" "1234" [POST_login None] empty_world), empty_wf. Defined.

(** When the index on user names cannot be created the server logs it and goes
    on: the administrator can then create a second account with a name that is
    taken. With the index the second request is refused. *)
Definition created_users (ia : IndexAdmin) : res (list error) * list string :=
  let add := CreateUser (ctx_of "a" RoleAdmin "admin") (Some (mkUser no_audit "" "dave" "Pwd12345" "" "" "" RoleUser None false)) in
  let '(r, w) := (let? logged := boot (H := ia) "mongodb://db" "root" "1234" in _ ← add; _ ← add; mret (Ok logged)) empty_world in
  (r, u_Username <$> users (db w)).
Example accounts_share_a_name_without_the_index :
  created_users fix_admin = (Ok [], ["admin"; "dave"]) ∧
  created_users (admin_until 0) = (Ok (repeat (ErrDriver 86) 7), ["admin"; "dave"; "dave"]).
Proof. split; vm_compute; reflexivity. Qed.

(** The guard of [LeaveProject] reads the role from the request body: when
    [alice], the only owner of project p1, sends no role, the request is served
    and p1 is left without an owner; with the role in the request it is refused. *)
Example sole_owner_leaves_without_role :
  (let '(r, w') := LeaveProject alice (Some (mkMemberInput "p1" "u1" None)) demo in
   served r ∧ ¬ owned_db (db w')) ∧
  (let '(r, w') := LeaveProject alice (Some (mkMemberInput "p1" "u1" (Some RoleOwner))) demo in
   refused r ∧ db w' = demo_db).
Proof.
  assert (E : LeaveProject alice (Some (mkMemberInput "p1" "u1" None)) demo =
    (ok (BMessage "successful"), mkWorld (set_docs
       [mk_project "p1" "alpha"
          [mk_member "u1" "alice" RoleOwner ExitedProject;
           mk_member "u2" "bobby" RoleViewer PendingInvitation];
        mk_project "p2" "beta" [mk_member "u2" "bobby" RoleOwner AcceptedInvitation]] demo_db) 5))
    by (vm_compute; reflexivity).
  rewrite E. split.
  - split; [exact I|]. cbn. intros [(m & Hm & Hr & Hi) _]%Forall_cons. cbn in Hm.
    apply elem_of_cons in Hm as [->|[->|[]%elem_of_nil]%elem_of_cons]; discriminate.
  - split; [intros []|vm_compute; reflexivity].
Qed.

(** ** Witnesses *)
Definition promote_bobby : Request :=
  POST_update_member_role (Some (mkMemberInput "p1" "u2" (Some RoleEditor))).

Lemma request_refines_protocol_witness :
  wp (route promote_bobby alice) (λ _ w', effect [ARole] (Some "u1") demo_db (db w')) demo.
Proof. apply (request_refines_protocol promote_bobby alice demo). Defined.

Lemma membership_changes_are_entitled_witness :
  wp (route promote_bobby alice) (λ _ w', ∀ pid uid role i,
    entry (db w') pid uid role i →
    entry demo_db pid uid role i ∨ entitled (Some "u1") demo_db pid uid role i) demo.
Proof. apply (membership_changes_are_entitled promote_bobby alice demo), demo_wf. Defined.

Lemma requests_keep_an_owner_witness :
  wp (route promote_bobby alice) (λ _ w', owned_db (db w')) demo.
Proof.
  apply (requests_keep_an_owner promote_bobby alice demo); [|apply demo_wf|apply demo_owned].
  cbn. set_solver.
Defined.

Lemma truthful_leave_keeps_an_owner_witness :
  wp (LeaveProject alice (Some (mkMemberInput "p1" "u1" (Some RoleOwner))))
    (λ _ w', owned_db (db w')) demo.
Proof.
  apply (truthful_leave_keeps_an_owner alice (mkMemberInput "p1" "u1" (Some RoleOwner)) demo);
    [apply demo_wf|apply demo_owned|].
  intros uid r [= <-] (p & m & Hp & Hid & Hm & Hu & <- & _). cbn in Hp.
  apply elem_of_cons in Hp as [->|[->|[]%elem_of_nil]%elem_of_cons]; [|discriminate].
  cbn in Hm. apply elem_of_cons in Hm as [->|[->|[]%elem_of_nil]%elem_of_cons]; [done|discriminate].
Defined.
