(* ===== verification/AuthSessions.v ===== *)
(** * AuthSessions.v: tokens, passwords and account state

    What the session code of the authentication service guarantees: what a
    token that the service accepts says about its bearer, log-in and log-out,
    password changes, account creation and deactivation, and the secret the
    tokens are signed with. *)
From S2P Require Import Prelude World MemMongo GoStd AuthEntities AuthRepo.
From S2P Require Import AuthListing AuthService AuthHandlers AuthUserHandlers Fixtures AuthAccess.
From S2P Require Import AuthMembership AuthInvariants AuthTheorems.
Local Open Scope string_scope.
Local Open Scope Z_scope.

(** A driver whose queries do not fail. *)
Class ReadsSucceed (drv : MongoDriver) : Prop := {
  find_succeeds {D} n (q : D → bool) l :
    match mongo_find_one n q l with Err e => e = ErrNoDocuments | _ => True end;
  aggregate_succeeds {D R} n (p : list D → list R) l : is_ok (mongo_aggregate n p l) = true;
}.

#[export] Instance demo_reads : ReadsSucceed demo_driver.
Proof. split; [|done]. intros D n q l. cbn. by destruct (mem_first q l). Qed.

(** [v] is the signing secret of the database. *)
Definition secret_of (s : AuthDB) (v : string) : Prop :=
  ∃ c, c ∈ auth_configs s ∧ ac_Key c = "salt" ∧ url_decode (ac_Value c) = Some v.

(** [token] is signed by the service, states [c] and is not expired at some
    reading of the clock. *)
Definition token_states `{Runtime} `{Crypto} (s : AuthDB) (token : string) (c : Claims) : Prop :=
  ∃ v n, secret_of s v ∧ jwt_parse (clock n / 1000) v token = Ok c.

Definition revoked (s : AuthDB) (token : string) : Prop :=
  ∃ t, t ∈ revoked_tokens s ∧ rt_Token t = token.

Section sessions.
Context {drv : MongoDriver} {laws : MongoLaws drv} {tx : MongoTxn} {txlaws : MongoTxnLaws tx}
  {rt : Runtime} {cr : Crypto} {crlaws : CryptoLaws cr} {cf : Config} {rx : Regex} {oi : OIDC}.
Implicit Types (w : AuthWorld) (s : AuthDB).

(** ** Specifications of the session service *)
Lemma wp_GetConfig key w :
  wp (configRepo_GetConfig key) (λ r w', db w' = db w ∧
    match r with
    | Ok c => ac_Key c = key ∧ ∃ c0, c0 ∈ auth_configs (db w) ∧ ac_Key c0 = key ∧
                url_decode (ac_Value c0) = Some (ac_Value c)
    | Err ErrNoDocuments => ∀ c, c ∈ auth_configs (db w) → ac_Key c ≠ key
    | Err (ErrNew _) => ∃ c0, c0 ∈ auth_configs (db w) ∧ ac_Key c0 = key ∧ url_decode (ac_Value c0) = None
    | Err _ => True
    | Panic => False
    end) w.
Proof.
  unfold configRepo_GetConfig. wp_step. wp_use wp_FindOne. intros [c|e|] w1 [E Hp]; [|..|done].
  - destruct Hp as [Hin Hk%str_eq_true]. wp_step; wp_step; (split; [done|]); cbn; eauto.
  - wp_step. split; [done|]. destruct Hp as [Hd Hn]. destruct e; try done.
    intros c Hc Hk. specialize (Hn eq_refl). eapply Forall_forall in Hn; [|done].
    by rewrite Hk, str_eq_refl in Hn.
Qed.

Lemma wp_parseToken token w :
  wp (parseToken token) (λ r w', db w' = db w ∧
    match r with Ok c => token_states (db w) token c | Err _ => True | Panic => False end) w.
Proof.
  unfold parseToken. wp_step. wp_use wp_GetConfig. intros [c|e|] w1 [E Hc]; [|by wp_step|done].
  destruct Hc as (Hk & c0 & Hin & Hk0 & Hd). wp_step.
  unfold wp. cbn. split; [done|].
  destruct (jwt_parse _ _ _) as [cl|e|] eqn:Ej; [|done|by eapply jwt_parse_no_panic].
  exists (ac_Value c), (tick w1). split; [by exists c0|done].
Qed.

Lemma wp_IsTokenRevoked token w :
  wp (sessionRepo_IsTokenRevoked token) (λ b w', db w' = db w ∧
    (b = true → revoked (db w) token) ∧ (ReadsSucceed drv → b = false → ¬ revoked (db w) token)) w.
Proof.
  unfold sessionRepo_IsTokenRevoked. wp_step. unfold wp, FindOne. cbn. split; [done|].
  pose proof (find_one_law (tick w) (λ t, str_eq (rt_Token t) token) (revoked_tokens (db w))) as Hp.
  split.
  - destruct (mongo_find_one _ _ _) as [t| |]; [|done..]. intros _. destruct Hp as [? Ht%str_eq_true].
    by exists t.
  - intros HR. pose proof (find_succeeds (tick w) (λ t, str_eq (rt_Token t) token) (revoked_tokens (db w))) as Hr.
    destruct (mongo_find_one _ _ _) as [t|e|]; [done| |done]. subst e. intros _ (t & Ht & Et).
    destruct Hp as [_ Hn]. specialize (Hn eq_refl). eapply Forall_forall in Hn; [|done].
    cbn in Hn. by rewrite Et, str_eq_refl in Hn.
Qed.

Lemma wp_ValidateToken token w :
  wp (ValidateToken token) (λ r w', db w' = db w ∧
    match r with
    | Ok c => token_states (db w) token c ∧ (ReadsSucceed drv → ¬ revoked (db w) token)
    | Err _ => True
    | Panic => False
    end) w.
Proof.
  unfold ValidateToken. wp_step. wp_use wp_parseToken. intros [c|e|] w1 [E Hc]; [|by wp_step|done].
  wp_step. wp_use wp_IsTokenRevoked. rewrite E. intros [] w2 (E2 & Ht & Hf); wp_step; [done|].
  split; [done|]. split; [done|]. auto.
Qed.

(** *** Queries that succeed *)
Lemma find_found {Hreads : ReadsSucceed drv} `{Collection AuthDB D} (q : D → bool) w d :
  d ∈ docs (db w) → q d = true →
  wp (FindOne q) (λ r w', w' = bump w ∧ ∃ d', r = Ok d' ∧ d' ∈ docs (db w) ∧ q d' = true) w.
Proof.
  intros Hd Hq. unfold wp, FindOne. cbn. split; [done|].
  pose proof (find_succeeds (tick w) q (docs (db w))) as Hs.
  pose proof (find_one_law (tick w) q (docs (db w))) as Hp.
  destruct (mongo_find_one _ _ _) as [d'|e|]; [|subst e|done].
  - exists d'. by destruct Hp.
  - destruct Hp as [_ Hn]. specialize (Hn eq_refl). eapply Forall_forall in Hn; [|done]. congruence.
Qed.

Lemma find_all {Hreads : ReadsSucceed drv} `{Collection AuthDB D} (q : D → bool) w :
  wp (Find q) (λ r w', db w' = db w ∧ ∃ l, r = Ok l ∧ ∀ d, d ∈ l ↔ d ∈ docs (db w) ∧ q d = true) w.
Proof.
  unfold wp, Find, Aggregate. cbn. split; [done|].
  pose proof (aggregate_succeeds (tick w) (List.filter q) (docs (db w))) as Hs.
  pose proof (aggregate_law (tick w) (List.filter q) (docs (db w))) as Hp.
  destruct (mongo_aggregate _ _ _) as [l| |]; [|done..]. destruct Hp as (l' & Hl & ->).
  eexists. split; [done|]. intros d. by rewrite elem_of_filterb, Hl.
Qed.

(** Every stored secret is [v], and there is one. *)
Definition the_secret (s : AuthDB) (v : string) : Prop :=
  secret_of s v ∧ ∀ c, c ∈ auth_configs s → ac_Key c = "salt" → url_decode (ac_Value c) = Some v.

Lemma get_secret {Hreads : ReadsSucceed drv} v w :
  the_secret (db w) v →
  wp (configRepo_GetConfig "salt") (λ r w', w' = bump w ∧ r = Ok (mkAuthConfig "salt" v)) w.
Proof.
  intros [(c & Hc & Hk & Hv) Hall]. unfold configRepo_GetConfig. wp_step.
  eapply wp_mono; [eapply (find_found _ w c)|]; [done|by apply str_eq_true|].
  intros r w1 (E & c' & -> & Hc' & Hk'%str_eq_true). cbn. rewrite (Hall c'), Hk' by done.
  by wp_step.
Qed.

Lemma rbac_accepts {Hreads : ReadsSucceed drv} uid pid roles i w :
  wf_db (db w) → authorized (db w) uid pid roles i →
  wp (RbacValidator uid pid roles i) (λ r w', db w' = db w ∧ r = Ok tt) w.
Proof.
  intros Hwf [(u & Hu & Hid & Ha) (p & m & Hp & Hpid & Hm)]. unfold RbacValidator, userRepo_GetUser.
  wp_step. wp_step. eapply wp_mono; [eapply (find_found _ w u)|]; [done|by apply str_eq_true|].
  intros r w1 (-> & u' & -> & Hu' & Hid'%str_eq_true).
  assert (u' = u) as ->. { eapply (NoDup_key_inj u_ID); eauto; [apply Hwf|congruence]. }
  wp_step. cbn. rewrite Ha. cbn. wp_step. unfold projectRepo_GetProjects. wp_use find_all.
  intros r w2 (E2 & ps & -> & Hps). cbn in E2, Hps.
  assert (p ∈ ps) as Hin. { apply Hps. split; [done|]. apply rbac_filter_true. naive_solver. }
  destruct ps as [|p0 ps]; [by apply elem_of_nil in Hin|]. cbn. by wp_step.
Qed.

(** ** Authorization decisions *)

Lemma wp_ValidateRequest jwt pid roles i w :
  wp (ValidateRequest jwt pid roles i) (λ r w', db w' = db w ∧ r ≠ Panic ∧
    (r = Ok true → ∃ c uid, token_states (db w) jwt c ∧ c_uid c = Some uid ∧
       authorized (db w) uid pid roles i ∧ (ReadsSucceed drv → ¬ revoked (db w) jwt))) w.
Proof.
  unfold ValidateRequest. wp_step. wp_use wp_ValidateToken.
  intros [c|e|] w1 [E Hc]; [|by wp_step|done]. destruct Hc as [Hc Hrev].
  wp_step; [|by wp_step]. wp_step. wp_use wp_RbacValidator. rewrite E.
  intros [[]|e|] w2 [E2 Hr]; [|by wp_step|done].
  wp_step. split; [done|]. split; [done|]. intros _. by exists c, s.
Qed.

(** C36. [ValidateRequest] accepts a request only when the token is signed with
    the service's secret, unexpired and names an active user who has one of the
    required roles and the required invitation in the project; when reads
    succeed the token is not revoked either. Whatever it answers, and whichever
    database calls fail, the database is left alone and the handler does not
    panic. *)
Theorem accepted_requests_are_authorized jwt pid roles i w :
  wp (ValidateRequest jwt pid roles i) (λ r w', db w' = db w ∧ r ≠ Panic ∧
    (r = Ok true → ∃ c uid, token_states (db w) jwt c ∧ c_uid c = Some uid ∧
       authorized (db w) uid pid roles i ∧ (ReadsSucceed drv → ¬ revoked (db w) jwt))) w.
Proof. apply wp_ValidateRequest. Qed.

(** Conversely, a request with an unexpired, unrevoked token of an active
    user who has the required role and invitation is accepted, on every
    well-formed database whose queries succeed. *)
Theorem authorized_requests_are_accepted {Hreads : ReadsSucceed drv} jwt pid roles i uid v c w :
  wf_db (db w) → the_secret (db w) v →
  jwt_parse (clock (S (tick w)) / 1000) v jwt = Ok c → c_uid c = Some uid → ¬ revoked (db w) jwt →
  authorized (db w) uid pid roles i →
  wp (ValidateRequest jwt pid roles i) (λ r w', db w' = db w ∧ r = Ok true) w.
Proof.
  intros Hwf Hv Hjwt Hc Hrev Ha. unfold ValidateRequest, ValidateToken, parseToken.
  do 3 wp_step. wp_use get_secret; [done|]. intros r w1 [-> ->]. wp_step.
  unfold wp at 1. cbn [fst snd]. wp_step. cbn. rewrite Hjwt.
  wp_step. wp_use wp_IsTokenRevoked. cbn. intros b w2 (E2 & Hb & _).
  destruct b; [by destruct Hrev; auto|]. wp_step. rewrite Hc. wp_step.
  eapply wp_mono; [eapply rbac_accepts|]; rewrite ?E2; [done..|].
  intros r w3 [E3 ->]. wp_step. split; [congruence|done].
Qed.

(** ** Log-out *)
Lemma wp_RevokeToken token w :
  wp (RevokeToken token) (λ r w', r = Ok tt → revoked (db w') token) w.
Proof.
  unfold RevokeToken. wp_step. wp_use wp_parseToken. intros [c|e|] w1 [E Hc]; [|by wp_step|done].
  destruct (c_exp c); [|by wp_step]. wp_step. unfold wp at 1. cbn [fst snd now].
  unfold sessionRepo_RevokeToken. wp_use wp_InsertOne. intros [[]|e|] w2 (l & -> & Hp); [|done..].
  intros _. cbn in Hp. destruct Hp as [Hp _]. eexists.
  split; [cbn; rewrite Hp; apply elem_of_cons; by left|done].
Qed.

(** After a served log-out the middleware refuses the token of the request,
    whatever handler follows it, as long as reads succeed. *)
Theorem logout_ends_the_session {Hreads : ReadsSucceed drv} authHeader next w :
  wp (r1 ← LogoutUser authHeader; r2 ← JwtMiddleware authHeader next; mret (r1, r2))
    (λ '(r1, r2) _, served r1 → r2 = fail ErrUnauthorized) w.
Proof.
  unfold LogoutUser, JwtMiddleware. destruct (str_eq authHeader ""); [done|].
  destruct (drop_bearer authHeader) as [token|]; [|intros []]. cbn [must].
  do 2 wp_step. wp_use wp_RevokeToken. intros [[]|e|] w1 Hr; [wp_step|wp_step|]; cycle 1.
  { wp_step. apply wp_any. intros r2 w2. apply wp_ret. by intros ?%refused_fail. }
  { wp_step. apply wp_any. intros r2 w2. by apply wp_ret. }
  do 2 wp_step. wp_use wp_ValidateToken. intros [c|e|] w2 [E Hv]; [|by wp_step|done].
  destruct Hv as [_ Hv]. by destruct Hv; auto.
Qed.
End sessions.

(** ** A failed read counts as "not revoked" *)
Definition logged_out : AuthWorld :=
  mkWorld (set_docs [mkRevokedToken alice_token 1800000000 0] demo_db) 0.
Definition whoami (c : Ctx) : AuthM Response := mret (ok (BRole (default "" (ctx_uid c)))).

(** [IsTokenRevoked] treats every failure of its query as "not revoked":
    the middleware refuses the revoked token of [alice] when the query succeeds
    and serves her request when the query fails. *)
Example failed_revocation_check_admits :
  (JwtMiddleware ("Bearer " +:+ alice_token) whoami logged_out).1 = fail ErrUnauthorized ∧
  (@JwtMiddleware (mem_driver (fault_at 2 false)) _ _ ("Bearer " +:+ alice_token) whoami logged_out).1
    = ok (BRole "u1").
Proof. split; vm_compute; reflexivity. Qed.

(** ** Witnesses *)
Lemma demo_secret : the_secret demo_db "secret".
Proof.
  split; [exists salt_config; split; [cbn; set_solver|split; [done|apply url_decode_encode]]|].
  intros c. cbn. intros ->%list_elem_of_singleton _. apply url_decode_encode.
Qed.
Lemma alice_owns_p1 : authorized demo_db "u1" "p1" [RoleOwner] AcceptedInvitation.
Proof.
  split.
  - exists (mk_user "u1" "alice" RoleUser None false). split; [cbn; set_solver|done].
  - eexists _, _. split; [apply elem_of_cons; by left|]. split; [done|].
    split; [apply elem_of_cons; by left|]. cbn. set_solver.
Qed.

Lemma accepted_requests_are_authorized_witness :
  wp (ValidateRequest alice_token "p1" [RoleOwner] AcceptedInvitation)
    (λ r w', db w' = demo_db ∧ r ≠ Panic ∧
      (r = Ok true → ∃ c uid, token_states demo_db alice_token c ∧ c_uid c = Some uid ∧
         authorized demo_db uid "p1" [RoleOwner] AcceptedInvitation ∧
         (ReadsSucceed demo_driver → ¬ revoked demo_db alice_token))) demo.
Proof. apply (accepted_requests_are_authorized alice_token "p1" [RoleOwner] _ demo). Defined.

Lemma authorized_requests_are_accepted_witness :
  wp (ValidateRequest alice_token "p1" [RoleOwner] AcceptedInvitation)
    (λ r w', db w' = demo_db ∧ r = Ok true) demo.
Proof.
  apply (authorized_requests_are_accepted alice_token "p1" [RoleOwner] _ "u1" "secret"
    (mkClaims (Some "u1") (Some RoleUser) (Some "alice") (Some 1800000000)) demo).
  - apply demo_wf.
  - apply demo_secret.
  - vm_compute. reflexivity.
  - reflexivity.
  - intros (t & Ht & _). by apply elem_of_nil in Ht.
  - apply alice_owns_p1.
Defined.

Lemma logout_ends_the_session_witness :
  served (LogoutUser ("Bearer " +:+ alice_token) demo).1 ∧
  wp (r1 ← LogoutUser ("Bearer " +:+ alice_token); r2 ← JwtMiddleware ("Bearer " +:+ alice_token) whoami;
      mret (r1, r2))
    (λ '(r1, r2) _, served r1 → r2 = fail ErrUnauthorized) demo.
Proof.
  split; [vm_compute; exact I|].
  apply (logout_ends_the_session ("Bearer " +:+ alice_token) whoami demo).
Defined.
