(* ===== verification/AuthAccounts.v ===== *)
(** * AuthAccounts.v: accounts and credentials

    Log-in, creation of accounts, changes of passwords, deactivation of users
    as a transaction over users and projects, and the set-up of the signing
    secret. *)
From S2P Require Import Prelude World MemMongo GoStd AuthEntities AuthRepo.
From S2P Require Import AuthListing AuthService AuthHandlers AuthUserHandlers Fixtures AuthAccess.
From S2P Require Import AuthMembership AuthInvariants AuthTheorems AuthSessions.
From Stdlib Require Import Ascii.
Local Open Scope string_scope.
Local Open Scope Z_scope.
Local Open Scope list_scope.

(** ** Policies *)

(** The characters that [ValidateStrictUsername] admits are visible ASCII. *)
Lemma username_graph s : username_regexp s = true → forallb is_graph (chars s) = true.
Proof.
  assert (Hc : ∀ c, implb (username_char c) (is_graph c) = true) by by apply forall_chars.
  assert (Ha : ∀ c, implb (is_alnum c) (is_graph c) = true) by by apply forall_chars.
  unfold username_regexp. destruct (chars s) as [|c l]; [done|].
  rewrite !andb_true_iff. intros [[H1 H2] _]. cbn. specialize (Ha c). rewrite H1 in Ha. cbn in Ha.
  rewrite Ha. cbn. rewrite forallb_forall in H2 |- *. intros x Hx. specialize (Hc x).
  by rewrite (H2 x Hx) in Hc.
Qed.

Lemma username_trimmed s : username_regexp s = true → SanitizeString s = s.
Proof. intros. by apply TrimSpace_graph, username_graph. Qed.

Lemma username_valid s : is_ok (ValidateStrictUsername s) = true ↔ username_regexp s = true.
Proof. unfold ValidateStrictUsername. by destruct (username_regexp s). Qed.

(** What the password policy promises. *)
Definition strong (p : string) : Prop :=
  (8 ≤ String.length p ≤ 16)%nat ∧
  (∃ c, c ∈ chars p ∧ is_digit c = true) ∧ (∃ c, c ∈ chars p ∧ is_lower c = true) ∧
  (∃ c, c ∈ chars p ∧ is_upper c = true) ∧ (∃ c, c ∈ chars p ∧ c ∈ chars "@$!%*?_&#").

Lemma existsb_elem {A} (f : A → bool) l : existsb f l = true ↔ ∃ x, x ∈ l ∧ f x = true.
Proof. rewrite existsb_exists. by setoid_rewrite list_elem_of_In. Qed.

Lemma password_policy_lemma p : ValidateStrictPassword p = Ok tt ↔ strong p.
Proof.
  unfold ValidateStrictPassword, strong. rewrite <-!existsb_elem.
  setoid_rewrite <-(bool_decide_eq_true (_ ∈ chars "@$!%*?_&#")). rewrite <-existsb_elem.
  change (λ x, bool_decide (x ∈ chars "@$!%*?_&#")) with is_special.
  repeat case_bool_decide; [split; [done|lia]..|].
  destruct (existsb is_digit _), (existsb is_lower _), (existsb is_upper _), (existsb is_special _);
    cbn; split; try done; intros; [split; [lia|done]|naive_solver..].
Qed.

(** [ValidateStrictPassword] accepts exactly the passwords of 8 to 16 bytes
    that contain a digit, a lower-case letter, an upper-case letter and one of
    the special characters. *)
Theorem password_policy_exact p : ValidateStrictPassword p = Ok tt ↔ strong p.
Proof. apply password_policy_lemma. Qed.

Section accounts.
Context {drv : MongoDriver} {laws : MongoLaws drv} {tx : MongoTxn} {txlaws : MongoTxnLaws tx}
  {rt : Runtime} {cr : Crypto} {crlaws : CryptoLaws cr} {cf : Config} {rx : Regex} {oi : OIDC}.
Implicit Types (w : AuthWorld) (s : AuthDB).

(** ** Log-in *)

(** [token] identifies [u] until the time [exp], and not from then on. *)
Definition session_of (secret token : string) (u : User) (exp : Z) : Prop :=
  (∀ now, now < exp → jwt_parse now secret token = Ok (user_claims u exp)) ∧
  (∀ now, exp ≤ now → is_ok (jwt_parse now secret token) = false).

Lemma wp_GetSignedJWT u secret w :
  wp (GetSignedJWT u secret) (λ r w', db w' = db w ∧
    ∀ token, r = Ok token → ∃ exp, session_of secret token u exp) w.
Proof.
  unfold GetSignedJWT. wp_step. unfold wp. cbn. split; [done|]. intros token Ht.
  eexists. split; intros; [eapply jwt_roundtrip|eapply jwt_expired]; eauto; done.
Qed.

(** A log-in is served only to an active user who gives the password of the
    account, and the token in the answer is a session of that user: with the
    service's secret it states the user's id, name and role until it expires,
    and is refused from then on. *)
Theorem login_gives_a_session u w :
  wp (LoginUser (Some u)) (λ r _, ∀ token pid e, r = ok (BLogin token pid e) →
    ∃ user secret exp,
      user ∈ users (db w) ∧ u_Username user = SanitizeString (u_Username u) ∧
      u_DeactivatedAt user = None ∧ bcrypt_compare (u_Password user) (u_Password u) = true ∧
      secret_of (db w) secret ∧ session_of secret token user exp) w.
Proof.
  unfold LoginUser. cbn [bind_json]. wp_step; [by wp_step|].
  wp_step. wp_use wp_FindUserByUsername. intros [user|e|] w1 [E1 Hu]; [|by wp_step|done].
  destruct Hu as [Hu Hn]. do 2 (wp_step; [by wp_step|]).
  apply bool_decide_eq_false, dec_stable in Heqb0. apply negb_false_iff in Heqb1.
  unfold userRepo_CheckPasswordHash in Heqb1. destruct (bcrypt_compare _ _) eqn:Hb; [|done].
  wp_step. wp_use wp_GetConfig. rewrite E1. intros [c|e|] w2 [E2 Hc]; [|by wp_step|done].
  destruct Hc as (_ & c0 & Hc0 & Hk & Hv).
  wp_step. wp_use wp_GetSignedJWT. intros [token|e|] w3 [E3 Ht]; [|by wp_step|done].
  destruct (Ht token eq_refl) as (exp & Hexp). apply wp_bind, wp_any. intros ps w4.
  assert (Hdone : ∀ pid0 token' pid e, ok (BLogin token pid0 (JWTExpiryDuration * 60)) = ok (BLogin token' pid e) →
    ∃ user secret exp, user ∈ users (db w) ∧ u_Username user = SanitizeString (u_Username u) ∧
      u_DeactivatedAt user = None ∧ bcrypt_compare (u_Password user) (u_Password u) = true ∧
      secret_of (db w) secret ∧ session_of secret token' user exp).
  { intros ???? [= <-]. exists user, (ac_Value c), exp. repeat (split; [done|]). split; [by exists c0|done]. }
  destruct ps as [|p ps]; [|wp_step; apply Hdone]. wp_step; [wp_step; apply Hdone|].
  apply wp_on_err, wp_any. intros [pid|e|] w5; [wp_step; apply Hdone|by wp_step|done].
Qed.

(** ** What the project set-up of a log-in keeps *)
Lemma wp_owner_projects uid w : wp (owner_projects uid) (λ _ w', db w' = db w) w.
Proof. unfold owner_projects, projectRepo_GetOwnerProjects. wp_step. wp_step. intros ? w' [? _]. by wp_step. Qed.

Lemma wp_default_project u w :
  wp (new_default_project u) (λ _ w', users (db w') = users (db w)) w.
Proof.
  unfold new_default_project. repeat (wp_step; unfold wp at 1; cbn [now NewUUID fst snd]).
  wp_use wp_CreateProject. intros [?|?|] w' (ps & E & _); try wp_step; by rewrite E.
Qed.

(** ** Passwords *)

(** A change of password: the hash of the new one replaces the password of one
    account of that name and, when the user asks, the old password was right,
    differs from the new one, and the account is no longer a new one. *)
Definition old_password_checked (up : UserPassword) (s : AuthDB) : Prop :=
  ∃ u, u ∈ users s ∧ u_Username u = up_Username up ∧
       bcrypt_compare (u_Password u) (up_OldPassword up) = true ∧
       bcrypt_compare (u_Password u) (up_NewPassword up) = false.

Definition password_set (up : UserPassword) (own : bool) (s s' : AuthDB) : Prop :=
  ∃ l1 u l2 n, let h := match bcrypt_generate n (up_NewPassword up) with Ok h => h | _ => "" end in
    users s = l1 ++ u :: l2 ∧ u_Username u = up_Username up ∧
    users s' = l1 ++ (if own then set_initial_login false else id) (set_password h u) :: l2.

Lemma wp_UpdatePassword_repo up own w :
  wp (userRepo_UpdatePassword up own) (λ r w', r = Ok tt →
    password_set up own (db w) (db w') ∧ (own = true → old_password_checked up (db w))) w.
Proof.
  unfold userRepo_UpdatePassword. wp_step. wp_use wp_FindOne.
  intros [u0|e|] w1 [E1 Hu]; [|by wp_step|done]. destruct Hu as [Hu Hn%str_eq_true]. rewrite <-E1 in *.
  wp_step. unfold wp at 1. cbn [bcrypt_GenerateFromPassword fst snd].
  assert (Hup : ∀ own', (own' = true → old_password_checked up (db w1)) →
    wp (let? matched := UpdateOne (by_username (u_Username u0))
          (λ u, (if own' then set_initial_login false else id)
             (set_password (match bcrypt_generate (tick w1) (up_NewPassword up) with Ok h => h | _ => "" end) u)) in
        if bool_decide (matched = 0%nat)
        then mret (Err (ErrNew "could not find matching username in database")) else mret (Ok tt))
      (λ r w', r = Ok tt → password_set up own' (db w1) (db w') ∧
         (own' = true → old_password_checked up (db w1))) (bump w1)).
  { intros own' Ho. wp_step. wp_use wp_UpdateOne. intros [m|e|] w2 (l & E & Hp); [|by wp_step|done].
    wp_step; [by wp_step|]. wp_step. intros _. split; [|done]. apply bool_decide_eq_false in Heqb.
    destruct Hp as [[? _]|[_ (l1 & u & l2 & Hl & Hq%str_eq_true & Hl')]]; [done|].
    exists l1, u, l2, (tick w1). cbn in Hl. split; [done|]. split; [congruence|]. by rewrite E. }
  destruct own; [|by apply (Hup false)].
  wp_step; [by wp_step|]. wp_step; [by wp_step|]. apply negb_false_iff in Heqb.
  apply (Hup true). intros _. by exists u0.
Qed.

(** The documented limit of bcrypt: passwords of up to 72 bytes are hashed. *)
Definition bcrypt_hashes_short : Prop :=
  ∀ n p, (String.length p ≤ 72)%nat → is_ok (bcrypt_generate n p) = true.

(** A served change of the own password: the old password was given
    correctly, the new one differs from it and satisfies the policy, and the
    stored credential is replaced by one that accepts the new password and is
    not a first log-in any more. The unchecked error of bcrypt in the code is
    harmless here: the policy keeps passwords under bcrypt's limit. *)
Theorem own_password_change c up pid w username :
  bcrypt_hashes_short → ctx_username c = Some username →
  wp (UpdatePassword c (Some up)) (λ r w', r = ok (BPasswordUpdated pid) →
    strong (up_NewPassword up) ∧
    old_password_checked (mkUserPassword username (up_OldPassword up) (up_NewPassword up)) (db w) ∧
    ∃ u, u ∈ users (db w') ∧ u_Username u = username ∧ u_IsInitialLogin u = false ∧
         bcrypt_compare (u_Password u) (up_NewPassword up) = true) w.
Proof.
  intros Hbc Hc. unfold UpdatePassword. cbn [bind_json]. rewrite Hc. cbn [must].
  wp_step. wp_use wp_FindUserByUsername. intros [user|e|] w1 [E1 _]; [|by wp_step|done].
  do 2 (wp_step; [by wp_step|]). apply negb_false_iff in Heqb0.
  assert (Hs : strong (up_NewPassword up)).
  { apply password_policy_lemma. by destruct (ValidateStrictPassword _) as [[]| |]. }
  wp_step. wp_use wp_UpdatePassword_repo. rewrite E1.
  intros [[]|e|] w2 Hp; [|wp_step; by repeat case_match|done].
  destruct (Hp eq_refl) as [(l1 & u & l2 & n & Hl & Hu & Hl') Ho].
  assert (Hin : ∃ u, u ∈ users (db w2) ∧ u_Username u = username ∧ u_IsInitialLogin u = false ∧
         bcrypt_compare (u_Password u) (up_NewPassword up) = true).
  { eexists. rewrite Hl'. split; [apply elem_of_app; right; by apply elem_of_cons; left|]. cbn.
    split; [done|]. split; [done|].
    specialize (Hbc n (up_NewPassword up)). destruct (bcrypt_generate _ _) eqn:Eb; cbn in *.
    - by eapply bcrypt_accepts.
    - destruct Hs as [[_ ?] _]. discriminate Hbc. lia.
    - destruct Hs as [[_ ?] _]. discriminate Hbc. lia. }
  apply wp_bind. eapply wp_mono; [apply wp_owner_projects|]. cbv beta. intros ps w3 E3.
  destruct ps; [|wp_step; rewrite E3; auto].
  wp_step. wp_use wp_default_project. intros [pid'|e|] w4 Hus; [|by wp_step|done].
  wp_step. rewrite Hus, E3. auto.
Qed.

(** ** Deactivation *)

(** What a change of state means: the account is marked, the user's entry in
    every project is stamped, and the projects that the user owns are removed or
    restored. *)
Definition state_of (d : bool) (t : Z) : User → User :=
  if d then set_user_state (Some t) true else set_user_state None false.
Definition stamp_project (uid : string) (d : bool) (t : Z) (p : Project) : Project :=
  let p := update_elem uid (set_member_deactivated (Some t)) p in
  if owned_by uid p then set_project_removed d p else p.

Definition state_changed (name : string) (d : bool) (s s' : AuthDB) : Prop :=
  ∃ u t us, u ∈ users s ∧ u_Username u = name ∧ u_Role u ≠ RoleAdmin ∧
    (d = true → u_DeactivatedAt u = None) ∧
    updated_one (by_username name) (state_of d t) (users s) us ∧
    s' = mkAuthDB us (stamp_project (u_ID u) d t <$> projects s) (revoked_tokens s) (api_tokens s)
           (auth_configs s) (auth_indexes s).

Lemma wp_UpdateUserState name d t w :
  (∃ u, u ∈ users (db w) ∧ u_Username u = name) →
  wp (userRepo_UpdateUserState name d t) (λ r w', r ≠ Panic ∧ (r = Ok tt → ∃ us,
    updated_one (by_username name) (state_of d t) (users (db w)) us ∧ db w' = set_docs us (db w))) w.
Proof.
  intros (u & Hu & Hn). unfold userRepo_UpdateUserState. wp_step. wp_use wp_UpdateOne.
  intros [m|e|] w' (us & E & Hp); [wp_step|by wp_step|done]. split; [done|]. intros _. exists us. split; [|done].
  destruct Hp as [(_ & _ & Hno)|[_ ?]]; [|by destruct d].
  eapply Forall_forall in Hno; [|done]. unfold by_username in Hno. by rewrite Hn, str_eq_refl in Hno.
Qed.

Lemma wp_UpdateProjectState uid t d w :
  wp (projectRepo_UpdateProjectState uid t d) (λ r w', r ≠ Panic ∧ (r = Ok tt →
    db w' = set_docs (stamp_project uid d t <$> projects (db w)) (db w))) w.
Proof.
  unfold projectRepo_UpdateProjectState. wp_step. wp_use wp_UpdateMany.
  intros [[]|e|] w1 (l & E & Hp); [|by wp_step|done]. wp_step. wp_use wp_UpdateMany.
  intros [[]|e|] w2 (l2 & E2 & Hp2); [wp_step|by wp_step|done]. split; [done|]. intros _.
  rewrite E2, E. cbn in *. subst. rewrite E. cbn. by rewrite <-list_fmap_compose.
Qed.

Lemma wp_transaction_body name d w :
  wp (transaction_body name d) (λ r w', r ≠ Panic ∧ (r = Ok tt → state_changed name d (db w) (db w'))) w.
Proof.
  unfold transaction_body. wp_step. wp_use wp_FindUserByUsername.
  intros [u|e|] w1 [E1 Hu]; [|by wp_step|done]. destruct Hu as [Hu Hn].
  wp_step; [by wp_step|]. apply str_eq_false in Heqb.
  apply wp_bind. eapply (wp_mono _ (λ _ w', db w' = db w1)); [by destruct d|]. intros t w2 E2.
  wp_step; [by wp_step|]. rewrite E1 in E2.
  wp_step. eapply wp_mono; [apply wp_UpdateUserState; rewrite E2; eauto|]. cbv beta.
  intros [[]|e|] w3 [? H3]; [|by wp_step|done].
  wp_step. wp_use wp_UpdateProjectState. intros [[]|e|] w4 [? H4]; [wp_step|by wp_step|done].
  split; [done|]. intros _. destruct (H3 eq_refl) as (us & Hus & E3). rewrite E2 in *.
  exists u, t, us. repeat (split; [done|]). split; [|split; [done|]].
  - intros ->. cbn in Heqb0. by apply bool_decide_eq_false, dec_stable in Heqb0.
  - rewrite (H4 eq_refl), E3. done.
Qed.

Lemma wp_UpdateStateTransaction req w :
  wp (UpdateStateTransaction req) (λ r w',
    (db w' = db w ∨ ∃ d, us_IsDeactivate req = Some d ∧ state_changed (us_Username req) d (db w) (db w')) ∧
    (r = Ok tt → ∃ d, us_IsDeactivate req = Some d ∧ state_changed (us_Username req) d (db w) (db w'))) w.
Proof.
  unfold UpdateStateTransaction.
  wp_step. unfold wp at 1, outside at 1. cbn [fst snd]. destruct (txn_start_session _); [|wp_step; split; [by left|done]|split; [by left|done]].
  wp_step. unfold wp at 1, outside at 1. cbn [fst snd]. destruct (txn_start _); [|wp_step; split; [by left|done]|split; [by left|done]].
  destruct (us_IsDeactivate req) as [d|].
  - unfold wp, with_transaction. pose proof (wp_transaction_body (us_Username req) d (bump (bump w))) as Hb.
    unfold wp in Hb. destruct (transaction_body _ _ _) as [[[]|e|] w1]; cbn in *; [|split; [by left|done]..].
    pose proof (commit_law (tick w1)) as Hc. destruct (txn_commit (tick w1)) as [[[]|e|] applied]; cbn in *; [subst| |done].
    + destruct Hb as [_ Hb]. specialize (Hb eq_refl). split; [right|intros _]; eauto.
    + split; [|done]. destruct applied; [right|left; done]. destruct Hb as [_ Hb]. eauto.
  - wp_step. wp_use wp_FindUserByUsername. intros [u|e|] w1 [E1 Hu]; [|wp_step; split; [by left|done]|done].
    wp_step; [wp_step|]; (split; [by left|done]).
Qed.

(** C37. [UpdateStateTransaction] is atomic: whichever of its database calls
    fail, commit included, the database is either unchanged or holds the whole
    change of state (account marked, every membership entry stamped, the user's
    own projects removed or restored), and an answer without error means the
    latter. Administrators and users already deactivated are not changed. *)
Theorem state_change_is_atomic name d w :
  wp (UpdateStateTransaction (mkUpdateUserState name (Some d))) (λ r w',
    (db w' = db w ∨ state_changed name d (db w) (db w')) ∧
    (r = Ok tt → state_changed name d (db w) (db w'))) w.
Proof.
  wp_use wp_UpdateStateTransaction. intros r w' [Hs Hok]. split.
  - destruct Hs as [?|(d' & [= <-] & ?)]; auto.
  - intros Hr. by destruct (Hok Hr) as (d' & [= <-] & ?).
Qed.

(** ** Refusals *)
Lemma refused_status e b : refused (JSON (ErrorStatusCodes e) b).
Proof. destruct e as [a| | | |]; [destruct a|..]; exact (λ H, H). Qed.

Lemma served_cases r : served r → ∃ b, r = ok b.
Proof.
  destruct r as [st b| | |]; cbn; [|done..]. intros Hs. exists b.
  destruct st as [|p|p]; [done| |done]. by do 8 (destruct p as [p|p|]; try done).
Qed.

Lemma served_or_refused r : served r ∨ refused r.
Proof.
  unfold refused, served. destruct r as [st b| | |]; [|right; exact id..].
  destruct st as [|p|p]; [right; exact id| |right; exact id].
  do 8 (destruct p as [p|p|]; try (right; exact id)). by left.
Qed.

Lemma wp_IsAdministrator uid name w :
  wp (userRepo_IsAdministrator uid name) (λ r w', db w' = db w ∧
    (r = Ok tt → ∃ u, u ∈ users (db w) ∧ u_ID u = uid ∧ u_Username u = name ∧ u_Role u = RoleAdmin)) w.
Proof.
  unfold userRepo_IsAdministrator. wp_step. wp_use wp_FindOne.
  intros [u|e|] w' [E Hu]; [|by wp_step|done]. destruct Hu as [Hu [H1 H2]%andb_true_iff].
  apply str_eq_true in H1, H2. wp_step; wp_step; [|done]. apply str_eq_true in Heqb. eauto 10.
Qed.

Ltac not_served :=
  solve [exfalso;
    match goal with
    | H : served _ |- _ =>
        first [by destruct H | by apply refused_fail in H | by apply refused_fail_as in H
              | by apply refused_status in H | match goal with R : refused _ |- _ => by apply R in H end]
    end].

Lemma login_refused u w :
  (∀ user, user ∈ users (db w) → u_Username user = SanitizeString (u_Username u) →
           u_DeactivatedAt user ≠ None) →
  wp (LoginUser (Some u)) (λ r w', refused r ∧ db w' = db w) w.
Proof.
  intros Hd. unfold LoginUser. cbn [bind_json]. wp_step; [wp_step; auto using refused_fail|].
  wp_step. wp_use wp_FindUserByUsername. intros [user|e|] w1 [E1 Hu]; [|wp_step; auto using refused_fail|done].
  destruct Hu as [Hu Hn]. rewrite bool_decide_eq_true_2 by auto. wp_step. auto using refused_fail.
Qed.

Lemma deactivated_after name s s' user :
  wf_db s → names_indexed s = true → state_changed name true s s' → user ∈ users s' → u_Username user = name →
  u_DeactivatedAt user ≠ None.
Proof.
  intros Hwf Hix (u & t & us & Hu & Hn & _ & _ & (l1 & x & l2 & Hl & Hq%str_eq_true & ->) & ->) Hin Hname.
  cbn in Hin. apply elem_of_app in Hin as [Hin|[->|Hin]%elem_of_cons]; [exfalso|done|exfalso].
  all: destruct Hwf as [(_ & HN & _) _]; specialize (HN Hix); rewrite Hl, fmap_app, fmap_cons in HN;
    apply NoDup_app in HN as (_ & Hdis & [Hx _]%NoDup_cons).
  - apply (Hdis name); rewrite <-?Hname, ?Hq, ?Hname; [|set_solver]. apply list_elem_of_fmap. eauto.
  - apply Hx. rewrite Hq, <-Hname. apply list_elem_of_fmap. eauto.
Qed.

(** Once an administrator's request to deactivate a user was served, the
    user cannot log in with any password, on every well-formed database with
    the unique index on user names. *)
Theorem deactivated_user_cannot_log_in c name u w :
  wf_db (db w) → names_indexed (db w) = true → SanitizeString (u_Username u) = name →
  wp (r1 ← UpdateUserState c (Some (mkUpdateUserState name (Some true))); r2 ← LoginUser (Some u);
      mret (r1, r2))
    (λ '(r1, r2) _, served r1 → refused r2) w.
Proof.
  intros Hwf Hix Hname. apply wp_bind.
  eapply (wp_mono _ (λ r1 w', served r1 → state_changed name true (db w) (db w'))).
  - unfold UpdateUserState. run_handler; try not_served.
    wp_use wp_IsAdministrator. intros [[]|e|] w1 [E1 _]; run_handler; try not_served.
    wp_use wp_UpdateStateTransaction. rewrite E1.
    intros [[]|e|] w2 [_ Hst]; run_handler; try not_served.
    destruct (Hst eq_refl) as (d & Hd & Hs).
    assert (x2 = mkUpdateUserState name (Some true)) as -> by congruence.
    cbn in Hd, Hs. by injection Hd as <-.
  - intros r1 w1 H1. apply wp_bind.
    destruct (served_or_refused r1) as [Hs|Hn].
    + eapply wp_mono; [apply login_refused|]; [|intros r2 w2 [? _]; by apply wp_ret].
      intros user Hin Hu. apply (deactivated_after name (db w) (db w1)); auto. by rewrite Hu.
    + apply wp_any. intros r2 w2. apply wp_ret. intros Hs. by destruct Hn.
Qed.

(** ** Creation of accounts *)
Definition account_created (u : User) (s s' : AuthDB) : Prop :=
  ∃ new n, inserted (user_key (names_indexed s)) new (users s) (users s') ∧
    u_Username new = SanitizeString (u_Username u) ∧ username_regexp (u_Username new) = true ∧
    u_DeactivatedAt new = u_DeactivatedAt u ∧ u_IsInitialLogin new = true ∧
    bcrypt_generate n (u_Password u) = Ok (u_Password new) ∧ u_Password u ≠ "".

Lemma wp_CreateUser c u w :
  wp (CreateUser c (Some u)) (λ r w', served r →
    ctx_role c = Some RoleAdmin ∧ account_created u (db w) (db w')) w.
Proof.
  unfold CreateUser. apply wp_must; [intros _ []|]. intros role Hrole.
  wp_step; [apply wp_ret; by intros ?%refused_fail|]. apply negb_false_iff, str_eq_true in Heqb as ->.
  cbn [bind_json]. do 3 (wp_step; [apply wp_ret; by intros ?%refused_fail|]).
  apply negb_false_iff, username_valid in Heqb1. apply orb_false_iff in Heqb0 as [_ Hpw%str_eq_false].
  wp_step. unfold wp at 1. cbn [NewUUID fst snd]. wp_step. unfold wp at 1.
  cbn [bcrypt_GenerateFromPassword fst snd]. destruct (bcrypt_generate _ _) as [h|e|] eqn:Hh;
    [|apply wp_ret; by intros ?%refused_fail|intros []].
  wp_step; [apply wp_ret; by intros ?%refused_fail|]. wp_step. unfold wp at 1. cbn [now fst snd].
  wp_step. unfold userRepo_CreateUser. wp_step. wp_use wp_InsertUser.
  intros r w' (us & E & Hp). destruct r as [[]|e|]; [wp_step|destruct e; apply wp_ret|done].
  2-6: apply wp_ret; case_bool_decide; by intros ?%refused_fail.
  wp_step. intros _. split; [done|]. rewrite E. eexists _, _. split; [exact Hp|]. cbn. eauto 10.
Qed.

(** The account that a served creation leaves in the database. *)
Lemma created_account u s s' :
  wf_db s → names_indexed s = true → account_created u s s' →
  ∃ new, new ∈ users s' ∧ u_Username new = SanitizeString (u_Username u) ∧
    bcrypt_compare (u_Password new) (u_Password u) = true ∧ u_DeactivatedAt new = u_DeactivatedAt u ∧
    ∀ x, x ∈ users s' → u_Username x = u_Username new → x = new.
Proof.
  intros [(_ & HN & _) _] Hix (new & n & [Hi Hk] & Hname & _ & Hd & _ & Hb & _). exists new. specialize (HN Hix).
  split; [rewrite Hi; set_solver|]. split; [done|]. split; [by eapply bcrypt_accepts|]. split; [done|].
  intros x Hx Hn. apply (NoDup_key_inj u_Username (users s')); [|done|rewrite Hi; set_solver|done].
  rewrite Hi. cbn. apply NoDup_cons. split; [|done].
  intros (y & Hy & Hin)%list_elem_of_fmap. eapply Forall_forall in Hk; [|done].
  unfold user_key in Hk. rewrite Hix in Hk. apply orb_false_iff in Hk as [_ Hk%str_eq_false]. congruence.
Qed.

Definition rejected (r : Response) : Prop := r = fail ErrInvalidCredentials ∨ r = fail ErrInvalidRequest.

(** An account that an administrator creates can be used at once: on a
    well-formed database with the unique index on user names, whose queries
    succeed, a log-in with the name and
    password of the request is not rejected. (The name of the account is the
    sanitized one, and the names the policy admits survive the sanitizing of
    the log-in.) *)
Theorem created_account_can_log_in {Hreads : ReadsSucceed drv} c u w :
  wf_db (db w) → names_indexed (db w) = true → u_DeactivatedAt u = None →
  wp (r1 ← CreateUser c (Some u); r2 ← LoginUser (Some u); mret (r1, r2))
    (λ '(r1, r2) _, served r1 → ¬ rejected r2) w.
Proof.
  intros Hwf Hix Hd. wp_step. wp_use wp_CreateUser. intros r1 w1 H1. wp_step.
  destruct (served_or_refused r1) as [Hs|Hn]; [|apply wp_any; intros ??; apply wp_ret; by intros ?%Hn].
  destruct (H1 Hs) as [_ Hc]. destruct (created_account _ _ _ Hwf Hix Hc) as (new & Hin & Hname & Hpw & Hd' & Huniq).
  destruct Hc as (new' & _ & _ & Hname' & Hre & _ & _ & _ & Hne).
  eapply (wp_mono _ (λ r _, ¬ rejected r)); [|intros ???; by apply wp_ret].
  unfold LoginUser. cbn [bind_json]. rewrite (proj2 (str_eq_false _ "") Hne), orb_false_r.
  wp_step. { apply str_eq_true in Heqb. by rewrite Hname', Heqb in Hre. }
  wp_step. unfold userRepo_FindUserByUsername.
  eapply wp_mono; [eapply (find_found _ w1 new); [done|by apply str_eq_true]|]. cbv beta.
  intros r w2 (-> & x & -> & Hx & Hnx%str_eq_true). rewrite (Huniq x) by (congruence || done).
  rewrite Hd', Hd. cbn [bool_decide]. unfold userRepo_CheckPasswordHash. rewrite Hpw. cbn.
  repeat first [ by (try apply wp_ret); intros [|]
               | apply wp_on_err, wp_any; intros [?|?|] ?
               | apply wp_bind, wp_any; intros ? ?
               | case_match ].
Qed.

(** ** The signing secret *)
Lemma wp_AddSalt_new {Hreads : ReadsSucceed drv} w :
  (∀ c, c ∈ auth_configs (db w) → ac_Key c ≠ "salt") →
  wp AddSalt (λ r w', r = Ok tt → ∃ n b, random_bytes n 32 = Ok b ∧ the_secret (db w') (url_encode b)) w.
Proof.
  intros Hno. unfold AddSalt. wp_step. unfold configRepo_GetConfig. wp_step. unfold wp at 1, FindOne.
  cbn [fst snd]. pose proof (find_succeeds (tick w) (λ c, str_eq (ac_Key c) "salt") (docs (db w))) as Hs.
  pose proof (find_one_law (tick w) (λ c, str_eq (ac_Key c) "salt") (docs (db w))) as Hp.
  destruct (mongo_find_one _ _ _) as [c|e|]; [|subst e|done].
  { destruct Hp as [Hc Hk%str_eq_true]. by destruct (Hno c). }
  wp_step. unfold RandomString. rewrite bool_decide_eq_true_2 by done. wp_step. wp_step.
  unfold wp at 1, crypto_Read. cbn [fst snd].
  destruct (random_bytes _ _) as [b|e|] eqn:Hb; [wp_step|by do 2 wp_step|done].
  unfold configRepo_CreateConfig. wp_use wp_InsertOne. intros [[]|e|] w' (l & E & Hi); [|done..].
  intros _. exists (S (tick w)), b. split; [exact Hb|]. destruct Hi as [Hi _]. cbn in Hi. rewrite E.
  assert (Hdec : url_decode (std_encode (url_encode b)) = Some (url_encode b)).
  { by rewrite std_encode_url_text, url_decode_encode. }
  split.
  - eexists. split; [cbn; rewrite Hi; by apply elem_of_cons; left|done].
  - intros c. cbn. rewrite Hi. intros [->|Hc]%elem_of_cons Hk; [done|]. by destruct (Hno c).
Qed.

Lemma wp_AddSalt_again {Hreads : ReadsSucceed drv} v w :
  the_secret (db w) v → wp AddSalt (λ r w', r = Ok tt ∧ db w' = db w) w.
Proof.
  intros Hv. unfold AddSalt. wp_step. wp_use get_secret; [done|]. intros r w' [-> ->]. by wp_step.
Qed.

(** The secret survives its encoding, which stores standard base64 and
    reads URL-safe base64: after the first start of the service on a database
    without a secret, [GetConfig] gives the text of the 32 random bytes that
    [AddSalt] drew, and a later start keeps that secret. *)
Theorem secret_is_stable {Hreads : ReadsSucceed drv} w :
  (∀ c, c ∈ auth_configs (db w) → ac_Key c ≠ "salt") →
  wp (r1 ← AddSalt; g1 ← configRepo_GetConfig "salt"; r2 ← AddSalt; g2 ← configRepo_GetConfig "salt";
      mret (r1, g1, r2, g2))
    (λ '(r1, g1, r2, g2) _, r1 = Ok tt →
       ∃ n b, random_bytes n 32 = Ok b ∧ g1 = Ok (mkAuthConfig "salt" (url_encode b)) ∧
              r2 = Ok tt ∧ g2 = g1) w.
Proof.
  intros Hno. wp_step. wp_use wp_AddSalt_new; [done|]. intros [[]|e|] w1 H1.
  2-3: apply wp_bind, wp_any; intros ??; apply wp_bind, wp_any; intros ??;
    apply wp_bind, wp_any; intros ??; by apply wp_ret.
  destruct (H1 eq_refl) as (n & b & Hb & Hv).
  wp_step. wp_use get_secret; [done|]. intros g1 w2 [-> ->].
  wp_step. wp_use wp_AddSalt_again; [exact Hv|]. intros r2 w3 [-> E3]. cbn in E3. rewrite <-E3 in Hv.
  wp_step. wp_use get_secret; [done|]. intros g2 w4 [-> ->].
  wp_step. eauto 10.
Qed.
End accounts.

(** ** Witnesses *)
Definition with_login (name password : string) : User :=
  mkUser no_audit "" name password "" "" "" RoleUser None false.

Lemma login_gives_a_session_witness :
  is_Some (match (LoginUser (Some (with_login " alice " "alice")) demo).1 with
           | JSON 200 (BLogin token _ _) => Some token | _ => None end) ∧
  wp (LoginUser (Some (with_login " alice " "alice"))) (λ r _, ∀ token pid e, r = ok (BLogin token pid e) →
    ∃ user secret exp,
      user ∈ users demo_db ∧ u_Username user = "alice" ∧
      u_DeactivatedAt user = None ∧ bcrypt_compare (u_Password user) "alice" = true ∧
      secret_of demo_db secret ∧ session_of secret token user exp) demo.
Proof.
  split; [vm_compute; eauto|]. apply (login_gives_a_session (with_login " alice " "alice") demo).
Defined.

Lemma own_password_change_witness :
  (UpdatePassword alice (Some (mkUserPassword "" "alice" "Litmus@2024")) demo).1 = ok (BPasswordUpdated "p1") ∧
  wp (UpdatePassword alice (Some (mkUserPassword "" "alice" "Litmus@2024"))) (λ r w',
    r = ok (BPasswordUpdated "p1") →
    strong "Litmus@2024" ∧
    old_password_checked (mkUserPassword "alice" "alice" "Litmus@2024") demo_db ∧
    ∃ u, u ∈ users (db w') ∧ u_Username u = "alice" ∧ u_IsInitialLogin u = false ∧
         bcrypt_compare (u_Password u) "Litmus@2024" = true) demo.
Proof.
  split; [vm_compute; reflexivity|].
  apply (own_password_change alice (mkUserPassword "" "alice" "Litmus@2024") "p1" demo "alice");
    [intros n p _; reflexivity|reflexivity].
Defined.

Lemma state_change_is_atomic_witness :
  (UpdateStateTransaction (mkUpdateUserState "bobby" (Some true)) demo).1 = Ok tt ∧
  wp (UpdateStateTransaction (mkUpdateUserState "bobby" (Some true))) (λ r w',
    (db w' = demo_db ∨ state_changed "bobby" true demo_db (db w')) ∧
    (r = Ok tt → state_changed "bobby" true demo_db (db w'))) demo.
Proof. split; [vm_compute; reflexivity|]. apply (state_change_is_atomic "bobby" true demo). Defined.

Lemma deactivated_user_cannot_log_in_witness :
  served (UpdateUserState admin (Some (mkUpdateUserState "bobby" (Some true))) demo).1 ∧
  wp (r1 ← UpdateUserState admin (Some (mkUpdateUserState "bobby" (Some true)));
      r2 ← LoginUser (Some (with_login "bobby" "bobby")); mret (r1, r2))
    (λ '(r1, r2) _, served r1 → refused r2) demo.
Proof.
  split; [vm_compute; exact I|].
  apply (deactivated_user_cannot_log_in admin "bobby" (with_login "bobby" "bobby") demo);
    [apply demo_wf|vm_compute; reflexivity..].
Defined.

Lemma created_account_can_log_in_witness :
  served (CreateUser admin (Some (with_login " dave " "pw")) demo).1 ∧
  wp (r1 ← CreateUser admin (Some (with_login " dave " "pw"));
      r2 ← LoginUser (Some (with_login " dave " "pw")); mret (r1, r2))
    (λ '(r1, r2) _, served r1 → ¬ rejected r2) demo.
Proof.
  split; [vm_compute; exact I|].
  apply (created_account_can_log_in admin (with_login " dave " "pw") demo); [apply demo_wf|reflexivity..].
Defined.

Lemma secret_is_stable_witness :
  (AddSalt empty_world).1 = Ok tt ∧
  wp (r1 ← AddSalt; g1 ← configRepo_GetConfig "salt"; r2 ← AddSalt; g2 ← configRepo_GetConfig "salt";
      mret (r1, g1, r2, g2))
    (λ '(r1, g1, r2, g2) _, r1 = Ok tt →
       ∃ n b, random_bytes n 32 = Ok b ∧ g1 = Ok (mkAuthConfig "salt" (url_encode b)) ∧
              r2 = Ok tt ∧ g2 = g1) empty_world.
Proof.
  split; [vm_compute; reflexivity|]. apply (secret_is_stable empty_world).
  intros c Hc. by apply elem_of_nil in Hc.
Defined.

(** ** Two ways around the checks *)

(** [OAuthCallback] does not look at [deactivated_at]: the deactivated user
    [carol] is refused by the password log-in and gets a session from the OAuth
    log-in. *)
Example oauth_admits_deactivated_user :
  refused (LoginUser (Some (with_login "carol" "carol")) demo).1 ∧
  match (OAuthCallback "state" "carol" demo).1 with
  | Redirect 308 url => is_Some (String.index 0 "/login?jwtToken=" url)
  | _ => False
  end ∧
  ∃ token, (GetSignedJWT (mk_user "u3" "carol" RoleUser (Some 5) false) "secret" demo).1 = Ok token ∧
           (JwtMiddleware ("Bearer " +:+ token) whoami demo).1 = ok (BRole "u3").
Proof.
  split; [vm_compute; exact id|]. split; [vm_compute; eauto|].
  eexists. split; [reflexivity|]. vm_compute. reflexivity.
Qed.

(** The error of [GetOwnerProjectIDs] is not tested: a log-in of [alice],
    who owns p1, during which that query fails creates another project for her,
    and the same log-in without a failure does not. *)
Example failed_query_creates_project :
  length (projects (db (LoginUser (Some (with_login "alice" "alice")) demo).2)) = 2%nat ∧
  length (projects (db (@LoginUser (mem_driver (fault_at 3 false)) _ _ _
            (Some (with_login "alice" "alice")) demo).2)) = 3%nat.
Proof. split; vm_compute; reflexivity. Qed.
