(* ===== verification/AuthPages.v ===== *)
(** * AuthPages.v: listings and answers

    The project listing: which projects it shows, in which order, how it splits
    them into pages and what the page arithmetic does at the limits of [int64].
    Also: no answer of the service carries a password. *)
From S2P Require Import Prelude World MemMongo GoStd AuthEntities AuthRepo.
From S2P Require Import AuthListing AuthService AuthHandlers AuthUserHandlers Fixtures AuthAccess.
From S2P Require Import AuthMembership AuthInvariants AuthTheorems.
From stdpp Require Import sorting.
Local Open Scope string_scope.
Local Open Scope Z_scope.

Section pages.
Context {drv : MongoDriver} {laws : MongoLaws drv} {tx : MongoTxn} {rt : Runtime} {cr : Crypto}
  {cf : Config} {rx : Regex} {oi : OIDC}.
Implicit Types (w : AuthWorld) (req : ListProjectRequest).

(** ** Which projects are listed *)

(** The projects a request selects: those with the user as a member who has
    not left, declined or still to answer, that are not removed and pass the
    filters. *)
Definition passes (f : option ListProjectInputFilter) (uid : string) (p : Project) : bool :=
  match f with
  | None => true
  | Some f =>
      match fi_CreatedByMe f with
      | Some b => eqb (str_eq (ud_UserID (a_CreatedBy (p_Audit p))) uid) b
      | None => true
      end &&
      match fi_ProjectName f with
      | Some name => regex_search name (p_Name p)
      | None => true
      end
  end.
Definition selected req (p : Project) : bool :=
  visible_to (lr_UserID req) p && passes (lr_Filter req) (lr_UserID req) p.

Lemma run_stages_cons st ss l : run_stages (st :: ss) l = run_stages ss (run_stage st l).
Proof. done. Qed.
Lemma run_stages_app ss ss' l : run_stages (ss ++ ss') l = run_stages ss' (run_stages ss l).
Proof. unfold run_stages. by rewrite foldl_app. Qed.

Lemma filter_true {A} (l : list A) : List.filter (λ _, true) l = l.
Proof. induction l as [|x l IH]; cbn; by rewrite ?IH. Qed.

Lemma filter_stages_run f uid l :
  run_stages (match f with Some _ => CreateFilterStages f uid | None => [] end) l =
  List.filter (passes f uid) l.
Proof.
  destruct f as [[name mine]|]; cbn; [|by rewrite filter_true].
  destruct mine as [[]|], name as [name|]; cbn; rewrite ?filter_filterb, ?filter_true; try done;
    apply filter_ext; intros p; cbn; by destruct (str_eq _ _); rewrite ?andb_true_r.
Qed.

Lemma sort_stage_perm so l :
  run_stages (match CreateSortStage so with Some st => [st] | None => [] end) l ≡ₚ l.
Proof. destruct so as [[[f|] asc]|]; cbn; [|done..]. apply merge_sort_Permutation. Qed.

Lemma list_stages_perm req l :
  run_stages (list_stages req) l ≡ₚ List.filter (selected req) l.
Proof.
  unfold list_stages. rewrite run_stages_cons, run_stages_app, sort_stage_perm, filter_stages_run.
  cbn [run_stage CreateMatchStage]. by rewrite filter_filterb.
Qed.

(** ** Order *)
Lemma leb_trans (s1 s2 s3 : string) : String.leb s1 s2 = true → String.leb s2 s3 = true → String.leb s1 s3 = true.
Proof.
  revert s2 s3. induction s1 as [|c1 s1 IH]; intros [|c2 s2] [|c3 s3]; try done.
  unfold String.leb in *. cbn. specialize (IH s2 s3). unfold Ascii.compare.
  destruct (N.compare_spec (Ascii.N_of_ascii c1) (Ascii.N_of_ascii c2)),
    (N.compare_spec (Ascii.N_of_ascii c2) (Ascii.N_of_ascii c3)),
    (N.compare_spec (Ascii.N_of_ascii c1) (Ascii.N_of_ascii c3)); try done; try lia.
Qed.

#[export] Instance project_le_trans field dir : Transitive (project_le field dir).
Proof.
  intros p q r. unfold project_le. destruct (bool_decide _), field; intros ??; try lia; by eapply leb_trans.
Qed.
#[export] Instance project_le_total field dir : Total (project_le field dir).
Proof.
  intros p q. unfold project_le. destruct (bool_decide _), field; try lia; apply String.leb_total.
Qed.

(** The order that the request asks for; ascending only when it says so. *)
Definition ordered req (l : list Project) : Prop :=
  ∀ so f, lr_Sort req = Some so → so_Field so = Some f →
    StronglySorted (project_le f (match so_Ascending so with Some true => 1 | _ => -1 end)) l.

Lemma list_stages_ordered req l : ordered req (run_stages (list_stages req) l).
Proof.
  intros [fld asc] f Hs Hf. cbn in Hf. subst fld. unfold list_stages. rewrite Hs, run_stages_cons, run_stages_app.
  cbn. apply StronglySorted_merge_sort; apply _.
Qed.

(** ** Pages *)
Definition page_size (limit : Z) : Z := if bool_decide (limit > 50) then 50 else limit.

Lemma page_size_le limit : page_size limit ≤ 50.
Proof. unfold page_size. case_bool_decide; lia. Qed.

Lemma pagination_run page limit l :
  0 ≤ page → 0 < limit → is_int64 (page * page_size limit) →
  run_stages (CreatePaginationStage (Some (mkPagination page limit))) l =
  take (Z.to_nat (page_size limit)) (drop (Z.to_nat (page * page_size limit)) l).
Proof. intros ?? Hr. cbn. unfold page_size in *. by rewrite int64_id. Qed.

Lemma pagination_valid page limit :
  0 ≤ page → 0 < limit → is_int64 (page * page_size limit) →
  forallb stage_valid (CreatePaginationStage (Some (mkPagination page limit))) = true.
Proof.
  intros ?? Hr. cbn. fold (page_size limit). rewrite int64_id by done.
  assert (0 < page_size limit) by (unfold page_size; case_bool_decide; lia).
  by rewrite !bool_decide_eq_true_2 by nia.
Qed.

(** A page of the listing: among the projects of the database, those and
    only those the request selects, each once, in the order it asks for, cut at
    [page * size] with at most [size] entries, where [size] is the requested
    limit capped at 50; the total counts all selected projects. *)
Theorem listing_shows_the_page req page limit w :
  lr_Pagination req = Some (mkPagination page limit) →
  0 ≤ page → 0 < limit → is_int64 (page * page_size limit) →
  wp (GetProjectsByUserID req) (λ r w', db w' = db w ∧ ∀ resp, r = Ok resp →
    ∃ l, l ≡ₚ List.filter (selected req) (projects (db w)) ∧ ordered req l ∧
      lp_Total resp = Z.of_nat (length l) ∧
      lp_Projects resp = take (Z.to_nat (page_size limit)) (drop (Z.to_nat (page * page_size limit)) l) ∧
      (length (lp_Projects resp) ≤ 50)%nat) w.
Proof.
  intros Hpg ?? Hr. unfold GetProjectsByUserID. rewrite Hpg, pagination_valid by done.
  wp_step. wp_use wp_Aggregate. intros [x|e|] w' [E Hp]; [|by wp_step|done].
  destruct Hp as (l0 & Hl0 & ->). rewrite pagination_run by done.
  set (l := run_stages (list_stages req) l0).
  assert (Hl : l ≡ₚ List.filter (selected req) (projects (db w))).
  { unfold l. rewrite list_stages_perm. by apply filterb_perm. }
  assert (ordered req l) by apply list_stages_ordered. clearbody l.
  wp_step; wp_step; (split; [done|]); intros resp [= <-]; exists l; cbn.
  - apply bool_decide_eq_true in Heqb. destruct l; [|cbn in Heqb; lia].
    rewrite drop_nil, take_nil. cbn. auto with lia.
  - pose proof (page_size_le limit). repeat (split; [done|]). rewrite length_take. lia.
Qed.

(** Pages tile the listing: the first [n] pages of any list, put together,
    are its first [n * size] entries, none missing and none repeated, as long
    as the offsets fit an [int64]. *)
Theorem pages_tile (l : list Project) limit n :
  0 < limit → is_int64 (Z.of_nat n * page_size limit) →
  concat ((λ k, run_stages (CreatePaginationStage (Some (mkPagination (Z.of_nat k) limit))) l) <$> seq 0 n)
  = take (n * Z.to_nat (page_size limit)) l.
Proof.
  intros Hl Hr. assert (0 < page_size limit) as Hs by (unfold page_size; case_bool_decide; lia).
  induction n as [|n IH]; [done|].
  assert (is_int64 (Z.of_nat n * page_size limit)) as Hn by (unfold is_int64 in *; nia).
  rewrite seq_S, fmap_app, concat_app, IH by done. cbn [fmap list_fmap concat Nat.add].
  rewrite app_nil_r, pagination_run by (done || lia).
  replace (Z.to_nat (Z.of_nat n * page_size limit)) with (n * Z.to_nat (page_size limit))%nat by nia.
  rewrite take_drop_commute, Nat.add_comm. set (m := Z.to_nat _).
  transitivity (take (n * m) (take (m + n * m) l) ++ drop (n * m) (take (m + n * m) l))%list;
    [by rewrite take_take, Nat.min_l by lia|apply take_drop].
Qed.

(** The offset is computed in 64 bits and wraps: page 2^62 with 4 entries
    per page shows the first page again. *)
Example page_offset_wraps (l : list Project) :
  run_stages (CreatePaginationStage (Some (mkPagination (2 ^ 62) 4))) l =
  run_stages (CreatePaginationStage (Some (mkPagination 0 4))) l.
Proof. reflexivity. Qed.

(** A failed query is answered like an empty listing: [GetProjectsByUserID]
    tests for an empty result before it tests for an error, so the answer to a
    listing with a negative page, which the database refuses, is 200 "No
    projects found" although [alice] has a project. *)
Example failed_listing_looks_empty c w :
  (GetProjectsByUserID_handler c (λ k, if str_eq k "page" then "-1" else "") w).1 =
  ok (BMessage "No projects found").
Proof. reflexivity. Qed.

(** ** Answers carry no password *)
Definition no_password (r : Response) : Prop :=
  match r with
  | JSON _ (BUser u) => u_Password u = ""
  | JSON _ (BUsers us) => Forall (λ u, u_Password u = "") us
  | _ => True
  end.
Definition answers (h : AuthM Response) : Prop := ∀ w, wp h (λ r _, no_password r) w.
Definition gives {A} (P : A → Prop) (m : AuthM (res A)) : Prop :=
  ∀ w, wp m (λ r _, ∀ a, r = Ok a → P a) w.

Lemma answers_ret r : no_password r → answers (mret r).
Proof. by intros ??. Qed.
Lemma answers_on_err {A} (P : A → Prop) (m : AuthM (res A)) h k :
  gives P m → (∀ e, answers (h e)) → (∀ a, P a → answers (k a)) → answers (on_err m h k).
Proof.
  intros Hm Hh Hk w. apply wp_on_err. eapply wp_mono; [apply Hm|].
  intros [a|e|] w' Ha; [by apply Hk, Ha|apply Hh|done].
Qed.
Lemma answers_on_any {A} (m : AuthM (res A)) h k :
  (∀ e, answers (h e)) → (∀ a, answers (k a)) → answers (on_err m h k).
Proof. intros Hh Hk. apply (answers_on_err (λ _, True)); auto. by intros w. Qed.
Lemma answers_bind {A} (m : AuthM A) k : (∀ a, answers (k a)) → answers (m ≫= k).
Proof. intros Hk w. apply wp_bind, wp_any. intros a w'. apply Hk. Qed.
Lemma answers_must v (k : string → AuthM Response) : (∀ x, answers (k x)) → answers (must v k).
Proof. intros Hk. destruct v; [apply Hk|by apply answers_ret]. Qed.
Lemma answers_body {A} (v : option A) k : (∀ x, answers (k x)) → answers (bind_json v k).
Proof. intros Hk. destruct v; [apply Hk|by apply answers_ret]. Qed.
Lemma answers_changed uid k : answers k → answers (require_password_changed uid k).
Proof.
  intros Hk. apply answers_on_any; intros []; by first [apply Hk|apply answers_ret].
Qed.
Lemma answers_rbac uid pid rule i k : answers k → answers (require_rbac uid pid rule i k).
Proof. intros Hk. apply answers_on_any; intros ?; [by apply answers_ret|done]. Qed.

Lemma gives_map {A B} (P : B → Prop) (f : A → B) (m : AuthM (res A)) :
  (∀ a, P (f a)) → gives P (let? a := m in mret (Ok (f a))).
Proof.
  intros Hf w. apply wp_on_err, wp_any. intros [a|e|] w'; [apply wp_ret|by apply wp_ret|done].
  intros b [= <-]. apply Hf.
Qed.
Lemma sanitized us : Forall (λ u, u_Password u = "") (SanitizedUser <$> us).
Proof. apply Forall_fmap, Forall_true. done. Qed.
Lemma gives_created u : gives (λ u, u_Password u = "") (userRepo_CreateUser u).
Proof.
  intros w. unfold userRepo_CreateUser. apply wp_bind, wp_any. intros [?|[]|] w'; apply wp_ret;
    by intros ? [= <-].
Qed.

Ltac answer :=
  repeat lazymatch goal with
  | |- answers (must _ _) => apply answers_must; intros ?
  | |- answers (bind_json _ _) => apply answers_body; intros ?
  | |- answers (require_password_changed _ _) => apply answers_changed
  | |- answers (require_rbac _ _ _ _ _) => apply answers_rbac
  | |- answers (mret _) => apply answers_ret; first [exact I|done|by repeat case_match]
  | |- answers (on_err (userRepo_CreateUser _) _ _) =>
      apply (answers_on_err (λ u, u_Password u = "")); [apply gives_created|intros ?|intros ? ?]
  | |- answers (on_err (userRepo_GetUser _) _ _) =>
      apply (answers_on_err (λ u, u_Password u = "")); [by apply gives_map|intros ?|intros ? ?]
  | |- answers (on_err userRepo_GetUsers _ _) =>
      apply (answers_on_err (Forall (λ u, u_Password u = ""))); [apply gives_map, sanitized|intros ?|intros ? ?]
  | |- answers (on_err (userRepo_InviteUsers _) _ _) =>
      apply (answers_on_err (Forall (λ u, u_Password u = ""))); [apply gives_map, sanitized|intros ?|intros ? ?]
  | |- answers (on_err _ _ _) => apply answers_on_any; intros ?
  | |- answers (_ ≫= _) => apply answers_bind; intros ?
  | |- answers (match ?x with _ => _ end) => destruct x
  end.

(** No answer of the service, to any request and whatever the database
    does, contains a password or its hash in a user record. *)
Theorem answers_carry_no_password call w : wp (serve call) (λ r _, no_password r) w.
Proof.
  revert w. change (answers (serve call)).
  assert (Hr : ∀ r c, answers (route r c)).
  { intros [] c; cbn [route];
      unfold GetUserWithProject, GetProject, GetProjectsByUserID_handler, GetProjectStats_handler,
        GetActiveProjectMembers, GetActiveProjectOwners, ListInvitations, GetOwnerProjects,
        GetProjectRole, CreateProject, SendInvitation, AcceptInvitation, DeclineInvitation,
        RemoveInvitation, LeaveProject, UpdateProjectName, UpdateMemberRole, DeleteProject,
        GetApiTokens, CreateApiToken_handler, DeleteApiToken_handler, UpdatePassword, ResetPassword,
        CreateUser, UpdateUser, GetUser, FetchUsers, InviteUsers, UpdateUserState; cbv zeta; by answer. }
  destruct call as [h r|b|h|st cd]; cbn [serve];
    unfold JwtMiddleware, LoginUser, LogoutUser, OAuthCallback; cbv zeta; answer. apply Hr.
Qed.
End pages.

(** ** Witnesses *)
Definition list_request : ListProjectRequest :=
  mkListProjectRequest "u2" (Some (mkSortInput (Some ProjectSortingFieldName) (Some true))) None
    (Some (mkPagination 0 15)).

Lemma listing_shows_the_page_witness :
  is_ok (GetProjectsByUserID list_request demo).1 = true ∧
  wp (GetProjectsByUserID list_request) (λ r w', db w' = demo_db ∧ ∀ resp, r = Ok resp →
    ∃ l, l ≡ₚ List.filter (selected list_request) (projects demo_db) ∧ ordered list_request l ∧
      lp_Total resp = Z.of_nat (length l) ∧
      lp_Projects resp = take (Z.to_nat (page_size 15)) (drop (Z.to_nat (0 * page_size 15)) l) ∧
      (length (lp_Projects resp) ≤ 50)%nat) demo.
Proof.
  split; [vm_compute; reflexivity|].
  apply (listing_shows_the_page list_request 0 15 demo); [reflexivity|lia|lia|].
  unfold is_int64. vm_compute. split; discriminate || reflexivity.
Defined.

Lemma pages_tile_witness :
  concat ((λ k, run_stages (CreatePaginationStage (Some (mkPagination (Z.of_nat k) 1))) (projects demo_db))
            <$> seq 0 2) = projects demo_db.
Proof.
  rewrite (pages_tile (projects demo_db) 1 2); [reflexivity|lia|].
  unfold is_int64. vm_compute. split; discriminate || reflexivity.
Defined.
