(* ===== verification/Upgrade.v ===== *)
(** * Upgrade.v: the control-plane upgrade agent

    [upgrade-agents/control-plane]: version numbers, the path of an upgrade
    ([versions/upgrade-manager.go]), the stored version
    ([pkg/database/server-config.go]) and the 3.9.0 migration of the
    authentication database ([versions/v3.9.0]). *)
From S2P Require Import Prelude World MemMongo GoStd AuthEntities AuthRepo.
From S2P Require Import AuthService AuthMembership AuthInvariants Fixtures AuthTheorems.
From stdpp Require Import sorting.
Local Open Scope string_scope.
Local Open Scope Z_scope.

(** ** Versions *)
Record Version : Type := mkVersion { Major : Z; Minor : Z; Patch : Z; Beta : Z }.
#[export] Instance Version_eq_dec : EqDecision Version.
Proof. solve_decision. Defined.

Definition zero_version : Version := mkVersion 0 0 0 0.

(** [mainParts[1]] panics when the text has no dot. *)
Definition ParseVersion (version : string) : res Version :=
  let parts := Split version "-beta" in
  let mainParts := Split (default "" (head parts)) "." in
  match Atoi (default "" (head mainParts)) with
  | None => Ok zero_version
  | Some major =>
      match mainParts !! 1%nat with
      | None => Panic
      | Some m1 =>
          match Atoi m1 with
          | None => Ok zero_version
          | Some minor =>
              let patch := match mainParts !! 2%nat with
                           | Some p => default 0 (Atoi p)
                           | None => 0
                           end in
              match parts !! 1%nat with
              | None => Ok (mkVersion major minor patch 0)
              | Some b => match Atoi b with
                          | None => Ok zero_version
                          | Some beta => Ok (mkVersion major minor patch beta)
                          end
              end
          end
      end
  end.

Definition getVersion (v : Version) : string :=
  if bool_decide (Beta v ≠ 0)
  then Itoa (Major v) +:+ "." +:+ Itoa (Minor v) +:+ "." +:+ Itoa (Patch v) +:+ "-beta" +:+ Itoa (Beta v)
  else Itoa (Major v) +:+ "." +:+ Itoa (Minor v) +:+ "." +:+ Itoa (Patch v).

(** Rows of the version matrix. The code indexes four entries. *)
Definition arrayToVersion (row : list Z) : res string :=
  match row with
  | a :: b :: c :: d :: _ =>
      Ok (if bool_decide (d = 0)
          then Itoa a +:+ "." +:+ Itoa b +:+ "." +:+ Itoa c
          else Itoa a +:+ "." +:+ Itoa b +:+ "." +:+ Itoa c +:+ "-beta" +:+ Itoa d)
  | _ => Panic
  end.

Definition version_row (v : Version) : list Z := [Major v; Minor v; Patch v; Beta v].

(** The [less] function given to [sort.Slice]. *)
Fixpoint row_less (a b : list Z) : bool :=
  match a, b with
  | x :: a, y :: b => if bool_decide (x = y) then row_less a b else bool_decide (x < y)
  | [], _ :: _ => true
  | _, [] => false
  end.
Definition row_le (a b : list Z) : Prop := row_less b a = false.
#[export] Instance row_le_dec : RelDecision row_le.
Proof. intros a b. unfold row_le. apply _. Defined.

Fixpoint all_ok {A B} (f : A → res B) (l : list A) : res (list B) :=
  match l with
  | [] => Ok []
  | a :: l => match f a with
              | Ok b => match all_ok f l with Ok bs => Ok (b :: bs) | Err e => Err e | Panic => Panic end
              | Err e => Err e
              | Panic => Panic
              end
  end.

(** [sort.Slice] permutes the rows so that they ascend; rows that the order
    does not separate are equal, so the result is determined. *)
Definition sortVersionArray (versionArray : list string) : res (list string) :=
  match all_ok ParseVersion versionArray with
  | Ok vs => all_ok arrayToVersion (merge_sort row_le (version_row <$> vs))
  | Err e => Err e
  | Panic => Panic
  end.

(** [keys] are the keys of the version map in the order in which [range] visits
    them. *)
Definition parseVersionMap (keys : list string) (previousVersion targetVersion : string) :
    res (list string) :=
  sortVersionArray (keys ++ (if str_in previousVersion keys then [] else [previousVersion])
                         ++ (if str_in targetVersion keys then [] else [targetVersion]))%list.

Fixpoint linearSearchArray (version : string) (versionMapArray : list string) : Z :=
  match versionMapArray with
  | [] => -1
  | v :: l => if str_eq v version then 0
              else let i := linearSearchArray version l in if bool_decide (i = -1) then -1 else i + 1
  end.

(** [l[lo:hi]] panics unless [0 <= lo <= hi <= cap(l)]; [hi] is at most the
    length here. *)
Definition slice {A} (l : list A) (lo hi : Z) : res (list A) :=
  if bool_decide (0 ≤ lo ∧ lo ≤ hi ∧ hi ≤ Z.of_nat (length l))
  then Ok (take (Z.to_nat (hi - lo)) (drop (Z.to_nat lo) l)) else Panic.

Definition traceUpgradePath (previousVersion targetVersion : Version) (keys : list string) :
    res (list string) :=
  match parseVersionMap keys (getVersion previousVersion) (getVersion targetVersion) with
  | Ok versionStringMap =>
      let startIndex := linearSearchArray (getVersion previousVersion) versionStringMap in
      let endIndex := linearSearchArray (getVersion targetVersion) versionStringMap in
      slice versionStringMap (startIndex + 1) (endIndex + 1)
  | Err e => Err e
  | Panic => Panic
  end.

(** ** The database *)
Inductive ConfigValue : Type := ValueNil | ValueString (s : string) | ValueOther.
Record ServerConfig : Type := mkServerConfig { sc_Key : string; sc_Value : ConfigValue }.
(** What the [0.0.0] manager changes: the collection [auth.client], to which it
    renames [auth.users], and the indexes of environments and workflows. *)
Record Index : Type := mkIndex { ix_Name : string; ix_Keys : list string; ix_Unique : bool; ix_Partial : option (string * bool) }.
Record Schema : Type := mkSchema { sm_Client : option (list User); sm_Environment : list Index; sm_Workflow : list Index }.
Record UpgDB : Type := mkUpgDB { upg_auth : AuthDB; upg_config : list ServerConfig; upg_schema : Schema }.

#[export, refine] Instance upg_projects : Collection UpgDB Project := {|
  docs s := projects (upg_auth s);
  set_docs l s := mkUpgDB (set_docs l (upg_auth s)) (upg_config s) (upg_schema s)
|}.
Proof. all: by try intros [[]]. Defined.
#[export, refine] Instance upg_users : Collection UpgDB User := {|
  docs s := users (upg_auth s);
  set_docs l s := mkUpgDB (set_docs l (upg_auth s)) (upg_config s) (upg_schema s)
|}.
Proof. all: by try intros [[]]. Defined.
#[export, refine] Instance upg_configs : Collection UpgDB ServerConfig := {|
  docs := upg_config; set_docs l s := mkUpgDB (upg_auth s) l (upg_schema s)
|}.
Proof. all: by try intros []. Defined.

Abbreviation UpgM := (M (World UpgDB)).

(** Whether a call about collections or indexes succeeds. *)

Section upgrade.
Context `{MongoDriver} `{MongoTxn} `{MongoAbort} `{MapOrder} `{IndexAdmin}.

Definition GetVersion : UpgM (res ServerConfig) := FindOne (λ c, str_eq (sc_Key c) "version").

Definition UpdateVersion (version : string) : UpgM (res unit) :=
  let? _ := UpdateOne (λ c, str_eq (sc_Key c) "version")
              (λ c, mkServerConfig (sc_Key c) (ValueString version)) in
  mret (Ok tt).

(** ** The 3.9.0 migration. [log.Fatal] ends the process. *)
Definition oldRole : MemberRole := "Editor".
Definition newRole : MemberRole := "Executor".

Definition migrate_project (p : Project) : Project :=
  set_members ((λ m, if str_eq (m_Role m) oldRole then set_role newRole m else m) <$> p_Members p) p.

Definition upgradeProjectCollection : UpgM (res unit) :=
  let! _ := UpdateMany (λ p, existsb (λ m, str_eq (m_Role m) oldRole) (p_Members p)) migrate_project
  or _ => mret Panic in
  mret (Ok tt).

Definition upgradeUsersCollection : UpgM (res unit) :=
  let! _ := UpdateMany (λ _ : User, true) (set_initial_login false) or _ => mret Panic in
  mret (Ok tt).

Definition upg_outside (f : nat → res unit) : UpgM (res unit) := λ w, (f (tick w), bump w).

Definition v3_9_0_Run : UpgM (res unit) :=
  let! _ := upg_outside txn_start_session or _ => mret Panic in
  let! _ := upg_outside txn_start or _ => mret Panic in
  λ w, let '(r, w1) := (let? _ := upgradeProjectCollection in upgradeUsersCollection) w in
       let '(c, applied) := match r with Ok _ => txn_commit (tick w1) | _ => (r, false) end in
       let w2 := mkWorld (if (applied : bool) then db w1 else db w) (S (tick w1)) in
       match c with
       | Err e => match txn_abort (tick w2) with
                  | Ok _ => (Err e, bump w2)
                  | _ => (Panic, bump w2)
                  end
       | _ => (c, w2)
       end.

(** ** The [0.0.0] manager, a template

    No upgrade reaches it ([upgrade_migrates_when_due]). *)
Definition set_schema (f : Schema → Schema) : UpgM unit := λ w,
  (tt, mkWorld (mkUpgDB (upg_auth (db w)) (upg_config (db w)) (f (upg_schema (db w)))) (tick w)).
Definition set_environment_indexes (l : list Index) (x : Schema) : Schema := mkSchema (sm_Client x) l (sm_Workflow x).
Definition set_workflow_indexes (l : list Index) (x : Schema) : Schema := mkSchema (sm_Client x) (sm_Environment x) l.
Definition get_schema : UpgM Schema := λ w, (upg_schema (db w), w).

(** [renameCollection] fails when the new name is taken; the documents go with
    their indexes. *)
Definition without_users (s : AuthDB) : AuthDB :=
  mkAuthDB [] (projects s) (revoked_tokens s) (api_tokens s) (auth_configs s)
    (List.filter (λ i, negb (str_eq i.1 "users")) (auth_indexes s)).
Definition v0_0_0_upgradeUsersCollection : UpgM (res unit) :=
  schema ← get_schema;
  let! _ := upg_outside (λ n, match sm_Client schema with None => admin_call n | Some _ => Err (ErrNew "target namespace exists") end)
    or _ => mret Panic in
  λ w, (Ok tt, mkWorld (mkUpgDB (without_users (upg_auth (db w))) (upg_config (db w))
                          (mkSchema (Some (users (upg_auth (db w)))) (sm_Environment schema) (sm_Workflow schema))) (tick w)).

(** The last index on the field counts. *)
Definition index_on (key : string) (l : list Index) : option Index := last (List.filter (λ i, str_in key (ix_Keys i)) l).
Definition drop_index (name : string) (l : list Index) : list Index := List.filter (λ i, negb (str_eq (ix_Name i) name)) l.
Definition partial_index (key : string) : Index := mkIndex (key +:+ "_1") [key] true (Some ("isRemoved", false)).

Definition upgradeEnvironmentCollectionIndexes : UpgM (res unit) :=
  let? _ := upg_outside admin_call in
  schema ← get_schema;
  match index_on "environment_id" (sm_Environment schema) with
  | None => mret Panic
  | Some i =>
      let indexes := drop_index (ix_Name i) (sm_Environment schema) in
      let! _ := upg_outside admin_call or _ => mret Panic in
      _ ← set_schema (set_environment_indexes indexes);
      let! _ := upg_outside admin_call or _ => mret Panic in
      _ ← set_schema (set_environment_indexes (indexes ++ [partial_index "environment_id"])%list);
      mret (Ok tt)
  end.

(** To drop an index that is not there is an error. *)
Definition upgradeWorkflow : UpgM (res unit) :=
  schema ← get_schema;
  let indexes := drop_index "workflow_name_1" (sm_Workflow schema) in
  let! _ := upg_outside (λ n, if str_in "workflow_name_1" (ix_Name <$> sm_Workflow schema) then admin_call n
                              else Err (ErrNew "index not found")) or _ => mret Panic in
  _ ← set_schema (set_workflow_indexes indexes);
  let? _ := upg_outside admin_call in
  _ ← set_schema (set_workflow_indexes (indexes ++ [partial_index "workflow_name"])%list);
  mret (Ok tt).

Definition v0_0_0_Run : UpgM (res unit) :=
  let? _ := v0_0_0_upgradeUsersCollection in
  let? _ := upgradeEnvironmentCollectionIndexes in
  upgradeWorkflow.

(** ** The upgrade manager *)
Definition version_keys : list string := ["0.0.0"; "3.9.0"].
Definition getVersionMap (v : string) : option (UpgM (res unit)) :=
  if str_eq v "0.0.0" then Some v0_0_0_Run
  else if str_eq v "3.9.0" then Some v3_9_0_Run
  else None.

Record UpgradeManager : Type := mkUpgradeManager { PreviousVersion : Version; TargetVersion : Version }.

Definition NewUpgradeManager (currentVersion : string) : UpgM (res (option UpgradeManager)) :=
  if str_eq currentVersion "" then mret (Err (ErrNew "current version env data missing"))
  else
    let! config := GetVersion
    or _ => mret (Err (ErrNew "failed to get previous version data from db")) in
    match sc_Value config with
    | ValueNil => mret (Err (ErrNew "failed to get previous version data from db"))
    | ValueOther => mret Panic
    | ValueString value =>
        if str_eq value "" then mret (Err (ErrNew "failed to get previous version data from db"))
        else if str_eq value currentVersion then mret (Ok None)
        else match ParseVersion value, ParseVersion currentVersion with
             | Ok p, Ok t => mret (Ok (Some (mkUpgradeManager p t)))
             | _, _ => mret Panic
             end
    end.

(** The loop over the path. The error of [UpdateVersion] is dropped. *)
Fixpoint run_path (path : list string) : UpgM (res unit) :=
  match path with
  | [] => mret (Ok tt)
  | v :: path =>
      match getVersionMap v with
      | Some manager =>
          let? _ := manager in
          _ ← UpdateVersion v;
          run_path path
      | None => run_path path
      end
  end.

Definition range_order (l : list string) : UpgM (list string) := λ w, (map_order (tick w) l, bump w).

(** [upgradePath[len(upgradePath)-1]] panics on an empty path. *)
Definition Run (m : UpgradeManager) : UpgM (res unit) :=
  keys ← range_order version_keys;
  match traceUpgradePath (PreviousVersion m) (TargetVersion m) keys with
  | Ok upgradePath =>
      let? _ := run_path upgradePath in
      match last upgradePath with
      | None => mret Panic
      | Some v => _ ← UpdateVersion v; mret (Ok tt)
      end
  | Err e => mret (Err e)
  | Panic => mret Panic
  end.

(** [main] *)
Definition upgrade_main (currentVersion : string) : UpgM (res unit) :=
  let? mg := NewUpgradeManager currentVersion in
  match mg with
  | Some m => Run m
  | None => mret (Ok tt)
  end.
End upgrade.
