(* ===== verification/UpgradeTheorems.v ===== *)
(** * UpgradeTheorems.v: correctness of the upgrade agent

    Version texts and their order, the path of an upgrade, and what a run of
    the agent does to the authentication database. *)
From S2P Require Import Prelude World MemMongo GoStd AuthEntities AuthRepo.
From S2P Require Import AuthService AuthMembership AuthInvariants Fixtures AuthTheorems Upgrade.
From stdpp Require Import sorting.
From Stdlib Require Import Ascii.
Local Open Scope string_scope.
Local Open Scope Z_scope.
Local Open Scope list_scope.

(** ** Texts of versions *)
Definition valid (v : Version) : Prop :=
  Forall (λ z, 0 ≤ z < 2 ^ 63) (version_row v).

(** Digits and dots contain no character outside them. *)
Lemma Itoa_no_char c z : 0 ≤ z → is_digit c = false → c ∉ chars (Itoa z).
Proof.
  intros Hz Hc Hin. destruct (Itoa_digits z Hz) as [Hd _].
  rewrite forallb_forall in Hd. rewrite list_elem_of_In in Hin. by rewrite (Hd _ Hin) in Hc.
Qed.

Definition main_text (v : Version) : string :=
  Itoa (Major v) +:+ "." +:+ Itoa (Minor v) +:+ "." +:+ Itoa (Patch v).

Lemma valid_fields v : valid v →
  0 ≤ Major v < 2 ^ 63 ∧ 0 ≤ Minor v < 2 ^ 63 ∧ 0 ≤ Patch v < 2 ^ 63 ∧ 0 ≤ Beta v < 2 ^ 63.
Proof. unfold valid, version_row. rewrite !Forall_cons. naive_solver. Qed.

Lemma split_go_sep1 c a l : c ∉ a → split_go [c] 0 [] (a ++ c :: l) = a :: split_go [c] 0 [] l.
Proof. exact (split_go_sep c [] a l). Qed.

Lemma split_main v : valid v →
  Split (main_text v) "." = [Itoa (Major v); Itoa (Minor v); Itoa (Patch v)].
Proof.
  intros (? & ? & ? & ?)%valid_fields. unfold Split, main_text. rewrite !chars_app.
  change (chars ".") with ["."%char]. cbn [app].
  rewrite !split_go_sep1 by (apply Itoa_no_char; [lia|done]).
  rewrite split_go_end by (apply Itoa_no_char; [lia|done]). cbn [fmap list_fmap].
  by rewrite !of_chars_chars.
Qed.

Lemma main_no_dash v : valid v → "-"%char ∉ chars (main_text v).
Proof.
  intros (? & ? & ? & ?)%valid_fields. unfold main_text. rewrite !chars_app, !elem_of_app.
  cbn [chars]. rewrite !list_elem_of_singleton.
  intros [Hin|[?|[Hin|[?|Hin]]]]; try done; revert Hin; apply Itoa_no_char; done || lia.
Qed.

Lemma split_beta v : valid v →
  Split (getVersion v) "-beta" =
  if bool_decide (Beta v ≠ 0) then [main_text v; Itoa (Beta v)] else [main_text v].
Proof.
  intros Hv. pose proof (main_no_dash v Hv) as Hm. pose proof (valid_fields v Hv) as Hf.
  unfold Split, getVersion. case_bool_decide.
  - replace (chars (Itoa (Major v) +:+ "." +:+ Itoa (Minor v) +:+ "." +:+ Itoa (Patch v) +:+ "-beta" +:+ Itoa (Beta v)))
      with (chars (main_text v) ++ "-"%char :: ["b";"e";"t";"a"]%char ++ chars (Itoa (Beta v))).
    2: { unfold main_text. rewrite !chars_app, <-!app_assoc. done. }
    change (chars "-beta") with ("-"%char :: ["b";"e";"t";"a"]%char).
    rewrite split_go_sep by done. rewrite split_go_end by (apply Itoa_no_char; [lia|done]).
    cbn [fmap list_fmap]. by rewrite !of_chars_chars.
  - fold (main_text v). change (chars "-beta") with ("-"%char :: ["b";"e";"t";"a"]%char).
    rewrite split_go_end by done. cbn [fmap list_fmap]. by rewrite of_chars_chars.
Qed.

#[local] Opaque Split Atoi Itoa.

Lemma parse_getVersion v : valid v → ParseVersion (getVersion v) = Ok v.
Proof.
  intros Hv. pose proof (valid_fields v Hv) as (? & ? & ? & ?). unfold ParseVersion.
  rewrite split_beta by done. case_bool_decide; cbn; rewrite split_main by done; cbn;
    rewrite !Atoi_Itoa by lia; cbn; rewrite ?Atoi_Itoa by lia; destruct v; cbn in *; [done|].
  by subst.
Qed.

Lemma getVersion_inj u v : valid u → valid v → getVersion u = getVersion v → u = v.
Proof.
  intros Hu Hv E. pose proof (parse_getVersion u Hu) as E1. rewrite E, parse_getVersion in E1 by done.
  congruence.
Qed.

Lemma array_getVersion v : arrayToVersion (version_row v) = Ok (getVersion v).
Proof. unfold getVersion. cbn. by repeat case_bool_decide. Qed.

(** ** The order of versions *)
Lemma row_less_irrefl a : row_less a a = false.
Proof. induction a as [|x a IH]; cbn; [done|]. by rewrite bool_decide_eq_true_2. Qed.
Lemma row_less_trans a b c : row_less a b = true → row_less b c = true → row_less a c = true.
Proof.
  revert b c. induction a as [|x a IH]; intros [|y b] [|z c]; cbn; try done.
  repeat case_bool_decide; subst; try done; try lia; eauto.
Qed.
Lemma row_less_total a b : row_less a b = false → row_less b a = false → a = b.
Proof.
  revert b. induction a as [|x a IH]; intros [|y b]; cbn; try done.
  repeat case_bool_decide; subst; try done; try lia. intros ??. f_equal. auto.
Qed.

#[export] Instance row_le_trans : Transitive row_le.
Proof.
  intros a b c H1 H2. unfold row_le in *. destruct (row_less c a) eqn:E; [|done].
  destruct (row_less b a) eqn:E1; [done|]. destruct (row_less a b) eqn:E2.
  - by rewrite (row_less_trans c a b) in H2.
  - rewrite (row_less_total a b) in E by done. congruence.
Qed.
#[export] Instance row_le_total : Total row_le.
Proof.
  intros a b. unfold row_le. destruct (row_less b a) eqn:E; [right|by left].
  destruct (row_less a b) eqn:E2; [|done].
  by rewrite <-(row_less_irrefl a), (row_less_trans a b a).
Qed.

Definition version_lt (u v : Version) : Prop := row_less (version_row u) (version_row v) = true.
Definition version_le (u v : Version) : Prop := u = v ∨ version_lt u v.

Lemma version_row_inj u v : version_row u = version_row v → u = v.
Proof. destruct u, v. cbn. by intros [= -> -> -> ->]. Qed.
Lemma version_lt_irrefl v : ¬ version_lt v v.
Proof. unfold version_lt. by rewrite row_less_irrefl. Qed.
Lemma version_lt_trans u v w : version_lt u v → version_lt v w → version_lt u w.
Proof. apply row_less_trans. Qed.
Lemma version_le_row u v : row_le (version_row u) (version_row v) ↔ version_le u v.
Proof.
  unfold row_le, version_le, version_lt. split.
  - intros E. destruct (row_less (version_row u) (version_row v)) eqn:E1; [by right|left].
    by apply version_row_inj, row_less_total.
  - intros [->|E]; [apply row_less_irrefl|]. destruct (row_less (version_row v) _) eqn:E1; [|done].
    destruct (version_lt_irrefl u). by apply (version_lt_trans u v u).
Qed.

(** ** Sorting *)
Lemma all_ok_map {A B} (f : A → res B) (g : A → B) l :
  (∀ a, a ∈ l → f a = Ok (g a)) → all_ok f l = Ok (g <$> l).
Proof.
  induction l as [|a l IH]; intros Hf; cbn; [done|]. rewrite Hf by set_solver.
  rewrite IH by set_solver. done.
Qed.

Lemma sort_versions vs : Forall valid vs →
  ∃ l, sortVersionArray (getVersion <$> vs) = Ok (getVersion <$> l) ∧ l ≡ₚ vs ∧
       StronglySorted version_le l.
Proof.
  intros Hv. unfold sortVersionArray.
  assert (all_ok ParseVersion (getVersion <$> vs) = Ok vs) as ->.
  { induction Hv as [|v vs Hv ? IH]; cbn; [done|]. by rewrite parse_getVersion, IH. }
  match goal with |- context [all_ok arrayToVersion ?x] => set (rs := x) end.
  assert (Hp : rs ≡ₚ version_row <$> vs) by apply merge_sort_Permutation.
  assert (Hs : StronglySorted row_le rs) by (apply StronglySorted_merge_sort; apply _).
  clearbody rs. destruct (Permutation_map_inv version_row vs Hp) as (l & -> & Hl).
  exists l. split; [|split; [done|]].
  - clear. induction l as [|v l IH]; [done|]. cbn [map fmap list_fmap all_ok].
    rewrite array_getVersion, IH. done.
  - clear -Hs. induction l as [|v l IH]; cbn in Hs; [constructor|]. inversion Hs as [|?? H1 H2]; subst.
    constructor; [auto|]. rewrite Forall_map in H2. eapply Forall_impl; [exact H2|].
    intros u Hu. by apply version_le_row.
Qed.

(** ** The path of an upgrade *)
Lemma search_first v l1 l2 :
  v ∉ l1 → linearSearchArray v (l1 ++ v :: l2) = Z.of_nat (length l1).
Proof.
  induction l1 as [|x l1 IH]; intros Hv; cbn; [by rewrite str_eq_refl|].
  apply not_elem_of_cons in Hv as [Hx Hv]. rewrite (proj2 (str_eq_false _ _)) by done.
  rewrite IH by done. case_bool_decide; lia.
Qed.

Lemma sorted_lt l : StronglySorted version_le l → NoDup l → StronglySorted version_lt l.
Proof.
  induction 1 as [|v l ? IH HF]; intros HN; constructor; apply NoDup_cons in HN as [Hv HN]; [auto|].
  rewrite Forall_forall in HF |- *. intros u Hu. destruct (HF u Hu) as [->|]; done.
Qed.

(** Between two entries of an ascending list are exactly those in between. *)
Lemma sorted_between l u v :
  StronglySorted version_lt l → u ∈ l → v ∈ l → version_lt u v →
  ∃ l1 l2 l3, l = l1 ++ u :: l2 ++ v :: l3 ∧
    ∀ x, x ∈ l2 ++ [v] ↔ x ∈ l ∧ version_lt u x ∧ version_le x v.
Proof.
  intros Hs (l1 & r & ->)%list_elem_of_split Hv Huv.
  apply StronglySorted_app in Hs as (H1 & _ & Hs). inversion Hs as [|?? Hr Hur]; subst.
  rewrite Forall_forall in Hur.
  assert (v ∈ r) as (l2 & l3 & ->)%list_elem_of_split.
  { apply elem_of_app in Hv as [Hv|[->|?]%elem_of_cons]; [|by destruct (version_lt_irrefl u)|done].
    exfalso. apply (version_lt_irrefl u), (version_lt_trans u v u); [done|]. apply H1; set_solver. }
  exists l1, l2, l3. split; [done|]. intros x.
  apply StronglySorted_app in Hr as (H2 & _ & Hr). inversion Hr as [|?? _ H3]; subst.
  rewrite Forall_forall in H3. rewrite elem_of_app, list_elem_of_singleton. split.
  - intros [Hx| ->]; (split; [set_solver|]); [|split; [apply Hur; set_solver|by left]].
    split; [apply Hur; set_solver|right; apply H2; set_solver].
  - intros (Hx & Hux & Hxv). rewrite !elem_of_app, elem_of_cons, elem_of_app, elem_of_cons in Hx.
    destruct Hx as [Hx|[->|[?|[->|Hx]]]]; auto.
    + destruct (version_lt_irrefl u). apply (version_lt_trans u x u); [done|]. apply H1; set_solver.
    + by destruct (version_lt_irrefl u).
    + destruct Hxv as [->|Hxv]; [auto|]. destruct (version_lt_irrefl x).
      apply (version_lt_trans x v x); [done|]. by apply H3.
Qed.

Lemma slice_middle {A} (l1 l2 l3 : list A) :
  slice (l1 ++ l2 ++ l3) (Z.of_nat (length l1)) (Z.of_nat (length l1 + length l2)) = Ok l2.
Proof.
  unfold slice. rewrite bool_decide_eq_true_2 by (rewrite !length_app; lia). f_equal.
  rewrite Nat2Z.id, drop_app_length. replace (Z.to_nat _) with (length l2) by lia.
  by rewrite take_app_length.
Qed.

(** The versions that are sorted for a path. *)
Definition known (ks : list Version) (p t : Version) : list Version :=
  ks ++ (if bool_decide (p ∈ ks) then [] else [p]) ++ (if bool_decide (t ∈ ks) then [] else [t]).

Lemma known_elem ks p t v : v ∈ known ks p t ↔ v ∈ ks ∨ v = p ∨ v = t.
Proof. unfold known. repeat case_bool_decide; set_solver. Qed.

Lemma known_NoDup ks p t : NoDup ks → p ≠ t → NoDup (known ks p t).
Proof.
  intros HN Hpt. unfold known. rewrite !NoDup_app. repeat case_bool_decide; repeat split;
    try done; try apply NoDup_nil_2; try apply NoDup_singleton; set_solver.
Qed.

Lemma getVersion_elem ks v : Forall valid ks → valid v → getVersion v ∈ getVersion <$> ks ↔ v ∈ ks.
Proof.
  intros Hks Hv. rewrite list_elem_of_fmap. split; [|by exists v].
  intros (u & E & Hu). rewrite Forall_forall in Hks. by rewrite (getVersion_inj v u); auto.
Qed.

Section paths.
Context (ks : list Version) (p t : Version).
Context (Hks : Forall valid ks) (HN : NoDup ks) (Hp : valid p) (Ht : valid t).

Lemma known_valid : Forall valid (known ks p t).
Proof.
  apply Forall_forall. intros v [?|[->| ->]]%known_elem; [|done..]. by eapply Forall_forall in Hks.
Qed.

Lemma parse_map_sorted : p ≠ t →
  ∃ l, parseVersionMap (getVersion <$> ks) (getVersion p) (getVersion t) = Ok (getVersion <$> l) ∧
       Forall valid l ∧ (∀ v, v ∈ l ↔ v ∈ ks ∨ v = p ∨ v = t) ∧ StronglySorted version_lt l.
Proof.
  intros Hpt. destruct (sort_versions (known ks p t) known_valid) as (l & E & Hl & Hs).
  exists l. split; [|split; [|split]].
  - rewrite <-E. unfold parseVersionMap, known, str_in. f_equal. rewrite !fmap_app.
    rewrite (bool_decide_ext _ _ (getVersion_elem ks p Hks Hp)).
    rewrite (bool_decide_ext _ _ (getVersion_elem ks t Hks Ht)). by repeat case_bool_decide.
  - rewrite Hl. apply known_valid.
  - intros v. rewrite Hl. apply known_elem.
  - apply sorted_lt; [done|]. rewrite Hl. by apply known_NoDup.
Qed.

Lemma search_version l1 l2 v :
  Forall valid (l1 ++ v :: l2) → v ∉ l1 →
  linearSearchArray (getVersion v) (getVersion <$> l1 ++ v :: l2) = Z.of_nat (length l1).
Proof.
  intros Hv Hn. rewrite fmap_app, fmap_cons, search_first; [by rewrite length_fmap|].
  apply Forall_app in Hv as [H1 [Hv _]%Forall_cons]. by rewrite getVersion_elem.
Qed.

Lemma trace_path : version_lt p t →
  ∃ path, traceUpgradePath p t (getVersion <$> ks) = Ok (getVersion <$> path) ∧
    StronglySorted version_lt path ∧ last path = Some t ∧
    ∀ v, v ∈ path ↔ version_lt p v ∧ version_le v t ∧ (v ∈ ks ∨ v = t).
Proof.
  intros Hlt. assert (p ≠ t) as Hne by (intros ->; by destruct (version_lt_irrefl t)).
  destruct (parse_map_sorted Hne) as (l & E & Hv & Hin & Hs).
  destruct (sorted_between l p t) as (l1 & l2 & l3 & -> & Hb); [done|apply Hin; auto..|done|].
  exists (l2 ++ [t]). unfold traceUpgradePath. rewrite E. split; [|split; [|split]].
  - assert (p ∉ l1) as H1.
    { intros ?. destruct (version_lt_irrefl p). eapply StronglySorted_app in Hs as [Hs _].
      apply Hs; set_solver. }
    rewrite search_version by done.
    replace (l1 ++ p :: l2 ++ t :: l3) with ((l1 ++ p :: l2) ++ t :: l3) in * by by rewrite <-app_assoc.
    assert (t ∉ l1 ++ p :: l2) as H2.
    { intros ?. destruct (version_lt_irrefl t). eapply StronglySorted_app in Hs as [Hs _].
      apply Hs; set_solver. }
    rewrite search_version by done.
    replace ((l1 ++ p :: l2) ++ t :: l3) with ((l1 ++ [p]) ++ (l2 ++ [t]) ++ l3)
      by by rewrite <-!app_assoc.
    etrans; [|apply (slice_middle (getVersion <$> l1 ++ [p]) (getVersion <$> l2 ++ [t]) (getVersion <$> l3))].
    rewrite <-!fmap_app. f_equal; rewrite ?length_fmap, !length_app; cbn; lia.
  - apply StronglySorted_app in Hs as (_ & _ & Hs). inversion Hs as [|?? Hs' _]; subst.
    replace (l2 ++ t :: l3) with ((l2 ++ [t]) ++ l3) in Hs' by by rewrite <-app_assoc.
    by apply StronglySorted_app in Hs' as (_ & ? & _).
  - apply last_snoc.
  - intros v. rewrite Hb, Hin. split; [|tauto].
    intros ([?|[->| ->]] & ? & ?); auto. by destruct (version_lt_irrefl p).
Qed.

Lemma trace_down : version_lt t p → traceUpgradePath p t (getVersion <$> ks) = Panic.
Proof.
  intros Hlt. assert (p ≠ t) as Hne by (intros ->; by destruct (version_lt_irrefl t)).
  destruct (parse_map_sorted Hne) as (l & E & Hv & Hin & Hs).
  destruct (sorted_between l t p) as (l1 & l2 & l3 & -> & Hb); [done|apply Hin; auto..|done|].
  unfold traceUpgradePath. rewrite E.
  assert (t ∉ l1) as H1.
  { intros ?. destruct (version_lt_irrefl t). eapply StronglySorted_app in Hs as [Hs _].
    apply Hs; set_solver. }
  rewrite (search_version l1 (l2 ++ p :: l3) t) by done.
  replace (l1 ++ t :: l2 ++ p :: l3) with ((l1 ++ t :: l2) ++ p :: l3) in * by by rewrite <-app_assoc.
  assert (p ∉ l1 ++ t :: l2) as H2.
  { intros ?. destruct (version_lt_irrefl p). eapply StronglySorted_app in Hs as [Hs _].
    apply Hs; set_solver. }
  rewrite search_version by done. unfold slice. rewrite bool_decide_eq_false_2; [done|].
  rewrite length_app. cbn. lia.
Qed.
End paths.

(** Version texts round-trip: parsing the text of a version whose numbers
    are not negative and fit an [int] gives the version back, so the stored and
    the environment's version name the same version to every start. *)
Theorem version_text_roundtrip v : valid v → ParseVersion (getVersion v) = Ok v.
Proof. apply parse_getVersion. Qed.

(** C40. The path of an upgrade is the interval: with the registered versions
    visited in any order, an upgrade from [p] to a later [t] gets the registered
    versions after [p] up to [t], and [t] itself, in ascending order and ending
    with [t]; for an earlier [t] the slice expression panics. *)
Theorem upgrade_path_is_the_interval ks p t :
  Forall valid ks → NoDup ks → valid p → valid t →
  (version_lt p t →
   ∃ path, traceUpgradePath p t (getVersion <$> ks) = Ok (getVersion <$> path) ∧
     StronglySorted version_lt path ∧ last path = Some t ∧
     ∀ v, v ∈ path ↔ version_lt p v ∧ version_le v t ∧ (v ∈ ks ∨ v = t)) ∧
  (version_lt t p → traceUpgradePath p t (getVersion <$> ks) = Panic).
Proof. intros. split; [by apply trace_path|by apply trace_down]. Qed.

(** ** The migration *)
Definition migrate (s : AuthDB) : AuthDB :=
  mkAuthDB (set_initial_login false <$> users s) (migrate_project <$> projects s)
    (revoked_tokens s) (api_tokens s) (auth_configs s) (auth_indexes s).

Lemma migrate_member_idem m :
  (if str_eq (m_Role (if str_eq (m_Role m) oldRole then set_role newRole m else m)) oldRole
   then set_role newRole (if str_eq (m_Role m) oldRole then set_role newRole m else m)
   else (if str_eq (m_Role m) oldRole then set_role newRole m else m)) =
  (if str_eq (m_Role m) oldRole then set_role newRole m else m).
Proof. destruct (str_eq (m_Role m) oldRole) eqn:E; cbn; [done|by rewrite E]. Qed.

Lemma migrate_project_idem p : migrate_project (migrate_project p) = migrate_project p.
Proof.
  unfold migrate_project. cbn. unfold set_members. f_equal. cbn. rewrite <-list_fmap_compose.
  apply list_fmap_ext. intros _ m _. apply migrate_member_idem.
Qed.

Lemma migrate_idem s : migrate (migrate s) = migrate s.
Proof.
  unfold migrate. cbn. f_equal; rewrite <-list_fmap_compose; apply list_fmap_ext; intros _ x _; cbn;
    [done|apply migrate_project_idem].
Qed.

(** The filter of the update leaves out the projects the update would not change. *)
Lemma migrate_filtered p :
  (if existsb (λ m, str_eq (m_Role m) oldRole) (p_Members p) then migrate_project p else p) =
  migrate_project p.
Proof.
  destruct (existsb _ _) eqn:E; [done|]. unfold migrate_project, set_members. destruct p as [? ? ? ms ? ? ?].
  cbn in *. f_equal. induction ms as [|m ms IH]; cbn in *; [done|].
  apply orb_false_iff in E as [-> E]. f_equal. auto.
Qed.

(** The 3.9.0 migration keeps the authentication database well formed and
    every project owned, leaves no Editor among the members and no account that
    is asked to change a first password, and running it twice is running it
    once, so a start that repeats it is harmless. *)
Theorem migration_keeps_invariants s :
  wf_db s → owned_db s →
  wf_db (migrate s) ∧ owned_db (migrate s) ∧
  (∀ p m, p ∈ projects (migrate s) → m ∈ p_Members p → m_Role m ≠ RoleEditor) ∧
  (∀ u, u ∈ users (migrate s) → u_IsInitialLogin u = false) ∧
  migrate (migrate s) = migrate s.
Proof.
  intros (Hu & HN & HF) Ho.
  assert (Hm : ∀ p, wf_project p → wf_project (migrate_project p)).
  { intros p [HNp HFp]. split; cbn.
    - rewrite <-list_fmap_compose. erewrite list_fmap_ext; [exact HNp|].
      intros _ m _. cbn. by destruct (str_eq _ _).
    - apply Forall_fmap. eapply Forall_impl; [exact HFp|]. intros m [Hr Hi]. cbn.
      destruct (str_eq _ _); [|done]. split; [cbn; set_solver|done]. }
  split; [|split; [|split; [|split]]].
  - split; [|split]; cbn.
    + destruct Hu as (H1 & H2 & H3). split; [|split]; cbn.
      * by rewrite <-list_fmap_compose.
      * by rewrite <-list_fmap_compose.
      * by apply Forall_fmap.
    + by rewrite <-list_fmap_compose.
    + apply Forall_fmap. eapply Forall_impl; [exact HF|]. exact Hm.
  - unfold owned_db. cbn. apply Forall_fmap. eapply Forall_impl; [exact Ho|].
    intros p (m & Hin & Hr & Hi). exists m. split; [|done]. cbn. apply list_elem_of_fmap.
    exists m. split; [|done]. by rewrite Hr.
  - intros p m (p0 & -> & _)%list_elem_of_fmap (m0 & -> & _)%list_elem_of_fmap.
    destruct (str_eq (m_Role m0) oldRole) eqn:E; [done|]. by apply str_eq_false in E.
  - by intros u (u0 & -> & _)%list_elem_of_fmap.
  - apply migrate_idem.
Qed.

(** ** A run of the agent *)
Definition v390 : Version := mkVersion 3 9 0 0.
Definition registered : list Version := [zero_version; v390].

Lemma registered_valid : Forall valid registered.
Proof. repeat constructor; cbn; lia. Qed.

Section runs.
Context {drv : MongoDriver} {laws : MongoLaws drv} {tx : MongoTxn} {txlaws : MongoTxnLaws tx}
  {ab : MongoAbort} {mo : MapOrder} {molaws : MapOrderLaws mo} {ia : IndexAdmin}.
Implicit Types w : World UpgDB.

Lemma wp_upgradeProjectCollection w :
  wp upgradeProjectCollection (λ r w', r = Ok tt →
    db w' = set_docs (migrate_project <$> projects (upg_auth (db w))) (db w)) w.
Proof.
  unfold upgradeProjectCollection. wp_step. wp_use wp_UpdateMany.
  intros [[]|e|] w' (l & E & Hp); [wp_step|by wp_step|done]. intros _. rewrite E. cbn in *. subst l.
  f_equal. f_equal. apply list_fmap_ext. intros _ p _. apply migrate_filtered.
Qed.

Lemma wp_upgradeUsersCollection w :
  wp upgradeUsersCollection (λ r w', r = Ok tt →
    db w' = set_docs (set_initial_login false <$> users (upg_auth (db w))) (db w)) w.
Proof.
  unfold upgradeUsersCollection. wp_step. wp_use wp_UpdateMany.
  intros [[]|e|] w' (l & E & Hp); [wp_step|by wp_step|done]. intros _. rewrite E. cbn in *. by subst l.
Qed.

(** The migration is applied as a whole or not at all. *)
Lemma wp_v3_9_0_Run w :
  wp v3_9_0_Run (λ r w', upg_config (db w') = upg_config (db w) ∧
    (upg_auth (db w') = upg_auth (db w) ∨ upg_auth (db w') = migrate (upg_auth (db w))) ∧
    (r = Ok tt → upg_auth (db w') = migrate (upg_auth (db w)))) w.
Proof.
  unfold v3_9_0_Run. wp_step. unfold wp at 1, upg_outside at 1. cbn [fst snd].
  destruct (txn_start_session _); [|wp_step; naive_solver|naive_solver].
  wp_step. unfold wp at 1, upg_outside at 1. cbn [fst snd].
  destruct (txn_start _); [|wp_step; naive_solver|naive_solver].
  set (body := on_err _ _ _).
  assert (Hb : wp body (λ r w', r = Ok tt → db w' = mkUpgDB (migrate (upg_auth (db w))) (upg_config (db w)) (upg_schema (db w)))
                 (bump (bump w))).
  { unfold body. wp_step. wp_use wp_upgradeProjectCollection. intros [[]|e|] w1 H1; [|by wp_step|done].
    wp_use wp_upgradeUsersCollection. intros r w2 H2 Hr. rewrite (H2 Hr), (H1 eq_refl).
    by destruct w as [[[]] ]. }
  clearbody body. unfold wp in Hb |- *. destruct (body _) as [[[]|e|] w1]; cbn in *.
  - pose proof (commit_law (tick w1)) as Hc. rewrite (Hb eq_refl).
    destruct (txn_commit (tick w1)) as [[[]|e|] applied]; cbn in *; [subst; cbn; naive_solver| |done].
    destruct (txn_abort _), applied; cbn; naive_solver.
  - destruct (txn_abort _); cbn; naive_solver.
  - naive_solver.
Qed.

Lemma wp_UpdateVersion v w :
  wp (UpdateVersion v) (λ _ w', upg_auth (db w') = upg_auth (db w)) w.
Proof.
  unfold UpdateVersion. wp_step. wp_use wp_UpdateOne.
  intros [n|e|] w' (l & E & _); [wp_step|wp_step|]; by rewrite E.
Qed.

(** The template manager is registered for the version that precedes all. *)
Lemma zero_first v : valid v → ¬ version_lt v zero_version.
Proof.
  intros (? & ? & ? & ?)%valid_fields. unfold version_lt, version_row. cbn.
  repeat case_bool_decide; try done; lia.
Qed.

Lemma version_map v : valid v → v ≠ zero_version →
  getVersionMap (getVersion v) = if bool_decide (v = v390) then Some v3_9_0_Run else None.
Proof.
  intros Hv Hz. unfold getVersionMap.
  change "0.0.0" with (getVersion zero_version). change "3.9.0" with (getVersion v390).
  rewrite (proj2 (str_eq_false _ _)).
  2: { intros E. apply getVersion_inj in E; [done..|]. repeat constructor; cbn; lia. }
  case_bool_decide as E; [by rewrite E, str_eq_refl|].
  rewrite (proj2 (str_eq_false _ _)); [done|]. intros E'. apply getVersion_inj in E'; [done..|].
  repeat constructor; cbn; lia.
Qed.

Lemma wp_run_path path w :
  Forall valid path → zero_version ∉ path →
  wp (run_path (getVersion <$> path)) (λ r w',
    (upg_auth (db w') = upg_auth (db w) ∨
     (v390 ∈ path ∧ upg_auth (db w') = migrate (upg_auth (db w)))) ∧
    (r = Ok tt → v390 ∈ path → upg_auth (db w') = migrate (upg_auth (db w)))) w.
Proof.
  revert w. induction path as [|v path IH]; intros w Hv Hz; cbn [fmap list_fmap run_path].
  { wp_step. split; [by left|]. by intros _ ?%elem_of_nil. }
  apply Forall_cons in Hv as [Hv Hvs]. apply not_elem_of_cons in Hz as [Hz Hzs].
  rewrite version_map by done. case_bool_decide as E.
  - subst v. wp_step. wp_use wp_v3_9_0_Run. intros [[]|e|] w1 (_ & H1 & Hok).
    + wp_step. wp_use wp_UpdateVersion. intros _ w2 E2. specialize (Hok eq_refl).
      eapply wp_mono; [by apply IH|]. intros r w3 [H3 _]. rewrite E2, Hok, migrate_idem in H3.
      assert (upg_auth (db w3) = migrate (upg_auth (db w))) as H4 by naive_solver.
      split; [right; split; [by left|done]|done].
    + wp_step. split; [|done]. destruct H1; [by left|right; split; [by left|done]].
    + split; [|done]. destruct H1; [by left|right; split; [by left|done]].
  - eapply wp_mono; [by apply IH|]. intros r w1 [H1 H2]. split.
    + destruct H1 as [|[]]; [by left|right; split; [by right|done]].
    + intros Hr [|]%elem_of_cons; [done|auto].
Qed.

Lemma run_keys n : ∃ ks, map_order n version_keys = getVersion <$> ks ∧ ks ≡ₚ registered.
Proof.
  destruct (Permutation_map_inv getVersion registered (map_order_perm n version_keys)) as (ks & E & H).
  by exists ks.
Qed.

(** An upgrade migrates when it passes 3.9.0 and only then: a run from [p] to
    a later [t] changes users and projects by the whole 3.9.0 migration or not
    at all, the former only if 3.9.0 lies after [p] and not after [t], and
    surely in that case if the run reports success. The template manager of
    version 0.0.0 is never reached: the run does not depend on it. This holds
    for every order of map iteration and whichever database calls fail. *)
Theorem upgrade_migrates_when_due p t w :
  valid p → valid t → version_lt p t →
  wp (Run (mkUpgradeManager p t)) (λ r w',
    (upg_auth (db w') = upg_auth (db w) ∨
     (version_lt p v390 ∧ version_le v390 t ∧ upg_auth (db w') = migrate (upg_auth (db w)))) ∧
    (r = Ok tt → version_lt p v390 → version_le v390 t →
     upg_auth (db w') = migrate (upg_auth (db w)))) w.
Proof.
  intros Hp Ht Hlt. unfold Run. wp_step. unfold wp at 1, range_order. cbn [fst snd PreviousVersion TargetVersion].
  destruct (run_keys (tick w)) as (ks & -> & Hks).
  assert (Hv : Forall valid ks) by (rewrite Hks; apply registered_valid).
  assert (HN : NoDup ks). { rewrite Hks. by apply (bool_decide_unpack (NoDup registered)). }
  destruct (trace_path ks p t Hv HN Hp Ht Hlt) as (path & -> & _ & Hlast & Hin).
  assert (Hpv : Forall valid path).
  { apply Forall_forall. intros v (_ & _ & [?| ->])%Hin; [by eapply Forall_forall in Hv|done]. }
  assert (Hz : zero_version ∉ path). { intros (Hlz & _)%Hin. by apply (zero_first p Hp). }
  assert (Hdue : v390 ∈ path ↔ version_lt p v390 ∧ version_le v390 t).
  { rewrite Hin, Hks. unfold registered. set_solver. }
  wp_step. eapply wp_mono; [by apply wp_run_path|]. cbn [db bump].
  intros [[]|e|] w1 [H1 H2]; [|wp_step; naive_solver|naive_solver].
  rewrite fmap_last, Hlast. cbn. wp_step. wp_use wp_UpdateVersion. intros _ w2 E2. wp_step.
  rewrite E2. naive_solver.
Qed.
End runs.

(** ** Concrete runs *)
#[export] Instance fix_abort : MongoAbort := λ _, Ok tt.
#[export] Instance fix_order : MapOrder := λ _ l, reverse l.
#[export] Instance fix_order_laws : MapOrderLaws fix_order.
Proof. intros n l. apply reverse_Permutation. Qed.
Definition demo_schema : Schema :=
  mkSchema None [mkIndex "environment_id_1" ["environment_id"] true None] [mkIndex "workflow_name_1" ["workflow_name"] true None].

Definition upg_demo : World UpgDB :=
  mkWorld (mkUpgDB demo_db [mkServerConfig "version" (ValueString "3.8.0")] demo_schema) 0.

(** The order of versions puts a beta after its release, and an upgrade whose
    target does not come later in that order panics: from 3.0.0-beta9 to 3.0.0
    and from a text that parses to the target's numbers. *)
Example release_after_beta_panics :
  version_lt (mkVersion 3 0 0 0) (mkVersion 3 0 0 9) ∧
  (Run (mkUpgradeManager (mkVersion 3 0 0 9) (mkVersion 3 0 0 0)) upg_demo).1 = Panic ∧
  (upgrade_main "3.8" upg_demo).1 = Panic.
Proof. split; [|split]; vm_compute; reflexivity. Qed.

Lemma version_text_roundtrip_witness : ParseVersion "3.10.2-beta4" = Ok (mkVersion 3 10 2 4).
Proof.
  apply (version_text_roundtrip (mkVersion 3 10 2 4)). repeat constructor; cbn; lia.
Defined.

Lemma upgrade_path_is_the_interval_witness :
  (version_lt (mkVersion 3 8 0 0) (mkVersion 3 10 0 0) →
   ∃ path, traceUpgradePath (mkVersion 3 8 0 0) (mkVersion 3 10 0 0) (getVersion <$> registered) =
             Ok (getVersion <$> path) ∧
     StronglySorted version_lt path ∧ last path = Some (mkVersion 3 10 0 0) ∧
     ∀ v, v ∈ path ↔ version_lt (mkVersion 3 8 0 0) v ∧ version_le v (mkVersion 3 10 0 0) ∧
                     (v ∈ registered ∨ v = mkVersion 3 10 0 0)) ∧
  (version_lt (mkVersion 3 10 0 0) (mkVersion 3 8 0 0) →
   traceUpgradePath (mkVersion 3 8 0 0) (mkVersion 3 10 0 0) (getVersion <$> registered) = Panic).
Proof.
  apply (upgrade_path_is_the_interval registered (mkVersion 3 8 0 0) (mkVersion 3 10 0 0));
    [apply registered_valid|by apply (bool_decide_unpack (NoDup registered))|..];
    repeat constructor; cbn; lia.
Defined.

Lemma migration_keeps_invariants_witness :
  wf_db (migrate demo_db) ∧ owned_db (migrate demo_db) ∧
  (∀ p m, p ∈ projects (migrate demo_db) → m ∈ p_Members p → m_Role m ≠ RoleEditor) ∧
  (∀ u, u ∈ users (migrate demo_db) → u_IsInitialLogin u = false) ∧
  migrate (migrate demo_db) = migrate demo_db.
Proof. apply (migration_keeps_invariants demo_db); [apply demo_wf|apply demo_owned]. Defined.

Lemma upgrade_migrates_when_due_witness :
  (Run (mkUpgradeManager (mkVersion 3 8 0 0) (mkVersion 3 10 0 0)) upg_demo).1 = Ok tt ∧
  wp (Run (mkUpgradeManager (mkVersion 3 8 0 0) (mkVersion 3 10 0 0))) (λ r w',
    (upg_auth (db w') = demo_db ∨
     (version_lt (mkVersion 3 8 0 0) v390 ∧ version_le v390 (mkVersion 3 10 0 0) ∧
      upg_auth (db w') = migrate demo_db)) ∧
    (r = Ok tt → version_lt (mkVersion 3 8 0 0) v390 → version_le v390 (mkVersion 3 10 0 0) →
     upg_auth (db w') = migrate demo_db)) upg_demo.
Proof.
  split; [vm_compute; reflexivity|].
  apply (upgrade_migrates_when_due (mkVersion 3 8 0 0) (mkVersion 3 10 0 0) upg_demo);
    [repeat constructor; cbn; lia..|reflexivity].
Defined.
