(* ===== verification/GitLock.v ===== *)
(** * GitLock.v: the lock manager of GitOps

    [graphql/server/pkg/gitops/git-lock.go]: one mutex per repository, created
    on demand in a map that has a mutex of its own. The goroutines that call
    [Lock] and [Unlock] interleave at the operations on the mutexes; the
    manager is a step relation on the shared state and the program counters. A
    goroutine of [service.go] that takes the lock of a repository while it holds
    that of a project is two threads here, one for each pair of [Lock] and
    [Unlock]: a mutex belongs to no goroutine, and the order in which the code
    nests the pairs only leaves interleavings out. *)
From S2P Require Import Prelude World GoStd.
From Stdlib Require Import Ascii.
Local Open Scope string_scope.

(** ** [getKey] *)

(** [strings.Trim(s, cutset)] removes the characters of the set from both ends. *)
Fixpoint drop_set (cutset : list ascii) (l : list ascii) : list ascii :=
  match l with
  | c :: l' => if bool_decide (c ∈ cutset) then drop_set cutset l' else l
  | [] => []
  end.
Definition Trim (s cutset : string) : string :=
  of_chars (reverse (drop_set (chars cutset) (reverse (drop_set (chars cutset) (chars s))))).

(** [regexp.MustCompile("[:/]").Split(s, -1)] *)
Fixpoint split_class (f : ascii → bool) (cur l : list ascii) : list (list ascii) :=
  match l with
  | [] => [reverse cur]
  | c :: l => if f c then reverse cur :: split_class f [] l else split_class f (c :: cur) l
  end.
Definition colon_or_slash (c : ascii) : bool := bool_decide (c ∈ chars ":/").

(** [split[len(split)-2:]] panics when there is only one piece. *)
Definition getKey (repo : string) (branch : option string) : res string :=
  match branch with
  | None => Ok repo
  | Some b =>
      let key := Trim repo ".git" in
      let pieces := of_chars <$> split_class colon_or_slash [] (chars key) in
      match reverse pieces with
      | last :: before :: _ => Ok (before +:+ "/" +:+ last +:+ "/" +:+ b)
      | _ => Panic
      end
  end.

(** ** The lock manager

    [held m] is the state of mutex number [m]; a mutex belongs to no goroutine.
    [gitMutex] maps keys to mutexes, [next] is the number of the next mutex. *)
Inductive pc : Type :=
| Idle
| LockMap (k : string)            (* in Lock: before mapMutex.Lock() *)
| LockLookup (k : string)         (* in Lock: inside the map's critical section *)
| LockKey (k : string) (m : nat)  (* in Lock: before temp.Lock() *)
| Critical (k : string)           (* between Lock and Unlock *)
| UnlockMap (k : string)          (* in Unlock: before mapMutex.Lock() *)
| UnlockLookup (k : string)       (* in Unlock: inside the map's critical section *)
| UnlockKey (k : string) (m : nat) (* in Unlock: before temp.Unlock() *)
| Crashed.                        (* sync: unlock of unlocked mutex *)

Record GitMutexLock : Type := mkGitMutexLock {
  mapMutex : bool; gitMutex : gmap string nat; held : nat → bool; next : nat
}.
Definition NewGitLock : GitMutexLock := mkGitMutexLock false ∅ (λ _, false) 0.

Definition set_mutex (m : nat) (b : bool) (h : nat → bool) : nat → bool :=
  λ n, if bool_decide (n = m) then b else h n.

(** One atomic action of a goroutine. *)
Inductive step : GitMutexLock → pc → GitMutexLock → pc → Prop :=
(* Lock *)
| call_Lock g k : step g Idle g (LockMap k)
| lock_map g k :
    mapMutex g = false →
    step g (LockMap k) (mkGitMutexLock true (gitMutex g) (held g) (next g)) (LockLookup k)
| lock_found g k m :
    gitMutex g !! k = Some m →
    step g (LockLookup k) (mkGitMutexLock false (gitMutex g) (held g) (next g)) (LockKey k m)
| lock_new g k :
    gitMutex g !! k = None →
    step g (LockLookup k)
      (mkGitMutexLock false (<[k:=next g]> (gitMutex g)) (set_mutex (next g) false (held g)) (S (next g)))
      (LockKey k (next g))
| lock_key g k m :
    held g m = false →
    step g (LockKey k m) (mkGitMutexLock (mapMutex g) (gitMutex g) (set_mutex m true (held g)) (next g))
      (Critical k)
(* Unlock, called by the goroutine that locked the key *)
| call_Unlock g k : step g (Critical k) g (UnlockMap k)
| unlock_map g k :
    mapMutex g = false →
    step g (UnlockMap k) (mkGitMutexLock true (gitMutex g) (held g) (next g)) (UnlockLookup k)
| unlock_missing g k :
    gitMutex g !! k = None →
    step g (UnlockLookup k) (mkGitMutexLock false (gitMutex g) (held g) (next g)) Idle
| unlock_found g k m :
    gitMutex g !! k = Some m →
    step g (UnlockLookup k) (mkGitMutexLock false (gitMutex g) (held g) (next g)) (UnlockKey k m)
| unlock_key g k m :
    held g m = true →
    step g (UnlockKey k m) (mkGitMutexLock (mapMutex g) (gitMutex g) (set_mutex m false (held g)) (next g)) Idle
| unlock_crash g k m :
    held g m = false →
    step g (UnlockKey k m) g Crashed.

(** All goroutines together. *)
Record Sys : Type := mkSys { lock : GitMutexLock; threads : nat → pc }.
Definition set_thread (t : nat) (p : pc) (th : nat → pc) : nat → pc :=
  λ u, if bool_decide (u = t) then p else th u.
Inductive sys_step : Sys → Sys → Prop :=
| interleave s t g p :
    step (lock s) (threads s t) g p → sys_step s (mkSys g (set_thread t p (threads s))).
Definition init : Sys := mkSys NewGitLock (λ _, Idle).
Definition reachable (s : Sys) : Prop := rtc sys_step init s.

(** ** The specification: an owner per key *)
Definition owns (p : pc) : option string :=
  match p with
  | Critical k | UnlockMap k | UnlockLookup k | UnlockKey k _ => Some k
  | _ => None
  end.
Definition in_map (p : pc) : bool :=
  match p with LockLookup _ | UnlockLookup _ => true | _ => false end.
Definition at_mutex (p : pc) : option (string * nat) :=
  match p with LockKey k m | UnlockKey k m => Some (k, m) | _ => None end.

(** A table of owners, and what may happen to it. *)
Definition Owners : Type := string → nat → Prop.
Definition owners (s : Sys) : Owners := λ k t, owns (threads s t) = Some k.

Inductive spec_step (o o' : Owners) : Prop :=
| spec_stutter : (∀ k t, o' k t ↔ o k t) → spec_step o o'
| spec_acquire k t :
    (∀ u, ¬ o k u) → (∀ k' u, o' k' u ↔ o k' u ∨ (k' = k ∧ u = t)) → spec_step o o'
| spec_release k t :
    o k t → (∀ k' u, o' k' u ↔ o k' u ∧ ¬ (k' = k ∧ u = t)) → spec_step o o'.

(** ** The invariant *)
Record inv (s : Sys) : Prop := {
  inv_at t k m : at_mutex (threads s t) = Some (k, m) → gitMutex (lock s) !! k = Some m;
  inv_inj k k' m : gitMutex (lock s) !! k = Some m → gitMutex (lock s) !! k' = Some m → k = k';
  inv_next k m : gitMutex (lock s) !! k = Some m → m < next (lock s);
  inv_held k m : gitMutex (lock s) !! k = Some m →
    held (lock s) m = true ↔ ∃ t, owns (threads s t) = Some k;
  inv_owns t k : owns (threads s t) = Some k → is_Some (gitMutex (lock s) !! k);
  inv_excl t u k : owns (threads s t) = Some k → owns (threads s u) = Some k → t = u;
  inv_map t : in_map (threads s t) = true → mapMutex (lock s) = true;
  inv_map_excl t u : in_map (threads s t) = true → in_map (threads s u) = true → t = u;
  inv_alive t : threads s t ≠ Crashed;
}.

Lemma set_thread_same t p th : set_thread t p th t = p.
Proof. unfold set_thread. by rewrite bool_decide_eq_true_2. Qed.
Lemma set_thread_other t u p th : u ≠ t → set_thread t p th u = th u.
Proof. intros. unfold set_thread. by rewrite bool_decide_eq_false_2. Qed.

Lemma inv_init : inv init.
Proof. split; cbn; intros; try done; try by rewrite lookup_empty in *. Qed.

Lemma owns_same t p th u : owns p = owns (th t) → owns (set_thread t p th u) = owns (th u).
Proof. intros E. unfold set_thread. case_bool_decide; by subst. Qed.

Ltac threads :=
  repeat match goal with
  | H : context [set_thread ?t ?p ?th ?u] |- _ =>
      destruct (decide (u = t)) as [->|];
      [rewrite set_thread_same in *|rewrite set_thread_other in * by done]
  | |- context [set_thread ?t ?p ?th ?u] =>
      destruct (decide (u = t)) as [->|];
      [rewrite set_thread_same in *|rewrite set_thread_other in * by done]
  end.

(** An action that changes neither the owners nor the mutexes. *)
Lemma inv_quiet s t g p :
  inv s → owns p = owns (threads s t) → gitMutex g = gitMutex (lock s) → held g = held (lock s) →
  next g = next (lock s) → (∀ k m, at_mutex p = Some (k, m) → gitMutex (lock s) !! k = Some m) →
  p ≠ Crashed →
  (in_map p = true → mapMutex g = true ∧ (in_map (threads s t) = true ∨ mapMutex (lock s) = false)) →
  (in_map p = false → mapMutex g = mapMutex (lock s) ∨ in_map (threads s t) = true) →
  inv (mkSys g (set_thread t p (threads s))).
Proof.
  intros HI Eo Eg Eh En Ha Hc Hm1 Hm2. destruct HI as [I1 I2 I3 I4 I5 I6 I7 I8 I9].
  assert (Ho : ∀ u, owns (set_thread t p (threads s) u) = owns (threads s u)) by (intros; by apply owns_same).
  split; cbn; rewrite ?Eg, ?Eh, ?En; try done.
  - intros u k m Hu. threads; eauto.
  - intros k m Hk. rewrite (I4 k m Hk). by setoid_rewrite Ho.
  - intros u k. rewrite Ho. apply I5.
  - intros u v k. rewrite !Ho. apply I6.
  - intros u Hu. threads; [by apply Hm1|]. destruct (in_map p) eqn:E; [by apply Hm1|].
    destruct (Hm2 eq_refl) as [->|Ht]; [eauto|]. by destruct (I8 t u Ht Hu).
  - assert (Hx : ∀ u, u ≠ t → in_map (threads s u) = true → in_map p = true → False).
    { intros u Hne Hu Hp. destruct (Hm1 Hp) as [_ [Ht|Hf]]; [by destruct Hne; eauto|].
      by rewrite (I7 u Hu) in Hf. }
    intros u v Hu Hv. threads; try done; [exfalso; eauto..|eauto].
  - intros u. threads; eauto.
Qed.

(** Taking and releasing the mutex of a key. *)
Lemma inv_acquire s t k m :
  inv s → threads s t = LockKey k m → held (lock s) m = false →
  inv (mkSys (mkGitMutexLock (mapMutex (lock s)) (gitMutex (lock s)) (set_mutex m true (held (lock s)))
               (next (lock s))) (set_thread t (Critical k) (threads s))).
Proof.
  intros HI Et Hf. destruct HI as [I1 I2 I3 I4 I5 I6 I7 I8 I9].
  assert (Hk : gitMutex (lock s) !! k = Some m) by (apply (I1 t); by rewrite Et).
  assert (Hno : ∀ u, owns (threads s u) ≠ Some k).
  { intros u Hu. assert (held (lock s) m = true) by (apply (I4 k m Hk); eauto). congruence. }
  split; cbn; try done.
  - intros u k' m' Hu. threads; [done|eauto].
  - intros k' m' Hk'. unfold set_mutex. case_bool_decide as E.
    + subst m'. rewrite (I2 k' k m Hk' Hk). split; [|done]. intros _. exists t. by rewrite set_thread_same.
    + rewrite (I4 k' m' Hk'). assert (k' ≠ k) by (intros ->; congruence).
      split; intros [u Hu]; exists u; threads; rewrite ?Et in *; cbn in *; congruence.
  - intros u k' Hu. threads; [cbn in Hu; simplify_eq; eauto|eauto].
  - intros u v k' Hu Hv. threads; cbn in *; simplify_eq; try done; eauto; exfalso; eapply Hno; eauto.
  - intros u Hu. threads; [done|eauto].
  - intros u v Hu Hv. threads; try done. eauto.
  - intros u. threads; [done|eauto].
Qed.

Lemma inv_release s t k m :
  inv s → threads s t = UnlockKey k m →
  inv (mkSys (mkGitMutexLock (mapMutex (lock s)) (gitMutex (lock s)) (set_mutex m false (held (lock s)))
               (next (lock s))) (set_thread t Idle (threads s))).
Proof.
  intros HI Et. destruct HI as [I1 I2 I3 I4 I5 I6 I7 I8 I9].
  assert (Hk : gitMutex (lock s) !! k = Some m) by (apply (I1 t); by rewrite Et).
  assert (Hown : owns (threads s t) = Some k) by by rewrite Et.
  split; cbn; try done.
  - intros u k' m' Hu. threads; [done|eauto].
  - intros k' m' Hk'. unfold set_mutex. case_bool_decide as E.
    + subst m'. rewrite (I2 k' k m Hk' Hk). split; [done|]. intros [u Hu]. threads; [done|].
      by destruct (I6 u t k Hu Hown).
    + rewrite (I4 k' m' Hk'). assert (k' ≠ k) by (intros ->; congruence).
      split; intros [u Hu]; exists u; threads; rewrite ?Et in *; cbn in *; congruence.
  - intros u k' Hu. threads; [done|eauto].
  - intros u v k' Hu Hv. threads; try done. eauto.
  - intros u Hu. threads; [done|eauto].
  - intros u v Hu Hv. threads; try done. eauto.
  - intros u. threads; [done|eauto].
Qed.

(** A new mutex for a key without one. *)
Lemma inv_new s t k :
  inv s → threads s t = LockLookup k → gitMutex (lock s) !! k = None →
  inv (mkSys (mkGitMutexLock false (<[k:=next (lock s)]> (gitMutex (lock s)))
               (set_mutex (next (lock s)) false (held (lock s))) (S (next (lock s))))
        (set_thread t (LockKey k (next (lock s))) (threads s))).
Proof.
  intros HI Et Hk. destruct HI as [I1 I2 I3 I4 I5 I6 I7 I8 I9].
  assert (Ho : ∀ u, owns (set_thread t (LockKey k (next (lock s))) (threads s) u) = owns (threads s u)).
  { intros. apply owns_same. by rewrite Et. }
  assert (Hnone : ∀ u, owns (threads s u) ≠ Some k).
  { intros u Hu. destruct (I5 u k Hu). congruence. }
  assert (Hm : in_map (threads s t) = true) by by rewrite Et.
  split; cbn.
  - intros u k' m' Hu. threads; [cbn in Hu; simplify_eq; by simplify_map_eq|].
    rewrite lookup_insert_ne; [eauto|]. intros <-. apply I1 in Hu. congruence.
  - intros k1 k2 m' H1 H2. rewrite lookup_insert_Some in H1, H2.
    destruct H1 as [[<- <-]|[? H1]], H2 as [[<- E2]|[? H2]]; try done.
    + apply I3 in H2. lia.
    + apply I3 in H1. lia.
    + eauto.
  - intros k' m' Hk'. rewrite lookup_insert_Some in Hk'. destruct Hk' as [[<- <-]|[? Hk']]; [lia|].
    apply I3 in Hk'. lia.
  - intros k' m' Hk'. setoid_rewrite Ho. rewrite lookup_insert_Some in Hk'. unfold set_mutex.
    destruct Hk' as [[<- <-]|[Hne Hk']].
    + rewrite bool_decide_eq_true_2 by done. split; [done|]. intros [u Hu]. by destruct (Hnone u).
    + apply I3 in Hk' as ?. rewrite bool_decide_eq_false_2 by lia. by apply I4.
  - intros u k'. rewrite Ho. intros Hu. destruct (decide (k' = k)) as [->|]; [by destruct (Hnone u)|].
    rewrite lookup_insert_ne by done. eauto.
  - intros u v k'. rewrite !Ho. eauto.
  - intros u Hu. threads; [done|]. by destruct (I8 u t Hu Hm).
  - intros u v Hu Hv. threads; try done. eauto.
  - intros u. threads; [done|eauto].
Qed.

Lemma inv_step s s' : inv s → sys_step s s' → inv s'.
Proof.
  intros HI Hst. destruct Hst as [s t g p Hs]. pose proof (inv_at s HI t) as Ha.
  pose proof (inv_owns s HI t) as Ho. pose proof (inv_held s HI) as Hh.
  remember (threads s t) as p0 eqn:Et. remember (lock s) as g0 eqn:Eg. symmetry in Et.
  destruct Hs; subst;
    try (by apply inv_new); try (by apply inv_acquire); try (by eapply inv_release);
    try (apply inv_quiet; rewrite ?Et; cbn; intros; simplify_eq; auto; done).
  - destruct (Ho k eq_refl). congruence.
  - assert (held (lock s) m = true); [|congruence]. apply (Hh k m (Ha k m eq_refl)). exists t. by rewrite Et.
Qed.

Lemma reachable_inv s : reachable s → inv s.
Proof.
  intros Hr. assert (Hgen : ∀ s0, rtc sys_step s0 s → inv s0 → inv s).
  { induction 1; eauto using inv_step. }
  by eapply Hgen; [|apply inv_init].
Qed.

(** ** Theorems *)

(** C38. The lock manager implements a table with at most one owner per key: in
    every reachable state, under every interleaving of the goroutines, each
    action either leaves the owners alone, gives a key without an owner to the
    goroutine that locks it, or takes it from the goroutine that unlocks it. *)
Theorem git_lock_refines_owner_table s s' :
  reachable s → sys_step s s' → spec_step (owners s) (owners s').
Proof.
  intros HI%reachable_inv Hst. destruct Hst as [s t g p Hs]. unfold owners. cbn.
  pose proof (inv_at s HI t) as Ha. pose proof (inv_owns s HI t) as Ho.
  remember (threads s t) as p0 eqn:Et. remember (lock s) as g0 eqn:Eg. symmetry in Et.
  destruct Hs; subst;
    try (apply spec_stutter; intros k' u; rewrite owns_same; [done|by rewrite Et]).
  - apply (spec_acquire _ _ k t).
    + intros u Hu. assert (held (lock s) m = true); [|congruence].
      apply (inv_held s HI k m (Ha k m eq_refl)). eauto.
    + intros k' u. threads; rewrite ?Et; cbn; naive_solver.
  - destruct (Ho k eq_refl). congruence.
  - apply (spec_release _ _ k t); [by rewrite Et|]. intros k' u. threads; rewrite ?Et; cbn; naive_solver.
  - assert (held (lock s) m = true); [|congruence]. apply (inv_held s HI k m (Ha k m eq_refl)).
    exists t. by rewrite Et.
Qed.

(** Mutual exclusion and no crash: in every reachable state at most one
    goroutine is between [Lock] and the end of [Unlock] for a key, [Unlock]
    finds the mutex of the key, and no goroutine unlocks an unlocked mutex. *)
Theorem git_lock_is_exclusive s :
  reachable s →
  (∀ t u k, owns (threads s t) = Some k → owns (threads s u) = Some k → t = u) ∧
  (∀ t k, threads s t = UnlockLookup k → is_Some (gitMutex (lock s) !! k)) ∧
  (∀ t k m, threads s t = UnlockKey k m → held (lock s) m = true) ∧
  (∀ t, threads s t ≠ Crashed).
Proof.
  intros HI%reachable_inv. split; [apply (inv_excl s HI)|]. split; [|split; [|apply (inv_alive s HI)]].
  - intros t k Et. apply (inv_owns s HI t). by rewrite Et.
  - intros t k m Et. apply (inv_held s HI k m).
    + apply (inv_at s HI t). by rewrite Et.
    + exists t. by rewrite Et.
Qed.

(** Keys do not block each other: a goroutine that waits for the mutex of a
    key nobody owns can take it, whatever happens on other keys. *)
Theorem free_key_can_be_locked s t k m :
  reachable s → threads s t = LockKey k m → (∀ u, owns (threads s u) ≠ Some k) →
  ∃ s', sys_step s s' ∧ owns (threads s' t) = Some k.
Proof.
  intros HI%reachable_inv Et Hfree.
  assert (Hk : gitMutex (lock s) !! k = Some m) by (apply (inv_at s HI t); by rewrite Et).
  assert (Hh : held (lock s) m = false).
  { destruct (held (lock s) m) eqn:E; [|done]. apply (inv_held s HI k m Hk) in E as [u Hu].
    by destruct (Hfree u). }
  eexists. split; [apply (interleave s t); rewrite Et; by apply lock_key|].
  cbn. by rewrite set_thread_same.
Qed.

(** The key identifies a repository by owner, name and branch, for the HTTPS
    and the SSH form of its address. [strings.Trim] takes a set of characters
    and not a suffix, so names that end in other such characters lose them and
    distinct repositories share a lock; an address of a single piece panics. *)
Example key_of_repository :
  getKey "https://github.com/litmus/chaos.git" (Some "main") = Ok "litmus/chaos/main" ∧
  getKey "git@github.com:litmus/chaos.git" (Some "main") = Ok "litmus/chaos/main" ∧
  getKey "https://github.com/litmus/test" (Some "main") = Ok "litmus/tes/main" ∧
  getKey "https://github.com/litmus/tes" (Some "main") = Ok "litmus/tes/main" ∧
  getKey "chaos" (Some "main") = Panic.
Proof. repeat split; vm_compute; reflexivity. Qed.

(** ** Witnesses *)
Definition waiting : Sys :=
  mkSys (mkGitMutexLock false (<["r" := 0]> ∅) (set_mutex 0 false (λ _, false)) 1)
    (set_thread 0 (LockKey "r" 0) (set_thread 0 (LockLookup "r") (set_thread 0 (LockMap "r") (λ _, Idle)))).

Lemma waiting_reachable : reachable waiting.
Proof.
  eapply rtc_l; [apply (interleave init 0); apply (call_Lock _ "r")|].
  eapply rtc_l; [apply (interleave _ 0); by apply (lock_map NewGitLock "r")|].
  apply rtc_once. apply (interleave (mkSys (mkGitMutexLock true ∅ (λ _, false) 0) _) 0).
  by apply (lock_new (mkGitMutexLock true ∅ (λ _, false) 0) "r").
Qed.

(** The goroutine that waits gets the key. *)
Definition locked : Sys :=
  mkSys (mkGitMutexLock false (<["r" := 0]> ∅) (set_mutex 0 true (set_mutex 0 false (λ _, false))) 1)
    (set_thread 0 (Critical "r") (threads waiting)).
Lemma git_lock_refines_owner_table_witness :
  ¬ owners waiting "r" 0 ∧ owners locked "r" 0 ∧ spec_step (owners waiting) (owners locked).
Proof.
  split_and!; [by vm_compute|reflexivity|].
  apply (git_lock_refines_owner_table waiting); [apply waiting_reachable|].
  apply (interleave waiting 0). by apply (lock_key (lock waiting) "r" 0).
Defined.

Lemma git_lock_is_exclusive_witness :
  (∀ t u k, owns (threads waiting t) = Some k → owns (threads waiting u) = Some k → t = u) ∧
  (∀ t k, threads waiting t = UnlockLookup k → is_Some (gitMutex (lock waiting) !! k)) ∧
  (∀ t k m, threads waiting t = UnlockKey k m → held (lock waiting) m = true) ∧
  (∀ t, threads waiting t ≠ Crashed).
Proof. apply (git_lock_is_exclusive waiting), waiting_reachable. Defined.

Lemma free_key_can_be_locked_witness : ∃ s', sys_step waiting s' ∧ owns (threads s' 0) = Some "r".
Proof.
  apply (free_key_can_be_locked waiting 0 "r" 0); [apply waiting_reachable|reflexivity|].
  intros [|u]; vm_compute; discriminate.
Defined.
