(* ===== verification/EventTracker.v ===== *)
(** * EventTracker.v: policies and triggers of the event tracker

    Policies and their conditions ([event-tracker/pkg/utils/utils.go]), which a
    change of a workload may meet, and what [Reconcile]
    ([controllers/eventtrackerpolicy_controller.go]) does to the triggers of a
    policy. The programs that read and write policies are in [Tracker.v]. *)
From S2P Require Import Prelude World GoStd.
From Stdlib Require Import Ascii.
From Stdlib Require Import SpecFloat.
Local Open Scope string_scope.
Local Open Scope nat_scope.

(** ** Data *)
Definition ConditionPassed : string := "ConditionPassed".

Record Condition : Type := mkCondition { co_Key : string; co_Value : option string; co_Operator : string }.
Record EventTrackerPolicySpec : Type := mkPolicySpec {
  sp_ConditionType : string; sp_Conditions : list Condition
}.
Record EventTrackerPolicyStatus : Type := mkStatus {
  st_TimeStamp : string; st_Resource : string; st_ResourceName : string; st_Result : string;
  st_ExperimentID : string; st_IsTriggered : string
}.
Abbreviation Status := EventTrackerPolicyStatus (only parsing).

(** What [json.Unmarshal] into an [interface{}] gives. *)
Inductive JValue : Type :=
| JNil
| JBool (b : bool)
| JFloat (f : spec_float)
| JString (s : string)
| JSlice (l : list JValue)
| JMap (l : list (string * JValue)).

(** [a != b] on interfaces: values of different dynamic types differ; two
    slices or two maps are not comparable, which panics. *)
Definition interface_ne (a b : JValue) : res bool :=
  match a, b with
  | JNil, JNil => Ok false
  | JBool x, JBool y => Ok (negb (Bool.eqb x y))
  | JFloat x, JFloat y => Ok (negb (SFeqb x y))
  | JString x, JString y => Ok (negb (str_eq x y))
  | JSlice _, JSlice _ | JMap _, JMap _ => Panic
  | _, _ => Ok true
  end.

(** [jmespath.Search] and [fmt.Sprintf] with the verb [%v]. *)
Class JMESPath := jmespath_search : string → JValue → res JValue.
Class Sprint := sprint_v : JValue → string.

(** ** Conditions *)
Definition cases (key value operator : string) : bool :=
  if str_eq operator "EqualTo" then str_eq key value
  else if str_eq operator "NotEqualTo" then negb (str_eq key value)
  else if str_eq operator "LessThan" then String.ltb key value
  else if str_eq operator "GreaterThan" then String.ltb value key
  else if str_eq operator "GreaterThanEqualTo" then String.leb value key
  else if str_eq operator "LessThanEqualTo" then String.leb key value
  else false.

Section conditions.
Context `{JMESPath} `{Sprint}.

(** What a condition says of a changed value: [*condition.Value] panics when the
    value is missing. *)
Definition condition_holds (c : Condition) (newDataResult : JValue) : res bool :=
  if str_eq (co_Operator c) "Change" then Ok true
  else match co_Value c with
       | None => Panic
       | Some v => Ok (cases (sprint_v newDataResult) v (co_Operator c))
       end.

(** The loop of the type "and": a failed condition ends it. *)
Fixpoint check_and (cs : list Condition) (newData oldData : JValue) (finalResult : bool) : res bool :=
  match cs with
  | [] => Ok finalResult
  | c :: cs =>
      match jmespath_search (co_Key c) newData with
      | Panic => Panic
      | Err _ => Ok false
      | Ok newR =>
          match jmespath_search (co_Key c) oldData with
          | Panic => Panic
          | Err _ => Ok false
          | Ok oldR =>
              match interface_ne newR oldR with
              | Ok true =>
                  match condition_holds c newR with
                  | Ok true => check_and cs newData oldData true
                  | Ok false => Ok false
                  | _ => Panic
                  end
              | Ok false => check_and cs newData oldData finalResult
              | _ => Panic
              end
          end
      end
  end.

(** The loop of the type "or": the error of the first search is only logged and
    its result is nil. *)
Fixpoint check_or (cs : list Condition) (newData oldData : JValue) (finalResult : bool) : res bool :=
  match cs with
  | [] => Ok finalResult
  | c :: cs =>
      match jmespath_search (co_Key c) newData with
      | Panic => Panic
      | r =>
          let newR := match r with Ok v => v | _ => JNil end in
          match jmespath_search (co_Key c) oldData with
          | Panic => Panic
          | Err _ => Ok false
          | Ok oldR =>
              match interface_ne newR oldR with
              | Ok true =>
                  match condition_holds c newR with
                  | Ok true => check_or cs newData oldData true
                  | Ok false => check_or cs newData oldData finalResult
                  | _ => Panic
                  end
              | Ok false => check_or cs newData oldData finalResult
              | _ => Panic
              end
          end
      end
  end.

Definition conditionChecker (etp : EventTrackerPolicySpec) (newData oldData : JValue) : res bool :=
  if str_eq (sp_ConditionType etp) "and" then check_and (sp_Conditions etp) newData oldData false
  else if str_eq (sp_ConditionType etp) "or" then check_or (sp_Conditions etp) newData oldData false
  else Ok false.
End conditions.

(** ** Triggers *)

(** [strings.ToLower] on ASCII; no other character lowers to a letter of the
    words it is compared with. *)
Definition lower_char (c : ascii) : ascii := if is_upper c then char (code c + 32) else c.
Definition ToLower (s : string) : string := of_chars (lower_char <$> chars s).

Definition set_triggered (v : string) (s : Status) : Status :=
  mkStatus (st_TimeStamp s) (st_Resource s) (st_ResourceName s) (st_Result s) (st_ExperimentID s) v.

Definition is_pending (s : Status) : bool :=
  str_eq (st_Result s) ConditionPassed && str_eq (ToLower (st_IsTriggered s)) "false".

(** The loop of the claim phase. *)
Definition claim_statuses (ss : list Status) : list Status :=
  (λ s, if is_pending s then set_triggered "true" s else s) <$> ss.
Definition claimed_ids (ss : list Status) : list string :=
  st_ExperimentID <$> List.filter is_pending ss.

(** The loop of the release phase. *)
Definition is_reverted (toRevert : list string) (s : Status) : bool :=
  str_in (st_ExperimentID s) toRevert && str_eq (ToLower (st_IsTriggered s)) "true".
Definition revert_statuses (toRevert : list string) (ss : list Status) : list Status :=
  (λ s, if is_reverted toRevert s then set_triggered "false" s else s) <$> ss.

(** The status that [PolicyAuditor] appends. *)
Definition new_status (time resource name experimentId : string) : Status :=
  mkStatus time resource name ConditionPassed experimentId "false".

(** ** Conditions *)
Section policies.
Context `{JMESPath} `{Sprint}.

(** A condition read on both objects: [None] when the value did not change, else
    whether the condition holds of the new value. *)
Definition verdict (c : Condition) (newData oldData : JValue) : res (option bool) :=
  match jmespath_search (co_Key c) newData, jmespath_search (co_Key c) oldData with
  | Ok newR, Ok oldR =>
      match interface_ne newR oldR with
      | Ok true => match condition_holds c newR with Ok b => Ok (Some b) | Err e => Err e | Panic => Panic end
      | Ok false => Ok None
      | Err e => Err e
      | Panic => Panic
      end
  | Panic, _ | _, Panic => Panic
  | Err e, _ | _, Err e => Err e
  end.

Definition changed_value (v : option bool) : bool := bool_decide (v ≠ None).
Definition not_violated (v : option bool) : bool := bool_decide (v ≠ Some false).
Definition is_met (v : option bool) : bool := bool_decide (v = Some true).

Lemma check_and_spec cs vs new old acc :
  Forall2 (λ c v, verdict c new old = Ok v) cs vs →
  check_and cs new old acc =
    Ok (forallb not_violated vs && (acc || existsb changed_value vs)).
Proof.
  intros Hv. revert acc. induction Hv as [|c v cs vs Hc Hcs IH]; intros acc; cbn; [by rewrite orb_false_r|].
  unfold verdict in Hc. repeat (case_match; try done); simplify_eq; cbn;
    rewrite ?IH; by rewrite ?orb_true_r.
Qed.

Lemma check_or_spec cs vs new old acc :
  Forall2 (λ c v, verdict c new old = Ok v) cs vs →
  check_or cs new old acc = Ok (acc || existsb is_met vs).
Proof.
  intros Hv. revert acc. induction Hv as [|c v cs vs Hc Hcs IH]; intros acc; cbn; [by rewrite orb_false_r|].
  unfold verdict in Hc. repeat (case_match; try done); simplify_eq; cbn; by rewrite ?IH, ?orb_true_r.
Qed.

(** What a policy means, when its conditions can be read: of the type "and"
    it is met when some value changed and no changed value violates its
    condition; of the type "or" when some changed value meets its condition; of
    any other type never. *)
Theorem policy_conditions_mean etp new old vs :
  Forall2 (λ c v, verdict c new old = Ok v) (sp_Conditions etp) vs →
  conditionChecker etp new old =
    Ok (if str_eq (sp_ConditionType etp) "and"
        then forallb not_violated vs && existsb changed_value vs
        else if str_eq (sp_ConditionType etp) "or" then existsb is_met vs else false).
Proof.
  intros Hv. unfold conditionChecker. destruct (str_eq _ "and"); [by rewrite (check_and_spec _ vs)|].
  destruct (str_eq _ "or"); [by rewrite (check_or_spec _ vs)|done].
Qed.
End policies.

(** ** Concrete runs *)
Definition done_status : Status := mkStatus "" "Deployment" "web" ConditionPassed "exp-1" "true".

(** A failed request re-arms more than its own trigger: [Reconcile] releases
    every triggered status with the experiment's id, so when the request for the
    pending status fails, the status that was served before becomes pending
    again and the next reconciliation sends two requests for the experiment. *)
Example failed_request_rearms_served_triggers :
  let ss := [done_status; new_status "" "Deployment" "web" "exp-1"] in
  claimed_ids ss = ["exp-1"] ∧
  claimed_ids (revert_statuses ["exp-1"] (claim_statuses ss)) = ["exp-1"; "exp-1"].
Proof. split; vm_compute; reflexivity. Qed.

#[local] Instance demo_search : JMESPath := λ k v,
  match v with
  | JMap l => Ok (default JNil (snd <$> List.find (λ e, str_eq (fst e) k) l))
  | _ => Err (ErrNew "not found")
  end.
#[local] Instance demo_sprint : Sprint := λ v, match v with JString s => s | _ => "" end.

Lemma policy_conditions_mean_witness :
  conditionChecker (mkPolicySpec "and" [mkCondition "image" (Some "v2") "EqualTo"; mkCondition "tag" None "Change"])
    (JMap [("image", JString "v2"); ("tag", JString "a")])
    (JMap [("image", JString "v1"); ("tag", JString "a")]) = Ok true.
Proof.
  rewrite (policy_conditions_mean
    (mkPolicySpec "and" [mkCondition "image" (Some "v2") "EqualTo"; mkCondition "tag" None "Change"])
    _ _ [Some true; None]); [reflexivity|]. repeat constructor.
Defined.
