(* ===== verification/Float64.v ===== *)
(** * Float64.v: Go's [float64]

    Binary64 with rounding to nearest, ties to even, as the standard library's
    [SpecFloat] computes it, and the accuracy of conversions, products and
    quotients of positive numbers. *)
From S2P Require Import Prelude.
From Stdlib Require Import SpecFloat ZArithRing.
Local Open Scope Z_scope.

Definition float64 (z : Z) : spec_float := binary_normalize 53 1024 z 0 false.
Definition f64_div : spec_float → spec_float → spec_float := SFdiv 53 1024.
Definition f64_mul : spec_float → spec_float → spec_float := SFmul 53 1024.

(** A conversion of a float outside the range of [int] is left to the
    implementation. *)
Class FloatToInt := float_out_of_range : spec_float → Z.

(** The integer part of a finite float. *)
Definition f64_trunc (f : spec_float) : option Z :=
  match f with
  | S754_zero _ => Some 0
  | S754_finite s m e => let z := Z.shiftl (Zpos m) e in Some (if s then - z else z)
  | _ => None
  end.

Definition int_of_float64 `{FloatToInt} (f : spec_float) : Z :=
  match f64_trunc f with
  | Some z => if bool_decide (- 2 ^ 63 ≤ z) && bool_decide (z < 2 ^ 63) then z else float_out_of_range f
  | None => float_out_of_range f
  end.

(** ** Digits and shifts *)
Lemma digits2_pos_spec p : 2 ^ (Zpos (digits2_pos p) - 1) ≤ Zpos p < 2 ^ Zpos (digits2_pos p).
Proof.
  induction p as [p IH|p IH|]; cbn [digits2_pos]; [..|by cbn].
  all: rewrite Pos2Z.inj_succ; set (d := Zpos (digits2_pos p)) in *.
  all: assert (0 < d) by (unfold d; lia).
  all: replace (Z.succ d - 1) with (Z.succ (d - 1)) by lia.
  all: rewrite !Z.pow_succ_r by lia; lia.
Qed.

Lemma digits2_unique p d : 0 < d → 2 ^ (d - 1) ≤ Zpos p < 2 ^ d → Zpos (digits2_pos p) = d.
Proof.
  intros Hd Hp. pose proof (digits2_pos_spec p) as Hq.
  destruct (Z.lt_trichotomy (Zpos (digits2_pos p)) d) as [Hlt|[?|Hgt]]; [|done|]; exfalso.
  - pose proof (Z.pow_le_mono_r 2 (Zpos (digits2_pos p)) (d - 1) ltac:(lia) ltac:(lia)). lia.
  - pose proof (Z.pow_le_mono_r 2 d (Zpos (digits2_pos p) - 1) ltac:(lia) ltac:(lia)). lia.
Qed.

(** The record [r] describes the number [N / D]: its integer part, whether the
    rest is at least one half, and whether the rest is neither 0 nor one half. *)
Definition describes (r : shr_record) (N D : Z) : Prop :=
  ∃ f, N = shr_m r * D + f ∧ 0 ≤ f < D ∧
    (if shr_r r then D ≤ 2 * f else 2 * f < D) ∧
    (if shr_s r then f ≠ 0 ∧ 2 * f ≠ D else f = 0 ∨ 2 * f = D).

Lemma shr_1_describes r N D : 0 ≤ shr_m r → describes r N D → 0 ≤ shr_m (shr_1 r) ∧ describes (shr_1 r) N (2 * D).
Proof.
  destruct r as [m b s]. cbn. intros Hm (f & -> & Hf & Hr & Hs). cbn in *.
  assert (∀ m' b', m = 2 * m' + Z.b2z b' → 0 ≤ m' → 0 ≤ m' ∧ describes (Build_shr_record m' b' (b || s)) (m * D + f) (2 * D)) as Hgen.
  { intros m' b' -> ?. split; [done|]. exists (Z.b2z b' * D + f). cbn.
    destruct b', b, s; cbn in *; repeat split; lia. }
  destruct m as [|[p|p|]|p]; cbn; [apply (Hgen 0 false)|apply (Hgen (Zpos p) true)
    |apply (Hgen (Zpos p) false)|apply (Hgen 0 true)|lia]; cbn; lia.
Qed.

Lemma iter_shr_describes p r N D :
  0 ≤ shr_m r → describes r N D →
  0 ≤ shr_m (iter_pos shr_1 p r) ∧ describes (iter_pos shr_1 p r) N (2 ^ Zpos p * D).
Proof.
  revert r D. induction p as [p IH|p IH|]; intros r D Hm Hr; cbn [iter_pos].
  - destruct (shr_1_describes _ _ _ Hm Hr) as [Hm1 H1].
    destruct (IH _ _ Hm1 H1) as [Hm2 H2]. destruct (IH _ _ Hm2 H2) as [Hm3 H3].
    split; [done|]. rewrite (Pos2Z.inj_xI p).
    replace (2 ^ (2 * Zpos p + 1) * D) with (2 ^ Zpos p * (2 ^ Zpos p * (2 * D))); [done|].
    replace (2 * Zpos p + 1) with (Zpos p + (Zpos p + 1)) by lia. rewrite !Z.pow_add_r by lia. ring.
  - destruct (IH _ _ Hm Hr) as [Hm2 H2]. destruct (IH _ _ Hm2 H2) as [Hm3 H3].
    split; [done|]. rewrite (Pos2Z.inj_xO p).
    replace (2 ^ (2 * Zpos p) * D) with (2 ^ Zpos p * (2 ^ Zpos p * D)); [done|].
    replace (2 * Zpos p) with (Zpos p + Zpos p) by lia. rewrite Z.pow_add_r by lia. ring.
  - by apply shr_1_describes.
Qed.

Lemma shr_describes r e n N D :
  0 ≤ shr_m r → 0 ≤ n → describes r N D →
  ∃ r', shr r e n = (r', e + n) ∧ 0 ≤ shr_m r' ∧ describes r' N (2 ^ n * D).
Proof.
  intros Hm Hn Hr. destruct n as [|p|p]; [|by eauto using iter_shr_describes|lia].
  exists r. rewrite Z.mul_1_l. cbn. by rewrite Z.add_0_r.
Qed.

(** Rounding a described number: off by at most one half, exact on integers. *)
Lemma round_describes r N D :
  0 < D → describes r N D →
  let m := round_nearest_even (shr_m r) (loc_of_shr_record r) in
  shr_m r ≤ m ≤ shr_m r + 1 ∧ 2 * Z.abs (m * D - N) ≤ D ∧ (N = shr_m r * D → m = shr_m r).
Proof.
  destruct r as [m b s]. intros HD (f & -> & Hf & Hr & Hs). cbn in *.
  destruct b, s; cbn; [|destruct (Z.even m)|..]; repeat split; try lia; nia.
Qed.

(** ** Rounding a positive number to 53 digits *)
Lemma shr_fexp_describes m e l N D d :
  0 < d → 2 ^ (d - 1) ≤ m < 2 ^ d → 53 ≤ d → -1074 ≤ d + e - 53 →
  describes (shr_record_of_loc m l) N D →
  ∃ r, shr_fexp 53 1024 m e l = (r, e + (d - 53)) ∧ 0 ≤ shr_m r ∧ describes r N (2 ^ (d - 53) * D).
Proof.
  intros Hd Hm Hd53 He Hr. unfold shr_fexp.
  assert (0 < 2 ^ (d - 1)) by (apply Z.pow_pos_nonneg; lia).
  destruct m as [|p|p]; [lia| |lia]. cbn [Zdigits2]. rewrite (digits2_unique p d) by done.
  replace (fexp 53 1024 (d + e) - e) with (d - 53) by (unfold fexp, emin; lia).
  apply shr_describes; [by destruct l as [|[]]|lia|done].
Qed.

Lemma normal_is_final m e :
  2 ^ 52 ≤ m < 2 ^ 53 → -1074 ≤ e → shr_fexp 53 1024 m e loc_Exact = (Build_shr_record m false false, e).
Proof.
  intros Hm He. unfold shr_fexp. destruct m as [|p|p]; [lia| |lia].
  cbn [Zdigits2]. rewrite (digits2_unique p 53) by lia.
  replace (fexp 53 1024 (53 + e) - e) with 0 by (unfold fexp, emin; lia). done.
Qed.

Lemma carry_is_final e :
  -1074 ≤ e → shr_fexp 53 1024 (2 ^ 53) e loc_Exact = (Build_shr_record (2 ^ 52) false false, e + 1).
Proof.
  intros He. unfold shr_fexp. replace (Zdigits2 (2 ^ 53)) with 54 by reflexivity.
  replace (fexp 53 1024 (54 + e) - e) with 1 by (unfold fexp, emin; lia). done.
Qed.

Lemma round_aux_spec m e l N D d :
  0 < D → 53 ≤ d → 2 ^ (d - 1) ≤ m < 2 ^ d → describes (shr_record_of_loc m l) N D →
  -1074 ≤ d + e - 53 → d + e < 1024 →
  ∃ m' j, binary_round_aux 53 1024 false m e l = S754_finite false m' (e + (d - 53) + j) ∧
    (j = 0 ∨ j = 1) ∧ 2 ^ 52 ≤ Zpos m' < 2 ^ 53 ∧
    2 * Z.abs (Zpos m' * 2 ^ j * (2 ^ (d - 53) * D) - N) ≤ 2 ^ (d - 53) * D ∧
    (∀ c, N = c * (2 ^ (d - 53) * D) → Zpos m' * 2 ^ j = c).
Proof.
  intros HD Hd Hm Hr He Hmax.
  assert (m * D ≤ N < (m + 1) * D) as HN.
  { destruct Hr as (f & -> & Hf & _). replace (shr_m (shr_record_of_loc m l)) with m by (by destruct l as [|[]]). lia. }
  destruct (shr_fexp_describes m e l N D d) as (r & Hsh & Hm1 & Hr1); [lia|done..|].
  set (D1 := 2 ^ (d - 53) * D) in *.
  assert (0 < D1) by (unfold D1; apply Z.mul_pos_pos; [apply Z.pow_pos_nonneg; lia|done]).
  assert (2 ^ (d - 1) * D = 2 ^ 52 * D1) as E1.
  { unfold D1. rewrite Z.mul_assoc, <-Z.pow_add_r by lia. do 2 f_equal. lia. }
  assert (2 ^ d * D = 2 ^ 53 * D1) as E2.
  { unfold D1. rewrite Z.mul_assoc, <-Z.pow_add_r by lia. do 2 f_equal. lia. }
  destruct (round_describes r N D1) as (Hb & Herr & Hex); [done..|].
  destruct Hr1 as (f & HNf & Hf & _).
  assert (2 ^ 52 ≤ shr_m r) by nia. assert (shr_m r < 2 ^ 53) by nia.
  assert (∀ c, N = c * D1 → shr_m r = c ∧ f = 0) as Hc.
  { intros c Hc. assert ((c - shr_m r) * D1 = f) by lia. assert (c - shr_m r = 0) by nia. nia. }
  unfold binary_round_aux. rewrite Hsh.
  set (m2 := round_nearest_even (shr_m r) (loc_of_shr_record r)) in *.
  destruct (decide (m2 = 2 ^ 53)) as [Hcarry|Hno].
  - rewrite Hcarry, carry_is_final by lia. cbn [shr_m].
    exists (2 ^ 52)%positive, 1. change (2 ^ 52) with (Zpos (2 ^ 52)). cbv iota beta.
    rewrite (proj2 (Z.leb_le _ _)) by lia.
    split_and!; [done|by right|done|done| |].
    + replace (Z.pos (2 ^ 52) * 2 ^ 1) with m2 by (rewrite Hcarry; reflexivity). done.
    + intros c HcN. destruct (Hc c HcN). rewrite <-(Hex ltac:(lia)) in *. lia.
  - rewrite normal_is_final by lia. cbn [shr_m]. destruct m2 as [|p|p] eqn:Em; [lia| |lia].
    exists p, 0. rewrite Z.add_0_r, (proj2 (Z.leb_le _ _)) by lia.
    split_and!; [done|by left|lia|lia| |].
    + by rewrite Z.pow_0_r, Z.mul_1_r.
    + intros c HcN. destruct (Hc c HcN). rewrite Z.pow_0_r, Z.mul_1_r. rewrite <-(Hex ltac:(lia)) in *. lia.
Qed.

(** ** Conversions, quotients and products *)
Abbreviation normal m := (2 ^ 52 ≤ Zpos m < 2 ^ 53).

Lemma round_aux_normal m e :
  normal m → -1074 ≤ e ≤ 971 → binary_round_aux 53 1024 false (Zpos m) e loc_Exact = S754_finite false m e.
Proof.
  intros Hm He. unfold binary_round_aux. rewrite normal_is_final by lia. cbn [shr_m loc_of_shr_record round_nearest_even].
  rewrite normal_is_final by lia. cbn [shr_m]. by rewrite (proj2 (Z.leb_le _ _)) by lia.
Qed.

Lemma iter_xO p k : Zpos (Pos.iter xO p k) = Zpos p * 2 ^ Zpos k.
Proof.
  induction k as [|k IH] using Pos.peano_ind; [cbn; lia|].
  rewrite Pos.iter_succ, Pos2Z.inj_succ, Z.pow_succ_r by lia. rewrite Pos2Z.inj_xO, IH. lia.
Qed.

(** Integers of at most 53 digits are exact. *)
Lemma float64_exact z :
  0 < z < 2 ^ 53 →
  ∃ m a, float64 z = S754_finite false m (- a) ∧ 0 ≤ a ≤ 52 ∧ normal m ∧ Zpos m = z * 2 ^ a.
Proof.
  intros Hz. destruct z as [|p|p]; [lia| |lia]. unfold float64. cbn [binary_normalize].
  pose proof (digits2_pos_spec p) as Hp. set (d := Zpos (digits2_pos p)) in *.
  assert (0 < d) by (unfold d; lia).
  assert (d ≤ 53).
  { destruct (Z.le_gt_cases d 53); [done|]. pose proof (Z.pow_le_mono_r 2 53 (d - 1) ltac:(lia) ltac:(lia)). lia. }
  assert (2 ^ (d - 1) * 2 ^ (53 - d) = 2 ^ 52) as E1 by (rewrite <-Z.pow_add_r by lia; f_equal; lia).
  assert (2 ^ d * 2 ^ (53 - d) = 2 ^ 53) as E2 by (rewrite <-Z.pow_add_r by lia; f_equal; lia).
  assert (0 < 2 ^ (53 - d)) by (apply Z.pow_pos_nonneg; lia).
  unfold binary_round, shl_align. fold d.
  replace (fexp 53 1024 (d + 0) - 0) with (- (53 - d)) by (unfold fexp, emin; lia).
  replace (fexp 53 1024 (d + 0)) with (- (53 - d)) by (unfold fexp, emin; lia).
  destruct (53 - d) as [|k|k] eqn:Ek; [| |lia].
  - change (- 0) with 0. cbv beta iota. exists p, 0. rewrite round_aux_normal by lia. split_and!; done || lia.
  - change (- Zpos k) with (Zneg k). cbv beta iota. exists (Pos.iter xO p k), (Zpos k).
    rewrite round_aux_normal by (rewrite ?iter_xO; nia). rewrite iter_xO. split_and!; done || nia.
Qed.

Lemma new_location_describes q r D :
  0 ≤ r < D → describes (shr_record_of_loc q (new_location D r)) (q * D + r) D.
Proof.
  intros Hr. exists r. unfold new_location, new_location_even, new_location_odd.
  pose proof (Zmod_even D) as Hmod. pose proof (Z.div_mod D 2 ltac:(lia)).
  destruct (Z.even D) eqn:He; (destruct (Z.eqb_spec r 0) as [->|]; [cbn -[Z.mul]; lia|]).
  all: destruct (Z.compare_spec (2 * r) D), (Z.compare_spec (2 * r + 1) D);
    cbn -[Z.mul]; split_and!; lia.
Qed.

(** A quotient of normal numbers is off by at most one unit of its last digit,
    and exact when it is an even number of units. *)
Lemma f64_div_spec m1 e1 m2 e2 :
  normal m1 → normal m2 → -900 ≤ e1 - e2 ≤ 900 →
  ∃ m j, f64_div (S754_finite false m1 e1) (S754_finite false m2 e2) =
      S754_finite false m (e1 - e2 - 53 + j) ∧ 0 ≤ j ≤ 2 ∧ normal m ∧
    Z.abs (Zpos m * 2 ^ j * Zpos m2 - Zpos m1 * 2 ^ 53) ≤ Zpos m2 ∧
    (∀ c, Zpos m1 * 2 ^ 53 = 2 * c * Zpos m2 → Zpos m * 2 ^ j = 2 * c).
Proof.
  intros H1 H2 He. unfold f64_div, SFdiv, SFdiv_core_binary. cbn [Zdigits2].
  rewrite (digits2_unique m1 53), (digits2_unique m2 53) by lia.
  replace (Z.min (fexp 53 1024 (53 + e1 - (53 + e2))) (e1 - e2)) with (e1 - e2 - 53)
    by (unfold fexp, emin; lia).
  replace (e1 - e2 - (e1 - e2 - 53)) with 53 by lia. rewrite Z.shiftl_mul_pow2 by lia.
  set (N := Zpos m1 * 2 ^ 53). pose proof (Z_div_mod N (Zpos m2) ltac:(lia)) as Hdm.
  destruct (Z.div_eucl N (Zpos m2)) as [q r]. destruct Hdm as [HN Hr].
  assert (2 ^ 52 ≤ q < 2 ^ 54) as Hq by (unfold N in HN; nia).
  pose proof (new_location_describes q r (Zpos m2) ltac:(lia)) as Hl.
  replace (q * Zpos m2 + r) with N in Hl by lia.
  assert (∃ d, (d = 53 ∨ d = 54) ∧ 2 ^ (d - 1) ≤ q < 2 ^ d) as (d & Hd & Hqd).
  { destruct (Z.lt_ge_cases q (2 ^ 53)); [exists 53|exists 54]; cbn in *; lia. }
  destruct (round_aux_spec q (e1 - e2 - 53) (new_location (Zpos m2) r) N (Zpos m2) d)
    as (m & j & Heq & Hj & Hm & Herr & Hex); [lia|lia|done|done|lia|lia|].
  exists m, (d - 53 + j). cbn [xorb]. rewrite Heq.
  rewrite Z.pow_add_r by lia.
  split_and!; [f_equal; lia|lia|lia|lia|lia| |].
  - assert (2 ^ (d - 53) = 1 ∨ 2 ^ (d - 53) = 2) as [E|E] by (destruct Hd; subst d; cbn; lia);
      rewrite E in *; lia.
  - intros c Hc. fold N in Hc. assert (2 ^ (d - 53) = 1 ∨ 2 ^ (d - 53) = 2) as [E|E] by (destruct Hd; subst d; cbn; lia);
      rewrite E in *; [rewrite <-(Hex (2 * c)) by lia|rewrite (Z.mul_comm 2), Z.mul_assoc, (Hex c) by lia]; lia.
Qed.

(** A product of normal numbers has a relative error of at most [2^-53]. *)
Lemma f64_mul_spec m1 e1 m2 e2 :
  normal m1 → normal m2 → -1000 ≤ e1 + e2 ≤ 900 →
  ∃ m j, f64_mul (S754_finite false m1 e1) (S754_finite false m2 e2) =
      S754_finite false m (e1 + e2 + j) ∧ 52 ≤ j ≤ 54 ∧ normal m ∧
    2 ^ 53 * Z.abs (Zpos m * 2 ^ j - Zpos m1 * Zpos m2) ≤ Zpos m1 * Zpos m2 ∧
    (∀ c, Zpos m1 * Zpos m2 = c * 2 ^ 53 → Zpos m * 2 ^ j = Zpos m1 * Zpos m2).
Proof.
  intros H1 H2 He. unfold f64_mul, SFmul. cbn [xorb]. rewrite Pos2Z.inj_mul.
  set (N := Zpos m1 * Zpos m2). assert (2 ^ 104 ≤ N < 2 ^ 106) as HN by (unfold N; nia).
  assert (∃ d, (d = 105 ∨ d = 106) ∧ 2 ^ (d - 1) ≤ N < 2 ^ d) as (d & Hd & Hqd).
  { destruct (Z.lt_ge_cases N (2 ^ 105)); [exists 105|exists 106]; cbn in *; lia. }
  destruct (round_aux_spec N (e1 + e2) loc_Exact N 1 d) as (m & j & Heq & Hj & Hm & Herr & Hex);
    [lia|lia|done| |lia|lia|].
  { exists 0. cbn. lia. }
  exists m, (d - 53 + j). rewrite Heq, Z.pow_add_r by lia. rewrite Z.mul_1_r in *.
  split_and!; [f_equal; lia|lia|lia|lia|lia| |].
  - destruct Hd; subst d; cbn in *; lia.
  - intros c Hc. destruct Hd; subst d; [pose proof (Hex (2 * c))|pose proof (Hex c)]; cbn in *; lia.
Qed.

(** ** The integer part of a hundred times a quotient *)
Lemma shiftl_floor m i F :
  0 ≤ i → 0 ≤ F → let k := Z.shiftl m (i - F) in k * 2 ^ F ≤ m * 2 ^ i < (k + 1) * 2 ^ F.
Proof.
  intros Hi HF. cbn. assert (0 < 2 ^ F) by (apply Z.pow_pos_nonneg; lia).
  destruct (Z.le_gt_cases F i).
  - rewrite Z.shiftl_mul_pow2 by lia.
    assert (2 ^ i = 2 ^ (i - F) * 2 ^ F) as -> by (rewrite <-Z.pow_add_r by lia; f_equal; lia). nia.
  - replace (i - F) with (- (F - i)) by lia. rewrite Z.shiftl_opp_r, Z.shiftr_div_pow2 by lia.
    assert (2 ^ F = 2 ^ (F - i) * 2 ^ i) as -> by (rewrite <-Z.pow_add_r by lia; f_equal; lia).
    assert (0 < 2 ^ (F - i)) by (apply Z.pow_pos_nonneg; lia).
    assert (0 < 2 ^ i) by (apply Z.pow_pos_nonneg; lia).
    pose proof (Z.div_mod m (2 ^ (F - i)) ltac:(lia)).
    pose proof (Z.mod_pos_bound m (2 ^ (F - i)) ltac:(lia)). nia.
Qed.

(** The quotient [X / 2^E] of two integers, in units of its last digit. *)
Lemma int_quotient T S :
  0 < T < 2 ^ 53 → 0 < S < 2 ^ 53 →
  ∃ m j E, f64_div (float64 T) (float64 S) = S754_finite false m (j - E) ∧ 0 ≤ j ≤ 2 ∧ 1 ≤ E ≤ 105 ∧ normal m ∧
    S * 2 ^ 52 < T * 2 ^ E ∧ Z.abs (Zpos m * 2 ^ j * S - T * 2 ^ E) ≤ S ∧
    (∀ t, T = t * S → Zpos m * 2 ^ j = t * 2 ^ E).
Proof.
  intros HT HS. destruct (float64_exact T HT) as (mT & a & -> & Ha & HmT & ET).
  destruct (float64_exact S HS) as (mS & b & -> & Hb & HmS & ES).
  destruct (f64_div_spec mT (- a) mS (- b)) as (m & j & -> & Hj & Hm & Herr & Hex); [done..|lia|].
  assert (0 < 2 ^ b) as Hpb by (apply Z.pow_pos_nonneg; lia).
  assert (2 ^ a * 2 ^ 53 = 2 ^ (a + 53 - b) * 2 ^ b) as EP by (rewrite <-!Z.pow_add_r by lia; f_equal; lia).
  exists m, j, (a + 53 - b). rewrite ET, ES in *.
  replace (T * 2 ^ a * 2 ^ 53) with (T * 2 ^ (a + 53 - b) * 2 ^ b) in * by (rewrite <-!Z.mul_assoc, EP; lia).
  split_and!; [f_equal; lia|lia|lia|lia|lia|lia|lia| | |].
  - assert (S * 2 ^ b * 2 ^ 53 < 2 * (T * 2 ^ (a + 53 - b) * 2 ^ b)) by nia. nia.
  - replace (Zpos m * 2 ^ j * (S * 2 ^ b) - T * 2 ^ (a + 53 - b) * 2 ^ b)
      with ((Zpos m * 2 ^ j * S - T * 2 ^ (a + 53 - b)) * 2 ^ b) in Herr by ring.
    rewrite Z.abs_mul, (Z.abs_eq (2 ^ b)) in Herr by lia. nia.
  - intros t ->. assert (2 * 2 ^ (a + 53 - b - 1) = 2 ^ (a + 53 - b)) as E2.
    { rewrite <-(Z.pow_succ_r 2) by lia. f_equal. lia. }
    rewrite (Hex (t * 2 ^ (a + 53 - b - 1))); [rewrite <-E2; ring|].
    rewrite <-E2. ring.
Qed.

(** A number within one unit of [100 T] has the quotient by [S] as its floor, or
    one less when the quotient is an integer. *)
Lemma near_floor k S T P A :
  0 < P → k * S * P ≤ A < (k + 1) * S * P → Z.abs (A - 100 * T * P) < P →
  k * S ≤ 100 * T ≤ (k + 1) * S.
Proof.
  intros HP HA Hnear.
  assert (k * S < 100 * T + 1) by (apply (Z.mul_lt_mono_pos_r P); lia).
  assert (100 * T - 1 < (k + 1) * S) by (apply (Z.mul_lt_mono_pos_r P); lia). lia.
Qed.

(** An integer quotient times 100 needs no rounding. *)
Lemma integer_product m j E t :
  2 ^ 52 ≤ m → 0 ≤ j → 0 ≤ E → 0 < t ≤ 100 → m * 2 ^ j = t * 2 ^ E →
  ∃ c, m * (100 * 2 ^ 46) = c * 2 ^ 53.
Proof.
  intros Hm Hj HE Ht Hex.
  assert (0 < 2 ^ j) by (apply Z.pow_pos_nonneg; lia).
  assert (45 < E - j) as HEj.
  { destruct (Z.lt_ge_cases 45 (E - j)); [done|].
    pose proof (Z.pow_le_mono_r 2 E (45 + j) ltac:(lia) ltac:(lia)) as Hle.
    rewrite Z.pow_add_r in Hle by lia.
    assert (m * 2 ^ j ≤ (100 * 2 ^ 45) * 2 ^ j) as Hm'%Z.mul_le_mono_pos_r; [|lia|lia].
    rewrite Hex. transitivity (100 * 2 ^ E); [apply Z.mul_le_mono_nonneg_r|]; lia. }
  assert (2 ^ E = 2 ^ (E - j - 5) * 2 ^ 5 * 2 ^ j) as E5 by (rewrite <-!Z.pow_add_r by lia; f_equal; lia).
  assert (m = t * 2 ^ (E - j - 5) * 2 ^ 5) as ->.
  { apply (Z.mul_reg_r _ _ (2 ^ j)); [lia|]. rewrite Hex, E5. ring. }
  exists (t * 2 ^ (E - j - 5) * 25). lia.
Qed.

Lemma hundred_times_quotient T S :
  0 < T ≤ 100 * S → 0 < S ≤ 2 ^ 36 →
  ∃ k, f64_trunc (f64_mul (f64_div (float64 T) (float64 S)) (float64 100)) = Some k ∧
    0 ≤ k ∧ k * S ≤ 100 * T ≤ (k + 1) * S ∧ (∀ t, T = t * S → k = 100 * t).
Proof.
  intros HT HS. destruct (int_quotient T S) as (m & j & E & -> & Hj & HE & Hm & HST & Herr & Hex); [lia..|].
  replace (float64 100) with (S754_finite false (100 * 2 ^ 46) (-46)) by reflexivity.
  destruct (f64_mul_spec m (j - E) (100 * 2 ^ 46) (-46)) as (m3 & i & -> & Hi & Hm3 & Herr3 & Hex3); [done|done|lia|].
  change (Z.pos (100 * 2 ^ 46)) with (100 * 2 ^ 46) in *.
  cbn [f64_trunc]. eexists. split; [done|].
  replace (j - E + -46 + i) with (i - (E + 46 - j)) by lia.
  pose proof (shiftl_floor (Zpos m3) i (E + 46 - j) ltac:(lia) ltac:(lia)) as Hk. cbv zeta in Hk.
  set (k := Z.shiftl (Zpos m3) (i - (E + 46 - j))) in *.
  assert (0 ≤ k) as Hk0 by (apply Z.shiftl_nonneg; lia).
  assert (0 < 2 ^ j) by (apply Z.pow_pos_nonneg; lia).
  assert (0 < 2 ^ E) by (apply Z.pow_pos_nonneg; lia).
  set (Y := Zpos m3 * 2 ^ i) in *. set (N := Zpos m * (100 * 2 ^ 46)) in *. set (P := 2 ^ 46 * 2 ^ E).
  assert (2 ^ (E + 46 - j) * 2 ^ j = P) as EP.
  { unfold P. rewrite <-!Z.pow_add_r by lia. f_equal. lia. }
  assert (0 < P) by (unfold P; lia).
  assert (k * S * P ≤ Y * 2 ^ j * S < (k + 1) * S * P) as HA by (rewrite <-EP; nia).
  assert (N * 2 ^ j * S = 100 * 2 ^ 46 * (Zpos m * 2 ^ j * S)) as HB by (unfold N; ring).
  assert (100 * T * P = 100 * 2 ^ 46 * (T * 2 ^ E)) as HQ by (unfold P; ring).
  split; [done|split].
  - apply (near_floor k S T P (Y * 2 ^ j * S)); [done|done|].
    assert (2 ^ 53 * Z.abs (Y * 2 ^ j * S - N * 2 ^ j * S) ≤ N * 2 ^ j * S).
    { replace (Y * 2 ^ j * S - N * 2 ^ j * S) with ((Y - N) * (2 ^ j * S)) by ring.
      rewrite Z.abs_mul, (Z.abs_eq (2 ^ j * S)) by nia. nia. }
    assert (100 * T * P < 2 ^ 50 * P) by (apply Z.mul_lt_mono_pos_r; lia). lia.
  - intros t ->. specialize (Hex t eq_refl).
    assert (0 < t ≤ 100) as Ht.
    { split; [apply (Z.mul_lt_mono_pos_r S)|apply (Z.mul_le_mono_pos_r _ _ S)]; lia. }
    destruct (integer_product (Zpos m) j E t) as [c Hc]; [lia..|done|].
    rewrite (Hex3 c Hc), HB, Hex in HA.
    replace (100 * 2 ^ 46 * (t * 2 ^ E * S)) with (100 * t * S * P) in HA by (unfold P; ring).
    destruct HA as [HA1%Z.mul_le_mono_pos_r HA2%Z.mul_lt_mono_pos_r]; [|done..].
    apply Z.mul_le_mono_pos_r in HA1; [|lia]. apply Z.mul_lt_mono_pos_r in HA2; lia.
Qed.
