(* ===== verification/Paths.v ===== *)
(** * Paths.v: [path/filepath] on Unix

    [Clean], [Join] of two elements and [Dir], on the components of a path, and
    what a path that was cleaned can name. *)
From S2P Require Import Prelude GoStd.
From Stdlib Require Import Ascii.
Local Open Scope string_scope.

Definition dot : string := ".".
Definition dotdot : string := "..".

(** The components read so far, the last one first. [..] takes a name away; it is
    kept where there is nothing to take away and the path is not rooted. *)
Fixpoint clean_go (rooted : bool) (out l : list string) : list string :=
  match l with
  | [] => reverse out
  | c :: l =>
      if str_eq c "" || str_eq c dot then clean_go rooted out l
      else if str_eq c dotdot then
        match out with
        | top :: out' => if str_eq top dotdot then clean_go rooted (dotdot :: out) l else clean_go rooted out' l
        | [] => if rooted then clean_go rooted [] l else clean_go rooted [dotdot] l
        end
      else clean_go rooted (c :: out) l
  end.
Definition rooted (path : string) : bool := HasPrefix path "/".
Definition Clean (path : string) : string :=
  let parts := clean_go (rooted path) [] (Split path "/") in
  if rooted path then "/" +:+ Join parts "/"
  else match parts with [] => dot | _ => Join parts "/" end.
Definition PathJoin (a b : string) : string :=
  if negb (str_eq a "") then Clean (a +:+ "/" +:+ b) else if negb (str_eq b "") then Clean b else "".
(** Up to the last slash. *)
Definition PathDir (path : string) : string :=
  match reverse (Split path "/") with
  | _ :: front => if bool_decide (front = []) then Clean "" else Clean (Join (reverse front) "/" +:+ "/")
  | [] => Clean ""
  end.
Example PathDir_1 : PathDir "/tmp/p1/hub/x.yaml" = "/tmp/p1/hub" ∧ PathDir "/x" = "/" ∧ PathDir "x" = ".".
Proof. by vm_compute. Qed.
Example Clean_1 : Clean "/tmp/p1/../p2//./x/" = "/tmp/p2/x" ∧ Clean "../../x" = "../../x" ∧ Clean "/../x" = "/x" ∧ Clean "a/.." = ".".
Proof. by vm_compute. Qed.

#[export] Instance string_app_assoc : Assoc (=) String.append.
Proof. intros a b c. induction a as [|x a IH]; [done|]. exact (f_equal (String x) IH). Qed.

(** ** Splitting at slashes *)
Abbreviation slash := ("/"%char).
Definition no_slash (c : string) : Prop := slash ∉ chars c.

Lemma split_slash_app l cur l' :
  split_go [slash] 0 cur (l ++ slash :: l') = (split_go [slash] 0 cur l ++ split_go [slash] 0 [] l')%list.
Proof.
  revert cur. induction l as [|c l IH]; intros cur; [done|]. cbn [split_go app strip_prefix length Nat.sub].
  case_bool_decide; [|apply IH]. cbn. by rewrite IH.
Qed.
Lemma Split_slash a b : Split (a +:+ "/" +:+ b) "/" = (Split a "/" ++ Split b "/")%list.
Proof. unfold Split. rewrite !chars_app. cbn [chars app]. by rewrite split_slash_app, fmap_app. Qed.
Lemma Split_plain c : no_slash c → Split c "/" = [c].
Proof. intros Hc. unfold Split. cbn [chars]. rewrite split_go_end by done. cbn. by rewrite of_chars_chars. Qed.
Lemma Split_Join l : l ≠ [] → Forall no_slash l → Split (Join l "/") "/" = l.
Proof.
  intros Hl HF. induction HF as [|c l Hc HF IH]; [done|]. destruct l as [|c' l]; [by apply Split_plain|].
  change (Join (c :: c' :: l) "/") with (c +:+ "/" +:+ Join (c' :: l) "/"). by rewrite Split_slash, Split_plain, IH.
Qed.
Lemma split_slash_plain l cur : slash ∉ cur → Forall (λ p, slash ∉ p) (split_go [slash] 0 cur l).
Proof.
  revert cur. induction l as [|c l IH]; intros cur Hc; cbn [split_go strip_prefix].
  - constructor; [by rewrite elem_of_reverse|constructor].
  - case_bool_decide; cbn; [constructor; [by rewrite elem_of_reverse|by apply IH, not_elem_of_nil]|].
    apply IH. rewrite not_elem_of_cons. split; [|done]. congruence.
Qed.
Lemma Split_no_slash s : Forall no_slash (Split s "/").
Proof.
  unfold Split. rewrite Forall_fmap. eapply Forall_impl; [apply (split_slash_plain _ []); set_solver|].
  intros p Hp. unfold no_slash. cbn. by rewrite chars_of_chars.
Qed.
Lemma split_go_not_nil cur l : split_go [slash] 0 cur l ≠ [].
Proof.
  revert cur. induction l as [|c l IH]; intros cur; [done|]. cbn [split_go strip_prefix].
  case_bool_decide; [done|apply IH].
Qed.
Lemma Split_not_nil s : Split s "/" ≠ [].
Proof. unfold Split. intros E%fmap_nil_inv. by apply split_go_not_nil in E. Qed.

(** ** Clean paths *)

(** A component that names a file or directory in its parent. *)
Definition proper (c : string) : Prop := c ≠ "" ∧ c ≠ dot ∧ c ≠ dotdot ∧ no_slash c.
#[export] Instance proper_dec c : Decision (proper c).
Proof. unfold proper, no_slash. apply _. Defined.

Lemma Forall_no_slash l : Forall proper l → Forall no_slash l.
Proof. intros Hl. eapply Forall_impl; [exact Hl|]. by intros ? (_ & _ & _ & ?). Qed.
Lemma clean_go_proper out l : Forall proper out → Forall no_slash l → Forall proper (clean_go true out l).
Proof.
  intros Ho Hl. revert out Ho. induction Hl as [|c l Hc Hl IH]; intros out Ho; cbn [clean_go].
  - by apply Forall_reverse.
  - destruct (str_eq c "") eqn:E1, (str_eq c dot) eqn:E2; cbn; auto. destruct (str_eq c dotdot) eqn:E3.
    + destruct Ho as [|top out Ht Ho]; [by apply IH|]. rewrite (proj2 (str_eq_false top dotdot)) by apply Ht. by apply IH.
    + apply IH. constructor; [|done]. apply str_eq_false in E1, E2, E3. done.
Qed.

(** A path inside the directory [root], named by components below it. *)
Definition below (root path : string) : Prop := ∃ rest, path = root +:+ "/" +:+ rest ∧ Forall proper (Split rest "/").

Lemma HasPrefix_app s p : HasPrefix s p = true ↔ ∃ rest, s = p +:+ rest.
Proof.
  unfold HasPrefix. rewrite bool_decide_eq_true. split.
  - intros [r Hr]. apply strip_prefix_app in Hr. exists (of_chars r). rewrite <-(of_chars_chars s), Hr.
    rewrite <-(of_chars_chars (p +:+ of_chars r)), chars_app, chars_of_chars. done.
  - intros [rest ->]. exists (chars rest). apply strip_prefix_app. apply chars_app.
Qed.

(** What lies below the root of a path that was cleaned has only proper
    components: the test of a prefix is enough. *)
Lemma clean_below path root :
  rooted path = true → root ≠ "" → HasPrefix (Clean path) (root +:+ "/") = true → below root (Clean path).
Proof.
  intros Hr Hroot [rest Hp]%HasPrefix_app. exists rest.
  assert (Clean path = root +:+ "/" +:+ rest) as E by by rewrite Hp, (assoc String.append). split; [done|].
  unfold Clean in E. rewrite Hr in E. set (parts := clean_go true [] (Split path "/")) in *.
  assert (Forall proper parts) as HF by (apply clean_go_proper; [constructor|apply Split_no_slash]).
  assert (Split ("/" +:+ Join parts "/") "/" = "" :: parts ∨ parts = []) as [Hs|Hnil].
  { destruct parts as [|c parts]; [by right|left]. change ("/" +:+ ?x) with ("" +:+ "/" +:+ x).
    rewrite Split_slash, Split_Join; [done|done|by apply Forall_no_slash]. }
  - rewrite E, Split_slash in Hs. destruct (Split root "/") as [|x l] eqn:El; [by apply Split_not_nil in El|].
    injection Hs as -> Hs. rewrite <-Hs in HF. by apply Forall_app in HF as [_ ?].
  - rewrite Hnil in E. destruct root as [|c [|c' root]]; [done|..]; by injection E.
Qed.

(** ** The directory of a clean path *)

(** A path in the directory [root], or the directory itself. *)
Definition inside (root path : string) : Prop := path = root ∨ below root path.

Lemma Join_app l l' sep : l ≠ [] → l' ≠ [] → Join (l ++ l')%list sep = Join l sep +:+ sep +:+ Join l' sep.
Proof.
  intros Hl Hl'. induction l as [|x [|y l] IH]; [done|by destruct l'|]. 
  change (Join ((x :: y :: l) ++ l')%list sep) with (x +:+ sep +:+ Join ((y :: l) ++ l')%list sep).
  rewrite IH by done. change (Join (x :: y :: l) sep) with (x +:+ sep +:+ Join (y :: l) sep).
  by rewrite <-!(assoc String.append).
Qed.
Lemma Join_Split s : Join (Split s "/") "/" = s.
Proof.
  enough (∀ l cur, Join (of_chars <$> split_go [slash] 0 cur l) "/" = of_chars (reverse cur ++ l)%list) as Hs.
  { unfold Split. cbn [chars]. rewrite Hs. apply of_chars_chars. }
  induction l as [|c l IH]; intros cur; cbn [split_go strip_prefix]; [cbn; by rewrite app_nil_r|].
  case_bool_decide as Hc; cbn [length Nat.sub].
  - subst c. rewrite fmap_cons. specialize (IH []). destruct (of_chars <$> split_go [slash] 0 [] l) as [|x l'] eqn:E.
    { apply fmap_nil_inv in E. by apply split_go_not_nil in E. }
    change (Join (?a :: x :: l') "/") with (a +:+ "/" +:+ Join (x :: l') "/"). rewrite IH.
    rewrite <-(of_chars_chars (_ +:+ _)), !chars_app, !chars_of_chars. done.
  - rewrite IH, reverse_cons, <-app_assoc. done.
Qed.

Lemma clean_go_app out l t : Forall proper l → clean_go true out (l ++ t)%list = clean_go true (reverse l ++ out)%list t.
Proof.
  intros Hl. revert out. induction Hl as [|c l (H1 & H2 & H3 & _) _ IH]; intros out; [done|]. cbn [app clean_go].
  rewrite !(proj2 (str_eq_false _ _)) by done. cbn [orb]. by rewrite IH, reverse_cons, <-app_assoc.
Qed.
(** A rooted path of proper components is clean. *)
Lemma clean_proper l : l ≠ [] → Forall proper l → Clean ("/" +:+ Join l "/") = "/" +:+ Join l "/".
Proof.
  intros Hne Hl. unfold Clean. assert (rooted ("/" +:+ Join l "/") = true) as -> by (apply HasPrefix_app; by eexists).
  change ("/" +:+ Join l "/") with ("" +:+ "/" +:+ Join l "/") at 1.
  rewrite Split_slash, Split_Join by (done || by apply Forall_no_slash).
  change (clean_go true [] (Split "" "/" ++ l)%list) with (clean_go true [] l).
  rewrite <-(app_nil_r l) at 1. rewrite clean_go_app by done. cbn [clean_go]. by rewrite app_nil_r, reverse_involutive.
Qed.

Lemma PathDir_inside path root :
  rooted path = true → root ≠ "" → below root (Clean path) → inside root (PathDir (Clean path)).
Proof.
  intros Hr Hroot (rest & E & Hrest). unfold PathDir. rewrite E, Split_slash.
  set (cs := Split rest "/") in *. assert (cs ≠ []) as Hcs by apply Split_not_nil.
  destruct (exists_last Hcs) as (ini & c & Ecs). rewrite Ecs in Hrest |- *. apply Forall_app in Hrest as [Hini _].
  assert (∃ rs, Split root "/" = "" :: rs ∧ Forall proper rs ∧ rs ≠ []) as (rs & Ers & Hrs & Hne).
  { pose proof (f_equal (λ s, Split s "/") E) as Es. cbn in Es. rewrite Split_slash in Es.
    destruct (Split root "/") as [|x rs] eqn:El; [by apply Split_not_nil in El|].
    assert (x = "" ∧ Forall proper rs) as [-> Hrs].
    { unfold Clean in Es. rewrite Hr in Es. set (parts := clean_go true [] (Split path "/")) in *.
      assert (Forall proper parts) as HF by (apply clean_go_proper; [constructor|apply Split_no_slash]).
      destruct parts as [|p parts]; [|change ("/" +:+ ?x) with ("" +:+ "/" +:+ x) in Es;
        rewrite Split_slash, Split_Join in Es; [|done|by apply Forall_no_slash]].
      - change (Split ("/" +:+ Join [] "/") "/") with ["";""] in Es. injection Es as <- Es.
        destruct rs as [|? rs]; [done|]. injection Es as _ Es. symmetry in Es. by apply app_eq_nil in Es as [_ ?].
      - injection Es as <- Es. rewrite Es in HF. by apply Forall_app in HF as [? _]. }
    exists rs. split_and!; [done..|]. intros ->. apply Hroot. by rewrite <-(Join_Split root), El. }
  rewrite app_assoc, reverse_app, reverse_singleton. cbn [app]. 
  assert (reverse (("" :: rs) ++ ini)%list ≠ []) as Hn by (rewrite reverse_app, reverse_cons; by destruct (reverse ini); destruct (reverse rs)).
  rewrite Ers, bool_decide_eq_false_2, reverse_involutive by done.
  assert (Forall proper (rs ++ ini)%list) as HF by by apply Forall_app.
  assert (rs ++ ini ≠ [])%list as Hps by by destruct rs.
  change (("" :: rs) ++ ini)%list with ([""] ++ (rs ++ ini))%list. rewrite (Join_app [""]) by done.
  change (Join [""] "/" +:+ "/" +:+ ?x) with ("/" +:+ x). unfold Clean.
  assert (rooted (("/" +:+ Join (rs ++ ini)%list "/") +:+ "/") = true) as ->.
  { apply HasPrefix_app. eexists. by rewrite <-(assoc String.append). }
  assert (Split (("/" +:+ Join (rs ++ ini)%list "/") +:+ "/") "/" = "" :: (rs ++ ini) ++ [""])%list as ->.
  { rewrite <-(assoc String.append). change ("/" +:+ ?x) with ("" +:+ "/" +:+ x) at 1.
    rewrite Split_slash. change (Join (rs ++ ini)%list "/" +:+ "/") with (Join (rs ++ ini)%list "/" +:+ "/" +:+ "").
    rewrite Split_slash, Split_Join; [done|done|by apply Forall_no_slash]. }
  change (clean_go true [] ("" :: ?l)) with (clean_go true [] l). rewrite clean_go_app by done.
  change (clean_go true ?l [""]) with (reverse l). rewrite app_nil_r, reverse_involutive.
  assert (root = "/" +:+ Join rs "/") as Eroot.
  { rewrite <-(Join_Split root), Ers. change ("" :: rs) with ([""] ++ rs)%list. by rewrite Join_app. }
  destruct ini as [|i ini]; [left; by rewrite app_nil_r|right].
  exists (Join (i :: ini) "/"). split; [|rewrite Split_Join; [done|done|by apply Forall_no_slash]].
  by rewrite Join_app, Eroot, <-!(assoc String.append).
Qed.
