(* ===== verification/GraphDocs.v ===== *)
(** * GraphDocs.v: documents of the GraphQL server

    The audit fields all documents share ([pkg/database/mongodb/common_schema.go])
    and the documents of environments, infrastructures, image registries and
    probes, with the state the server keeps in memory for its connections
    ([pkg/data-store/store.go]). *)
From S2P Require Import Prelude World GoStd.
Local Open Scope string_scope.
Local Open Scope Z_scope.

(** ** Common fields *)

(** [mongodb.UserDetailResponse] and [mongodb.Audit] *)
Record mongodb_User : Type := mkUserResponse { ur_UserID : string; ur_Username : string; ur_Email : string }.
Record mongodb_Audit : Type := mkGAudit {
  au_UpdatedAt : Z; au_CreatedAt : Z; au_CreatedBy : mongodb_User; au_UpdatedBy : mongodb_User;
  au_IsRemoved : bool
}.
Definition no_user : mongodb_User := mkUserResponse "" "" "".
Definition named_user (u : string) : mongodb_User := mkUserResponse "" u "".

Definition touch (at_ : Z) (by_ : mongodb_User) (a : mongodb_Audit) : mongodb_Audit :=
  mkGAudit at_ (au_CreatedAt a) (au_CreatedBy a) by_ (au_IsRemoved a).
Definition set_updated_at (at_ : Z) (a : mongodb_Audit) : mongodb_Audit :=
  mkGAudit at_ (au_CreatedAt a) (au_CreatedBy a) (au_UpdatedBy a) (au_IsRemoved a).
Definition set_created_at (at_ : Z) (a : mongodb_Audit) : mongodb_Audit :=
  mkGAudit (au_UpdatedAt a) at_ (au_CreatedBy a) (au_UpdatedBy a) (au_IsRemoved a).
Definition set_is_removed (b : bool) (a : mongodb_Audit) : mongodb_Audit :=
  mkGAudit (au_UpdatedAt a) (au_CreatedAt a) (au_CreatedBy a) (au_UpdatedBy a) b.


Record ResourceDetails : Type := mkResource { rs_Name : string; rs_Description : string; rs_Tags : list string }.

(** ** Environments: [environments/schema.go] *)
Record Environment : Type := mkEnvironment {
  en_Audit : mongodb_Audit; en_Resource : ResourceDetails; en_ProjectID : string;
  en_EnvironmentID : string; en_Type : string; en_InfraIDs : list string
}.

Definition set_en_audit (a : mongodb_Audit) (e : Environment) : Environment :=
  mkEnvironment a (en_Resource e) (en_ProjectID e) (en_EnvironmentID e) (en_Type e) (en_InfraIDs e).
Definition set_en_resource (r : ResourceDetails) (e : Environment) : Environment :=
  mkEnvironment (en_Audit e) r (en_ProjectID e) (en_EnvironmentID e) (en_Type e) (en_InfraIDs e).
Definition set_en_type (t : string) (e : Environment) : Environment :=
  mkEnvironment (en_Audit e) (en_Resource e) (en_ProjectID e) (en_EnvironmentID e) t (en_InfraIDs e).
Definition set_en_infras (l : list string) (e : Environment) : Environment :=
  mkEnvironment (en_Audit e) (en_Resource e) (en_ProjectID e) (en_EnvironmentID e) (en_Type e) l.

(** ** Infrastructures: [chaos_infrastructure/schema.go]. Pointers are options. *)
Record Toleration : Type := mkToleration {
  to_Key : option string; to_Operator : option string; to_Effect : option string; to_Value : option string;
  to_TolerationSeconds : option Z
}.
Record ChaosInfra : Type := mkInfra {
  in_Resource : ResourceDetails; in_Audit : mongodb_Audit; in_ProjectID : string; in_InfraID : string;
  in_InfraNamespace : option string; in_PlatformName : string; in_ServiceAccount : option string;
  in_InfraScope : string; in_InfraNsExists : option bool; in_EnvironmentID : string;
  in_InfraSaExists : option bool; in_AccessKey : string; in_InfraType : string; in_IsRegistered : bool;
  in_IsInfraConfirmed : bool; in_IsActive : bool; in_Token : string; in_SkipSSL : option bool;
  in_NodeSelector : option string; in_Tolerations : list Toleration; in_StartTime : string; in_Version : string
}.

Definition set_in_audit (a : mongodb_Audit) (i : ChaosInfra) : ChaosInfra :=
  mkInfra (in_Resource i) a (in_ProjectID i) (in_InfraID i) (in_InfraNamespace i) (in_PlatformName i)
    (in_ServiceAccount i) (in_InfraScope i) (in_InfraNsExists i) (in_EnvironmentID i) (in_InfraSaExists i)
    (in_AccessKey i) (in_InfraType i) (in_IsRegistered i) (in_IsInfraConfirmed i) (in_IsActive i) (in_Token i)
    (in_SkipSSL i) (in_NodeSelector i) (in_Tolerations i) (in_StartTime i) (in_Version i).
Definition set_in_active (b : bool) (i : ChaosInfra) : ChaosInfra :=
  mkInfra (in_Resource i) (in_Audit i) (in_ProjectID i) (in_InfraID i) (in_InfraNamespace i) (in_PlatformName i)
    (in_ServiceAccount i) (in_InfraScope i) (in_InfraNsExists i) (in_EnvironmentID i) (in_InfraSaExists i)
    (in_AccessKey i) (in_InfraType i) (in_IsRegistered i) (in_IsInfraConfirmed i) b (in_Token i)
    (in_SkipSSL i) (in_NodeSelector i) (in_Tolerations i) (in_StartTime i) (in_Version i).
Definition set_in_version (v : string) (i : ChaosInfra) : ChaosInfra :=
  mkInfra (in_Resource i) (in_Audit i) (in_ProjectID i) (in_InfraID i) (in_InfraNamespace i) (in_PlatformName i)
    (in_ServiceAccount i) (in_InfraScope i) (in_InfraNsExists i) (in_EnvironmentID i) (in_InfraSaExists i)
    (in_AccessKey i) (in_InfraType i) (in_IsRegistered i) (in_IsInfraConfirmed i) (in_IsActive i) (in_Token i)
    (in_SkipSSL i) (in_NodeSelector i) (in_Tolerations i) (in_StartTime i) v.
(** Token, access key and the two flags of a registration. *)
Definition set_in_registration (token key : string) (registered confirmed : bool) (i : ChaosInfra) : ChaosInfra :=
  mkInfra (in_Resource i) (in_Audit i) (in_ProjectID i) (in_InfraID i) (in_InfraNamespace i) (in_PlatformName i)
    (in_ServiceAccount i) (in_InfraScope i) (in_InfraNsExists i) (in_EnvironmentID i) (in_InfraSaExists i)
    key (in_InfraType i) registered confirmed (in_IsActive i) token
    (in_SkipSSL i) (in_NodeSelector i) (in_Tolerations i) (in_StartTime i) (in_Version i).

(** ** Image registries: [image_registry/schema.go] *)
Record ImageRegistry : Type := mkRegistry {
  ir_Audit : mongodb_Audit; ir_ImageRegistryID : string; ir_ProjectID : string; ir_ImageRegistryName : string;
  ir_ImageRepoName : string; ir_ImageRegistryType : string; ir_SecretName : option string;
  ir_SecretNamespace : option string; ir_IsDefault : bool; ir_EnableRegistry : option bool
}.

(** ** Chaos hubs: [chaos_hub/schema.go] *)
Record ChaosHub : Type := mkChaosHub {
  hb_ID : string; hb_ProjectID : string; hb_Resource : ResourceDetails; hb_Audit : mongodb_Audit; hb_RepoURL : string;
  hb_RepoBranch : string; hb_RemoteHub : string; hb_IsPrivate : bool; hb_AuthType : string; hb_HubType : string;
  hb_Token : option string; hb_UserName : option string; hb_Password : option string;
  hb_SSHPrivateKey : option string; hb_SSHPublicKey : option string; hb_LastSyncedAt : Z; hb_IsDefault : bool
}.

(** ** Probes: [probe/schema.go]

    The run properties that all four kinds of probe have stand in a record of
    their own. [SourceDetails] is a type of the chaos operator: its text. *)
Record CommonProbeProperties : Type := mkCommonProps {
  cp_ProbeTimeout : string; cp_Interval : string; cp_EvaluationTimeout : option string;
  cp_PollingInterval : option string; cp_InitialDelay : option string; cp_Retry : option Z;
  cp_Attempt : option Z; cp_StopOnFailure : option bool
}.
Record GET : Type := mkGET { get_Criteria : string; get_ResponseCode : string }.
Record POST : Type := mkPOST {
  post_ContentType : option string; post_Body : option string; post_BodyPath : option string;
  post_Criteria : string; post_ResponseCode : string
}.
Record Method : Type := mkMethod { me_GET : option GET; me_POST : option POST }.
Record Comparator : Type := mkComparator { co_Type : string; co_Value : string; co_Criteria : string }.

Record KubernetesHTTPProbe : Type := mkHTTPProbe {
  hp_URL : string; hp_Common : CommonProbeProperties; hp_Method : Method; hp_InsecureSkipVerify : option bool
}.
Record KubernetesCMDProbe : Type := mkCMDProbe {
  cm_Command : string; cm_Common : CommonProbeProperties; cm_Comparator : Comparator; cm_Source : option string
}.
Record PROMProbe : Type := mkPROMProbe {
  pr_Endpoint : string; pr_Query : option string; pr_QueryPath : option string;
  pr_Common : CommonProbeProperties; pr_Comparator : Comparator
}.
Record K8SProbe : Type := mkK8SProbe {
  kp_Group : option string; kp_Version : string; kp_Resource : string; kp_ResourceNames : option string;
  kp_Namespace : option string; kp_FieldSelector : option string; kp_LabelSelector : option string;
  kp_Operation : string; kp_Common : CommonProbeProperties
}.

Definition ProbeTypeHTTPProbe : string := "httpProbe".
Definition ProbeTypeCmdProbe : string := "cmdProbe".
Definition ProbeTypePromProbe : string := "promProbe".
Definition ProbeTypeK8sProbe : string := "k8sProbe".
Definition InfrastructureTypeKubernetes : string := "Kubernetes".

(** [recent_executions] and [average_success_percentage] are never set. *)
Record Probe : Type := mkProbe {
  pb_ProjectID : string; pb_Resource : ResourceDetails; pb_Audit : mongodb_Audit; pb_Type : string;
  pb_InfrastructureType : string; pb_HTTP : option KubernetesHTTPProbe; pb_CMD : option KubernetesCMDProbe;
  pb_PROM : option PROMProbe; pb_K8S : option K8SProbe
}.
Definition set_pb_audit (a : mongodb_Audit) (p : Probe) : Probe :=
  mkProbe (pb_ProjectID p) (pb_Resource p) a (pb_Type p) (pb_InfrastructureType p) (pb_HTTP p) (pb_CMD p)
    (pb_PROM p) (pb_K8S p).

(** ** GitOps: [database/mongodb/gitops/schema.go] *)
Definition AuthTypeBasic : string := "BASIC".
Definition AuthTypeNone : string := "NONE".
Definition AuthTypeSSH : string := "SSH".
Definition AuthTypeToken : string := "TOKEN".

(** [model.GitConfig]: the repository a caller asks for. *)
Record GitConfigInput : Type := mkGitConfigInput {
  gi_Branch : string; gi_RepoURL : string; gi_AuthType : string; gi_Token : option string;
  gi_UserName : option string; gi_Password : option string; gi_SSHPrivateKey : option string
}.
Record GitConfigDB : Type := mkGitConfigDB {
  gd_ProjectID : string; gd_RepositoryURL : string; gd_Branch : string; gd_LatestCommit : string;
  gd_AuthType : string; gd_UserName : option string; gd_Password : option string; gd_Token : option string;
  gd_SSHPrivateKey : option string
}.
Definition GetGitConfigDB (projectID : string) (config : GitConfigInput) : GitConfigDB :=
  mkGitConfigDB projectID (gi_RepoURL config) (gi_Branch config) "" (gi_AuthType config) (gi_UserName config)
    (gi_Password config) (gi_Token config) (gi_SSHPrivateKey config).
Definition set_latest_commit (commit : string) (c : GitConfigDB) : GitConfigDB :=
  mkGitConfigDB (gd_ProjectID c) (gd_RepositoryURL c) (gd_Branch c) commit (gd_AuthType c) (gd_UserName c)
    (gd_Password c) (gd_Token c) (gd_SSHPrivateKey c).

(** The author of commits, and the credentials of a remote. *)
Record GitUser : Type := mkGitUser { gu_username : string; gu_email : string }.
Inductive AuthMethod : Type := BasicAuth (username password : string) | PublicKeys (user key : string).

(** What the server did to its disk and its repositories: the calls that
    reported success. A repository is named by the directory it is in. *)
Inductive GitCall : Type :=
| CallRemoveAll (path : string)
| CallRename (from to : string)
| CallMkdirAll (path : string)
| CallWriteFile (path data : string)
| CallClone (path url branch : string) (auth : option AuthMethod)
| CallFetch (path remote : string) (auth : option AuthMethod)
| CallReset (path : string) (hash : option string)
| CallCheckout (path branch : string) (create : bool)
| CallAdd (path dir : string)
| CallRemove (path file : string)
| CallCommit (path message : string) (author : GitUser) (hash : string)
| CallPush (path remote : string) (auth : option AuthMethod)
| CallPull (path remote reference : string) (auth : option AuthMethod)
| CallCreate (path : string)
| CallRemoveFile (path : string).

(** ** Messages to infrastructures *)
Record ActionPayload : Type := mkAction {
  ap_RequestID : string; ap_RequestType : string; ap_K8sManifest : string; ap_Namespace : string;
  ap_ExternalData : option string; ap_Username : option string
}.
Record InfraActionResponse : Type := mkInfraAction { ia_ProjectID : string; ia_Action : ActionPayload }.

(** [model.InfraEventResponse]: the infrastructure in it is copied from a
    document, which stands for it here. *)
Record InfraEventResponse : Type := mkInfraEvent {
  iv_EventID : string; iv_EventType : string; iv_EventName : string; iv_Description : string; iv_Infra : ChaosInfra
}.
Record PodLogResponse : Type := mkPodLogResponse {
  pl_ExperimentRunID : string; pl_PodName : string; pl_PodType : string; pl_Log : string
}.
(** The object data is JSON of the cluster, kept as what it decodes to. *)
Record KubeObjectResponse : Type := mkKubeObject { ko_InfraID : string; ko_Data : string }.

(** ** Connections: [data-store/store.go]

    Channels are references: a map entry holds the number of its channel. An
    action channel has the messages put on it so far, an event channel (of one
    place) what its reader has not taken yet. The channel a client waits on for
    one reply is reached through its request identifier only: the replies sent
    on it and whether it was closed. *)
Record Reply (A : Type) : Type := mkReply { rp_Sent : list A; rp_Closed : bool }.
Arguments mkReply {A} _ _.
Arguments rp_Sent {A} _.
Arguments rp_Closed {A} _.

Record StateData : Type := mkStateData {
  ConnectedInfra : gmap string nat;
  InfraEventPublish : gmap string (list nat);
  ExperimentLog : gmap string (Reply PodLogResponse);
  KubeObjectData : gmap string (Reply KubeObjectResponse);
  KubeNamespaceData : gmap string (Reply KubeObjectResponse);
  sd_Actions : gmap nat (list InfraActionResponse);
  sd_Events : gmap nat (list InfraEventResponse);
  sd_Next : nat
}.
Definition NewStore : StateData := mkStateData ∅ ∅ ∅ ∅ ∅ ∅ ∅ 0.

(** [observer <- newAction] *)
Definition send_action (observer : nat) (a : InfraActionResponse) (r : StateData) : StateData :=
  mkStateData (ConnectedInfra r) (InfraEventPublish r) (ExperimentLog r) (KubeObjectData r) (KubeNamespaceData r)
    (<[observer := (default [] (sd_Actions r !! observer) ++ [a])%list]> (sd_Actions r)) (sd_Events r) (sd_Next r).

(** [make(chan ..., 1)] put in the map of connected infrastructures. *)
Definition connect_infra (infraID : string) (r : StateData) : StateData :=
  mkStateData (<[infraID := sd_Next r]> (ConnectedInfra r)) (InfraEventPublish r) (ExperimentLog r) (KubeObjectData r)
    (KubeNamespaceData r) (<[sd_Next r := []]> (sd_Actions r)) (sd_Events r) (S (sd_Next r)).
