(* ===== verification/Experiments.v ===== *)
(** * Experiments.v: experiments and their runs in the control plane

    The documents of the collections [chaosExperiments] and
    [chaosExperimentRuns] ([graphql/server/pkg/database/mongodb]), the state the
    GraphQL server keeps for connected infrastructures
    ([pkg/data-store/store.go]), and the operators on the two collections. *)
From S2P Require Import Prelude World GoStd GraphDocs.
From Stdlib Require Import Ascii SpecFloat.
Local Open Scope string_scope.
Local Open Scope Z_scope.

(** ** Documents *)

Record Probes : Type := mkProbes { pb_FaultName : string; pb_ProbeNames : list string }.

(** A weightage is a pointer in the Go document: [None] is [nil]. The slice of
    weightages is [nil], and null in the database, when none was given. *)
Record WeightagesInput : Type := mkWeightage { we_FaultName : string; we_Weightage : Z }.
Record ExperimentRevision : Type := mkRevision {
  rv_RevisionID : string; rv_ExperimentManifest : string; rv_UpdatedAt : Z;
  rv_Weightages : option (list (option WeightagesInput)); rv_Probes : list Probes
}.
(** A loop over a slice that is [nil] has no round. *)
Definition revision_weights (rev : ExperimentRevision) : list (option WeightagesInput) := default [] (rv_Weightages rev).

(** Scores are [float64]: binary64 values, absent while the pointer is [nil]. *)
Record ExperimentRunDetail : Type := mkRunDetail {
  rd_Audit : mongodb_Audit; rd_ProjectID : string; rd_ExperimentRunID : string; rd_Phase : string;
  rd_NotifyID : option string; rd_ResiliencyScore : option spec_float; rd_Completed : bool;
  rd_RunSequence : Z; rd_Probe : list Probes
}.

Definition NonCronExperiment : string := "experiment".
Definition CronExperiment : string := "cronexperiment".
Definition ChaosEngineExperiment : string := "chaosengine".

Record ChaosExperimentRequest : Type := mkExperiment {
  ex_Name : string; ex_Description : string; ex_Tags : list string; ex_Audit : mongodb_Audit;
  ex_ProjectID : string; ex_ExperimentID : string; ex_CronSyntax : string; ex_InfraID : string;
  ex_ExperimentType : string; ex_Revision : list ExperimentRevision; ex_IsCustomExperiment : bool;
  ex_RecentExperimentRunDetails : list ExperimentRunDetail; ex_TotalExperimentRuns : Z
}.

(** The counters of a run are pointers in the Go document, set and cleared
    together: [None] before the first event. *)
Record FaultCounts : Type := mkFaultCounts {
  fc_Passed : Z; fc_Failed : Z; fc_Awaited : Z; fc_Stopped : Z; fc_NA : Z; fc_Total : Z
}.
Record ChaosExperimentRun : Type := mkRun {
  cr_ProjectID : string; cr_Audit : mongodb_Audit; cr_InfraID : string; cr_ExperimentRunID : string;
  cr_ExperimentID : string; cr_ExperimentName : string; cr_Phase : string; cr_Probes : list Probes;
  cr_ExecutionData : string; cr_RevisionID : string; cr_NotifyID : option string;
  cr_ResiliencyScore : option spec_float; cr_Faults : option FaultCounts; cr_RunSequence : Z;
  cr_Completed : bool
}.

Definition set_recent (l : list ExperimentRunDetail) (e : ChaosExperimentRequest) : ChaosExperimentRequest :=
  mkExperiment (ex_Name e) (ex_Description e) (ex_Tags e) (ex_Audit e) (ex_ProjectID e)
    (ex_ExperimentID e) (ex_CronSyntax e) (ex_InfraID e) (ex_ExperimentType e) (ex_Revision e)
    (ex_IsCustomExperiment e) l (ex_TotalExperimentRuns e).
Definition set_total (n : Z) (e : ChaosExperimentRequest) : ChaosExperimentRequest :=
  mkExperiment (ex_Name e) (ex_Description e) (ex_Tags e) (ex_Audit e) (ex_ProjectID e)
    (ex_ExperimentID e) (ex_CronSyntax e) (ex_InfraID e) (ex_ExperimentType e) (ex_Revision e)
    (ex_IsCustomExperiment e) (ex_RecentExperimentRunDetails e) n.
Definition set_ex_audit (a : mongodb_Audit) (e : ChaosExperimentRequest) : ChaosExperimentRequest :=
  mkExperiment (ex_Name e) (ex_Description e) (ex_Tags e) a (ex_ProjectID e)
    (ex_ExperimentID e) (ex_CronSyntax e) (ex_InfraID e) (ex_ExperimentType e) (ex_Revision e)
    (ex_IsCustomExperiment e) (ex_RecentExperimentRunDetails e) (ex_TotalExperimentRuns e).
Definition set_run_audit (a : mongodb_Audit) (r : ChaosExperimentRun) : ChaosExperimentRun :=
  mkRun (cr_ProjectID r) a (cr_InfraID r) (cr_ExperimentRunID r) (cr_ExperimentID r)
    (cr_ExperimentName r) (cr_Phase r) (cr_Probes r) (cr_ExecutionData r) (cr_RevisionID r)
    (cr_NotifyID r) (cr_ResiliencyScore r) (cr_Faults r) (cr_RunSequence r) (cr_Completed r).

(** ** Run phases: [model.ExperimentRunStatus] *)
Definition ExperimentRunStatusRunning : string := "Running".
Definition ExperimentRunStatusCompleted : string := "Completed".
Definition ExperimentRunStatusStopped : string := "Stopped".
Definition ExperimentRunStatusError : string := "Error".
Definition ExperimentRunStatusTimeout : string := "Timeout".
Definition ExperimentRunStatusTerminated : string := "Terminated".
Definition ExperimentRunStatusQueued : string := "Queued".

(** ** The state of the server: its collections and its connections *)
Record GraphDB : Type := mkGraphDB {
  g_experiments : list ChaosExperimentRequest;
  g_runs : list ChaosExperimentRun;
  g_infras : list ChaosInfra;
  g_environments : list Environment;
  g_probes : list Probe;
  g_registries : list ImageRegistry;
  g_gitconfigs : list GitConfigDB;
  g_hubs : list ChaosHub;
  g_gitcalls : list GitCall;
  g_store : StateData
}.

#[export, refine] Instance experiment_collection : Collection GraphDB ChaosExperimentRequest := {|
  docs := g_experiments;
  set_docs l s := mkGraphDB l (g_runs s) (g_infras s) (g_environments s) (g_probes s) (g_registries s) (g_gitconfigs s) (g_hubs s)
    (g_gitcalls s) (g_store s)
|}.
Proof. all: by try intros []. Defined.
#[export, refine] Instance run_collection : Collection GraphDB ChaosExperimentRun := {|
  docs := g_runs;
  set_docs l s := mkGraphDB (g_experiments s) l (g_infras s) (g_environments s) (g_probes s) (g_registries s) (g_gitconfigs s) (g_hubs s)
    (g_gitcalls s) (g_store s)
|}.
Proof. all: by try intros []. Defined.
#[export, refine] Instance infra_collection : Collection GraphDB ChaosInfra := {|
  docs := g_infras;
  set_docs l s := mkGraphDB (g_experiments s) (g_runs s) l (g_environments s) (g_probes s) (g_registries s) (g_gitconfigs s) (g_hubs s)
    (g_gitcalls s) (g_store s)
|}.
Proof. all: by try intros []. Defined.
#[export, refine] Instance environment_collection : Collection GraphDB Environment := {|
  docs := g_environments;
  set_docs l s := mkGraphDB (g_experiments s) (g_runs s) (g_infras s) l (g_probes s) (g_registries s) (g_gitconfigs s) (g_hubs s)
    (g_gitcalls s) (g_store s)
|}.
Proof. all: by try intros []. Defined.
#[export, refine] Instance probe_collection : Collection GraphDB Probe := {|
  docs := g_probes;
  set_docs l s := mkGraphDB (g_experiments s) (g_runs s) (g_infras s) (g_environments s) l (g_registries s) (g_gitconfigs s) (g_hubs s)
    (g_gitcalls s) (g_store s)
|}.
Proof. all: by try intros []. Defined.
#[export, refine] Instance registry_collection : Collection GraphDB ImageRegistry := {|
  docs := g_registries;
  set_docs l s := mkGraphDB (g_experiments s) (g_runs s) (g_infras s) (g_environments s) (g_probes s) l (g_gitconfigs s) (g_hubs s)
    (g_gitcalls s) (g_store s)
|}.
Proof. all: by try intros []. Defined.
#[export, refine] Instance gitconfig_collection : Collection GraphDB GitConfigDB := {|
  docs := g_gitconfigs;
  set_docs l s := mkGraphDB (g_experiments s) (g_runs s) (g_infras s) (g_environments s) (g_probes s) (g_registries s) l (g_hubs s)
    (g_gitcalls s) (g_store s)
|}.
Proof. all: by try intros []. Defined.
#[export, refine] Instance hub_collection : Collection GraphDB ChaosHub := {|
  docs := g_hubs;
  set_docs l s := mkGraphDB (g_experiments s) (g_runs s) (g_infras s) (g_environments s) (g_probes s) (g_registries s)
    (g_gitconfigs s) l (g_gitcalls s) (g_store s)
|}.
Proof. all: by try intros []. Defined.

Definition set_store (f : StateData → StateData) (s : GraphDB) : GraphDB :=
  mkGraphDB (g_experiments s) (g_runs s) (g_infras s) (g_environments s) (g_probes s) (g_registries s) (g_gitconfigs s) (g_hubs s) (g_gitcalls s)
    (f (g_store s)).
Definition add_gitcall (c : GitCall) (s : GraphDB) : GraphDB :=
  mkGraphDB (g_experiments s) (g_runs s) (g_infras s) (g_environments s) (g_probes s) (g_registries s) (g_gitconfigs s) (g_hubs s)
    (g_gitcalls s ++ [c])%list (g_store s).

Abbreviation GM := (M (World GraphDB)).

(** No unique index concerns the documents of runs. *)
Definition no_key {D} : D → D → bool := λ _ _, false.

(** ** Array filters and the positional operator

    [{"arr.f": v}] selects the documents some element of whose array has
    [f = v]. The element a [$] in the update stands for is the first element
    that matches the condition on the array. With several conditions on the
    array it is an element one of them matches, the driver's choice. *)
Class Positional :=
  positional_choice : nat → list (ExperimentRunDetail → bool) → list ExperimentRunDetail → option nat.

(** The position of the first element that satisfies [f]. *)
Fixpoint find_index {A} (f : A → bool) (l : list A) : option nat :=
  match l with
  | [] => None
  | x :: l => if f x then Some 0%nat else S <$> find_index f l
  end.

Class PositionalLaws (ps : Positional) : Prop := {
  positional_single n c l : positional_choice n [c] l = find_index c l;
  positional_many n cs l i :
    positional_choice n cs l = Some i → ∃ c d, c ∈ cs ∧ l !! i = Some d ∧ c d = true;
}.

Definition array_match (cs : list (ExperimentRunDetail → bool)) (l : list ExperimentRunDetail) : bool :=
  forallb (λ c, existsb c l) cs.

Section operators.
Context `{MongoDriver} `{Runtime}.

(** [CountDocuments] *)
Definition CountDocuments {D} `{Collection GraphDB D} (q : D → bool) : GM (res Z) :=
  let? l := Aggregate (λ l, [Z.of_nat (length (List.filter q l))]) in
  mret (Ok (default 0 (head l))).

(** *** [chaos_experiment/operations.go] *)
Definition GetExperiment (q : ChaosExperimentRequest → bool) : GM (res ChaosExperimentRequest) :=
  FindOne q.
Definition UpdateChaosExperiment (q : ChaosExperimentRequest → bool)
    (f : ChaosExperimentRequest → ChaosExperimentRequest) : GM (res unit) :=
  let? _ := UpdateOne q f in mret (Ok tt).

(** *** [chaos_experiment_run/operations.go] *)
Definition CreateExperimentRun (r : ChaosExperimentRun) : GM (res unit) := InsertOne no_key r.
Definition GetExperimentRuns (q : ChaosExperimentRun → bool) : GM (res (list ChaosExperimentRun)) :=
  Find q.
Definition CountExperimentRuns (q : ChaosExperimentRun → bool) : GM (res Z) := CountDocuments q.
Definition GetExperimentRun (q : ChaosExperimentRun → bool) : GM (res ChaosExperimentRun) := FindOne q.
Definition UpdateExperimentRunWithQuery (q : ChaosExperimentRun → bool)
    (f : ChaosExperimentRun → ChaosExperimentRun) : GM (res unit) :=
  let? _ := UpdateOne q f in mret (Ok tt).

(** The run an event is about: by its notification when it has one. *)
Definition run_query (experimentID runID : string) (notifyID : option string) (r : ChaosExperimentRun) : bool :=
  str_eq (cr_ExperimentID r) experimentID &&
  match notifyID with
  | Some n => bool_decide (cr_NotifyID r = Some n)
  | None => str_eq (cr_ExperimentRunID r) runID
  end.

(** The [$set] of an event. *)
Definition merge_run (wfRun r : ChaosExperimentRun) : ChaosExperimentRun :=
  mkRun (cr_ProjectID r)
    (set_is_removed (au_IsRemoved (cr_Audit wfRun))
       (touch (au_UpdatedAt (cr_Audit wfRun)) (au_UpdatedBy (cr_Audit wfRun)) (cr_Audit r)))
    (cr_InfraID r) (cr_ExperimentRunID wfRun) (cr_ExperimentID r) (cr_ExperimentName r)
    (cr_Phase wfRun) (cr_Probes r) (cr_ExecutionData wfRun) (cr_RevisionID r) (cr_NotifyID r)
    (cr_ResiliencyScore wfRun) (cr_Faults wfRun) (cr_RunSequence r) (cr_Completed wfRun).

Definition UpdateExperimentRun (wfRun : ChaosExperimentRun) : GM (res Z) :=
  let query := run_query (cr_ExperimentID wfRun) (cr_ExperimentRunID wfRun) (cr_NotifyID wfRun) in
  let? count := CountDocuments query in
  if bool_decide (count = 0) then
    t ← now;
    let? _ := InsertOne no_key (set_run_audit (set_created_at t (cr_Audit wfRun)) wfRun) in
    mret (Ok 1)
  else if bool_decide (count = 1) then
    let? matched := UpdateOne (λ r, query r && negb (cr_Completed r)) (merge_run wfRun) in
    mret (Ok (Z.of_nat matched))
  else mret (Ok 1).
End operators.

(** ** Messages to infrastructures: [chaos_infrastructure/infra_utils.go]

    [manifest_namespace] is [yaml.Unmarshal] into an unstructured object
    followed by [GetNamespace]; its error ends the call. *)
Class ManifestNamespace := manifest_namespace : string → option string.

Record SubscriberRequests : Type := mkSubscriberRequest {
  sr_RequestType : string; sr_K8sManifest : string; sr_ExternalData : option string;
  sr_ProjectID : string; sr_InfraID : string; sr_Namespace : string; sr_Username : option string
}.

Definition SendRequestToSubscriber (sr : SubscriberRequests) : GM unit := λ w,
  let newAction := mkInfraAction (sr_ProjectID sr)
    (mkAction "" (sr_RequestType sr) (sr_K8sManifest sr) (sr_Namespace sr) (sr_ExternalData sr) (sr_Username sr)) in
  match ConnectedInfra (g_store (db w)) !! sr_InfraID sr with
  | Some observer => (tt, mkWorld (set_store (send_action observer newAction) (db w)) (tick w))
  | None => (tt, w)
  end.

Definition SendExperimentToSubscriber `{ManifestNamespace} (projectID manifest infraID : string)
    (username externalData : option string) (reqType : string) : GM unit :=
  match manifest_namespace manifest with
  | None => mret tt
  | Some ns =>
      SendRequestToSubscriber
        (mkSubscriberRequest reqType manifest externalData projectID infraID ns username)
  end.
