(* ===== verification/RunScore.v ===== *)
(** * RunScore.v: the resiliency score of a completed run

    [ProcessCompletedExperimentRun] of
    [graphql/server/pkg/chaos_experiment_run/service.go] and [Truncate] of
    [graphql/server/utils/misc.go]. *)
From S2P Require Import Prelude World GoStd Float64 GraphDocs Experiments.
From Stdlib Require Import Ascii SpecFloat.
Local Open Scope string_scope.
Local Open Scope Z_scope.

(** [utils.Truncate] *)
Definition Truncate `{FloatToInt} (num : spec_float) : spec_float :=
  f64_div (float64 (int_of_float64 (f64_mul num (float64 100)))) (float64 100).

(** ** Execution data: the fields the server reads *)
Record ProbeStatus : Type := mkProbeStatus {
  ps_Name : string; ps_Mode : string; ps_Verdict : string; ps_Description : string
}.
(** Of the chaos result, a type of the chaos operator, the probe statuses. *)
Record ChaosData : Type := mkChaosData {
  cd_EngineName : string; cd_ExperimentVerdict : string; cd_ProbeSuccessPercentage : string;
  cd_ChaosResult : option (list ProbeStatus)
}.
Record Node : Type := mkNode { nd_Name : string; nd_Type : string; nd_ChaosExp : option ChaosData }.
Record ExecutionData : Type := mkExecutionData {
  ed_RevisionID : string; ed_Phase : string; ed_Nodes : gmap string Node
}.
Definition no_execution_data : ExecutionData := mkExecutionData "" "" ∅.

Record ExperimentRunMetrics : Type := mkMetrics {
  me_ResiliencyScore : spec_float; me_Passed : Z; me_Failed : Z; me_Awaited : Z; me_Stopped : Z;
  me_NA : Z; me_Total : Z
}.
Definition no_metrics : ExperimentRunMetrics := mkMetrics (S754_zero false) 0 0 0 0 0 0.
Definition set_score (s : spec_float) (m : ExperimentRunMetrics) : ExperimentRunMetrics :=
  mkMetrics s (me_Passed m) (me_Failed m) (me_Awaited m) (me_Stopped m) (me_NA m) (me_Total m).
Definition set_total_experiments (n : Z) (m : ExperimentRunMetrics) : ExperimentRunMetrics :=
  mkMetrics (me_ResiliencyScore m) (me_Passed m) (me_Failed m) (me_Awaited m) (me_Stopped m) (me_NA m) n.

(** ** Weights *)

(** The loop over the weightages of one revision; a [nil] entry panics. *)
Fixpoint add_weights (ws : list (option WeightagesInput)) (acc : gmap string Z * Z) :
    option (gmap string Z * Z) :=
  match ws with
  | [] => Some acc
  | None :: _ => None
  | Some w :: ws =>
      add_weights ws (<[we_FaultName w := we_Weightage w]> acc.1, int64 (acc.2 + we_Weightage w))
  end.

Fixpoint collect_weights (revisionID : string) (revs : list ExperimentRevision) (acc : gmap string Z * Z) :
    option (gmap string Z * Z) :=
  match revs with
  | [] => Some acc
  | rev :: revs =>
      acc' ← (if str_eq (rv_RevisionID rev) revisionID then add_weights (revision_weights rev) acc
              else Some acc);
      collect_weights revisionID revs acc'
  end.

(** ** Nodes *)

(** [for expName := range weightMap]: the last name that occurs in the engine's. *)
Definition match_fault (order : list string) (engineName : string) : string :=
  fold_left (λ found expName, if Contains engineName expName then expName else found) order "".

Definition count_verdict (verdict : string) (m : ExperimentRunMetrics) : ExperimentRunMetrics :=
  let inc (b : bool) (z : Z) := if b then int64 (z + 1) else z in
  mkMetrics (me_ResiliencyScore m) (inc (str_eq verdict "Pass") (me_Passed m))
    (inc (str_eq verdict "Fail") (me_Failed m)) (inc (str_eq verdict "Awaited") (me_Awaited m))
    (inc (str_eq verdict "Stopped") (me_Stopped m))
    (inc (str_eq verdict "N/A" || str_eq verdict "") (me_NA m)) (me_Total m).

Definition add_result (weightMap : gmap string Z) (fault : string) (c : ChaosData) (total : Z) : Z :=
  match weightMap !! fault with
  | Some weight => int64 (total + int64 (weight * Atoi_value (cd_ProbeSuccessPercentage c)))
  | None => total
  end.

Section score.
Context `{MongoDriver} `{Runtime} `{MapOrder} `{FloatToInt}.

(** [for k := range m]: the keys, in an order of Go's choice. *)
Definition range_keys {A} (m : gmap string A) : GM (list string) :=
  λ w, (map_order (tick w) (map_to_list m).*1, bump w).

Definition visit_node (weightMap : gmap string Z) (node : Node) (acc : Z * ExperimentRunMetrics) :
    GM (Z * ExperimentRunMetrics) :=
  if str_eq (nd_Type node) "ChaosEngine" then
    match nd_ChaosExp node with
    | None => mret acc
    | Some c =>
        order ← range_keys weightMap;
        mret (add_result weightMap (match_fault order (cd_EngineName c)) c acc.1,
              count_verdict (cd_ExperimentVerdict c) acc.2)
    end
  else mret acc.

Fixpoint visit_nodes (weightMap : gmap string Z) (nodes : list Node) (acc : Z * ExperimentRunMetrics) :
    GM (Z * ExperimentRunMetrics) :=
  match nodes with
  | [] => mret acc
  | node :: nodes => acc' ← visit_node weightMap node acc; visit_nodes weightMap nodes acc'
  end.

Definition ProcessCompletedExperimentRun (execData : ExecutionData) (wfID : string) :
    GM (res ExperimentRunMetrics) :=
  let! exp := GetExperiment (λ e, str_eq (ex_ExperimentID e) wfID)
  or _ => mret (Err (ErrNew "failed to get experiment from db on complete")) in
  match collect_weights (ed_RevisionID execData) (ex_Revision exp) (∅, 0) with
  | None => mret Panic
  | Some (weightMap, weightSum) =>
      keys ← range_keys (ed_Nodes execData);
      let nodes := omap (λ k, ed_Nodes execData !! k) keys in
      '(total, result) ← visit_nodes weightMap nodes
         (0, set_total_experiments (Z.of_nat (size weightMap)) no_metrics);
      mret (Ok (if bool_decide (weightSum = 0) then result
                else set_score (Truncate (f64_div (float64 total) (float64 weightSum))) result))
  end.
End score.
