(* ===== verification/RunScoreTheorems.v ===== *)
(** * RunScoreTheorems.v: what the resiliency score is

    The score and the counters of a completed run against a reference that
    does not depend on the order in which Go visits its maps, the range of the
    score, and its precision. *)
From S2P Require Import Prelude World MemMongo GoStd Float64 GraphDocs Experiments RunScore.
From Stdlib Require Import Ascii SpecFloat.
Local Open Scope string_scope.
Local Open Scope Z_scope.

(** ** The reference *)

(** The engines the run executed and the faults the revision weighs. *)
Definition engine_of (n : Node) : option ChaosData :=
  if str_eq (nd_Type n) "ChaosEngine" then nd_ChaosExp n else None.
Definition engines (nodes : gmap string Node) : list ChaosData :=
  omap engine_of (map_to_list nodes).*2.
Definition fault_names (wm : gmap string Z) : list string := (map_to_list wm).*1.

(** The faults whose name occurs in the engine's, and the weight of the first. *)
Definition faults_of (wm : gmap string Z) (c : ChaosData) : list string :=
  List.filter (Contains (cd_EngineName c)) (fault_names wm).
Definition weight_of (wm : gmap string Z) (c : ChaosData) : Z :=
  default 0 (head (faults_of wm c) ≫= λ f, wm !! f).
Definition percentage (c : ChaosData) : Z := Atoi_value (cd_ProbeSuccessPercentage c).

Definition Zsum (l : list Z) : Z := foldr Z.add 0 l.
Definition weighted_total (wm : gmap string Z) (cs : list ChaosData) : Z :=
  Zsum ((λ c, weight_of wm c * percentage c) <$> cs).
Definition verdicts (vs : list string) (cs : list ChaosData) : Z :=
  Z.of_nat (length (List.filter (λ c, str_in (cd_ExperimentVerdict c) vs) cs)).

(** Every engine belongs to at most one fault. *)
Definition unambiguous (wm : gmap string Z) (cs : list ChaosData) : bool :=
  forallb (λ c, bool_decide (length (faults_of wm c) ≤ 1)%nat) cs.

Definition reference_score `{FloatToInt} (total weightSum : Z) : spec_float :=
  if bool_decide (weightSum = 0) then S754_zero false
  else Truncate (f64_div (float64 total) (float64 weightSum)).

Definition reference_metrics `{FloatToInt} (wm : gmap string Z) (weightSum : Z) (cs : list ChaosData) :
    ExperimentRunMetrics :=
  mkMetrics (reference_score (int64 (weighted_total wm cs)) weightSum)
    (int64 (verdicts ["Pass"] cs)) (int64 (verdicts ["Fail"] cs)) (int64 (verdicts ["Awaited"] cs))
    (int64 (verdicts ["Stopped"] cs)) (int64 (verdicts ["N/A"; ""] cs)) (Z.of_nat (size wm)).

(** ** Machine arithmetic *)
Lemma int64_add_l a b : int64 (int64 a + b) = int64 (a + b).
Proof.
  unfold int64.
  replace ((a + 2 ^ 63) mod 2 ^ 64 - 2 ^ 63 + b + 2 ^ 63) with ((a + 2 ^ 63) mod 2 ^ 64 + b) by lia.
  rewrite Zplus_mod_idemp_l. do 2 f_equal. lia.
Qed.
Lemma int64_add_r a b : int64 (a + int64 b) = int64 (a + b).
Proof. by rewrite Z.add_comm, int64_add_l, Z.add_comm. Qed.
Lemma int64_int64 a : int64 (int64 a) = int64 a.
Proof. apply int64_id, int64_range. Qed.

#[export] Instance Zsum_Proper : Proper ((≡ₚ) ==> (=)) Zsum.
Proof. unfold Zsum. induction 1; cbn in *; lia. Qed.

(** ** Maps visited in any order *)
Lemma omap_perm {A B} (f : A → option B) l l' : l ≡ₚ l' → omap f l ≡ₚ omap f l'.
Proof.
  induction 1 as [|x l l' ? IH|x y l|]; cbn; [done| | |by etrans].
  - destruct (f x); by rewrite IH.
  - destruct (f x), (f y); try done. apply Permutation_swap.
Qed.
Lemma range_values {A} (m : gmap string A) ks :
  ks ≡ₚ (map_to_list m).*1 → omap (λ k, m !! k) ks ≡ₚ (map_to_list m).*2.
Proof.
  intros ->%(omap_perm (λ k, m !! k)).
  assert (∀ l : list (string * A), Forall (λ kv, m !! kv.1 = Some kv.2) l →
    omap (λ k, m !! k) l.*1 = l.*2) as Hl.
  { induction 1 as [|[k a] l Hk ? IH]; cbn; [done|]. cbn in Hk. by rewrite Hk, IH. }
  rewrite Hl; [done|]. apply Forall_forall. intros [k a] ?%elem_of_map_to_list. done.
Qed.

(** The loop keeps the last name that occurs; when at most one does, the order
    is immaterial. *)
Lemma match_fault_last order e d :
  fold_left (λ found expName, if Contains e expName then expName else found) order d =
  default d (last (List.filter (Contains e) order)).
Proof.
  revert d. induction order as [|x order IH]; intros d; cbn; [done|].
  rewrite IH. destruct (Contains e x); [|done]. rewrite last_cons.
  by destruct (last _).
Qed.

Section reference.
Context {drv : MongoDriver} {laws : MongoLaws drv} {rt : Runtime} {mo : MapOrder}
  {molaws : MapOrderLaws mo} {fi : FloatToInt}.
Implicit Types w : World GraphDB.

Lemma match_fault_head wm c order :
  order ≡ₚ fault_names wm → (length (faults_of wm c) ≤ 1)%nat →
  match_fault order (cd_EngineName c) = default "" (head (faults_of wm c)).
Proof.
  intros Hp%(filterb_perm (Contains (cd_EngineName c))) Hlen.
  unfold match_fault. rewrite match_fault_last.
  fold (faults_of wm c) in Hp.
  destruct (faults_of wm c) as [|f []]; cbn in Hlen; [| |lia].
  - by apply Permutation_nil_r in Hp as ->.
  - by apply Permutation_singleton_r in Hp as ->.
Qed.

Lemma fault_in_map wm c f : head (faults_of wm c) = Some f → is_Some (wm !! f).
Proof.
  intros [l Hl]%head_Some. assert (f ∈ faults_of wm c) as Hf by (rewrite Hl; set_solver).
  apply elem_of_filterb in Hf as [([? z] & -> & Hz%elem_of_map_to_list)%list_elem_of_fmap _]. eauto.
Qed.

(** No name occurs: the empty key is not in the map either, since the empty
    name occurs everywhere. *)
Lemma no_fault_no_key wm c : faults_of wm c = [] → wm !! "" = None.
Proof.
  intros Hnil. destruct (wm !! "") as [z|] eqn:E; [|done]. exfalso.
  assert ("" ∈ faults_of wm c) as Hin; [|rewrite Hnil in Hin; set_solver].
  apply elem_of_filterb. split; [|by destruct (cd_EngineName c)].
  apply list_elem_of_fmap. exists ("", z). split; [done|]. by apply elem_of_map_to_list.
Qed.

Lemma add_result_reference wm c order total :
  order ≡ₚ fault_names wm → (length (faults_of wm c) ≤ 1)%nat → is_int64 total →
  add_result wm (match_fault order (cd_EngineName c)) c total = int64 (total + weight_of wm c * percentage c).
Proof.
  intros Hp Hlen Ht. rewrite (match_fault_head wm c) by done.
  unfold add_result, weight_of. destruct (head (faults_of wm c)) as [f|] eqn:E; cbn.
  - destruct (fault_in_map _ _ _ E) as [z ->]. cbn. apply int64_add_r.
  - rewrite (no_fault_no_key wm c); [|by destruct (faults_of wm c)]. cbn.
    by rewrite Z.add_0_r, int64_id.
Qed.

(** What the loop has accumulated. *)
Definition tally (score : spec_float) (n : Z) (cs : list ChaosData) : ExperimentRunMetrics :=
  mkMetrics score (int64 (verdicts ["Pass"] cs)) (int64 (verdicts ["Fail"] cs))
    (int64 (verdicts ["Awaited"] cs)) (int64 (verdicts ["Stopped"] cs))
    (int64 (verdicts ["N/A"; ""] cs)) n.

Lemma verdicts_snoc vs cs c :
  verdicts vs (cs ++ [c]) = verdicts vs cs + if str_in (cd_ExperimentVerdict c) vs then 1 else 0.
Proof.
  unfold verdicts. rewrite List.filter_app, length_app. cbn. destruct (str_in _ _); cbn; lia.
Qed.
Lemma verdicts_perm vs cs cs' : cs ≡ₚ cs' → verdicts vs cs = verdicts vs cs'.
Proof. intros Hp. unfold verdicts. by rewrite (filterb_perm _ _ _ Hp). Qed.

Lemma inc_verdict b z : (if b : bool then int64 (int64 z + 1) else int64 z) = int64 (z + if b then 1 else 0).
Proof. destruct b; [apply int64_add_l|by rewrite Z.add_0_r]. Qed.

Lemma count_verdict_tally s n cs c :
  count_verdict (cd_ExperimentVerdict c) (tally s n cs) = tally s n (cs ++ [c]).
Proof.
  unfold count_verdict, tally. cbn [me_ResiliencyScore me_Passed me_Failed me_Awaited me_Stopped me_NA me_Total].
  rewrite !verdicts_snoc, !inc_verdict.
  assert (∀ v, str_eq (cd_ExperimentVerdict c) v = str_in (cd_ExperimentVerdict c) [v]) as Hone.
  { intros v. unfold str_eq, str_in. apply bool_decide_ext. set_solver. }
  rewrite !Hone. do 3 f_equal. rewrite <-!Hone. unfold str_eq, str_in.
  repeat case_bool_decide; set_solver.
Qed.

Lemma visit_node_engine wm nd acc :
  visit_node wm nd acc =
  match engine_of nd with
  | None => mret acc
  | Some c => order ← range_keys wm;
              mret (add_result wm (match_fault order (cd_EngineName c)) c acc.1,
                    count_verdict (cd_ExperimentVerdict c) acc.2)
  end.
Proof. unfold visit_node, engine_of. by destruct (str_eq _ _). Qed.

Lemma wp_visit_nodes wm nodes s n done_ w :
  unambiguous wm (omap engine_of nodes) = true →
  wp (visit_nodes wm nodes (int64 (weighted_total wm done_), tally s n done_))
     (λ o w', db w' = db w ∧
        o = (int64 (weighted_total wm (done_ ++ omap engine_of nodes)),
             tally s n (done_ ++ omap engine_of nodes))) w.
Proof.
  revert done_ w. induction nodes as [|nd nodes IH]; intros done_ w Hun; cbn [visit_nodes].
  { wp_step. cbn. by rewrite app_nil_r. }
  wp_step. rewrite visit_node_engine. cbn [omap list_omap] in *.
  destruct (engine_of nd) as [c|]; [|wp_step; by apply IH].
  cbn [unambiguous forallb] in Hun. apply andb_true_iff in Hun as [Hlen%bool_decide_eq_true Hun].
  wp_step. unfold wp at 1, range_keys. cbn [fst snd]. wp_step. cbn [fst snd].
  rewrite add_result_reference; [|by apply map_order_perm|done|apply int64_range].
  rewrite int64_add_l, count_verdict_tally.
  assert (weighted_total wm done_ + weight_of wm c * percentage c = weighted_total wm (done_ ++ [c])) as ->.
  { unfold weighted_total, Zsum. rewrite fmap_app, foldr_app. cbn.
    induction done_ as [|x done_ IHd]; cbn; lia. }
  eapply wp_mono; [by apply IH|]. cbn. intros o w'. by rewrite <-app_assoc.
Qed.

Lemma weighted_total_perm wm cs cs' : cs ≡ₚ cs' → weighted_total wm cs = weighted_total wm cs'.
Proof. intros Hp. unfold weighted_total. by rewrite Hp. Qed.
Lemma tally_perm s n cs cs' : cs ≡ₚ cs' → tally s n cs = tally s n cs'.
Proof. intros Hp. unfold tally. by rewrite !(verdicts_perm _ _ _ Hp). Qed.

Lemma unambiguous_perm wm cs cs' : cs ≡ₚ cs' → unambiguous wm cs = unambiguous wm cs'.
Proof.
  unfold unambiguous. induction 1 as [|x ??? IH|x y l|]; cbn; [done|by rewrite IH| |by etrans].
  by rewrite !andb_assoc, (andb_comm (bool_decide _)).
Qed.

Lemma wp_range_keys {A} (m : gmap string A) w :
  wp (range_keys m) (λ ks w', db w' = db w ∧ ks ≡ₚ (map_to_list m).*1) w.
Proof. split; [done|]. apply map_order_perm. Qed.

Lemma wp_ProcessCompleted execData wfID exp wm weightSum w :
  exp ∈ g_experiments (db w) → ex_ExperimentID exp = wfID →
  (∀ e, e ∈ g_experiments (db w) → ex_ExperimentID e = wfID → e = exp) →
  collect_weights (ed_RevisionID execData) (ex_Revision exp) (∅, 0) = Some (wm, weightSum) →
  unambiguous wm (engines (ed_Nodes execData)) = true →
  wp (ProcessCompletedExperimentRun execData wfID)
     (λ r w', db w' = db w ∧
        r = match mongo_find_one (tick w) (λ e, str_eq (ex_ExperimentID e) wfID) (g_experiments (db w)) with
            | Ok _ => Ok (reference_metrics wm weightSum (engines (ed_Nodes execData)))
            | _ => Err (ErrNew "failed to get experiment from db on complete")
            end) w.
Proof.
  intros Hin Hid Huniq Hcol Hun. unfold ProcessCompletedExperimentRun. wp_step. unfold wp at 1.
  cbn [GetExperiment FindOne fst snd docs experiment_collection].
  pose proof (find_one_law (tick w) (λ e, str_eq (ex_ExperimentID e) wfID) (g_experiments (db w))) as Hfind.
  destruct (mongo_find_one _ _ _) as [e|e|]; cbn in Hfind; [|by wp_step|done].
  destruct Hfind as [He Heid%str_eq_true]. rewrite (Huniq e He Heid), Hcol.
  wp_step. wp_use wp_range_keys. intros keys w1 [E1 Hkeys]. apply range_values in Hkeys.
  apply (omap_perm engine_of) in Hkeys as Hp. change (omap engine_of (map_to_list _).*2) with (engines (ed_Nodes execData)) in Hp.
  wp_step. change (0, set_total_experiments (Z.of_nat (size wm)) no_metrics)
    with (int64 (weighted_total wm []), tally (S754_zero false) (Z.of_nat (size wm)) []).
  eapply wp_mono; [apply wp_visit_nodes; by rewrite (unambiguous_perm _ _ _ Hp)|].
  cbn [app]. intros o w2 [E2 ->]. wp_step. split; [by rewrite E2, E1|].
  rewrite (weighted_total_perm wm _ _ Hp), (tally_perm _ _ _ _ Hp).
  unfold reference_metrics, reference_score, tally. by case_bool_decide.
Qed.
End reference.

(** ** The range of the total *)

(** The weightages the score uses, and when they are sound. *)
Definition weightages (revisionID : string) (revs : list ExperimentRevision) : list (option WeightagesInput) :=
  concat (revision_weights <$> List.filter (λ rev, str_eq (rv_RevisionID rev) revisionID) revs).
Definition weight_sum (ws : list (option WeightagesInput)) : Z := Zsum (we_Weightage <$> omap id ws).
Definition valid_weightage (o : option WeightagesInput) : bool :=
  match o with Some wt => bool_decide (0 ≤ we_Weightage wt) | None => false end.
Definition valid_weightages (ws : list (option WeightagesInput)) : bool :=
  forallb valid_weightage ws &&
  bool_decide (weight_sum ws ≤ 2 ^ 36).

Definition values_sum (wm : gmap string Z) : Z := Zsum (map_to_list wm).*2.
Definition nonneg (wm : gmap string Z) : Prop := ∀ f z, wm !! f = Some z → 0 ≤ z.

Lemma add_weights_app ws1 ws2 acc :
  add_weights (ws1 ++ ws2) acc = add_weights ws1 acc ≫= add_weights ws2.
Proof. revert acc. induction ws1 as [|[wt|] ws1 IH]; intros acc; cbn; done || apply IH. Qed.

Lemma collect_add_weights revisionID revs acc :
  collect_weights revisionID revs acc = add_weights (weightages revisionID revs) acc.
Proof.
  revert acc. induction revs as [|rev revs IH]; intros acc; cbn; [done|].
  unfold weightages in *. cbn. destruct (str_eq _ _); cbn; [|apply IH].
  rewrite add_weights_app. destruct (add_weights (revision_weights rev) acc); cbn; [apply IH|done].
Qed.

Lemma values_sum_delete wm f z : wm !! f = Some z → values_sum wm = z + values_sum (delete f wm).
Proof. intros Hf. unfold values_sum. by rewrite <-(map_to_list_delete _ _ _ Hf). Qed.

Lemma nonneg_delete wm f : nonneg wm → nonneg (delete f wm).
Proof. intros Hn g z [_ Hg]%lookup_delete_Some. eauto. Qed.

Lemma values_sum_insert wm f z :
  nonneg wm → 0 ≤ z → nonneg (<[f := z]> wm) ∧ values_sum (<[f := z]> wm) ≤ values_sum wm + z.
Proof.
  intros Hn Hz. split.
  { intros g y [[_ <-]|[_ ?]]%lookup_insert_Some; eauto. }
  rewrite (values_sum_delete _ f z) by apply lookup_insert_eq. rewrite delete_insert_eq.
  destruct (wm !! f) as [y|] eqn:E; [rewrite (values_sum_delete wm f y E); pose proof (Hn _ _ E); lia|].
  rewrite delete_id by done. lia.
Qed.

Lemma Zsum_nonneg l : Forall (λ z, 0 ≤ z) l → 0 ≤ Zsum l.
Proof. induction 1; cbn in *; [done|]. unfold Zsum in *. cbn. lia. Qed.

Lemma values_sum_nonneg wm : nonneg wm → 0 ≤ values_sum wm.
Proof.
  intros Hn. apply Zsum_nonneg, Forall_fmap, Forall_forall. intros [k v] Hkv%elem_of_map_to_list.
  eapply Hn, Hkv.
Qed.

Lemma weight_sum_nonneg ws : forallb valid_weightage ws = true → 0 ≤ weight_sum ws.
Proof.
  intros Hws. apply Zsum_nonneg, Forall_fmap, Forall_forall. intros wt (o & Ho & Ewt)%list_elem_of_omap. unfold id in Ewt. subst o.
  rewrite forallb_forall in Hws. specialize (Hws (Some wt) ltac:(by apply list_elem_of_In)).
  by apply bool_decide_eq_true in Hws.
Qed.

Lemma add_weights_spec ws wm s :
  forallb valid_weightage ws = true → nonneg wm → values_sum wm ≤ s → s + weight_sum ws < 2 ^ 63 →
  ∃ wm', add_weights ws (wm, s) = Some (wm', s + weight_sum ws) ∧ nonneg wm' ∧
    values_sum wm' ≤ s + weight_sum ws.
Proof.
  revert wm s. induction ws as [|[wt|] ws IH]; intros wm s Hws Hn Hs Hlt; [| |done].
  { exists wm. cbn in *. rewrite Z.add_0_r. split_and!; done. }
  cbn in Hws. apply andb_true_iff in Hws as [Hwt%bool_decide_eq_true Hws].
  pose proof (weight_sum_nonneg _ Hws). pose proof (values_sum_nonneg _ Hn).
  assert (weight_sum (Some wt :: ws) = we_Weightage wt + weight_sum ws) as Hcons by done.
  rewrite Hcons in *. destruct (values_sum_insert wm (we_FaultName wt) (we_Weightage wt) Hn Hwt) as [Hn' Hv].
  cbn [add_weights fst snd]. rewrite int64_id by (unfold is_int64; lia).
  rewrite Z.add_assoc. apply IH; [done|done|lia|lia].
Qed.

(** ** Sharing the weights *)
Definition claims_of (wm : gmap string Z) (cs : list ChaosData) : list string :=
  omap (λ c, head (faults_of wm c)) cs.
Definition valid_percentage (c : ChaosData) : bool :=
  bool_decide (0 ≤ percentage c) && bool_decide (percentage c ≤ 100).

Lemma sum_of_claims wm fs :
  nonneg wm → NoDup fs → Zsum ((λ f, default 0 (wm !! f)) <$> fs) ≤ values_sum wm.
Proof.
  intros Hn HN. revert wm Hn. induction HN as [|f fs Hf HN IH]; intros wm Hn; [by apply values_sum_nonneg|].
  change (default 0 (wm !! f) + Zsum ((λ f, default 0 (wm !! f)) <$> fs) ≤ values_sum wm).
  destruct (wm !! f) as [z|] eqn:E; [|by apply IH].
  rewrite (values_sum_delete _ _ _ E). cbn. apply Zplus_le_compat_l.
  etrans; [|by apply (IH (delete f wm)), nonneg_delete].
  apply Z.eq_le_incl. f_equal. apply list_fmap_ext. intros i g Hg%list_elem_of_lookup_2.
  rewrite lookup_delete_ne; [done|]. by intros ->.
Qed.

Lemma weight_of_nonneg wm c : nonneg wm → 0 ≤ weight_of wm c.
Proof.
  intros Hn. unfold weight_of. destruct (head _) as [f|]; cbn; [|done].
  destruct (wm !! f) eqn:E; cbn; [by eapply Hn|done].
Qed.

Lemma weights_claimed wm cs :
  Zsum (weight_of wm <$> cs) = Zsum ((λ f, default 0 (wm !! f)) <$> claims_of wm cs).
Proof.
  induction cs as [|c cs IH]; [done|]. unfold claims_of in *. cbn -[Zsum]. unfold weight_of at 1.
  destruct (head (faults_of wm c)) as [f|]; cbn [mbind option_bind] in *; cbn in *; unfold Zsum in *; cbn; lia.
Qed.

Lemma weighted_total_bounds wm cs :
  nonneg wm → NoDup (claims_of wm cs) → forallb valid_percentage cs = true →
  0 ≤ weighted_total wm cs ≤ 100 * values_sum wm.
Proof.
  intros Hn HN Hp. pose proof (sum_of_claims wm _ Hn HN) as Hs. rewrite <-weights_claimed in Hs.
  assert (0 ≤ weighted_total wm cs ≤ 100 * Zsum (weight_of wm <$> cs)); [|lia].
  clear -Hn Hp. unfold weighted_total, Zsum. induction cs as [|c cs IH]; cbn in *; [done|].
  apply andb_true_iff in Hp as [Hc Hp]. apply andb_true_iff in Hc as [H1%bool_decide_eq_true H2%bool_decide_eq_true].
  specialize (IH Hp). pose proof (weight_of_nonneg wm c Hn). nia.
Qed.

(** ** The score *)

(** A score between 0 and 100, which every number of cents up to 10000 gives. *)
Definition in_score_range (s : spec_float) : bool :=
  SFleb (S754_zero false) s && SFleb s (float64 100).
Lemma normal_leb m c e :
  2 ^ 52 ≤ Zpos m → Zpos c < 2 ^ 53 → (e < -46 ∨ (e = -46 ∧ Zpos m ≤ Zpos c)) →
  SFleb (S754_finite false m e) (S754_finite false c (-46)) = true.
Proof.
  intros Hm Hc He. unfold SFleb, SFcompare. destruct (Z.compare_spec e (-46)); [|done|lia].
  destruct (Pos.compare_cont Eq m c) eqn:E; [done..|]. change (Pos.compare m c = Gt) in E.
  apply Pos.compare_gt_iff in E. lia.
Qed.

Lemma cents_in_range k : 0 ≤ k ≤ 10000 → in_score_range (f64_div (float64 k) (float64 100)) = true.
Proof.
  intros Hk. destruct (decide (k = 0)) as [->|]; [reflexivity|].
  destruct (int_quotient k 100) as (m & j & E & -> & Hj & HE & Hm & HST & Herr & Hex); [lia..|].
  assert (0 < 2 ^ j) by (apply Z.pow_pos_nonneg; lia).
  assert (Zpos m * 2 ^ j ≤ 100 * 2 ^ E) as Hle.
  { destruct (decide (k = 10000)) as [->|]; [rewrite (Hex 100) by lia; lia|].
    assert (k * 2 ^ E ≤ 9999 * 2 ^ E) by (apply Z.mul_le_mono_nonneg_r; lia). lia. }
  apply andb_true_iff. split; [reflexivity|].
  replace (float64 100) with (S754_finite false (100 * 2 ^ 46) (-46)) by reflexivity.
  apply normal_leb; [lia|done|]. change (Z.pos (100 * 2 ^ 46)) with (100 * 2 ^ 46).
  destruct (Z.lt_trichotomy (j - E) (-46)) as [?|[He|Hgt]]; [by left|right; split; [done|]|exfalso].
  - replace E with (j + 46) in Hle by lia. rewrite Z.pow_add_r in Hle by lia.
    apply (Z.mul_le_mono_pos_r _ _ (2 ^ j)); lia.
  - pose proof (Z.pow_le_mono_r 2 E (j + 45) ltac:(lia) ltac:(lia)) as Hp. rewrite Z.pow_add_r in Hp by lia.
    assert (Zpos m * 2 ^ j ≤ (100 * 2 ^ 45) * 2 ^ j) as Hm'%Z.mul_le_mono_pos_r; lia.
Qed.

Lemma score_cents `{FloatToInt} T S :
  0 ≤ T ≤ 100 * S → 0 < S ≤ 2 ^ 36 →
  ∃ k, Truncate (f64_div (float64 T) (float64 S)) = f64_div (float64 k) (float64 100) ∧
    0 ≤ k ≤ 10000 ∧ k * S ≤ 100 * T ≤ (k + 1) * S ∧ (∀ t, T = t * S → k = 100 * t).
Proof.
  intros HT HS. destruct (decide (T = 0)) as [->|].
  { exists 0. destruct (float64_exact S) as (m & a & -> & _); [lia|]. split; [done|].
    split; [lia|]. split; [lia|]. intros t Ht. assert (t = 0) as -> by nia. done. }
  destruct (hundred_times_quotient T S) as (k & Hk & Hk0 & Hb & Hex); [lia..|].
  assert (k ≤ 10000) by nia.
  exists k. split; [|by split_and!; try lia]. unfold Truncate, int_of_float64. rewrite Hk.
  by rewrite !bool_decide_eq_true_2 by lia.
Qed.

Section theorems.
Context {drv : MongoDriver} {laws : MongoLaws drv} {rt : Runtime} {mo : MapOrder}
  {molaws : MapOrderLaws mo} {fi : FloatToInt}.
Implicit Types w : World GraphDB.

(** The score and the counters of a completed run are those of the
    reference, whatever the order in which Go visits the nodes and the fault
    names, as long as the name of no engine contains two fault names; the call
    changes nothing and fails only when the experiment cannot be read. *)
Theorem score_does_not_depend_on_order execData wfID exp wm weightSum w :
  exp ∈ g_experiments (db w) → ex_ExperimentID exp = wfID →
  (∀ e, e ∈ g_experiments (db w) → ex_ExperimentID e = wfID → e = exp) →
  collect_weights (ed_RevisionID execData) (ex_Revision exp) (∅, 0) = Some (wm, weightSum) →
  unambiguous wm (engines (ed_Nodes execData)) = true →
  wp (ProcessCompletedExperimentRun execData wfID)
     (λ r w', db w' = db w ∧
        r = match mongo_find_one (tick w) (λ e, str_eq (ex_ExperimentID e) wfID) (g_experiments (db w)) with
            | Ok _ => Ok (reference_metrics wm weightSum (engines (ed_Nodes execData)))
            | _ => Err (ErrNew "failed to get experiment from db on complete")
            end) w.
Proof. apply wp_ProcessCompleted. Qed.

(** C11. Take a completed run whose engines each have a name that contains the name
    of at most one fault of the revision, no two of them that of the same fault,
    with percentages of probe success from 0 to 100, and weightages that are not
    negative, have a positive sum, and are small enough for exact floats. Then the
    resiliency score is the mean of the percentages, weighted by the faults'
    weightages and truncated to two decimals: a number of cents between 0 and
    10000 that is the floor of the exact mean, or one cent less where the mean is
    a whole number of cents; a mean that is a whole number is exact. So such a run
    all of whose probes succeed scores 100. Where the name of an engine contains
    those of two faults the score depends on the order of a map:
    [ambiguous_fault_name_decides_score]. *)
Theorem resiliency_score_is_weighted_mean execData wfID exp w :
  let ws := weightages (ed_RevisionID execData) (ex_Revision exp) in
  let cs := engines (ed_Nodes execData) in
  exp ∈ g_experiments (db w) → ex_ExperimentID exp = wfID →
  (∀ e, e ∈ g_experiments (db w) → ex_ExperimentID e = wfID → e = exp) →
  valid_weightages ws = true → 0 < weight_sum ws → forallb valid_percentage cs = true →
  ∃ wm, collect_weights (ed_RevisionID execData) (ex_Revision exp) (∅, 0) = Some (wm, weight_sum ws) ∧
    (unambiguous wm cs = true → NoDup (claims_of wm cs) →
     wp (ProcessCompletedExperimentRun execData wfID)
       (λ r _, ∀ m, r = Ok m → ∃ k,
          me_ResiliencyScore m = f64_div (float64 k) (float64 100) ∧
          in_score_range (me_ResiliencyScore m) = true ∧
          0 ≤ k ≤ 10000 ∧ k * weight_sum ws ≤ 100 * weighted_total wm cs ≤ (k + 1) * weight_sum ws ∧
          (∀ t, weighted_total wm cs = t * weight_sum ws → k = 100 * t)) w).
Proof.
  intros ws cs Hin Hid Huniq Hws Hpos Hp. apply andb_true_iff in Hws as [Hws Hmax%bool_decide_eq_true].
  destruct (add_weights_spec ws ∅ 0) as (wm & Hadd & Hn & Hv); [done|by intros ??|done|lia|].
  exists wm. rewrite Z.add_0_l in Hadd, Hv. rewrite collect_add_weights.
  split; [done|]. intros Hun HN.
  eapply wp_mono; [apply (wp_ProcessCompleted _ _ exp wm (weight_sum ws)); [done..|by rewrite collect_add_weights|done]|].
  intros r w' [_ ->] m Hm. destruct (mongo_find_one _ _ _); simplify_eq.
  destruct (weighted_total_bounds wm cs Hn HN Hp) as [H0 H100].
  destruct (score_cents (weighted_total wm cs) (weight_sum ws)) as (k & Hk & Hkr & Hb & Hex); [lia..|].
  exists k. cbn [reference_metrics me_ResiliencyScore]. unfold reference_score. rewrite bool_decide_eq_false_2 by lia.
  fold cs. rewrite int64_id by (unfold is_int64; lia). rewrite Hk.
  split; [done|]. split; [by apply cents_in_range|done].
Qed.
End theorems.

(** ** Concrete runs *)
#[local] Instance fix_float : FloatToInt := λ _, - 2 ^ 63.
#[local] Instance score_runtime : Runtime := {| clock := Z.of_nat; add_days ms days := ms + days; fresh_uuid _ := "uuid" |}.
#[local] Instance score_driver : MongoDriver := mem_driver (λ _, None).
#[local] Instance score_laws : MongoLaws score_driver := mem_laws _.

Definition same_order : MapOrder := λ _ l, l.
Definition reverse_order : MapOrder := λ _ l, reverse l.
Lemma same_order_laws : MapOrderLaws same_order.
Proof. intros n l. reflexivity. Qed.
Lemma reverse_order_laws : MapOrderLaws reverse_order.
Proof. intros n l. apply reverse_Permutation. Qed.

Definition score_audit : mongodb_Audit := mkGAudit 0 0 no_user no_user false.
Definition score_experiment (ws : list (option WeightagesInput)) : ChaosExperimentRequest :=
  mkExperiment "exp" "" [] score_audit "p1" "e1" "" "i1" NonCronExperiment
    [mkRevision "old" "" 1 None []; mkRevision "rev" "" 2 (Some ws) []] false [] 0.
Definition score_world (ws : list (option WeightagesInput)) : World GraphDB :=
  mkWorld (mkGraphDB [score_experiment ws] [] [] [] [] [] [] [] [] NewStore) 0.
Definition engine (name verdict percentage : string) : Node :=
  mkNode name "ChaosEngine" (Some (mkChaosData name verdict percentage None)).
Definition run_data (nodes : list (string * Node)) : ExecutionData :=
  mkExecutionData "rev" "Succeeded" (list_to_map nodes).

Definition two_weights : list (option WeightagesInput) :=
  [Some (mkWeightage "pod-delete" 2); Some (mkWeightage "disk-fill" 3)].
Definition two_engines : ExecutionData :=
  run_data [("n1", engine "pod-delete-x1" "Pass" "50"); ("n2", engine "disk-fill-x2" "Fail" "33");
            ("n3", mkNode "" "Steps" None)].

Lemma score_does_not_depend_on_order_witness :
  let wm : gmap string Z := list_to_map [("disk-fill", 3); ("pod-delete", 2)] in
  wp (@ProcessCompletedExperimentRun score_driver reverse_order fix_float two_engines "e1")
    (λ r w', db w' = db (score_world two_weights) ∧
       r = Ok (reference_metrics wm 5 (engines (ed_Nodes two_engines)))) (score_world two_weights).
Proof.
  intros wm.
  eapply wp_mono; [apply (score_does_not_depend_on_order (molaws := reverse_order_laws) two_engines "e1"
    (score_experiment two_weights) wm 5 (score_world two_weights))|].
  - apply list_elem_of_here.
  - reflexivity.
  - intros e He _. apply list_elem_of_singleton in He. exact He.
  - vm_compute. reflexivity.
  - vm_compute. reflexivity.
  - intros r w' [Hdb Hr]. split; [exact Hdb|exact Hr].
Defined.

Lemma resiliency_score_is_weighted_mean_witness :
  wp (@ProcessCompletedExperimentRun score_driver same_order fix_float two_engines "e1")
    (λ r _, ∀ m, r = Ok m → in_score_range (me_ResiliencyScore m) = true) (score_world two_weights).
Proof.
  destruct (resiliency_score_is_weighted_mean (molaws := same_order_laws) two_engines "e1" (score_experiment two_weights)
    (score_world two_weights)) as (wm & Hwm & Hrun).
  - apply list_elem_of_here.
  - reflexivity.
  - intros e He _. apply list_elem_of_singleton in He. exact He.
  - vm_compute. reflexivity.
  - vm_compute. reflexivity.
  - vm_compute. reflexivity.
  - assert (wm = list_to_map [("disk-fill", 3); ("pod-delete", 2)]) as ->.
    { apply (f_equal (λ o, from_option fst ∅ o)) in Hwm. cbn [from_option fst] in Hwm. rewrite <-Hwm. vm_compute. reflexivity. }
    eapply wp_mono; [apply Hrun; vm_compute; [reflexivity|]|].
    + repeat constructor; set_solver.
    + intros r w' Hr m Hm. destruct (Hr m Hm) as (k & _ & Hin & _). exact Hin.
Defined.

(** The score of a run on the environment above, with a map order. *)
Definition score_of (mo : MapOrder) (ws : list (option WeightagesInput)) (d : ExecutionData) : res spec_float :=
  match (@ProcessCompletedExperimentRun score_driver mo fix_float d "e1" (score_world ws)).1 with
  | Ok m => Ok (me_ResiliencyScore m)
  | Err e => Err e
  | Panic => Panic
  end.

(** One fault name inside another makes the score depend on the order in
    which Go visits a map: the engine "pod-cpu-hog-exec-x1" is weighed as
    [pod-cpu-hog] or as [pod-cpu-hog-exec], and the same run scores 80 or 20. *)
Example ambiguous_fault_name_decides_score :
  let ws := [Some (mkWeightage "pod-cpu-hog" 8); Some (mkWeightage "pod-cpu-hog-exec" 2)] in
  let d := run_data [("n1", engine "pod-cpu-hog-exec-x1" "Pass" "100")] in
  score_of same_order ws d = Ok (float64 80) ∧ score_of reverse_order ws d = Ok (float64 20).
Proof. vm_compute. split; reflexivity. Qed.

(** The truncation loses a cent: weights 2 and 3 with 50 and 33 per cent have
    the mean 39.8, and the score is the float nearest 39.79. *)
Example whole_cents_lose_a_cent :
  weighted_total (list_to_map [("pod-delete", 2); ("disk-fill", 3)]) (engines (ed_Nodes two_engines)) = 199 ∧
  100 * 199 = 3980 * 5 ∧
  score_of same_order two_weights two_engines = Ok (f64_div (float64 3979) (float64 100)).
Proof. split; [|split]; vm_compute; reflexivity. Qed.
