(* ===== verification/RunEvent.v ===== *)
(** * RunEvent.v: events of experiment runs

    What the control plane does when a subscriber reports on a run
    ([ChaosExperimentRunEvent] of
    [graphql/server/pkg/chaos_experiment_run/handler/handler.go]), and when runs
    are stopped or removed ([pkg/chaos_experiment_run/service.go],
    [StopExperimentRuns] of [pkg/chaos_experiment/handler/handler.go]). *)
From S2P Require Import Prelude World GoStd Float64 GraphDocs Experiments RunScore.
From Stdlib Require Import Ascii SpecFloat.
Local Open Scope string_scope.
Local Open Scope Z_scope.

(** ** Decoders of third-party formats

    Argo workflows and chaos engines are types of other projects: of a template
    the code reads the input artifacts, of an engine the kind and the
    annotations. Execution data contains the chaos operator's results. Decoding
    fails with the text of the error. *)
Record Artifact : Type := mkArtifact { af_Name : string; af_RawData : option string }.
Record EngineMeta : Type := mkEngineMeta { em_Kind : string; em_Annotations : gmap string string }.

Class Decoders := {
  workflow_templates : string → result string (list (list Artifact));
  cron_workflow_templates : string → result string (list (list Artifact));
  chaos_engine : string → result string EngineMeta;
  probe_annotations : string → result string (list string);
  execution_data : string → res ExecutionData;
}.

(** [strings.ToLower(s) == t] for an ASCII text [t] in lower case: beside the
    ASCII letters only U+0130 and U+212A have an ASCII letter as lower case. *)
Definition lower (c : ascii) : ascii := if is_upper c then char (code c + 32) else c.
Fixpoint to_lower (l : list ascii) : list ascii :=
  match l with
  | [] => []
  | a :: l1 =>
      match l1 with
      | b :: l2 =>
          if bool_decide (code a = 196) && bool_decide (code b = 176) then "i"%char :: to_lower l2
          else match l2 with
               | c :: l3 =>
                   if bool_decide (code a = 226) && bool_decide (code b = 132) && bool_decide (code c = 170)
                   then "k"%char :: to_lower l3 else lower a :: to_lower l1
               | [] => lower a :: to_lower l1
               end
      | [] => [lower a]
      end
  end.
Definition lower_eq (s t : string) : bool := bool_decide (to_lower (chars s) = chars t).

(** ** Probes of a manifest: [ParseProbesFromManifestForRuns] *)
Section probes.
Context `{MapOrder} `{Decoders}.

Definition probes_error (what msg : string) : error := ErrNew ("failed to unmarshal " +:+ what +:+ ", error: " +:+ msg).

(** The names in the annotations, in the order the map is visited. *)
Fixpoint annotation_names (annotations : gmap string string) (keys : list string) : res (list string) :=
  match keys with
  | [] => Ok []
  | k :: keys =>
      match annotations !! k with
      | None => annotation_names annotations keys
      | Some text =>
          match probe_annotations text with
          | Err msg => Err (probes_error "experiment annotation object" msg)
          | Panic => Panic
          | Ok names =>
              match annotation_names annotations keys with
              | Ok rest => Ok (names ++ rest)%list
              | r => r
              end
          end
      end
  end.

Fixpoint template_probes (templates : list (list Artifact)) (probes : list Probes) : GM (res (list Probes)) :=
  match templates with
  | [] => mret (Ok probes)
  | [] :: templates => template_probes templates probes
  | (a :: _) :: templates =>
      match af_RawData a with
      | None | Some "" => template_probes templates probes
      | Some data =>
          match chaos_engine data with
          | Err msg => mret (Err (probes_error "chaosengine" msg))
          | Panic => mret Panic
          | Ok meta =>
              if lower_eq (em_Kind meta) "chaosengine" then
                keys ← range_keys (em_Annotations meta);
                match annotation_names (em_Annotations meta) keys with
                | Ok names => template_probes templates (probes ++ [mkProbes (af_Name a) names])%list
                | Err e => mret (Err e)
                | Panic => mret Panic
                end
              else template_probes templates probes
          end
      end
  end.

Definition ParseProbesFromManifestForRuns (wfType manifest : string) : GM (res (list Probes)) :=
  match (if str_eq wfType CronExperiment then cron_workflow_templates manifest else workflow_templates manifest) with
  | Err msg => mret (Err (probes_error "experiment manifest" msg))
  | Panic => mret Panic
  | Ok templates => template_probes templates []
  end.
End probes.

(** ** Events *)
Record InfraIdentity : Type := mkInfraIdentity { ii_InfraID : string; ii_AccessKey : string; ii_Version : string }.
Record ExperimentRunRequest : Type := mkRunRequest {
  er_ExperimentID : string; er_NotifyID : option string; er_ExperimentRunID : string;
  er_ExperimentName : string; er_ExecutionData : string; er_InfraID : option InfraIdentity;
  er_RevisionID : string; er_Completed : bool; er_IsRemoved : option bool; er_UpdatedBy : string
}.

(** The text stored as execution data and what it decodes to. When the base64
    text does not decode, the identifier of the experiment takes its place. *)
Definition event_data `{Decoders} (event : ExperimentRunRequest) : res (string * ExecutionData) :=
  if str_eq (er_ExecutionData event) "" then Ok ("", no_execution_data)
  else
    let exeData := default (er_ExperimentID event) (std_decode (er_ExecutionData event)) in
    match execution_data exeData with
    | Ok d => Ok (exeData, d)
    | Err e => Err e
    | Panic => Panic
    end.

(** A [$set] on the positional element of the recent runs. *)
Definition positional_update `{MongoDriver} `{Positional} (q : ChaosExperimentRequest → bool)
    (cs : list (ExperimentRunDetail → bool)) (f : ExperimentRunDetail → ExperimentRunDetail) : GM (res unit) :=
  λ w, UpdateChaosExperiment
         (λ e, q e && array_match cs (ex_RecentExperimentRunDetails e))
         (λ e, match positional_choice (tick w) cs (ex_RecentExperimentRunDetails e) with
               | Some i => set_recent (alter f i (ex_RecentExperimentRunDetails e)) e
               | None => e
               end) w.

Definition recent_filter (event : ExperimentRunRequest) : list (ExperimentRunDetail → bool) :=
  match er_NotifyID event with
  | None => [λ d, str_eq (rd_ExperimentRunID d) (er_ExperimentRunID event); λ d, negb (rd_Completed d)]
  | Some n => [λ d, negb (rd_Completed d); λ d, bool_decide (rd_NotifyID d = Some n)]
  end.

Definition merge_detail (event : ExperimentRunRequest) (phase : string) (probes : list Probes)
    (score : spec_float) (t : Z) (by_ : mongodb_User) (d : ExperimentRunDetail) : ExperimentRunDetail :=
  mkRunDetail (touch t by_ (rd_Audit d)) (rd_ProjectID d) (er_ExperimentRunID event) phase (rd_NotifyID d)
    (Some score) (er_Completed event) (rd_RunSequence d) probes.

(** [$push] with [$each], [$position: 0] and [$slice: 10]. *)
Definition push_recent (d : ExperimentRunDetail) (e : ChaosExperimentRequest) : ChaosExperimentRequest :=
  set_recent (take 10 (d :: ex_RecentExperimentRunDetails e)) e.

Section events.
Context `{MongoDriver} `{MongoTxn} `{MongoAbort} `{Runtime} `{MapOrder} `{FloatToInt} `{Decoders}
  `{Positional} `{ManifestNamespace}.

Definition call_out {A} (f : nat → res A) : GM (res A) := λ w, (f (tick w), bump w).

(** [mongo.WithSession] around a transaction: the writes of [body] take effect
    when the commit does; any error aborts. *)
Definition run_transaction (body : GM (res unit)) : GM (res unit) :=
  λ w, let '(r, w1) := (let? _ := call_out txn_start in body) w in
       let '(c, applied) := match r with Ok _ => txn_commit (tick w1) | _ => (r, false) end in
       let w2 := mkWorld (if (applied : bool) then db w1 else db w) (S (tick w1)) in
       match c with
       | Err e => match txn_abort (tick w2) with
                  | Ok _ => (Err e, bump w2)
                  | a => (a, bump w2)
                  end
       | _ => (c, w2)
       end.

(** The body of the transaction. [logrus.Fatalf] ends the process. *)
Definition record_event (event : ExperimentRunRequest) (experiment : ChaosExperimentRequest)
    (probes : list Probes) (exeData : string) (executionData : ExecutionData)
    (m : ExperimentRunMetrics) (currentTime : Z) : GM (res unit) :=
  let phase := ed_Phase executionData in
  let next := int64 (ex_TotalExperimentRuns experiment + 1) in
  let? experimentRunCount :=
    CountExperimentRuns (run_query (er_ExperimentID event) (er_ExperimentRunID event) (er_NotifyID event)) in
  match raw_url_decode (er_UpdatedBy event) with
  | None => mret Panic
  | Some updatedBy =>
      createdAt ← now;
      updatedAt ← now;
      let expRunDetail :=
        mkRunDetail (mkGAudit updatedAt createdAt no_user (named_user updatedBy) false) ""
          (er_ExperimentRunID event) phase None (Some (me_ResiliencyScore m)) false next [] in
      let? _ :=
        (if bool_decide (experimentRunCount = 0) then
           t ← now;
           UpdateChaosExperiment (λ e, str_eq (ex_ExperimentID e) (er_ExperimentID event))
             (λ e, push_recent expRunDetail (set_total next (set_ex_audit (set_updated_at t (ex_Audit e)) e)))
         else if bool_decide (0 < experimentRunCount) then
           positional_update (λ e, str_eq (ex_ExperimentID e) (er_ExperimentID event)) (recent_filter event)
             (merge_detail event phase probes (me_ResiliencyScore m) currentTime (named_user updatedBy))
         else mret (Ok tt)) in
      match er_InfraID event with
      | None => mret Panic
      | Some infra =>
          let? count := UpdateExperimentRun
            (mkRun (ex_ProjectID experiment)
               (mkGAudit currentTime 0 (named_user updatedBy) (named_user updatedBy) false)
               (ii_InfraID infra) (er_ExperimentRunID event) (er_ExperimentID event) "" phase probes exeData
               (er_RevisionID event) (er_NotifyID event) (Some (me_ResiliencyScore m))
               (Some (mkFaultCounts (me_Passed m) (me_Failed m) (me_Awaited m) (me_Stopped m) (me_NA m) (me_Total m)))
               next (er_Completed event)) in
          if bool_decide (count = 0) then
            mret (Err (ErrNew ("experiment run has been discarded due the duplicate event, workflowId: " +:+
                               er_ExperimentID event +:+ ", workflowRunId: " +:+ er_ExperimentRunID event)))
          else mret (Ok tt)
      end
  end.

(** The metrics of a completed run; the run is then read for the duration
    gauge, which is not kept here. *)
Definition event_metrics (event : ExperimentRunRequest) (executionData : ExecutionData) :
    GM (res ExperimentRunMetrics) :=
  if er_Completed event then
    let? m := ProcessCompletedExperimentRun executionData (er_ExperimentID event) in
    _ ← GetExperimentRun (λ r, str_eq (cr_ExperimentRunID r) (er_ExperimentRunID event) &&
                               str_eq (cr_ExperimentID r) (er_ExperimentID event));
    mret (Ok m)
  else mret (Ok no_metrics).

Definition ChaosExperimentRunEvent (event : ExperimentRunRequest) : GM (res string) :=
  let! experiment := GetExperiment (λ e, str_eq (ex_ExperimentID e) (er_ExperimentID event) &&
                                         negb (au_IsRemoved (ex_Audit e)))
  or e => mret (if bool_decide (e = ErrNoDocuments) then
                  Ok ("no experiment found with experimentID: " +:+ er_ExperimentID event +:+
                      ", experiment run discarded: " +:+ er_ExperimentRunID event)
                else Err e) in
  match last (ex_Revision experiment) with
  | None => mret Panic
  | Some revision =>
      let! probes := ParseProbesFromManifestForRuns (ex_ExperimentType experiment) (rv_ExperimentManifest revision)
      or _ => mret (Err (ErrNew "unable to parse probes")) in
      match event_data event with
      | Err e => mret (Err e)
      | Panic => mret Panic
      | Ok (exeData, executionData) =>
          let? m := event_metrics event executionData in
          let? _ := call_out txn_start_session in
          currentTime ← now;
          let? _ := run_transaction (record_event event experiment probes exeData executionData m currentTime) in
          mret (Ok ("Experiment run received for for ExperimentID: " +:+ er_ExperimentID event +:+
                    ", ExperimentRunID: " +:+ er_ExperimentRunID event))
      end
  end.

(** ** Removing and stopping runs *)

(** [r] says whether a store of connected infrastructures was given. *)
Definition ProcessExperimentRunDelete (query : ChaosExperimentRun → bool) (workflowRunID : option string)
    (experimentRun : ChaosExperimentRun) (workflow : ChaosExperimentRequest) (username : string) (r : bool) :
    GM (res unit) :=
  t ← now;
  let? _ := UpdateExperimentRunWithQuery query
    (λ run, set_run_audit (set_is_removed (au_IsRemoved (cr_Audit experimentRun))
                             (touch t (named_user username) (cr_Audit run))) run) in
  if r then
    _ ← SendExperimentToSubscriber (cr_ProjectID experimentRun) "" (ex_InfraID workflow) (Some username)
          workflowRunID "workflow_run_delete";
    mret (Ok tt)
  else mret (Ok tt).

Definition stop_run (t : Z) (username : string) (run : ChaosExperimentRun) : ChaosExperimentRun :=
  mkRun (cr_ProjectID run) (touch t (named_user username) (cr_Audit run)) (cr_InfraID run)
    (cr_ExperimentRunID run) (cr_ExperimentID run) (cr_ExperimentName run) ExperimentRunStatusStopped
    (cr_Probes run) (cr_ExecutionData run) (cr_RevisionID run) (cr_NotifyID run) (cr_ResiliencyScore run)
    (cr_Faults run) (cr_RunSequence run) true.
Definition stop_detail (t : Z) (username : string) (d : ExperimentRunDetail) : ExperimentRunDetail :=
  mkRunDetail (touch t (named_user username) (rd_Audit d)) (rd_ProjectID d) (rd_ExperimentRunID d)
    ExperimentRunStatusStopped (rd_NotifyID d) (rd_ResiliencyScore d) true (rd_RunSequence d) (rd_Probe d).

Definition ProcessExperimentRunStop (query : ChaosExperimentRun → bool) (experimentRunID : string)
    (notifyID : option string) (experiment : ChaosExperimentRequest) (username projectID : string) (r : bool) :
    GM (res unit) :=
  let own (e : ChaosExperimentRequest) :=
    str_eq (ex_ExperimentID e) (ex_ExperimentID experiment) && str_eq (ex_ProjectID e) projectID in
  t ← now;
  let? _ := UpdateExperimentRunWithQuery query (stop_run t username) in
  let? _ :=
    (if negb (str_eq experimentRunID "") then
       t' ← now;
       let! _ := positional_update own [λ d, str_eq (rd_ExperimentRunID d) experimentRunID] (stop_detail t' username)
       or _ => mret (Err (ErrNew "failed to update experiment collection recent run details")) in
       mret (Ok tt)
     else match notifyID with
          | Some n =>
              t' ← now;
              let! _ := positional_update own [λ d, bool_decide (rd_NotifyID d = Some n)] (stop_detail t' username)
              or _ => mret (Err (ErrNew "failed to update experiment collection recent run details by notify_id")) in
              mret (Ok tt)
          | None => mret (Ok tt)
          end) in
  if r && negb (str_eq experimentRunID "") then
    _ ← SendExperimentToSubscriber projectID "" (ex_InfraID experiment) (Some username) (Some experimentRunID)
          "workflow_run_stop";
    mret (Ok tt)
  else mret (Ok tt).

(** A pointer to an empty string counts as absent. *)
Definition non_empty (o : option string) : option string :=
  match o with Some "" => None | _ => o end.

Definition can_stop (run : ChaosExperimentRun) : bool :=
  str_in (cr_Phase run) [ExperimentRunStatusRunning; ExperimentRunStatusTimeout; ExperimentRunStatusQueued] &&
  negb (cr_Completed run).

(** The runs to stop, by run and notification identifier. *)
Definition runs_to_stop (projectID experimentID : string) (experimentRunID notifyID : option string)
    (experiment : ChaosExperimentRequest) : GM (res (list (string * option string))) :=
  match experimentRunID, notifyID with
  | None, None =>
      let? expRuns := GetExperimentRuns (λ run, str_eq (cr_ExperimentID run) experimentID &&
        str_eq (cr_ProjectID run) projectID && negb (au_IsRemoved (cr_Audit run))) in
      let runs := List.filter can_stop expRuns in
      if bool_decide (runs = []) && str_eq (ex_CronSyntax experiment) "" then
        mret (Err (ErrNew "no running, timeout, or queued experiments found"))
      else mret (Ok ((λ run, (cr_ExperimentRunID run, cr_NotifyID run)) <$> runs))
  | Some runID, _ => mret (Ok [(runID, None)])
  | None, Some n => mret (Ok [("", Some n)])
  end.

Definition stop_query (projectID experimentID runID : string) (notifyID : option string)
    (run : ChaosExperimentRun) : bool :=
  str_eq (cr_ExperimentID run) experimentID && str_eq (cr_ProjectID run) projectID &&
  negb (au_IsRemoved (cr_Audit run)) &&
  (if str_eq runID "" then bool_decide (cr_NotifyID run = notifyID) else str_eq (cr_ExperimentRunID run) runID).

Fixpoint stop_runs (projectID experimentID username : string) (experiment : ChaosExperimentRequest) (r : bool)
    (runs : list (string * option string)) : GM (res bool) :=
  match runs with
  | [] => mret (Ok true)
  | (runID, notifyID) :: runs =>
      if str_eq runID "" && bool_decide (notifyID = None) then
        mret (Err (ErrNew "missing experiment_run_id and notify_id for experiment run stop"))
      else
        let? _ := ProcessExperimentRunStop (stop_query projectID experimentID runID notifyID) runID notifyID
                    experiment username projectID r in
        stop_runs projectID experimentID username experiment r runs
  end.

Definition StopExperimentRuns (projectID experimentID : string) (experimentRunID notifyID : option string)
    (r : bool) (username : string) : GM (res bool) :=
  let? experiment := GetExperiment (λ e, str_eq (ex_ExperimentID e) experimentID &&
    str_eq (ex_ProjectID e) projectID && negb (au_IsRemoved (ex_Audit e))) in
  let? runs := runs_to_stop projectID experimentID (non_empty experimentRunID) (non_empty notifyID) experiment in
  stop_runs projectID experimentID username experiment r runs.
End events.
