(* ===== verification/RunTheorems.v ===== *)
(** * RunTheorems.v: the ledger of experiment runs

    What an event, a stop or a removal does to the documents of experiments and
    runs, for every behaviour of the driver. *)
From S2P Require Import Prelude World MemMongo GoStd Float64 GraphDocs Experiments RunScore RunScoreTheorems RunEvent.
From Stdlib Require Import Ascii SpecFloat.
Local Open Scope string_scope.
Local Open Scope Z_scope.

(** ** What a recorded event does *)

(** The run document an event describes. *)
Definition event_run `{Decoders} (event : ExperimentRunRequest) (experiment : ChaosExperimentRequest)
    (wfRun : ChaosExperimentRun) : Prop :=
  cr_ProjectID wfRun = ex_ProjectID experiment ∧ cr_ExperimentID wfRun = er_ExperimentID event ∧
  cr_ExperimentRunID wfRun = er_ExperimentRunID event ∧ cr_NotifyID wfRun = er_NotifyID event ∧
  cr_Completed wfRun = er_Completed event ∧ cr_RevisionID wfRun = er_RevisionID event ∧
  cr_RunSequence wfRun = int64 (ex_TotalExperimentRuns experiment + 1) ∧
  au_IsRemoved (cr_Audit wfRun) = false ∧
  ∃ data, event_data event = Ok (cr_ExecutionData wfRun, data) ∧ cr_Phase wfRun = ed_Phase data.

Definition event_query (event : ExperimentRunRequest) : ChaosExperimentRun → bool :=
  run_query (er_ExperimentID event) (er_ExperimentRunID event) (er_NotifyID event).
Definition same_experiment (event : ExperimentRunRequest) (e : ChaosExperimentRequest) : bool :=
  str_eq (ex_ExperimentID e) (er_ExperimentID event).

(** The update of the experiment with a first event: the next number, and the
    run at the head of the recent runs. *)
Definition first_update (next t : Z) (d : ExperimentRunDetail) (e : ChaosExperimentRequest) : ChaosExperimentRequest :=
  push_recent d (set_total next (set_ex_audit (set_updated_at t (ex_Audit e)) e)).

(** The update with a later event: at most one of the recent runs, of the run's
    own experiment, is rewritten. *)
Definition later_update (e e' : ChaosExperimentRequest) : Prop :=
  ∃ f i, e' = set_recent (alter f i (ex_RecentExperimentRunDetails e)) e.

Inductive recorded `{Decoders} (event : ExperimentRunRequest) (experiment : ChaosExperimentRequest)
    (wfRun : ChaosExperimentRun) (s s' : GraphDB) : Prop :=
| recorded_first t t' d :
    no_match (event_query event) (g_runs s) →
    rd_ExperimentRunID d = er_ExperimentRunID event →
    rd_RunSequence d = cr_RunSequence wfRun → rd_Completed d = false →
    updated_one (same_experiment event) (first_update (cr_RunSequence wfRun) t d) (g_experiments s) (g_experiments s') →
    inserted no_key (set_run_audit (set_created_at t' (cr_Audit wfRun)) wfRun) (g_runs s) (g_runs s') →
    recorded event experiment wfRun s s'
| recorded_later :
    length (List.filter (event_query event) (g_runs s)) = 1%nat →
    Forall2 (λ e e', e' = e ∨ (same_experiment event e = true ∧ later_update e e')) (g_experiments s) (g_experiments s') →
    updated_one (λ r, event_query event r && negb (cr_Completed r)) (merge_run wfRun) (g_runs s) (g_runs s') →
    recorded event experiment wfRun s s'
| recorded_several :
    (1 < length (List.filter (event_query event) (g_runs s)))%nat →
    Forall2 (λ e e', e' = e ∨ (same_experiment event e = true ∧ later_update e e')) (g_experiments s) (g_experiments s') →
    g_runs s' = g_runs s →
    recorded event experiment wfRun s s'.

(** What experiments and runs are not. *)
Definition elsewhere (s : GraphDB) :=
  (g_infras s, g_environments s, g_probes s, g_registries s, g_gitconfigs s, g_hubs s, g_gitcalls s, g_store s).

(** The event was recorded: for an experiment of the database that is not
    removed, and nothing else changed. *)
Definition event_committed `{Decoders} (event : ExperimentRunRequest) (s s' : GraphDB) : Prop :=
  ∃ experiment wfRun, experiment ∈ g_experiments s ∧ same_experiment event experiment = true ∧
    au_IsRemoved (ex_Audit experiment) = false ∧ event_run event experiment wfRun ∧
    elsewhere s' = elsewhere s ∧ recorded event experiment wfRun s s'.

(** A commit that reported an error and was applied all the same. *)
Definition commit_uncertain `{MongoTxn} : Prop := ∃ n e, txn_commit n = (Err e, true).

(** ** Operators *)
Section operators.
Context {drv : MongoDriver} {laws : MongoLaws drv} {rt : Runtime}.
Implicit Types w : World GraphDB.

Lemma wp_CountDocuments {D} `{Collection GraphDB D} (q : D → bool) w :
  wp (CountDocuments q) (λ r w', db w' = db w ∧
    match r with Ok n => n = Z.of_nat (length (List.filter q (docs (db w)))) | Err _ => True | Panic => False end) w.
Proof.
  unfold CountDocuments. wp_step. wp_use wp_Aggregate. intros [l|e|] w' [E Hl]; [|by wp_step|done].
  wp_step. split; [done|]. destruct Hl as (l' & Hp & ->). cbn. by rewrite (filterb_perm _ _ _ Hp).
Qed.

Lemma wp_UpdateChaosExperiment q f w :
  wp (UpdateChaosExperiment q f) (λ r w', ∃ l', db w' = set_docs l' (db w) ∧
    match r with
    | Ok _ => (l' = g_experiments (db w) ∧ no_match q (g_experiments (db w))) ∨ updated_one q f (g_experiments (db w)) l'
    | Err _ => l' = g_experiments (db w) ∨ updated_one q f (g_experiments (db w)) l'
    | Panic => False
    end) w.
Proof.
  unfold UpdateChaosExperiment. wp_step. wp_use wp_UpdateOne. intros r w' (l' & E & Hl).
  destruct r as [c|e|]; [|wp_step; exists l'; by destruct Hl|done].
  wp_step. exists l'. split; [done|]. cbn in Hl. naive_solver.
Qed.

Lemma wp_UpdateExperimentRun wfRun w :
  let q := run_query (cr_ExperimentID wfRun) (cr_ExperimentRunID wfRun) (cr_NotifyID wfRun) in
  wp (UpdateExperimentRun wfRun) (λ r w', ∃ l', db w' = set_docs l' (db w) ∧
    match r with
    | Ok c =>
        let n := length (List.filter q (g_runs (db w))) in
        (n = 0%nat ∧ c = 1 ∧ ∃ t, inserted no_key (set_run_audit (set_created_at t (cr_Audit wfRun)) wfRun) (g_runs (db w)) l') ∨
        (n = 1%nat ∧ (c = 0 ∧ l' = g_runs (db w) ∧ no_match (λ r, q r && negb (cr_Completed r)) (g_runs (db w)) ∨
           c = 1 ∧ updated_one (λ r, q r && negb (cr_Completed r)) (merge_run wfRun) (g_runs (db w)) l')) ∨
        ((1 < n)%nat ∧ c = 1 ∧ l' = g_runs (db w))
    | Err _ => True
    | Panic => False
    end) w.
Proof.
  intros q. unfold UpdateExperimentRun. fold q. wp_step. wp_use wp_CountDocuments.
  intros [n|e|] w1 [E1 Hn]; [| |done].
  2:{ wp_step. exists (g_runs (db w)). split; [|done]. rewrite E1. by destruct (db w). }
  change (docs (db w)) with (g_runs (db w)) in Hn.
  case_bool_decide; [|case_bool_decide].
  - wp_step. wp_step. intros t w0 E0. rewrite E1 in E0. wp_step. wp_step. intros r w2 (l' & E2 & Hl).
    rewrite E0 in E2. cbn in Hl. rewrite E0 in Hl.
    destruct r as [[]|e|]; [|wp_step; by exists l'|done]. wp_step. exists l'. split; [done|]. left. split_and!; [lia|done|eauto].
  - wp_step. wp_step. intros r w2 (l' & E2 & Hl). rewrite E1 in E2. cbn in Hl. rewrite E1 in Hl.
    destruct r as [c|e|]; [|wp_step; by exists l'|done]. wp_step. exists l'. split; [done|]. right; left. split; [lia|].
    destruct Hl as [(-> & -> & ?)|[-> ?]]; [left|right]; eauto.
  - wp_step. exists (g_runs (db w)). split; [rewrite E1; by destruct (db w)|]. right; right. split_and!; [lia|done..].
Qed.
End operators.

Section effects.
Context {drv : MongoDriver} {laws : MongoLaws drv} {tx : MongoTxn} {txlaws : MongoTxnLaws tx} {ab : MongoAbort}
  {rt : Runtime} {mo : MapOrder} {fi : FloatToInt} {dec : Decoders} {ps : Positional} {mn : ManifestNamespace}.
Implicit Types w : World GraphDB.

Definition later_all (q : ChaosExperimentRequest → bool) (l l' : list ChaosExperimentRequest) : Prop :=
  Forall2 (λ e e', e' = e ∨ (q e = true ∧ later_update e e')) l l'.

Lemma later_all_refl q l : later_all q l l.
Proof. apply Forall_Forall2_diag, Forall_true. auto. Qed.

(** Code that reads the number of the call. *)
Lemma wp_at {A} (m m' : GM A) Q w : m w = m' w → wp m' Q w → wp m Q w.
Proof. unfold wp. by intros ->. Qed.

Lemma wp_positional_update q cs f w :
  wp (positional_update q cs f) (λ r w', r ≠ Panic ∧
    ∃ l', db w' = set_docs l' (db w) ∧ later_all q (g_experiments (db w)) l') w.
Proof.
  set (g := λ e, match positional_choice (tick w) cs (ex_RecentExperimentRunDetails e) with
                 | Some i => set_recent (alter f i (ex_RecentExperimentRunDetails e)) e
                 | None => e
                 end).
  apply (wp_at _ (UpdateChaosExperiment (λ e, q e && array_match cs (ex_RecentExperimentRunDetails e)) g)); [done|].
  wp_use wp_UpdateChaosExperiment.
  intros r w' (l' & E & Hl). assert (r ≠ Panic ∧
    (l' = g_experiments (db w) ∨ updated_one (λ e, q e && array_match cs (ex_RecentExperimentRunDetails e)) g (g_experiments (db w)) l')) as [Hr Hcase].
  { destruct r; naive_solver. }
  split; [done|]. exists l'. split; [done|]. destruct Hcase as [->|Hu]; [apply later_all_refl|].
  eapply Forall2_impl; [apply (updated_one_some _ _ _ _ Hu)|]. intros e e' [->|[[Hq _]%andb_true_iff ->]]; [by left|].
  unfold g. destruct (positional_choice _ _ _) as [i|]; [right; split; [done|by exists f, i]|by left].
Qed.

(** The body of the transaction records the event when it returns no error. *)
Lemma wp_record_event event experiment probes exeData executionData m t w :
  experiment ∈ g_experiments (db w) → same_experiment event experiment = true →
  event_data event = Ok (exeData, executionData) →
  wp (record_event event experiment probes exeData executionData m t) (λ r w', r = Ok tt →
    ∃ wfRun, event_run event experiment wfRun ∧ elsewhere (db w') = elsewhere (db w) ∧
      recorded event experiment wfRun (db w) (db w')) w.
Proof.
  intros Hexp Hsame Hdata. unfold record_event. wp_step. wp_use wp_CountDocuments.
  intros [n|e|] w1 [E1 Hn]; [|by wp_step|done]. change (docs (db w)) with (g_runs (db w)) in Hn.
  destruct (raw_url_decode (er_UpdatedBy event)) as [updatedBy|]; [|by wp_step].
  wp_step. wp_step. intros t1 w2 E2. wp_step. wp_step. intros t2 w3 E3. wp_step.
  set (next := int64 (ex_TotalExperimentRuns experiment + 1)). set (detail := mkRunDetail _ _ _ _ _ _ _ _ _).
  eapply (wp_mono _ (λ r w4, ∃ l', db w4 = set_docs l' (db w) ∧ (r = Ok tt →
    if bool_decide (n = 0) then ∃ t3, updated_one (same_experiment event) (first_update next t3 detail) (g_experiments (db w)) l'
    else later_all (same_experiment event) (g_experiments (db w)) l'))).
  { rewrite E2, E1 in E3. case_bool_decide as Hn0; [|case_bool_decide as Hn1].
    - wp_step. wp_step. intros t3 w4 E4. rewrite E3 in E4. wp_use wp_UpdateChaosExperiment.
      intros r w5 (l' & E5 & Hl). rewrite E4 in E5, Hl. exists l'. split; [done|]. intros ->.
      destruct Hl as [[_ Hno]|Hu]; [|by eauto]. unfold no_match in Hno. rewrite Forall_forall in Hno.
      specialize (Hno _ Hexp). unfold same_experiment in Hsame. congruence.
    - wp_use wp_positional_update. intros r w5 (_ & l' & E5 & Hl). rewrite E3 in E5, Hl. by exists l'.
    - lia. }
  intros [[]|e|] w4 (l' & E4 & Hl); [|by wp_step|done]. specialize (Hl eq_refl).
  destruct (er_InfraID event) as [infra|]; [|by wp_step].
  wp_step. wp_use wp_UpdateExperimentRun. cbn [cr_ExperimentID cr_ExperimentRunID cr_NotifyID].
  set (wfRun := mkRun _ _ _ _ _ _ _ _ _ _ _ _ _ _ _). intros [c|e|] w5 (lr & E5 & Hr); [|by wp_step|done].
  change (run_query _ _ _) with (event_query event) in *.
  rewrite E4 in E5, Hr. cbn [g_runs set_docs docs experiment_collection run_collection] in E5, Hr.
  destruct (bool_decide (c = 0)) eqn:Hc; wp_step; [done|]. apply bool_decide_eq_false in Hc. intros _. exists wfRun.
  assert (event_run event experiment wfRun) as Hrun by (by repeat split; eauto).
  split; [done|]. rewrite E5. split; [done|]. cbn in Hr.
  destruct Hr as [(Hlen & _ & t' & Hins)|[[Hlen [[? _]|[_ Hu]]]|(Hlen & _ & ->)]]; [|done|..];
    rewrite Hn in Hl; [rewrite bool_decide_eq_true_2 in Hl by lia|rewrite bool_decide_eq_false_2 in Hl by lia..].
  - destruct Hl as [t3 Hl]. apply (recorded_first _ _ _ _ _ t3 t' detail); [|done..].
    apply Forall_forall. intros r Hr. apply not_true_is_false. intros Hq.
    assert (r ∈ List.filter (event_query event) (g_runs (db w))) as Hin by (by apply elem_of_filterb).
    by destruct (List.filter _ _); [apply not_elem_of_nil in Hin|].
  - by apply recorded_later.
  - by apply recorded_several.
Qed.

Lemma wp_run_transaction (P : GraphDB → GraphDB → Prop) body w :
  (∀ w0, db w0 = db w → wp body (λ r w', r = Ok tt → P (db w) (db w')) w0) →
  wp (run_transaction body) (λ r w',
    match r with
    | Ok _ => P (db w) (db w')
    | _ => db w' = db w ∨ (commit_uncertain ∧ P (db w) (db w'))
    end) w.
Proof.
  intros Hbody. unfold wp, run_transaction.
  assert (wp (let? _ := call_out txn_start in body) (λ r w', r = Ok tt → P (db w) (db w')) w) as Hb.
  { wp_step. unfold wp at 1, call_out. cbn [fst snd]. destruct (txn_start (tick w)); [by apply Hbody|by wp_step|done]. }
  unfold wp in Hb. destruct ((let? _ := call_out txn_start in body) w) as [r w1]. cbn [fst snd] in Hb.
  pose proof (commit_law (tick w1)) as Hc.
  destruct r as [[]|e|]; [|destruct (txn_abort _); by left|by left].
  destruct (txn_commit (tick w1)) as [[u|e|] applied] eqn:Htx; [subst applied; by apply Hb| |done].
  cbn. destruct applied; [|destruct (txn_abort _); by left].
  destruct (txn_abort _); right; (split; [by exists (tick w1), e|by apply Hb]).
Qed.

(** *** Reading changes nothing *)
Lemma wp_visit_nodes_db wm nodes acc w : wp (visit_nodes wm nodes acc) (λ _ w', db w' = db w) w.
Proof.
  revert acc w. induction nodes as [|nd nodes IH]; intros acc w; cbn [visit_nodes]; [done|].
  wp_step. eapply (wp_mono _ (λ _ w', db w' = db w)); [|intros a w' E; wp_use IH; congruence].
  rewrite visit_node_engine. by destruct (engine_of nd).
Qed.

Lemma wp_ProcessCompleted_db execData wfID w :
  wp (ProcessCompletedExperimentRun execData wfID) (λ _ w', db w' = db w) w.
Proof.
  unfold ProcessCompletedExperimentRun. wp_step. wp_use wp_FindOne. intros [exp|e|] w1 [E1 _]; [|by wp_step|done].
  destruct (collect_weights _ _ _) as [[wm sum]|]; [|by wp_step].
  wp_step. eapply (wp_mono _ (λ _ w', db w' = db w)); [done|]. intros keys w2 E2.
  wp_step. wp_use wp_visit_nodes_db. intros [total r] w3 E3. wp_step. congruence.
Qed.

Lemma wp_template_probes_db templates probes w : wp (template_probes templates probes) (λ _ w', db w' = db w) w.
Proof.
  revert probes w. induction templates as [|[|a l] templates IH]; intros probes w; cbn [template_probes]; [done|apply IH|].
  destruct (af_RawData a) as [[|ch s]|]; [apply IH| |apply IH].
  destruct (chaos_engine _) as [meta|msg|]; [|done|done].
  destruct (lower_eq _ _); [|apply IH]. wp_step.
  eapply (wp_mono _ (λ _ w', db w' = db w)); [done|]. intros keys w1 E1.
  destruct (annotation_names _ _); [wp_use IH; congruence|done|done].
Qed.

Lemma wp_ParseProbes_db wfType manifest w :
  wp (ParseProbesFromManifestForRuns wfType manifest) (λ _ w', db w' = db w) w.
Proof.
  unfold ParseProbesFromManifestForRuns. destruct (if str_eq _ _ then _ else _); [|done|done].
  apply wp_template_probes_db.
Qed.

Lemma wp_event_metrics_db event d w : wp (event_metrics event d) (λ _ w', db w' = db w) w.
Proof.
  unfold event_metrics. destruct (er_Completed event); [|done]. wp_step. wp_use wp_ProcessCompleted_db.
  intros [m|e|] w1 E1; [|done|done]. wp_step. wp_use wp_FindOne. intros _ w2 [E2 _]. wp_step. congruence.
Qed.

(** *** Events *)

(** The effect of an event: reported as received, it was recorded; otherwise
    nothing changed, unless the commit was applied although it failed. *)
Definition event_effect (event : ExperimentRunRequest) (r : res string) (s s' : GraphDB) : Prop :=
  match r with
  | Ok _ => event_committed event s s' ∨
            (s' = s ∧ no_match (λ e, same_experiment event e && negb (au_IsRemoved (ex_Audit e))) (g_experiments s))
  | _ => s' = s ∨ (commit_uncertain ∧ event_committed event s s')
  end.

Lemma wp_event event w :
  wp (ChaosExperimentRunEvent event) (λ r w', event_effect event r (db w) (db w')) w.
Proof.
  unfold ChaosExperimentRunEvent. wp_step. wp_use wp_FindOne. intros [experiment|e|] w1 [E1 Hf]; [| |done].
  2:{ wp_step. case_bool_decide as He; [|by left]. right. split; [done|]. by apply Hf. }
  destruct Hf as [Hexp [Hsame Hrem%negb_true_iff]%andb_true_iff].
  destruct (last (ex_Revision experiment)) as [revision|]; [|wp_step; by left].
  wp_step. wp_use wp_ParseProbes_db. intros [probes|e|] w2 E2; [|wp_step; left; congruence|left; congruence].
  destruct (event_data event) as [[exeData executionData]|e|] eqn:Hdata; [|wp_step; left; congruence..].
  wp_step. wp_use wp_event_metrics_db. intros [m|e|] w3 E3; [|wp_step; left; congruence|left; congruence].
  wp_step. unfold wp at 1, call_out. cbn [fst snd].
  destruct (txn_start_session (tick w3)); [|wp_step; left; cbn; congruence|left; cbn; congruence].
  wp_step. wp_step. intros t w4 E4. cbn in E4.
  assert (db w4 = db w) as E by congruence. rewrite <-E. wp_step.
  eapply wp_mono; [apply (wp_run_transaction (event_committed event))|].
  - intros w5 E5. eapply wp_mono; [apply wp_record_event; [|done|done]; by rewrite E5, E|].
    cbv beta. intros r w6 Hr Hok. destruct (Hr Hok) as (wfRun & Hrun & Hci & Hrec). rewrite E5 in Hci, Hrec.
    exists experiment, wfRun. rewrite <-E in Hexp. by split_and!.
  - intros [u|e|] w5 H5; [wp_step; by left|by wp_step|done].
Qed.
End effects.

(** ** The ledger *)

(** At most ten recent runs, and no two runs of an experiment with one
    notification. *)
Definition notification (r : ChaosExperimentRun) : option (string * string) :=
  pair (cr_ExperimentID r) <$> cr_NotifyID r.
Definition ledger_ok (s : GraphDB) : Prop :=
  Forall (λ e, length (ex_RecentExperimentRunDetails e) ≤ 10)%nat (g_experiments s) ∧
  NoDup (omap notification (g_runs s)).

Section ledger.
Context {dec : Decoders}.
Implicit Types (s : GraphDB) (event : ExperimentRunRequest).

Lemma updated_one_keeps {D} (q : D → bool) f l l' (d : D) :
  updated_one q f l l' → d ∈ l → q d = false → d ∈ l'.
Proof.
  intros (l1 & x & l2 & -> & Hq & ->) Hd Hnq. apply elem_of_app in Hd as [Hd|[->|Hd]%elem_of_cons]; [set_solver|congruence|set_solver].
Qed.

Lemma updated_one_hits {D} (q : D → bool) f l l' (d : D) :
  updated_one q f l l' → (∀ x, x ∈ l → q x = true → x = d) → f d ∈ l'.
Proof. intros (l1 & x & l2 & -> & Hq & ->) Hun. rewrite <-(Hun x); [set_solver|set_solver|done]. Qed.

Lemma omap_updated_one {D K} (q : D → bool) f (k : D → option K) l l' :
  updated_one q f l l' → (∀ d, k (f d) = k d) → omap k l' = omap k l.
Proof. intros (l1 & x & l2 & -> & Hq & ->) Hk. rewrite !omap_app. cbn. by rewrite Hk. Qed.

Lemma committed_keeps_completed event s s' run :
  event_committed event s s' → run ∈ g_runs s → cr_Completed run = true → run ∈ g_runs s'.
Proof.
  intros (experiment & wfRun & _ & _ & _ & _ & _ & Hrec) Hin Hc. destruct Hrec as [t t' d _ _ _ _ _ [-> _]|_ _ Hu| _ _ ->].
  - set_solver.
  - eapply updated_one_keeps; [done..|]. cbn. by rewrite Hc, andb_false_r.
  - done.
Qed.

Lemma committed_needs_open_run event s s' run :
  event_committed event s s' → List.filter (event_query event) (g_runs s) = [run] → cr_Completed run = false.
Proof.
  intros (experiment & wfRun & _ & _ & _ & _ & _ & Hrec) Hf.
  assert (run ∈ g_runs s ∧ event_query event run = true) as [Hin Hq].
  { apply elem_of_filterb. rewrite Hf. set_solver. }
  destruct Hrec as [t t' d Hno _ _ _ _ _|_ _ Hu|Hlen _ _].
  - unfold no_match in Hno. rewrite Forall_forall in Hno. specialize (Hno _ Hin). congruence.
  - destruct Hu as (l1 & x & l2 & E & [Hx Hcx]%andb_true_iff & _).
    assert (x ∈ List.filter (event_query event) (g_runs s)) as Hxin.
    { apply elem_of_filterb. split; [rewrite E; set_solver|done]. }
    rewrite Hf in Hxin. apply list_elem_of_singleton in Hxin as ->. by apply negb_true_iff.
  - rewrite Hf in Hlen. cbn in Hlen. lia.
Qed.

Lemma later_all_short q l l' :
  later_all q l l' → Forall (λ e, length (ex_RecentExperimentRunDetails e) ≤ 10)%nat l →
  Forall (λ e, length (ex_RecentExperimentRunDetails e) ≤ 10)%nat l'.
Proof.
  intros HF. induction HF as [|e e' l l' He _ IH]; intros Hl; [done|].
  apply Forall_cons in Hl as [Hs Hl]. constructor; [|by apply IH].
  destruct He as [->|(_ & f & i & ->)]; [done|]. cbn. by rewrite length_alter.
Qed.

Lemma committed_keeps_ledger event s s' : event_committed event s s' → ledger_ok s → ledger_ok s'.
Proof.
  intros (experiment & wfRun & _ & _ & _ & Hrun & _ & Hrec) [Hshort HN].
  destruct Hrun as (_ & Hid & Hrid & Hnid & _).
  assert (∀ r, notification (merge_run wfRun r) = notification r) as Hmerge by done.
  destruct Hrec as [t t' d Hno _ _ _ Hexp [Hins _]|_ Hexp Hu|_ Hexp Eruns].
  - split.
    + eapply updated_some_Forall; [by apply updated_one_some|idtac|done].
      intros e _ _ _. cbn. rewrite length_take. lia.
    + rewrite Hins. cbn. unfold notification at 1. cbn. rewrite Hid, Hnid.
      destruct (er_NotifyID event) as [n|] eqn:En; cbn; [|done]. apply NoDup_cons. split; [|done].
      intros (r & Hr & Hkey)%list_elem_of_omap. unfold no_match in Hno. rewrite Forall_forall in Hno.
      specialize (Hno r Hr). unfold event_query, run_query in Hno. rewrite En in Hno.
      unfold notification in Hkey. destruct (cr_NotifyID r) as [n'|] eqn:Er; cbn in Hkey; [|done].
      injection Hkey as Heid ->. rewrite Heid, str_eq_refl in Hno. cbn in Hno. by rewrite bool_decide_eq_true_2 in Hno.
  - split; [by eapply later_all_short|]. by rewrite (omap_updated_one _ _ notification _ _ Hu Hmerge).
  - split; [by eapply later_all_short|by rewrite Eruns].
Qed.
End ledger.

(** ** Stopping runs *)
Section stops.
Context {drv : MongoDriver} {laws : MongoLaws drv} {tx : MongoTxn} {txlaws : MongoTxnLaws tx} {ab : MongoAbort}
  {rt : Runtime} {mo : MapOrder} {fi : FloatToInt} {dec : Decoders} {ps : Positional} {mn : ManifestNamespace}.
Implicit Types w : World GraphDB.

(** Documents only: what is on the channels does not matter. *)
Definition same_documents (s s' : GraphDB) : Prop :=
  g_experiments s' = g_experiments s ∧ g_runs s' = g_runs s.

Lemma wp_Send projectID manifest infraID username externalData reqType w :
  wp (SendExperimentToSubscriber projectID manifest infraID username externalData reqType)
     (λ _ w', same_documents (db w) (db w')) w.
Proof.
  unfold SendExperimentToSubscriber. destruct (manifest_namespace manifest); [|done].
  unfold wp, SendRequestToSubscriber. by destruct (_ !! _).
Qed.

(** One run that satisfies the query may have been stopped, the recent runs of
    experiments may have been rewritten. *)
Definition stop_step (q : ChaosExperimentRun → bool) (username : string) (s s' : GraphDB) : Prop :=
  later_all (λ _, true) (g_experiments s) (g_experiments s') ∧
  ∃ t, g_runs s' = g_runs s ∨ updated_one q (stop_run t username) (g_runs s) (g_runs s').
Definition stop_done (q : ChaosExperimentRun → bool) (username : string) (s s' : GraphDB) : Prop :=
  no_match q (g_runs s) ∨ ∃ t, updated_one q (stop_run t username) (g_runs s) (g_runs s').

Lemma later_all_weaken q l l' : later_all q l l' → later_all (λ _, true) l l'.
Proof. intros HF. eapply Forall2_impl; [done|]. cbn. naive_solver. Qed.

Lemma wp_UpdateRunWithQuery q f w :
  wp (UpdateExperimentRunWithQuery q f) (λ r w', r ≠ Panic ∧ ∃ l', db w' = set_docs l' (db w) ∧
    (l' = g_runs (db w) ∨ updated_one q f (g_runs (db w)) l') ∧
    (r = Ok tt → no_match q (g_runs (db w)) ∨ updated_one q f (g_runs (db w)) l')) w.
Proof.
  unfold UpdateExperimentRunWithQuery. wp_step. wp_use wp_UpdateOne. intros r w' (l' & E & Hl).
  destruct r as [c|e|]; cbn in Hl; [|wp_step; split; [done|]; exists l'; naive_solver|done].
  wp_step. split; [done|]. exists l'. naive_solver.
Qed.

Lemma wp_stop_recent q cs f (fail : string) w :
  wp (let! _ := positional_update q cs f or _ => mret (Err (ErrNew fail)) in mret (Ok tt))
     (λ r w', r ≠ Panic ∧ ∃ l', db w' = set_docs l' (db w) ∧ later_all (λ _, true) (g_experiments (db w)) l') w.
Proof.
  wp_step. wp_use wp_positional_update. intros r w' (Hr & l' & E & Hl%later_all_weaken).
  destruct r; [|by wp_step; eauto..|done]; wp_step; eauto.
Qed.

Lemma wp_ProcessStop q runID notifyID experiment username projectID r w :
  wp (ProcessExperimentRunStop q runID notifyID experiment username projectID r)
     (λ res w', stop_step q username (db w) (db w') ∧ (res = Ok tt → stop_done q username (db w) (db w'))) w.
Proof.
  unfold ProcessExperimentRunStop. wp_step. wp_step. intros t w1 E1. wp_step. wp_use wp_UpdateRunWithQuery.
  rewrite E1. intros res w2 (Hr & lr & E2 & Hcase & Hok).
  destruct res as [[]|e|]; [|wp_step; split; [|done]; rewrite E2; split; [apply later_all_refl|by exists t]|done].
  specialize (Hok eq_refl). wp_step.
  eapply (wp_mono _ (λ r w', r ≠ Panic ∧ ∃ le, db w' = set_docs le (set_docs lr (db w)) ∧
    later_all (λ _, true) (g_experiments (db w)) le)).
  { destruct (negb (str_eq runID "")); [|destruct notifyID as [n|]].
    1,2: wp_step; wp_step; intros t' w3 E3; wp_use wp_stop_recent; intros r' w4 (Hp & le & E4 & Hle);
      rewrite E3, E2 in E4, Hle; split; [done|by exists le].
    wp_step. split; [done|]. rewrite E2. eexists. split; [done|apply later_all_refl]. }
  intros res w3 (Hp & le & E3 & Hle).
  assert (∀ w4, same_documents (db w3) (db w4) →
    stop_step q username (db w) (db w4) ∧ stop_done q username (db w) (db w4)) as Hfin.
  { intros w4 [Ee Er]. unfold stop_step, stop_done. rewrite Ee, Er, E3. cbn. split; [by eauto|]. naive_solver. }
  destruct res as [[]|e|]; [|wp_step; split; [by apply Hfin|done]|done].
  destruct (r && negb (str_eq runID "")); [|wp_step; split; intros; by apply Hfin].
  wp_step. wp_use wp_Send. intros _ w4 H4. wp_step. split; intros; by apply Hfin.
Qed.

Lemma stop_step_ledger q username s s' : stop_step q username s s' → ledger_ok s → ledger_ok s'.
Proof.
  intros [Hexp (t & Hruns)] [Hshort HN]. split; [by eapply later_all_short|].
  destruct Hruns as [->|Hu]; [done|]. by rewrite (omap_updated_one _ _ notification _ _ Hu).
Qed.

(** The results of a completed run: [r'] is the same run with the same outcome. *)
Definition same_results (r r' : ChaosExperimentRun) : Prop :=
  cr_Completed r' = true ∧ cr_ExperimentID r' = cr_ExperimentID r ∧ cr_ExperimentRunID r' = cr_ExperimentRunID r ∧
  cr_NotifyID r' = cr_NotifyID r ∧ cr_ExecutionData r' = cr_ExecutionData r ∧
  cr_ResiliencyScore r' = cr_ResiliencyScore r ∧ cr_Faults r' = cr_Faults r ∧ cr_RunSequence r' = cr_RunSequence r.
Definition keeps_results (s s' : GraphDB) : Prop :=
  ∀ r, r ∈ g_runs s → cr_Completed r = true → ∃ r', r' ∈ g_runs s' ∧ same_results r r'.

Lemma same_results_refl r : cr_Completed r = true → same_results r r.
Proof. by repeat split. Qed.
#[export] Instance keeps_results_preorder : PreOrder keeps_results.
Proof.
  split; [intros s r Hr Hc; exists r; by split; [|apply same_results_refl]|].
  intros s1 s2 s3 H12 H23 r Hr Hc. destruct (H12 r Hr Hc) as (r2 & Hr2 & Hs2).
  destruct (H23 r2 Hr2 (proj1 Hs2)) as (r3 & Hr3 & Hs3). exists r3. split; [done|].
  unfold same_results in *. naive_solver congruence.
Qed.

Lemma stop_step_results q username s s' : stop_step q username s s' → keeps_results s s'.
Proof.
  intros [_ (t & [E|Hu])] r Hr Hc; [exists r; rewrite E; split; [done|by apply same_results_refl]|].
  destruct (q r) eqn:Hq; [|exists r; split; [by eapply updated_one_keeps|by apply same_results_refl]].
  destruct Hu as (l1 & x & l2 & E & Hx & ->). rewrite E in Hr.
  apply elem_of_app in Hr as [Hr|[->|Hr]%elem_of_cons].
  - exists r. split; [set_solver|by apply same_results_refl].
  - exists (stop_run t username x). split; [set_solver|by repeat split].
  - exists r. split; [set_solver|by apply same_results_refl].
Qed.

Lemma committed_results event s s' : event_committed event s s' → keeps_results s s'.
Proof.
  intros He r Hr Hc. exists r. split; [by eapply committed_keeps_completed|by apply same_results_refl].
Qed.

(** *** Every request *)
Lemma event_effect_cases event r s s' : event_effect event r s s' → s' = s ∨ event_committed event s s'.
Proof. destruct r; cbn; naive_solver. Qed.

(** What every event and every stop preserves is preserved by any sequence. *)
Definition kept_by_requests (R : GraphDB → GraphDB → Prop) : Prop :=
  PreOrder R ∧ (∀ event s s', event_committed event s s' → R s s') ∧
  (∀ q username s s', stop_step q username s s' → R s s').

Lemma wp_stop_runs R projectID experimentID username experiment r runs w :
  kept_by_requests R →
  wp (stop_runs projectID experimentID username experiment r runs) (λ _ w', R (db w) (db w')) w.
Proof.
  intros (HR & _ & Hstop). revert w. induction runs as [|[runID notifyID] runs IH]; intros w; cbn [stop_runs].
  { wp_step. reflexivity. }
  destruct (_ && _); [wp_step; reflexivity|]. wp_step. wp_use wp_ProcessStop. intros res w1 [Hst%Hstop _].
  destruct res; [wp_use IH; intros _ w2 ?; by etrans|by wp_step|done].
Qed.

Lemma wp_StopExperimentRuns R projectID experimentID runID notifyID r username w :
  kept_by_requests R →
  wp (StopExperimentRuns projectID experimentID runID notifyID r username) (λ _ w', R (db w) (db w')) w.
Proof.
  intros HR. pose proof HR as (Hpre & _ & _). unfold StopExperimentRuns. wp_step. wp_use wp_FindOne.
  intros [experiment|e|] w1 [E1 _]; rewrite <-E1; [|by wp_step|done].
  wp_step. eapply (wp_mono _ (λ _ w2, db w2 = db w1)).
  - unfold runs_to_stop. destruct (non_empty runID), (non_empty notifyID); [done..|].
    wp_step. wp_use wp_Find. intros [l|e|] w2 [E2 _]; [|by wp_step|done]. by destruct (_ && _).
  - intros [runs|e|] w2 E2; rewrite <-E2; [by apply wp_stop_runs|by wp_step|done].
Qed.

Inductive RunRequest : Type :=
| OnEvent (event : ExperimentRunRequest)
| OnStop (projectID experimentID : string) (runID notifyID : option string) (username : string).

Definition serve_run (req : RunRequest) : GM unit :=
  match req with
  | OnEvent event => _ ← ChaosExperimentRunEvent event; mret tt
  | OnStop p e runID notifyID username => _ ← StopExperimentRuns p e runID notifyID true username; mret tt
  end.
Fixpoint serve_runs (reqs : list RunRequest) : GM unit :=
  match reqs with
  | [] => mret tt
  | req :: reqs => _ ← serve_run req; serve_runs reqs
  end.

Lemma wp_serve_runs R reqs w : kept_by_requests R → wp (serve_runs reqs) (λ _ w', R (db w) (db w')) w.
Proof.
  intros HR. pose proof HR as (Hpre & Hev & _). revert w.
  induction reqs as [|req reqs IH]; intros w; cbn [serve_runs]; [wp_step; reflexivity|].
  wp_step. eapply (wp_mono _ (λ _ w', R (db w) (db w'))); [|intros _ w1 H1; wp_use IH; intros _ w2 H2; by etrans].
  destruct req; cbn [serve_run]; wp_step.
  - wp_use wp_event. intros r w1 [E|?%Hev]%event_effect_cases; wp_step; [by rewrite E|done].
  - wp_use wp_StopExperimentRuns; [done|]. intros _ w1 H1. by wp_step.
Qed.

Lemma wp_events_keep events run w :
  run ∈ g_runs (db w) → cr_Completed run = true →
  wp (serve_runs (OnEvent <$> events)) (λ _ w', run ∈ g_runs (db w')) w.
Proof.
  intros Hin Hc. revert w Hin. induction events as [|event events IH]; intros w Hin; cbn [fmap list_fmap serve_runs]; [done|].
  wp_step. cbn [serve_run]. wp_step. wp_use wp_event. intros r w1 [E|Hco]%event_effect_cases; wp_step; apply IH.
  - by rewrite E.
  - by eapply committed_keeps_completed.
Qed.

(** *** What a stop that reports success leaves *)

(** The identifiers by which a stop of [StopExperimentRuns] names a run. *)
Definition stop_name (runID notifyID : option string) (run : ChaosExperimentRun) : string * option string :=
  match non_empty runID, non_empty notifyID with
  | Some id, _ => (id, None)
  | None, Some n => ("", Some n)
  | None, None => (cr_ExperimentRunID run, cr_NotifyID run)
  end.
(** The stop is meant for the run: it names it, or it names none and the run is
    one of those that can be stopped. *)
Definition stop_means (projectID experimentID : string) (runID notifyID : option string) (run : ChaosExperimentRun) : bool :=
  let '(id, n) := stop_name runID notifyID run in
  stop_query projectID experimentID id n run &&
  match non_empty runID, non_empty notifyID with None, None => can_stop run | _, _ => true end.

(** The run with the results it had, stopped. *)
Definition stopped_of (run x : ChaosExperimentRun) : Prop :=
  cr_Phase x = ExperimentRunStatusStopped ∧ same_results run x.

Lemma updated_one_sole {D} (q q' : D → bool) f l l' x :
  (∀ d, q (f d) = q d) → List.filter q l = [x] → updated_one q' f l l' →
  (q' = q → List.filter q l' = [f x]) ∧ (List.filter q l' = [x] ∨ List.filter q l' = [f x]).
Proof.
  intros Hf Hx (l1 & y & l2 & -> & Hy & ->). rewrite List.filter_app in Hx |- *. cbn in Hx |- *. rewrite Hf.
  destruct (q y) eqn:Hqy; [|split; [intros ->; congruence|by left]].
  assert (List.filter q l1 = [] ∧ x = y ∧ List.filter q l2 = []) as (-> & -> & ->); [|by auto].
  destruct (List.filter q l1) as [|z l]; [by simplify_eq/=|]. cbn in Hx. by destruct l.
Qed.

Lemma stop_query_stopped projectID experimentID id n t username d :
  stop_query projectID experimentID id n (stop_run t username d) = stop_query projectID experimentID id n d.
Proof. done. Qed.
Lemma stop_run_stopped t username run x : x = run ∨ stopped_of run x → stopped_of run (stop_run t username x).
Proof. intros [->|[_ (? & ? & ? & ? & ? & ? & ? & ?)]]; by repeat split. Qed.

(** The run that a stop names is the only one of its name, and stays so. *)
Lemma wp_stop_runs_hits projectID experimentID username experiment r run id n runs x w :
  List.filter (stop_query projectID experimentID id n) (g_runs (db w)) = [x] → x = run ∨ stopped_of run x →
  wp (stop_runs projectID experimentID username experiment r runs) (λ res w', res = Ok true →
    (id, n) ∈ runs ∨ stopped_of run x → ∃ x', x' ∈ g_runs (db w') ∧ stopped_of run x') w.
Proof.
  revert x w. induction runs as [|[id' n'] runs IH]; intros x w Hx Hrun; cbn [stop_runs].
  { wp_step. intros _ [[]%not_elem_of_nil|Hs]. exists x. split; [|done].
    assert (x ∈ List.filter (stop_query projectID experimentID id n) (g_runs (db w))) as Hin by (rewrite Hx; set_solver).
    by apply elem_of_filterb in Hin as [? _]. }
  destruct (_ && _); [by wp_step|]. wp_step. wp_use wp_ProcessStop. intros [[]|e|] w1 [(_ & t & Hst) Hdone]; [|by wp_step|done].
  assert (∃ x1, List.filter (stop_query projectID experimentID id n) (g_runs (db w1)) = [x1] ∧ (x1 = run ∨ stopped_of run x1) ∧
    ((id', n') = (id, n) ∨ stopped_of run x → stopped_of run x1)) as (x1 & Hx1 & Hr1 & Hs1).
  { destruct (Hdone eq_refl) as [Hno|[t' Hu]].
    - destruct Hst as [E|Hu].
      + exists x. rewrite E. split_and!; [done..|]. intros [[= -> ->]|?]; [|done]. exfalso.
        assert (x ∈ List.filter (stop_query projectID experimentID id n) (g_runs (db w))) as [Hin Hq]%elem_of_filterb by (rewrite Hx; set_solver).
        unfold no_match in Hno. rewrite Forall_forall in Hno. specialize (Hno _ Hin). congruence.
      + exfalso. destruct Hu as (l1 & y & l2 & E & Hy & _). unfold no_match in Hno. rewrite Forall_forall in Hno.
        rewrite (Hno y) in Hy; [done|]. rewrite E. set_solver.
    - destruct (updated_one_sole _ _ _ _ _ _ (stop_query_stopped projectID experimentID id n t' username) Hx Hu) as [Hsame [E|E]].
      + exists x. split_and!; [done..|]. intros [[= -> ->]|?]; [|done]. rewrite (Hsame eq_refl) in E. injection E as <-.
        by apply stop_run_stopped.
      + exists (stop_run t' username x). split_and!; [done|right|intros _]; by apply stop_run_stopped. }
  eapply wp_mono; [by apply (IH x1)|]. intros res w2 H2 Hok [[E|?]%elem_of_cons|?]; apply H2; auto.
Qed.

Lemma wp_StopExperimentRuns_hits projectID experimentID runID notifyID r username run w :
  run ∈ g_runs (db w) → stop_means projectID experimentID runID notifyID run = true →
  (let '(id, n) := stop_name runID notifyID run in
   length (List.filter (stop_query projectID experimentID id n) (g_runs (db w))) = 1%nat) →
  wp (StopExperimentRuns projectID experimentID runID notifyID r username) (λ res w', res = Ok true →
    ∃ x, x ∈ g_runs (db w') ∧ stopped_of run x) w.
Proof.
  unfold stop_means. destruct (stop_name runID notifyID run) as [id n] eqn:Hname.
  intros Hin [Hq Hcan]%andb_true_iff Hone. unfold StopExperimentRuns. wp_step. wp_use wp_FindOne.
  intros [experiment|e|] w1 [E1 _]; [|by wp_step|done]. rewrite <-E1 in Hin, Hone.
  assert (List.filter (stop_query projectID experimentID id n) (g_runs (db w1)) = [run]) as Hsole.
  { assert (run ∈ List.filter (stop_query projectID experimentID id n) (g_runs (db w1))) as Hf by (by apply elem_of_filterb).
    destruct (List.filter _ _) as [|y [|z l]]; [done| |done]. apply list_elem_of_singleton in Hf. by subst. }
  wp_step. eapply (wp_mono _ (λ res w2, db w2 = db w1 ∧ ∀ runs, res = Ok runs → (id, n) ∈ runs)).
  - unfold stop_name in Hname. unfold runs_to_stop.
    destruct (non_empty runID) as [i|]; [injection Hname as <- <-; wp_step; split; [done|]; intros ? [= <-]; set_solver|].
    destruct (non_empty notifyID) as [m|]; [injection Hname as <- <-; wp_step; split; [done|]; intros ? [= <-]; set_solver|].
    injection Hname as <- <-. wp_step. wp_use wp_Find. intros [l|e|] w2 [E2 Hl]; [|by wp_step|done].
    destruct (_ && _); wp_step; [done|]. split; [done|]. intros ? [= <-]. destruct Hl as (l' & Hp & ->).
    apply list_elem_of_fmap. exists run. split; [done|]. rewrite !elem_of_filterb. split_and!; [by rewrite Hp| |done].
    unfold stop_query in Hq. by apply andb_true_iff in Hq as [-> _].
  - intros [runs|e|] w2 [E2 Hruns]; [|by wp_step|done]. rewrite <-E2 in Hsole.
    eapply wp_mono; [eapply wp_stop_runs_hits; [exact Hsole|by left]|]. intros res w3 H3 Hok. apply H3; auto.
Qed.
End stops.
