(* ===== verification/RunLedger.v ===== *)
(** * RunLedger.v: the properties of run events and stops

    The theorems on the ledger of runs, with concrete runs of the handlers. *)
From S2P Require Import Prelude World MemMongo GoStd Float64 GraphDocs Experiments RunScore RunScoreTheorems RunEvent RunTheorems.
From Stdlib Require Import Ascii SpecFloat.
Local Open Scope string_scope.
Local Open Scope Z_scope.

Section theorems.
Context {drv : MongoDriver} {laws : MongoLaws drv} {tx : MongoTxn} {txlaws : MongoTxnLaws tx} {ab : MongoAbort}
  {rt : Runtime} {mo : MapOrder} {fi : FloatToInt} {dec : Decoders} {ps : Positional} {mn : ManifestNamespace}.
Implicit Types w : World GraphDB.

(** C9. An event is recorded as a whole or not at all, whatever the database
    does. Reported as received, it has been recorded: a first event adds the run
    with the next number of its experiment and puts it at the head of the recent
    runs; a later one updates the one run it names while that run is open.
    Reported as failed, nothing changed, unless the commit itself reported an
    error and was applied. *)
Theorem run_event_is_atomic event w :
  wp (ChaosExperimentRunEvent event) (λ r w', event_effect event r (db w) (db w')) w.
Proof. apply wp_event. Qed.

(** C10. The results of a completed run are final: through any sequence of events
    and stops, with any failures of the database, the run stays in the
    collection, completed, with its score, its fault counters and its execution
    data. *)
Theorem completed_results_are_final reqs w :
  wp (serve_runs reqs) (λ _ w', keeps_results (db w) (db w')) w.
Proof.
  apply wp_serve_runs. split_and!; [apply _| |]; intros; [by eapply committed_results|by eapply stop_step_results].
Qed.

(** C35. Through any sequence of events and stops no experiment lists more than
    ten recent runs, and no two runs of an experiment share a notification. *)
Theorem run_ledger_is_kept reqs w :
  ledger_ok (db w) → wp (serve_runs reqs) (λ _ w', ledger_ok (db w')) w.
Proof.
  intros Hok. eapply wp_mono; [apply (wp_serve_runs (λ s s', ledger_ok s → ledger_ok s'))|by intros; auto].
  split_and!; [split; [by intros s|by intros s1 s2 s3; auto]| |]; intros;
    [by eapply committed_keeps_ledger|by eapply stop_step_ledger].
Qed.


(** C12. A stopped run stays stopped. When a stop reports success, by the identifier
    of a run, by a notification or of all runs of the experiment that are
    running, timed out or queued, every run it is meant for that is the only one
    of its name is marked stopped and completed, with the results it had, and
    remains exactly so through any events subscribers send afterwards. *)
Theorem stopped_run_stays_stopped projectID experimentID runID notifyID r username run events w :
  run ∈ g_runs (db w) → stop_means projectID experimentID runID notifyID run = true →
  (let '(id, n) := stop_name runID notifyID run in
   length (List.filter (stop_query projectID experimentID id n) (g_runs (db w))) = 1%nat) →
  wp (StopExperimentRuns projectID experimentID runID notifyID r username) (λ res w1, res = Ok true →
    ∃ stopped, cr_Phase stopped = ExperimentRunStatusStopped ∧ same_results run stopped ∧
      stopped ∈ g_runs (db w1) ∧
      wp (serve_runs (OnEvent <$> events)) (λ _ w2, stopped ∈ g_runs (db w2)) w1) w.
Proof.
  intros Hin Hm Hone. eapply wp_mono; [by apply (wp_StopExperimentRuns_hits _ _ _ _ _ _ run)|].
  intros res w1 H1 Hok. destruct (H1 Hok) as (x & Hx & [Hp Hs]). exists x. split_and!; [done..|].
  apply wp_events_keep; [done|apply Hs].
Qed.
End theorems.

(** ** A concrete environment *)
#[local] Instance ledger_float : FloatToInt := λ _, - 2 ^ 63.
#[local] Instance ledger_runtime : Runtime :=
  {| clock n := 1000 + Z.of_nat n; add_days ms days := ms + days; fresh_uuid _ := "uuid" |}.
#[local] Instance ledger_driver : MongoDriver := mem_driver (λ _, None).
#[local] Instance ledger_laws : MongoLaws ledger_driver := mem_laws _.
#[local] Instance ledger_txn : MongoTxn :=
  {| txn_start_session n := Ok tt; txn_start n := Ok tt; txn_commit n := (Ok tt, true) |}.
#[local] Instance ledger_txn_laws : MongoTxnLaws ledger_txn.
Proof. by split. Qed.
#[local] Instance ledger_abort : MongoAbort := λ _, Ok tt.
#[local] Instance ledger_order : MapOrder := λ _ l, l.
#[local] Instance ledger_namespace : ManifestNamespace := λ _, Some "litmus".
#[local] Instance ledger_decoders : Decoders := {|
  workflow_templates s := if str_eq s "wf" then Ok [[mkArtifact "pod-delete" (Some "engine")]; []] else Err "syntax";
  cron_workflow_templates _ := Err "syntax";
  chaos_engine _ := Ok (mkEngineMeta "ChaosEngine" {["probeRef" := "[p1]"]});
  probe_annotations _ := Ok ["p1"];
  execution_data s := if str_in s ["running"; "{}"] then Ok (mkExecutionData "rev" "Running" ∅)
                      else Err (ErrNew "invalid character");
|}.

(** The choice of the element by the first condition on the array. *)
#[local] Instance first_condition : Positional := λ _ cs l, c ← head cs; find_index c l.

Lemma find_index_spec {A} (f : A → bool) l i : find_index f l = Some i → ∃ x, l !! i = Some x ∧ f x = true.
Proof.
  revert i. induction l as [|x l IH]; cbn; intros i; [done|].
  destruct (f x) eqn:Hf; [intros [= <-]; eauto|]. intros (j & Hj & ->)%fmap_Some. by apply IH.
Qed.
#[local] Instance first_condition_laws : PositionalLaws first_condition.
Proof.
  split; [done|]. intros n [|c cs] l i; cbn; [done|]. intros (x & Hx & Hc)%find_index_spec.
  exists c, x. set_solver.
Qed.

Definition ledger_audit : mongodb_Audit := mkGAudit 1 1 no_user no_user false.
Definition open_run (runID notifyID : string) : ChaosExperimentRun :=
  mkRun "p1" ledger_audit "i1" runID "e1" "" "Running" [] "" "rev" (Some notifyID) (Some (S754_zero false)) None 1 false.
Definition recent (runID notifyID : string) : ExperimentRunDetail :=
  mkRunDetail ledger_audit "p1" runID "Running" (Some notifyID) None false 1 [].
Definition ledger_experiment : ChaosExperimentRequest :=
  mkExperiment "exp" "" [] ledger_audit "p1" "e1" "" "i1" NonCronExperiment
    [mkRevision "rev" "wf" 1 None []] false [recent "runB" "nB"; recent "runA" "nA"] 2.
Definition completed_run : ChaosExperimentRun :=
  merge_run (mkRun "p1" ledger_audit "i1" "runC" "e1" "" "Completed" [] "" "rev" None (Some (float64 100)) None 1 true)
    (open_run "runC" "nC").
Definition ledger_db : GraphDB :=
  mkGraphDB [ledger_experiment] [open_run "runA" "nA"; open_run "runB" "nB"; completed_run] [] [] [] [] [] [] []
    (connect_infra "i1" NewStore).
Definition ledger_world : World GraphDB := mkWorld ledger_db 0.

Definition event_for (runID : string) (notifyID : option string) (data key : string) : ExperimentRunRequest :=
  mkRunRequest "e1" notifyID runID "exp" data (Some (mkInfraIdentity "i1" key "3.9.0")) "rev" false None "YWRtaW4".

(** ** Witnesses *)
Lemma run_event_is_atomic_witness :
  wp (ChaosExperimentRunEvent (event_for "runA" (Some "nA") (std_encode "running") "k"))
     (λ r w', r = Ok "Experiment run received for for ExperimentID: e1, ExperimentRunID: runA" ∧
        event_effect (event_for "runA" (Some "nA") (std_encode "running") "k") r ledger_db (db w')) ledger_world.
Proof.
  apply wp_conj; [vm_compute; reflexivity|].
  apply (run_event_is_atomic (event_for "runA" (Some "nA") (std_encode "running") "k") ledger_world).
Defined.

Lemma completed_results_are_final_witness :
  wp (serve_runs [OnEvent (event_for "runA" (Some "nA") (std_encode "running") "k"); OnStop "p1" "e1" None None "u"])
     (λ _ w', keeps_results ledger_db (db w')) ledger_world.
Proof. apply (completed_results_are_final _ ledger_world). Defined.

Lemma ledger_db_ok : ledger_ok ledger_db.
Proof. split; [repeat constructor; cbn; lia|]. cbn. repeat constructor; set_solver. Qed.

Lemma run_ledger_is_kept_witness :
  wp (serve_runs [OnEvent (event_for "runD" None "" "k"); OnStop "p1" "e1" None None "u"])
     (λ _ w', ledger_ok (db w')) ledger_world.
Proof. apply (run_ledger_is_kept _ ledger_world). exact ledger_db_ok. Defined.


Lemma stopped_run_stays_stopped_witness :
  wp (StopExperimentRuns "p1" "e1" None None true "u") (λ r w1, r = Ok true ∧ (r = Ok true →
    ∃ stopped, cr_Phase stopped = ExperimentRunStatusStopped ∧ same_results (open_run "runA" "nA") stopped ∧
      stopped ∈ g_runs (db w1) ∧
      wp (serve_runs (OnEvent <$> [event_for "runA" (Some "nA") (std_encode "running") "k"]))
        (λ _ w2, stopped ∈ g_runs (db w2)) w1)) ledger_world.
Proof.
  apply wp_conj; [vm_compute; reflexivity|].
  apply (stopped_run_stays_stopped "p1" "e1" None None true "u" (open_run "runA" "nA") _ ledger_world);
    [apply list_elem_of_here|vm_compute; reflexivity..].
Defined.

(** ** Runs that show flaws *)

(** Nobody checks who reports on a run: events that differ only in the access
    key and version of the infrastructure have the same effect, so any caller
    that knows two identifiers can complete a run or set its score. *)
Theorem event_ignores_access_key `{MongoDriver} `{MongoTxn} `{MongoAbort} `{Runtime} `{MapOrder} `{FloatToInt}
    `{Decoders} `{Positional} eid notifyID runID name data infraID key key' version version' rev completed
    removed updatedBy w :
  ChaosExperimentRunEvent (mkRunRequest eid notifyID runID name data
    (Some (mkInfraIdentity infraID key version)) rev completed removed updatedBy) w =
  ChaosExperimentRunEvent (mkRunRequest eid notifyID runID name data
    (Some (mkInfraIdentity infraID key' version')) rev completed removed updatedBy) w.
Proof. reflexivity. Qed.

(** The entry of another run is overwritten: the filter of a later event puts
    two separate conditions on the recent runs, so the element the update picks
    need not be the run's own. With a choice the database documents as possible,
    an event of run A replaces the entry of run B, which is lost from the list. *)
Example recent_entry_of_another_run_overwritten :
  PositionalLaws first_condition ∧
  wp (ChaosExperimentRunEvent (event_for "runA" (Some "nA") (std_encode "running") "k"))
     (λ r w', is_ok r = true ∧
        (rd_ExperimentRunID <$> (g_experiments (db w') ≫= ex_RecentExperimentRunDetails)) = ["runA"; "runA"]) ledger_world.
Proof. split; [exact _|]. split; vm_compute; reflexivity. Qed.

(** A stop that names a completed run rewrites its phase. *)
Example stop_rewrites_completed_phase :
  wp (StopExperimentRuns "p1" "e1" (Some "runC") None true "u") (λ r w', r = Ok true ∧
    (cr_Phase <$> g_runs (db w')) = ["Running"; "Running"; "Stopped"]) ledger_world.
Proof. split; vm_compute; reflexivity. Qed.

(** Execution data that is not base64 text is replaced by the identifier of the
    experiment, which does not decode: the event of an old subscriber fails. *)
Example plain_execution_data_is_lost :
  execution_data "{}" = Ok (mkExecutionData "rev" "Running" ∅) ∧ std_decode "{}" = None ∧
  event_data (event_for "runA" None "{}" "k") = Err (ErrNew "invalid character").
Proof. split_and!; vm_compute; reflexivity. Qed.
