(* ===== verification/Pipelines.v ===== *)
(** * Pipelines.v: aggregation pipelines of the GraphQL server

    What the stages the code builds compute on a collection: [$match], [$sort],
    [$skip], [$limit], and the [$facet] that counts and pages. Shared by the
    listings of environments, infrastructures and probes. *)
From S2P Require Import Prelude World GoStd GraphDocs Experiments RunScoreTheorems RunTheorems.
From stdpp Require Import sorting.
Local Open Scope string_scope.
Local Open Scope Z_scope.

(** [$regex] with its options. *)
Class MongoRegex := regex_find : string → string → string → bool.

Inductive PStage (D : Type) : Type :=
| StMatch (q : D → bool)
| StSort (le : D → D → bool)
| StSkip (n : Z)
| StLimit (n : Z).
Arguments StMatch {D} _.
Arguments StSort {D} _.
Arguments StSkip {D} _.
Arguments StLimit {D} _.

Section stages.
Context {D : Type}.

(** The order a boolean comparison stands for. *)
Definition bool_rel (le : D → D → bool) (x y : D) : Prop := le x y = true.
#[export] Instance bool_rel_dec le : RelDecision (bool_rel le).
Proof. intros x y. unfold bool_rel. apply _. Defined.

Definition run_pstage (s : PStage D) (l : list D) : list D :=
  match s with
  | StMatch q => List.filter q l
  | StSort le => merge_sort (bool_rel le) l
  | StSkip n => drop (Z.to_nat n) l
  | StLimit n => take (Z.to_nat n) l
  end.
Definition run_pipeline (ss : list (PStage D)) (l : list D) : list D := foldl (λ l s, run_pstage s l) l ss.

(** The database refuses a negative [$skip] and a [$limit] that is not positive. *)
Definition pstage_valid (s : PStage D) : bool :=
  match s with
  | StSkip n => bool_decide (0 ≤ n)
  | StLimit n => bool_decide (0 < n)
  | _ => true
  end.

Lemma run_pipeline_app ss ss' l : run_pipeline (ss ++ ss')%list l = run_pipeline ss' (run_pipeline ss l).
Proof. unfold run_pipeline. by rewrite foldl_app. Qed.

(** A list of conditions, one [$match] each. *)
Definition all_match (qs : list (D → bool)) (d : D) : bool := forallb (λ q, q d) qs.

Lemma run_matches qs l : run_pipeline (StMatch <$> qs) l = List.filter (all_match qs) l.
Proof.
  revert l. induction qs as [|q qs IH]; intros l.
  - cbn. induction l as [|x l IHl]; cbn; congruence.
  - change (run_pipeline (StMatch <$> qs) (List.filter q l) = List.filter (all_match (q :: qs)) l).
    by rewrite IH, filter_filterb.
Qed.

(** Every page is part of what was selected, each document at most as often. *)
Lemma run_pipeline_submseteq ss l : run_pipeline ss l ⊆+ l.
Proof.
  revert l. induction ss as [|s ss IH]; intros l; [done|].
  change (run_pipeline ss (run_pstage s l) ⊆+ l). etrans; [apply IH|].
  destruct s; cbn; [by apply sublist_submseteq, filter_sublist|by rewrite merge_sort_Permutation|..];
    apply sublist_submseteq; [apply sublist_drop|apply sublist_take].
Qed.
End stages.

(** An aggregation that the database runs when all its stages are valid. *)
Section facet.
Context `{MongoDriver}.

Definition AggregatePage {D} `{Collection GraphDB D} (select page : list (PStage D)) : GM (res (Z * list D)) :=
  if forallb pstage_valid page then
    let? result := Aggregate (λ l : list D,
      let matching := run_pipeline select l in [(Z.of_nat (length matching), run_pipeline page matching)]) in
    mret (Ok (default (0, []) (head result)))
  else mret (Err (ErrDriver 15958)).
End facet.

Lemma wp_AggregatePage {drv : MongoDriver} {laws : MongoLaws drv} {D} `{Collection GraphDB D}
    (select page : list (PStage D)) w :
  wp (AggregatePage select page) (λ r w', db w' = db w ∧
    match r with
    | Ok (n, l) => ∃ l', l' ≡ₚ docs (db w) ∧ n = Z.of_nat (length (run_pipeline select l')) ∧
                         l = run_pipeline page (run_pipeline select l')
    | Err _ => True
    | Panic => False
    end) w.
Proof.
  unfold AggregatePage. destruct (forallb _ _); [|by wp_step]. wp_step. wp_use wp_Aggregate.
  intros [x|e|] w1 [E Hx]; [|by wp_step|done]. wp_step. split; [done|].
  destruct Hx as (l' & Hp & ->). by exists l'.
Qed.
