(* ===== verification/Authorization.v ===== *)
(** * Authorization.v: who may call the GraphQL server

    [graphql/server/pkg/authorization]: the middleware, the name of the caller,
    and [ValidateRole], which asks the authentication service over gRPC
    ([pkg/grpc/auth_grpc_client.go]). What that service promises is the
    interface [AuthClientLaws]; the resolvers are verified against it. *)
From S2P Require Import Prelude World GoStd AuthRepo GraphDocs Experiments.
Local Open Scope string_scope.
Local Open Scope Z_scope.

(** ** The authentication service, as its client sees it

    [rpc_ValidateRequest] gives the fields [Error] and [IsValid] of the answer;
    [db_GetAuthConfig] is the signing secret read from the [auth] database;
    [db_FindRevoked] looks a token up among the revoked ones;
    [rpc_GetProjectById] says whether the project is found. *)
Class AuthClient := {
  rpc_ValidateRequest (n : nat) (jwt projectID : string) (requiredRoles : list string) (invitation : string) :
    res (string * bool);
  db_GetAuthConfig (n : nat) : res string;
  db_FindRevoked (n : nat) (token : string) : res unit;
  rpc_GetProjectById (n : nat) (projectID : string) : res unit;
}.

(** What the service promises: an answer without error means that the bearer
    of the token is entitled, in the sense of [entitled], at that call. *)
Class AuthClientLaws (ac : AuthClient) (entitled : nat → string → string → list string → string → Prop) : Prop := {
  rpc_sound n jwt projectID roles invitation :
    rpc_ValidateRequest n jwt projectID roles invitation = Ok ("", true) → entitled n jwt projectID roles invitation;
  rpc_no_panic n jwt projectID roles invitation : rpc_ValidateRequest n jwt projectID roles invitation ≠ Panic;
}.

(** What the code reads of a request context: the token the middleware puts
    under [AuthKey], the system actor, the [Referer] of the request header
    ("" when the header has none), and the claims that are strings of the token
    the directive [@authorized] puts under [UserClaim]. *)
Record Ctx : Type := mkCtx {
  cx_AuthKey : option string; cx_SystemActor : option string; cx_Referer : option string;
  cx_UserClaims : option (gmap string string)
}.

(** ** Roles: [roles.go] *)
Inductive RoleQuery : Type :=
| UserInfrastructureReg | ListInfrastructures | GetInfrastructure | DeleteInfrastructures | GetManifest
| GetInfraDetailsRole | CreateChaosExperimentRole | ReRunChaosExperiment | DeleteChaosExperimentRole
| UpdateChaosExperimentRole | ListExperimentRole | CreateEnvironmentRole | StopChaosExperiment | ListWorkflowRuns
| GetWorkflowRun | AddChaosHub | UpdateChaosHub | DeleteChaosHub | ListCharts | SaveChaosHub | EnableGitOps
| DisableGitOps | UpdateGitOps | GetGitOpsDetails | CreateImageRegistryRole | UpdateImageRegistryRole
| DeleteImageRegistryRole | ListImageRegistryRole | GetImageRegistryRole | UpdateEnvironmentRole
| DeleteEnvironmentRole | GetEnvironmentRole | ListEnvironmentsRole | AddProbeRole | DeleteProbeRole
| UpdateProbeRole | GetProbeRole | ListProbesRole.

Definition MemberRoleOwnerString : string := "Owner".
Definition MemberRoleExecutorString : string := "Executor".
Definition MemberRoleViewerString : string := "Viewer".
Definition MemberRoleEditorString : string := "Editor".
Definition InvitationAccepted : string := "Accepted".

Definition MutationRbacRules (q : RoleQuery) : list string :=
  match q with
  | UserInfrastructureReg | AddChaosHub | DeleteInfrastructures | UpdateChaosHub | DeleteChaosHub | EnableGitOps
  | DisableGitOps | UpdateGitOps | SaveChaosHub | CreateImageRegistryRole | UpdateImageRegistryRole
  | DeleteImageRegistryRole | GetGitOpsDetails | ListImageRegistryRole | CreateEnvironmentRole
  | UpdateEnvironmentRole | DeleteEnvironmentRole => [MemberRoleOwnerString]
  | CreateChaosExperimentRole | DeleteChaosExperimentRole | UpdateChaosExperimentRole | GetImageRegistryRole
  | AddProbeRole | UpdateProbeRole | DeleteProbeRole => [MemberRoleOwnerString; MemberRoleEditorString]
  | ReRunChaosExperiment | StopChaosExperiment | GetManifest | GetInfraDetailsRole =>
      [MemberRoleOwnerString; MemberRoleExecutorString; MemberRoleEditorString]
  | ListWorkflowRuns | GetWorkflowRun | ListInfrastructures | GetInfrastructure | ListCharts | ListExperimentRole
  | GetEnvironmentRole | ListEnvironmentsRole | GetProbeRole | ListProbesRole =>
      [MemberRoleOwnerString; MemberRoleExecutorString; MemberRoleViewerString; MemberRoleEditorString]
  end.

Section authorization.
Context `{Runtime} `{Crypto} `{AuthClient}.

(** A call of the authentication service or its database. *)
Definition auth_call {A} (f : nat → res A) : GM (res A) := λ w, (f (tick w), bump w).

(** [ValidatorGRPCRequest] *)
Definition ValidatorGRPCRequest (jwt projectID : string) (requiredRoles : list string) (invitation : string) :
    GM (res unit) :=
  let? resp := auth_call (λ n, rpc_ValidateRequest n jwt projectID requiredRoles invitation) in
  let '(msg, isValid) := resp in
  if negb (str_eq msg "") || negb isValid then mret (Err (ErrNew msg)) else mret (Ok tt).

(** The text of an error of the call is not kept. *)
Definition error_text (e : error) : string := match e with ErrNew msg => msg | _ => "" end.

Definition ValidateRole (ctx : Ctx) (projectID : string) (requiredRoles : list string) (invitation : string) :
    GM (res unit) :=
  match cx_AuthKey ctx with
  | None => mret Panic
  | Some jwt =>
      let! _ := ValidatorGRPCRequest jwt projectID requiredRoles invitation
      or e => mret (Err (ErrNew ("permission_denied: " +:+ error_text e))) in
      mret (Ok tt)
  end.

(** ** The caller: [user_jwt.go] *)
Definition UserValidateJWT (token salt : string) : GM (res Claims) :=
  t ← now;
  match jwt_parse (t / 1000) salt token with
  | Ok claims => mret (Ok claims)
  | _ => mret (Err (ErrNew "invalid Token"))
  end.

(** [claims["username"].(string)] panics when the claim is missing. *)
Definition GetUsername (token : string) : GM (res string) :=
  let? salt := auth_call db_GetAuthConfig in
  t ← now;
  match jwt_parse (t / 1000) salt token with
  | Ok claims => mret (match c_username claims with Some u => Ok u | None => Panic end)
  | _ => mret (Err (ErrNew "invalid Token"))
  end.

(** The token of the context, which the code asserts to be a string, then its name. *)
Definition ctx_username (ctx : Ctx) : GM (res string) :=
  match cx_AuthKey ctx with None => mret Panic | Some tkn => GetUsername tkn end.

Definition GetUsernameFromContext (ctx : Ctx) : GM (res string) :=
  let actor :=
    match cx_SystemActor ctx with
    | Some actor => if str_eq actor "" then Err (ErrNew "JWT token not found") else Ok actor
    | None => Err (ErrNew "JWT token not found")
    end in
  match cx_AuthKey ctx with
  | Some token => if str_eq token "" then mret actor else GetUsername token
  | None => mret actor
  end.

(** ** The middleware: [middleware.go]

    The answer is the status 401 or what the next handler gives. *)
Definition IsRevokedToken (tokenString : string) : GM bool :=
  r ← auth_call (λ n, db_FindRevoked n tokenString);
  mret (is_ok r).

Definition bearer (jwt : string) : string :=
  match strip_prefix (chars "Bearer ") (chars jwt) with Some rest => of_chars rest | None => jwt end.

Definition Middleware {A} (header : string) (referer : string) (next : Ctx → GM A) : GM (result Z A) :=
  let jwt := bearer header in
  revoked ← IsRevokedToken jwt;
  if (revoked : bool) then mret (Err 401)
  else a ← next (mkCtx (Some jwt) None (Some referer) None); mret (Ok a).

(** The [@authorized] directive: [graph/resolver.go]. *)
Definition Authorized {A} (ctx : Ctx) (next : GM (res A)) : GM (res A) :=
  match cx_AuthKey ctx with
  | None => mret Panic
  | Some token =>
      let? salt := auth_call db_GetAuthConfig in
      let? _ := UserValidateJWT token salt in
      next
  end.
End authorization.

(** ** Specifications *)
Section specs.
Context {rt : Runtime} {cr : Crypto} {ac : AuthClient}.
Implicit Types (w : World GraphDB) (ctx : Ctx).

(** The service accepted the caller of [ctx] for the project at some call. *)
Definition accepted ctx (projectID : string) (roles : list string) (invitation : string) : Prop :=
  ∃ n jwt, cx_AuthKey ctx = Some jwt ∧ rpc_ValidateRequest n jwt projectID roles invitation = Ok ("", true).

Lemma wp_auth_call {A} (f : nat → res A) w : wp (auth_call f) (λ r w', db w' = db w ∧ r = f (tick w)) w.
Proof. done. Qed.

Lemma wp_ValidatorGRPCRequest jwt projectID roles invitation w :
  wp (ValidatorGRPCRequest jwt projectID roles invitation) (λ r w', db w' = db w ∧
    (r = Ok tt → rpc_ValidateRequest (tick w) jwt projectID roles invitation = Ok ("", true))) w.
Proof.
  unfold ValidatorGRPCRequest. wp_step. wp_use wp_auth_call.
  intros [[msg b]|e|] w1 [E Hr]; [|by wp_step|by split].
  destruct (str_eq msg "") eqn:Em, b; cbn; wp_step; (split; [done|]); try done.
  intros _. by apply str_eq_true in Em as ->.
Qed.

Lemma wp_ValidateRole ctx projectID roles invitation w :
  wp (ValidateRole ctx projectID roles invitation)
     (λ r w', db w' = db w ∧ (r = Ok tt → accepted ctx projectID roles invitation)) w.
Proof.
  unfold ValidateRole. destruct (cx_AuthKey ctx) as [jwt|] eqn:Ej; [|by wp_step].
  wp_step. wp_use wp_ValidatorGRPCRequest. intros [[]|e|] w1 [E Hr]; [|by wp_step|by split].
  wp_step. split; [done|]. intros _. exists (tick w), jwt. auto.
Qed.

Lemma wp_GetUsername token w : wp (GetUsername token) (λ _ w', db w' = db w) w.
Proof.
  unfold GetUsername. wp_step. wp_use wp_auth_call. intros [salt|e|] w1 [E _]; [|by wp_step|done].
  wp_step. wp_step. intros t w2 E2. destruct (jwt_parse _ _ _); wp_step; congruence.
Qed.

Lemma wp_ctx_username ctx w : wp (ctx_username ctx) (λ _ w', db w' = db w) w.
Proof. unfold ctx_username. destruct (cx_AuthKey ctx); [apply wp_GetUsername|done]. Qed.

Lemma wp_GetUsernameFromContext ctx w : wp (GetUsernameFromContext ctx) (λ _ w', db w' = db w) w.
Proof.
  unfold GetUsernameFromContext. destruct (cx_AuthKey ctx) as [t|]; [|done].
  destruct (str_eq t ""); [done|apply wp_GetUsername].
Qed.
End specs.
