(* ===== verification/AuthBridge.v ===== *)
(** * AuthBridge.v: the authentication service behind the GraphQL server

    The GraphQL server asks the authentication service over gRPC
    ([graphql/server/pkg/grpc/auth_grpc_client.go]) and reads two collections of
    its database ([GetAuthConfig] of [pkg/database/mongodb/operations.go],
    [IsRevokedToken] of [pkg/authorization/middleware.go]). Here the answers come
    from the model of that service, and what its theorems say discharges the
    interface [AuthClientLaws] the resolvers are verified against. *)
From S2P Require Import Prelude World GoStd AuthEntities AuthRepo AuthService AuthAccess AuthSessions.
From S2P Require Import GraphDocs Experiments Authorization.
Local Open Scope string_scope.
Local Open Scope Z_scope.

(** The state of the authentication service at each call of the server to the
    outside: any states, so that accounts and projects may change between two
    calls. *)
Class AuthHistory := auth_at : nat → AuthWorld.

Section bridge.
Context {drv : MongoDriver} {rt : Runtime} {cr : Crypto} {ah : AuthHistory}.

(** The fields [Error] and [IsValid] of the answer. *)
Definition validation_response (r : res bool) : res (string * bool) :=
  match r with
  | Ok true => Ok ("", true)
  | Ok false => Ok ("token is invalid", false)
  | Err e => Err e
  | Panic => Panic
  end.

#[export] Instance auth_service : AuthClient := {|
  rpc_ValidateRequest n jwt projectID roles invitation :=
    validation_response (ValidateRequest jwt projectID roles invitation (auth_at n)).1;
  db_GetAuthConfig n :=
    match (configRepo_GetConfig "salt" (auth_at n)).1 with
    | Ok c => Ok (ac_Value c)
    | Err e => Err e
    | Panic => Panic
    end;
  db_FindRevoked n token := match (FindOne (λ t, str_eq (rt_Token t) token) (auth_at n)).1 with
                            | Ok _ => Ok tt
                            | Err e => Err e
                            | Panic => Panic
                            end;
  rpc_GetProjectById n projectID := match (GetProjectById projectID (auth_at n)).1 with
                                    | Ok _ => Ok tt
                                    | Err e => Err e
                                    | Panic => Panic
                                    end;
|}.

(** The bearer of [jwt] is, at call [n], an active user with one of the roles and
    the invitation in the project. *)
Definition member_at (n : nat) (jwt projectID : string) (roles : list string) (invitation : string) : Prop :=
  ∃ c uid, token_states (db (auth_at n)) jwt c ∧ c_uid c = Some uid ∧
    authorized (db (auth_at n)) uid projectID roles invitation.

#[export] Instance auth_service_laws {laws : MongoLaws drv} {crl : CryptoLaws cr} : AuthClientLaws auth_service member_at.
Proof.
  split; intros n jwt projectID roles invitation; cbn;
    destruct (wp_ValidateRequest jwt projectID roles invitation (auth_at n)) as (_ & Hp & Ha);
    destruct (ValidateRequest jwt projectID roles invitation (auth_at n)).1 as [[]|e|]; cbn; try done.
  intros _. destruct (Ha eq_refl) as (c & uid & ? & ? & ? & _). by exists c, uid.
Qed.
End bridge.
