(* ===== verification/Environments.v ===== *)
(** * Environments.v: environments of a project

    [graphql/server/pkg/environment/handler/handler.go] on the operators of
    [pkg/database/mongodb/environments/operations.go], behind the resolvers of
    [graph/environment.resolvers.go]. *)
From S2P Require Import Prelude World GoStd AuthRepo GraphDocs Experiments Pipelines Authorization.
Local Open Scope string_scope.
Local Open Scope Z_scope.

(** ** Requests and answers: [graph/model/models_gen.go] *)
Record CreateEnvironmentRequest : Type := mkCreateEnv {
  ce_EnvironmentID : string; ce_Name : string; ce_Type : string; ce_Description : option string; ce_Tags : list string
}.
Record UpdateEnvironmentRequest : Type := mkUpdateEnv {
  ue_EnvironmentID : string; ue_Name : option string; ue_Description : option string;
  ue_Tags : option (list string); ue_Type : option string
}.
Inductive EnvironmentSortingField : Type := EnvironmentSortingFieldName | EnvironmentSortingFieldTime.
Record EnvironmentSortInput : Type := mkEnvSort { es_Field : EnvironmentSortingField; es_Ascending : option bool }.
Record EnvironmentFilterInput : Type := mkEnvFilter {
  ef_Name : option string; ef_Description : option string; ef_Type : option string; ef_Tags : list string
}.
Record PageInput : Type := mkPage { pa_Page : Z; pa_Limit : Z }.
Record ListEnvironmentRequest : Type := mkListEnv {
  le_EnvironmentIDs : list string; le_Pagination : option PageInput; le_Filter : option EnvironmentFilterInput;
  le_Sort : option EnvironmentSortInput
}.
(** [model.Environment]; an answer to a creation leaves the audit fields empty. *)
Record EnvironmentOutput : Type := mkEnvOutput {
  eo_EnvironmentID : string; eo_ProjectID : string; eo_Name : string; eo_Description : option string;
  eo_Tags : list string; eo_Type : string; eo_CreatedAt : string; eo_UpdatedAt : string;
  eo_CreatedBy : option string; eo_UpdatedBy : option string; eo_InfraIDs : list string; eo_IsRemoved : option bool
}.
Record ListEnvironmentResponse : Type := mkListEnvResponse {
  ler_TotalNoOfEnvironments : Z; ler_Environments : list EnvironmentOutput
}.

(** The unique index of the collection: the identifier, among environments of
    all projects that are not removed. *)
Definition environment_key (stored new : Environment) : bool :=
  str_eq (en_EnvironmentID stored) (en_EnvironmentID new) &&
  negb (au_IsRemoved (en_Audit stored)) && negb (au_IsRemoved (en_Audit new)).

(** [strconv.FormatInt(t, 10)] of the audit fields. *)
Definition environment_output (e : Environment) : EnvironmentOutput :=
  mkEnvOutput (en_EnvironmentID e) (en_ProjectID e) (rs_Name (en_Resource e)) (Some (rs_Description (en_Resource e)))
    (rs_Tags (en_Resource e)) (en_Type e) (Itoa (au_CreatedAt (en_Audit e))) (Itoa (au_UpdatedAt (en_Audit e)))
    (Some (ur_Username (au_CreatedBy (en_Audit e)))) (Some (ur_Username (au_UpdatedBy (en_Audit e))))
    (en_InfraIDs e) (Some (au_IsRemoved (en_Audit e))).

(** [{environment_id, project_id, is_removed: false}] *)
Definition environment_query (environmentID projectID : string) (e : Environment) : bool :=
  str_eq (en_EnvironmentID e) environmentID && str_eq (en_ProjectID e) projectID && negb (au_IsRemoved (en_Audit e)).

Section operators.
Context `{MongoDriver}.

(** *** [environments/operations.go] *)
Definition InsertEnvironment (e : Environment) : GM (res unit) := InsertOne environment_key e.
Definition GetEnvironmentDoc (q : Environment → bool) : GM (res Environment) := FindOne q.
Definition GetEnvironmentDetails (environmentID projectID : string) : GM (res Environment) :=
  FindOne (λ e, str_eq (en_ProjectID e) projectID && str_eq (en_EnvironmentID e) environmentID).
Definition UpdateEnvironmentDocs (q : Environment → bool) (f : Environment → Environment) : GM (res unit) :=
  UpdateMany q f.
Definition GetEnvironments (q : Environment → bool) : GM (res (list Environment)) := Find q.
End operators.

(** ** Updates *)

(** Each pointer of the request that is set adds a [$set]; they are applied one
    after the other. *)
Definition set_if {A} (f : A → Environment → Environment) (o : option A) (e : Environment) : Environment :=
  match o with Some x => f x e | None => e end.

Definition environment_update (request : UpdateEnvironmentRequest) (t : Z) (username : string) (e : Environment) :
    Environment :=
  let e := set_en_audit (touch t (named_user username) (en_Audit e)) e in
  let e := set_if (λ n e, set_en_resource (mkResource n (rs_Description (en_Resource e)) (rs_Tags (en_Resource e))) e)
             (ue_Name request) e in
  let e := set_if (λ d e, set_en_resource (mkResource (rs_Name (en_Resource e)) d (rs_Tags (en_Resource e))) e)
             (ue_Description request) e in
  let e := set_if (λ l e, set_en_resource (mkResource (rs_Name (en_Resource e)) (rs_Description (en_Resource e)) l) e)
             (ue_Tags request) e in
  set_if set_en_type (ue_Type request) e.

(** ** The listing *)
Section listing.
Context `{MongoRegex}.

Definition when {A} (b : bool) (x : A) : list A := if b then [x] else [].
(** A text of the filter that is set and not empty. *)
Definition given (o : option string) : option string := match o with Some "" => None | _ => o end.
Definition given_match {A} (f : string → A) (o : option string) : list A :=
  match given o with Some x => [f x] | None => [] end.

Definition environment_filter (f : EnvironmentFilterInput) : list (Environment → bool) :=
  (given_match (λ x e, regex_find "mix" x (rs_Name (en_Resource e))) (ef_Name f) ++
   given_match (λ x e, regex_find "mix" x (rs_Description (en_Resource e))) (ef_Description f) ++
   given_match (λ x e, str_eq (en_Type e) x) (ef_Type f) ++
   when (negb (bool_decide (ef_Tags f = []))) (λ e, forallb (λ t, str_in t (rs_Tags (en_Resource e))) (ef_Tags f)))%list.

Definition environment_matches (projectID : string) (request : option ListEnvironmentRequest) :
    list (Environment → bool) :=
  ((λ e, str_eq (en_ProjectID e) projectID && negb (au_IsRemoved (en_Audit e))) ::
   match request with
   | None => []
   | Some r =>
       when (negb (bool_decide (le_EnvironmentIDs r = []))) (λ e, str_in (en_EnvironmentID e) (le_EnvironmentIDs r)) ++
       match le_Filter r with Some f => environment_filter f | None => [] end
   end)%list.

(** An order by a field, ascending or descending. *)
Definition by_time (e e' : Environment) : bool := bool_decide (au_CreatedAt (en_Audit e) ≤ au_CreatedAt (en_Audit e')).
Definition by_name (e e' : Environment) : bool := String.leb (rs_Name (en_Resource e)) (rs_Name (en_Resource e')).
Definition directed (ascending : option bool) (le : Environment → Environment → bool) (e e' : Environment) : bool :=
  match ascending with Some true => le e e' | _ => le e' e end.

Definition environment_sort (sort : option EnvironmentSortInput) : Environment → Environment → bool :=
  match sort with
  | Some (mkEnvSort EnvironmentSortingFieldTime asc) => directed asc by_time
  | Some (mkEnvSort EnvironmentSortingFieldName asc) => directed asc by_name
  | None => directed None by_time
  end.

Definition environment_page (request : option ListEnvironmentRequest) : list (PStage Environment) :=
  StSort (environment_sort (request ≫= le_Sort)) ::
  match request ≫= le_Pagination with
  | Some p => [StSkip (int64 (pa_Page p * pa_Limit p)); StLimit (pa_Limit p)]
  | None => [StLimit 15]
  end.
End listing.

(** ** The service *)
Section service.
Context `{MongoDriver} `{Runtime} `{MongoRegex}.

Definition CreateEnvironment (projectID : string) (input : CreateEnvironmentRequest) (username : string) :
    GM (res EnvironmentOutput) :=
  t ← now;
  let desc := default "" (ce_Description input) in
  let newEnv := mkEnvironment (mkGAudit t t (named_user username) (named_user username) false)
    (mkResource (ce_Name input) desc (ce_Tags input)) projectID (ce_EnvironmentID input) (ce_Type input) [] in
  let? _ := InsertEnvironment newEnv in
  mret (Ok (mkEnvOutput (ce_EnvironmentID input) projectID (ce_Name input) (ce_Description input) (ce_Tags input)
              (ce_Type input) "" "" None None [] None)).

Definition UpdateEnvironment (projectID : string) (request : UpdateEnvironmentRequest) (username : string) :
    GM (res string) :=
  let query := environment_query (ue_EnvironmentID request) projectID in
  let? _ := GetEnvironments query in
  t ← now;
  let? _ := UpdateEnvironmentDocs query (environment_update request t username) in
  mret (Ok "environment updated successfully").

Definition DeleteEnvironment (projectID environmentID username : string) : GM (res string) :=
  currTime ← now;
  let query := environment_query environmentID projectID in
  let? _ := GetEnvironmentDoc query in
  let? _ := UpdateEnvironmentDocs query
    (λ e, set_en_audit (set_is_removed true (touch currTime (named_user username) (en_Audit e))) e) in
  mret (Ok "successfully deleted environment").

Definition GetEnvironment (projectID environmentID : string) : GM (res EnvironmentOutput) :=
  let? env := GetEnvironmentDoc (environment_query environmentID projectID) in
  mret (Ok (environment_output env)).

(** The counter is read only when the page shows something. *)
Definition ListEnvironments (projectID : string) (request : option ListEnvironmentRequest) :
    GM (res ListEnvironmentResponse) :=
  let? aggregated := AggregatePage (StMatch <$> environment_matches projectID request) (environment_page request) in
  let '(count, environments) := aggregated in
  let envs := environment_output <$> environments in
  mret (Ok (mkListEnvResponse (if bool_decide (envs = []) then 0 else count) envs)).
End service.

(** ** The resolvers *)
Section resolvers.
Context `{MongoDriver} `{Runtime} `{MongoRegex} `{Crypto} `{AuthClient}.

Definition mutation_CreateEnvironment (ctx : Ctx) (projectID : string) (request : CreateEnvironmentRequest) :
    GM (res EnvironmentOutput) :=
  let? _ := ValidateRole ctx projectID (MutationRbacRules CreateEnvironmentRole) InvitationAccepted in
  let? username := ctx_username ctx in
  CreateEnvironment projectID request username.

Definition mutation_UpdateEnvironment (ctx : Ctx) (projectID : string) (request : UpdateEnvironmentRequest) :
    GM (res string) :=
  let? _ := ValidateRole ctx projectID (MutationRbacRules UpdateEnvironmentRole) InvitationAccepted in
  let? username := ctx_username ctx in
  UpdateEnvironment projectID request username.

Definition mutation_DeleteEnvironment (ctx : Ctx) (projectID environmentID : string) : GM (res string) :=
  let? _ := ValidateRole ctx projectID (MutationRbacRules DeleteEnvironmentRole) InvitationAccepted in
  let? username := ctx_username ctx in
  DeleteEnvironment projectID environmentID username.

Definition query_GetEnvironment (ctx : Ctx) (projectID environmentID : string) : GM (res EnvironmentOutput) :=
  let? _ := ValidateRole ctx projectID (MutationRbacRules GetEnvironmentRole) InvitationAccepted in
  GetEnvironment projectID environmentID.

Definition query_ListEnvironments (ctx : Ctx) (projectID : string) (request : option ListEnvironmentRequest) :
    GM (res ListEnvironmentResponse) :=
  let? _ := ValidateRole ctx projectID (MutationRbacRules ListEnvironmentsRole) InvitationAccepted in
  ListEnvironments projectID request.
End resolvers.
