(* ===== verification/Infrastructure.v ===== *)
(** * Infrastructure.v: chaos infrastructures

    [graphql/server/pkg/chaos_infrastructure]: registration, removal,
    verification and confirmation of infrastructures, their listing and
    statistics, the installation manifest, and the answers an agent sends back. *)
From S2P Require Import Prelude World GoStd AuthRepo GraphDocs Experiments RunScore RunEvent.
From S2P Require Import Pipelines Authorization Environments.
From Stdlib Require Import Ascii.
Local Open Scope string_scope.
Local Open Scope Z_scope.

(** ** Configuration and third-party code

    [utils.Config] comes from the environment of the process. The installation
    templates are files; YAML, JSON, URLs and tokens are other packages'. *)
Class ServerConfig := {
  Version : string; ChaosGraphQLEndpoint : string; TlsCertB64 : string; SubscriberImage : string;
  EventTrackerImage : string; ArgoWorkflowControllerImage : string; LitmusChaosOperatorImage : string;
  ArgoWorkflowExecutorImage : string; LitmusChaosRunnerImage : string; LitmusChaosExporterImage : string;
  ContainerRuntimeExecutor : string; InfraDeployments : string; InfraCompatibleVersions : string;
}.
Class InfraEnv := {
  sign_infra (secret infraID : string) : res string;
  parse_url (s : string) : res (string * string);
  dir_names (n : nat) (path : string) : res (list string);
  read_file (n : nat) (path : string) : res string;
  marshal_selector (m : gmap string string) : res string;
  marshal_tolerations (l : list Toleration) : res string;
  decode_versions (s : string) : res (list string);
  decode_kube (s : string) : res string;
  stored_version (n : nat) : res (option (option string));
}.
(** The order in which the database visits the documents of a [$lookup]. *)
Class LookupOrder := lookup_order : ∀ {D : Type}, nat → list D → list D.
Class LookupOrderLaws (lo : LookupOrder) : Prop := lookup_order_perm : ∀ {D : Type} n (l : list D), lookup_order n l ≡ₚ l.

(** ** Requests and answers *)
Record RegisterInfraRequest : Type := mkRegisterInfra {
  rq_Name : string; rq_EnvironmentID : string; rq_InfrastructureType : string; rq_Description : option string;
  rq_PlatformName : string; rq_InfraNamespace : option string; rq_ServiceAccount : option string;
  rq_InfraScope : string; rq_InfraNsExists : option bool; rq_InfraSaExists : option bool; rq_SkipSsl : option bool;
  rq_NodeSelector : option string; rq_Tolerations : list Toleration; rq_Tags : list string
}.
Record RegisterInfraResponse : Type := mkRegisterResponse {
  rg_Token : string; rg_InfraID : string; rg_Name : string; rg_Manifest : string
}.
Record ConfirmInfraRegistrationResponse : Type := mkConfirmResponse {
  cf_IsInfraConfirmed : bool; cf_NewAccessKey : option string; cf_InfraID : option string
}.

Definition CIVersion : string := "ci".
Definition ClusterScope : string := "cluster".
Definition NamespaceScope : string := "namespace".

(** ** Operators: [mongodb/chaos_infrastructure/operations.go]; the collection
    has a unique index on [infra_id] *)
Definition infra_key (stored new : ChaosInfra) : bool := str_eq (in_InfraID stored) (in_InfraID new).
Definition by_infra_id (infraID : string) (i : ChaosInfra) : bool := str_eq (in_InfraID i) infraID.

Section operators.
Context `{MongoDriver}.
Definition InsertInfra (i : ChaosInfra) : GM (res unit) := InsertOne infra_key i.
Definition GetInfraDoc (infraID : string) : GM (res ChaosInfra) := FindOne (by_infra_id infraID).
Definition GetInfraDetailsDoc (infraID projectID : string) : GM (res ChaosInfra) :=
  FindOne (λ i, str_eq (in_ProjectID i) projectID && by_infra_id infraID i).
Definition UpdateInfraDocs (q : ChaosInfra → bool) (f : ChaosInfra → ChaosInfra) : GM (res unit) := UpdateMany q f.
Definition GetInfras (q : ChaosInfra → bool) : GM (res (list ChaosInfra)) := Find q.
End operators.

(** ** Node selectors *)

(** [key=value] *)
Definition selector_pair (el : string) : option (string * string) :=
  match Split el "=" with [k; v] => Some (k, v) | _ => None end.
Definition quote_char : string := String (ascii_of_nat 34) "".

Fixpoint check_selectors (selectors : list string) : res unit :=
  match selectors with
  | [] => Ok tt
  | el :: rest =>
      match selector_pair el with
      | None => Err (ErrNew "node selector environment variable is not correct.")
      | Some (k, v) =>
          if Contains k quote_char || Contains v quote_char
          then Err (ErrNew "node selector environment variable contains escape character(s).")
          else check_selectors rest
      end
  end.
Definition check_node_selector (o : option string) : res unit :=
  match o with None => Ok tt | Some s => check_selectors (Split s ",") end.

(** ** The installation manifest: [infra_utils.go] *)
Section manifest.
Context `{ServerConfig} `{InfraEnv}.

Definition GetEndpoint (host : string) : string :=
  if str_eq ChaosGraphQLEndpoint "" then TrimRightChar host "/" +:+ "/query"
  else TrimRightChar ChaosGraphQLEndpoint "/" +:+ "/query".

Definition newline : string := String (ascii_of_nat 10) "".
Definition AddRootIndent (s : string) (n : nat) : string :=
  ReplaceAll s newline (newline +:+ of_chars (replicate n " "%char)).

Definition or_default (o : option string) (d : string) : string := default d (given o).

(** [selectorList[kv[0]] = kv[1]]: an element without [=] is out of range. *)
Fixpoint selector_map (selectors : list string) (m : gmap string string) : res (gmap string string) :=
  match selectors with
  | [] => Ok m
  | el :: rest =>
      match Split el "=" with
      | k :: v :: _ => selector_map rest (<[k := v]> m)
      | _ => Panic
      end
  end.

Definition node_selector_text (i : ChaosInfra) : res string :=
  match in_NodeSelector i with
  | None => Ok ""
  | Some s =>
      match selector_map (Split s ",") ∅ with
      | Ok m => match marshal_selector m with
                | Ok byt => Ok (AddRootIndent byt 6)
                | Err e => Err (ErrNew ("failed to marshal the node selector " +:+ error_text e))
                | Panic => Panic
                end
      | Err e => Err e
      | Panic => Panic
      end
  end.
Definition tolerations_text (i : ChaosInfra) : res string :=
  match in_Tolerations i with
  | [] => Ok ""
  | l => match marshal_tolerations l with
         | Ok byt => Ok (AddRootIndent byt 6)
         | Err e => Err (ErrNew ("failed to marshal the tolerations " +:+ error_text e))
         | Panic => Panic
         end
  end.

(** The place holders of a template with their values, in the order in which
    they are replaced. *)
Definition quoted (s : string) : string := quote_char +:+ s +:+ quote_char.
Definition placeholders (i : ChaosInfra) (endpoint namespace account skipSSL tolerations nodeSelector : string) :
    list (string * string) :=
  [("#{TOLERATIONS}", tolerations); ("#{INFRA_ID}", in_InfraID i); ("#{ACCESS_KEY}", in_AccessKey i);
   ("#{SERVER_ADDR}", endpoint); ("#{SUBSCRIBER_IMAGE}", SubscriberImage);
   ("#{EVENT_TRACKER_IMAGE}", EventTrackerImage); ("#{INFRA_NAMESPACE}", namespace);
   ("#{INFRA_SERVICE_ACCOUNT}", account); ("#{INFRA_SCOPE}", in_InfraScope i);
   ("#{ARGO_WORKFLOW_CONTROLLER}", ArgoWorkflowControllerImage);
   ("#{LITMUS_CHAOS_OPERATOR}", LitmusChaosOperatorImage);
   ("#{ARGO_WORKFLOW_EXECUTOR}", ArgoWorkflowExecutorImage);
   ("#{LITMUS_CHAOS_RUNNER}", LitmusChaosRunnerImage); ("#{LITMUS_CHAOS_EXPORTER}", LitmusChaosExporterImage);
   ("#{ARGO_CONTAINER_RUNTIME_EXECUTOR}", ContainerRuntimeExecutor); ("#{INFRA_DEPLOYMENTS}", InfraDeployments);
   ("#{VERSION}", Version); ("#{SKIP_SSL_VERIFY}", skipSSL); ("#{CUSTOM_TLS_CERT}", TlsCertB64);
   ("#{START_TIME}", quoted (in_StartTime i));
   ("#{IS_INFRA_CONFIRMED}", quoted (if in_IsInfraConfirmed i then "true" else "false"))] ++
  match in_NodeSelector i with Some _ => [("#{NODE_SELECTOR}", nodeSelector)] | None => [] end.
Definition fill_template (values : list (string * string)) (content : string) : string :=
  foldl (λ c kv, ReplaceAll c kv.1 kv.2) content values.

Fixpoint fill_files (rootPath : string) (values : list (string * string)) (names : list string) (done : list string) :
    GM (res (list string)) :=
  match names with
  | [] => mret (Ok done)
  | fileName :: names =>
      let! content := call_out (λ n, read_file n (rootPath +:+ "/" +:+ fileName))
      or e => mret (Err (ErrNew ("failed to read the file " +:+ error_text e))) in
      fill_files rootPath values names (done ++ [fill_template values content])
  end.

Definition ManifestParser (i : ChaosInfra) (rootPath endpoint : string) : GM (res string) :=
  let nsExists := default false (in_InfraNsExists i) in
  let saExists := default false (in_InfraSaExists i) in
  let namespace := or_default (in_InfraNamespace i) "litmus" in
  let account := or_default (in_ServiceAccount i) "litmus" in
  let skipSSL := if default false (in_SkipSSL i) then "true" else "false" in
  let namespaceConfig := "---" +:+ newline +:+ "apiVersion: v1" +:+ newline +:+ "kind: Namespace" +:+ newline +:+
    "metadata:" +:+ newline +:+ "  name: " +:+ namespace +:+ newline in
  let serviceAccountStr := "---" +:+ newline +:+ "apiVersion: v1" +:+ newline +:+ "kind: ServiceAccount" +:+ newline +:+
    "metadata:" +:+ newline +:+ "  name: " +:+ account +:+ newline +:+ "  namespace: " +:+ namespace +:+ newline in
  let generatedYAML := (when (negb nsExists && negb (str_eq (in_InfraScope i) "namespace")) namespaceConfig ++
                        when (negb saExists) serviceAccountStr)%list in
  let! names := call_out (λ n, dir_names n rootPath)
  or e => mret (Err (ErrNew ("failed to open the file " +:+ error_text e))) in
  match node_selector_text i with
  | Err e => mret (Err e)
  | Panic => mret Panic
  | Ok nodeSelector =>
      match tolerations_text i with
      | Err e => mret (Err e)
      | Panic => mret Panic
      | Ok tolerations =>
          let? yaml := fill_files rootPath
            (placeholders i endpoint namespace account skipSSL tolerations nodeSelector) names generatedYAML in
          mret (Ok (Join yaml newline))
      end
  end.

Definition GetK8sInfraYaml (host : string) (i : ChaosInfra) : GM (res string) :=
  let endpoint := GetEndpoint host in
  if str_eq (in_InfraScope i) ClusterScope then ManifestParser i "manifests/cluster" endpoint
  else if str_eq (in_InfraScope i) NamespaceScope then ManifestParser i "manifests/namespace" endpoint
  else mret (Ok "").

(** The scheme and host of the [Referer] header of a request. *)
Definition referrer_host (ctx : Ctx) : res string :=
  match cx_Referer ctx with
  | None => Err (ErrNew "unable to parse request header")
  | Some "" => Err (ErrNew "unable to parse referer header")
  | Some referrer =>
      match parse_url referrer with
      | Ok (scheme, host) => Ok (scheme +:+ "://" +:+ host)
      | Err e => Err e
      | Panic => Panic
      end
  end.
End manifest.

(** ** Messages to the connections of the browser *)

(** [select { case observer <- &newEvent: default: }] on a channel of one
    place: the event is dropped while the last one is still there. *)
Definition offer_event (event : InfraEventResponse) (r : StateData) (observer : nat) : StateData :=
  match sd_Events r !! observer with
  | Some [] =>
      mkStateData (ConnectedInfra r) (InfraEventPublish r) (ExperimentLog r) (KubeObjectData r) (KubeNamespaceData r)
        (sd_Actions r) (<[observer := [event]]> (sd_Events r)) (sd_Next r)
  | _ => r
  end.

Definition with_store (f : StateData → StateData) : GM unit := λ w, (tt, mkWorld (set_store f (db w)) (tick w)).
Definition get_store : GM StateData := λ w, (g_store (db w), w).

Section events.
Context `{Runtime}.
Definition SendInfraEvent (eventType eventName description : string) (i : ChaosInfra) : GM unit :=
  id ← NewUUID;
  with_store (λ r, foldl (offer_event (mkInfraEvent id eventType eventName description i)) r
                     (default [] (InfraEventPublish r !! in_ProjectID i))).
End events.

(** ** The service *)

(** The texts of the requests, written with single for double quotes. *)
Definition requote (s : string) : string :=
  of_chars ((λ c, if bool_decide (c = "'"%char) then ascii_of_nat 34 else c) <$> chars s).
Definition cleanup_manifests (namespace : string) : list string :=
  [requote "{
		   		'apiVersion': 'v1',
		   		'kind': 'ConfigMap',
		   		'metadata': {
					'name': 'subscriber-config',
					'namespace': " +:+ namespace +:+ "
		   		}
			}";
   requote "{
				'apiVersion': 'apps/v1',
				'kind': 'Deployment',
				'metadata': {
					'labels': {
	                  'app': 'subscriber',
	               },
					'namespace': " +:+ namespace +:+ "
				}
			}"].

(** No document of the collection has a field [infra_name]: the name is stored
    as [name]. *)
Definition field_infra_name (_ : ChaosInfra) : option string := None.

Section service.
Context `{MongoDriver} `{Runtime} `{Crypto} `{AuthClient} `{ServerConfig} `{InfraEnv}.

(** [GenerateAccessKey(32)] *)
Definition GenerateAccessKey : GM (res string) :=
  let? b := call_out (λ n, random_bytes n 32) in
  mret (Ok (url_encode b)).

(** [cluster_jwt.go] *)
Definition InfraCreateJWT (infraID : string) : GM (res string) :=
  let? secret := auth_call db_GetAuthConfig in
  mret (sign_infra secret infraID).

(** A namespace that is said to exist has to be named. *)
Definition namespace_missing (input : RegisterInfraRequest) (nsExists : bool) : bool :=
  nsExists && bool_decide (given (rq_InfraNamespace input) = None).

Definition new_infra (input : RegisterInfraRequest) (projectID infraID username token accessKey description : string)
    (t : Z) : ChaosInfra :=
  mkInfra (mkResource (rq_Name input) description (rq_Tags input))
    (mkGAudit t t (named_user username) (named_user username) false) projectID infraID (rq_InfraNamespace input)
    (rq_PlatformName input) (rq_ServiceAccount input) (rq_InfraScope input) (rq_InfraNsExists input)
    (rq_EnvironmentID input) (rq_InfraSaExists input) accessKey (rq_InfrastructureType input) false false false token
    (rq_SkipSsl input) (rq_NodeSelector input) (rq_Tolerations input) (Itoa t) "".

Definition RegisterInfra (ctx : Ctx) (projectID : string) (input : RegisterInfraRequest) :
    GM (res RegisterInfraResponse) :=
  let? infraDetails := GetInfras (λ i, bool_decide (field_infra_name i = Some (rq_Name input)) &&
    negb (au_IsRemoved (in_Audit i)) && str_eq (in_ProjectID i) projectID) in
  if bool_decide (infraDetails ≠ []) then mret (Err (ErrNew "infra already exists in this project with the same name"))
  else
    let! _ := GetEnvironmentDetails (rq_EnvironmentID input) projectID
    or _ => mret (Err (ErrNew "Invalid EnvironmentID")) in
    match rq_InfraNsExists input with
    | None => mret Panic
    | Some nsExists =>
        if namespace_missing input nsExists
        then mret (Err (ErrNew "InfraNamespace parameter is required if InfraNsExists is true"))
        else
          infraID ← NewUUID;
          currentTime ← now;
          let? username := ctx_username ctx in
          let? token := InfraCreateJWT infraID in
          let? accessKey := GenerateAccessKey in
          let? _ := mret (check_node_selector (rq_NodeSelector input)) in
          match rq_Description input with
          | None => mret Panic
          | Some description =>
              let newInfra := new_infra input projectID infraID username token accessKey description currentTime in
              let? _ := InsertInfra newInfra in
              let? _ := UpdateEnvironmentDocs
                (λ e, str_eq (en_ProjectID e) projectID && str_eq (en_EnvironmentID e) (rq_EnvironmentID input))
                (λ e, set_en_infras (en_InfraIDs e ++ [infraID]) e) in
              let? host := mret (referrer_host ctx) in
              let? manifestYaml := GetK8sInfraYaml host newInfra in
              mret (Ok (mkRegisterResponse token infraID (rq_Name input) manifestYaml))
          end
    end.

Definition remove_infra (t : Z) (username : string) (i : ChaosInfra) : ChaosInfra :=
  set_in_audit (set_is_removed true (touch t (named_user username) (in_Audit i))) i.

(** The two clean-up requests. *)
Fixpoint send_requests (i : ChaosInfra) (namespace username : string) (requests : list string) : GM unit :=
  match requests with
  | [] => mret tt
  | request :: requests =>
      _ ← SendRequestToSubscriber (mkSubscriberRequest "delete" request None (in_ProjectID i) (in_InfraID i)
                                     namespace (Some username));
      send_requests i namespace username requests
  end.

Definition DeleteInfra (ctx : Ctx) (projectID infraId : string) : GM (res string) :=
  let? username := ctx_username ctx in
  let? infra := GetInfraDoc infraId in
  t ← now;
  let? _ := UpdateInfraDocs (λ i, by_infra_id infraId i && str_eq (in_ProjectID i) projectID &&
                                  negb (au_IsRemoved (in_Audit i))) (remove_infra t username) in
  let? _ := UpdateEnvironmentDocs
    (λ e, str_eq (en_ProjectID e) projectID && str_eq (en_EnvironmentID e) (in_EnvironmentID infra))
    (λ e, set_en_infras (List.filter (λ x, negb (str_eq x (in_InfraID infra))) (en_InfraIDs e)) e) in
  match in_InfraNamespace infra with
  | None => mret Panic
  | Some namespace =>
      _ ← send_requests infra namespace username (cleanup_manifests namespace);
      mret (Ok "infra deleted successfully")
  end.

(** ** Identity of an agent *)
Definition version_matches (version : string) : bool :=
  if contains_go (chars CIVersion) (to_lower (chars Version)) then str_eq Version version
  else
    let sub := Split version "." in
    bool_decide (length sub = 3%nat) && bool_decide (head sub = head (Split Version ".")).

Definition VerifyInfra (identity : InfraIdentity) : GM (res ChaosInfra) :=
  if negb (version_matches (ii_Version identity)) then mret (Err (ErrNew "ERROR: infra VERSION MISMATCH"))
  else
    let? infra := GetInfraDoc (ii_InfraID identity) in
    if negb (str_eq (in_AccessKey infra) (ii_AccessKey identity) && in_IsRegistered infra)
    then mret (Err (ErrNew "ERROR:  accessID MISMATCH"))
    else mret (Ok infra).

Definition confirm_update (newKey : string) (t : Z) (i : ChaosInfra) : ChaosInfra :=
  set_in_registration "" newKey true true (set_in_audit (set_updated_at t (in_Audit i)) i).

Definition not_confirmed : ConfirmInfraRegistrationResponse := mkConfirmResponse false None None.

Definition ConfirmInfraRegistration (request : InfraIdentity) : GM (res ConfirmInfraRegistrationResponse) :=
  if negb (str_eq Version (ii_Version request)) then mret (Err (ErrNew "ERROR: INFRA VERSION MISMATCH"))
  else
    let? infra := GetInfraDoc (ii_InfraID request) in
    if str_eq (in_AccessKey infra) (ii_AccessKey request) then
      let? newKey := GenerateAccessKey in
      t ← now;
      let? _ := UpdateInfraDocs (by_infra_id (ii_InfraID request)) (confirm_update newKey t) in
      _ ← SendInfraEvent "infra-registration" "New Infra" "New Infra registration"
            (set_in_registration (in_Token infra) "" true (in_IsInfraConfirmed infra) infra);
      mret (Ok (mkConfirmResponse true (Some newKey) (Some (in_InfraID infra))))
    else mret (Ok not_confirmed).

Definition GetManifestWithInfraID (host infraID accessKey : string) : GM (res string) :=
  let! reqinfra := GetInfraDoc infraID
  or e => mret (Err (ErrNew ("failed to retrieve the infra " +:+ error_text e))) in
  if negb (str_eq (in_AccessKey reqinfra) accessKey) then mret (Err (ErrNew "ACCESS_KEY is invalid"))
  else
    let! manifest := GetK8sInfraYaml host reqinfra
    or e => mret (Err (ErrNew ("failed to parse the manifest " +:+ error_text e))) in
    mret (Ok manifest).

(** ** Answers of an agent

    The answer to a request is put on the channel of the client that waits for
    it, and the channel is closed. A send on a closed channel panics. *)
Definition reply {A} (r : Reply A) (resp : A) : option (Reply A) :=
  if rp_Closed r then None else Some (mkReply (rp_Sent r ++ [resp])%list true).

Definition set_log (id : string) (x : Reply PodLogResponse) (r : StateData) : StateData :=
  mkStateData (ConnectedInfra r) (InfraEventPublish r) (<[id := x]> (ExperimentLog r)) (KubeObjectData r)
    (KubeNamespaceData r) (sd_Actions r) (sd_Events r) (sd_Next r).
Definition set_kube_object (id : string) (x : Reply KubeObjectResponse) (r : StateData) : StateData :=
  mkStateData (ConnectedInfra r) (InfraEventPublish r) (ExperimentLog r) (<[id := x]> (KubeObjectData r))
    (KubeNamespaceData r) (sd_Actions r) (sd_Events r) (sd_Next r).
Definition set_kube_namespace (id : string) (x : Reply KubeObjectResponse) (r : StateData) : StateData :=
  mkStateData (ConnectedInfra r) (InfraEventPublish r) (ExperimentLog r) (KubeObjectData r)
    (<[id := x]> (KubeNamespaceData r)) (sd_Actions r) (sd_Events r) (sd_Next r).

Definition PodLog (identity : InfraIdentity) (requestID : string) (resp : PodLogResponse) : GM (res string) :=
  let? _ := VerifyInfra identity in
  r ← get_store;
  match ExperimentLog r !! requestID with
  | None => mret (Ok "LOG REQUEST CANCELLED")
  | Some reqChan =>
      match reply reqChan resp with
      | None => mret Panic
      | Some reqChan' => _ ← with_store (set_log requestID reqChan'); mret (Ok "LOGS SENT SUCCESSFULLY")
      end
  end.

(** [KubeObj] and [KubeNamespace] differ in the map they use and in what the
    answer decodes to. *)
Definition kube_answer (find : StateData → gmap string (Reply KubeObjectResponse))
    (store : string → Reply KubeObjectResponse → StateData → StateData) (what : string)
    (identity : InfraIdentity) (requestID payload : string) : GM (res string) :=
  let? _ := VerifyInfra identity in
  r ← get_store;
  match find r !! requestID with
  | None => mret (Ok "KubeData sent successfully")
  | Some reqChan =>
      match decode_kube payload with
      | Err e => mret (Err (ErrNew ("failed to unmarshal " +:+ what +:+ " data " +:+ error_text e)))
      | Panic => mret Panic
      | Ok data =>
          match reply reqChan (mkKubeObject (ii_InfraID identity) data) with
          | None => mret Panic
          | Some reqChan' => _ ← with_store (store requestID reqChan'); mret (Ok "KubeData sent successfully")
          end
      end
  end.
Definition KubeObj : InfraIdentity → string → string → GM (res string) :=
  kube_answer KubeObjectData set_kube_object "kubeObj".
Definition KubeNamespace : InfraIdentity → string → string → GM (res string) :=
  kube_answer KubeNamespaceData set_kube_namespace "kubeNamespace".

(** ** Versions *)

(** [int(math.Pow(10, float64(2-i)))]: 100, 10, 1, then 0. *)
Definition version_weight (i : nat) : Z := match i with 0%nat => 100 | 1%nat => 10 | 2%nat => 1 | _ => 0 end.
Fixpoint version_sum (i : nat) (parts : list string) (acc : Z) : option Z :=
  match parts with
  | [] => Some acc
  | val :: parts => x ← Atoi val; version_sum (S i) parts (int64 (acc + int64 (x * version_weight i)))
  end.
Definition updateVersionFormat (str : string) : option Z :=
  if str_eq str CIVersion then Some 0 else version_sum 0 (Split str ".") 0.

Definition fetchLatestVersion (versions : gmap Z string) : Z :=
  map_fold (λ k _ latest, if bool_decide (latest < k) then k else latest) 0 versions.

Fixpoint version_map (versions : list string) (m : gmap Z string) : option (gmap Z string) :=
  match versions with
  | [] => Some m
  | v :: versions => k ← updateVersionFormat v; version_map versions (<[k := v]> m)
  end.

Record InfraVersionDetails : Type := mkVersionDetails { vd_LatestVersion : string; vd_CompatibleVersions : list string }.
Definition GetVersionDetails : res InfraVersionDetails :=
  match decode_versions InfraCompatibleVersions with
  | Err e => Err (ErrNew ("failed to parse InfraCompatibleVersions config: " +:+ error_text e))
  | Panic => Panic
  | Ok compatibleArray =>
      match version_map compatibleArray ∅ with
      | None => Err (ErrNew "invalid syntax")
      | Some m => Ok (mkVersionDetails (default "" (m !! fetchLatestVersion m)) compatibleArray)
      end
  end.

(** [stored_version] is the document with key [version] of the collection
    [serverConfig]: absent, or with a value that is a text or not. *)
Definition QueryServerVersion : GM (res (string * string)) :=
  let? dbVersion := call_out stored_version in
  match dbVersion with
  | None => mret (Err (ErrNew "server version config not found"))
  | Some None => mret (Err (ErrNew "server version config has unexpected type"))
  | Some (Some v) => mret (Ok ("version", v))
  end.

(** The resolvers that ask for no right: those of the agents, which present an
    identity, and of the versions. *)
Definition mutation_ConfirmInfraRegistration := ConfirmInfraRegistration.
Definition mutation_PodLog := PodLog.
Definition mutation_KubeObj := KubeObj.
Definition mutation_KubeNamespace := KubeNamespace.
Definition query_GetVersionDetails (projectID : string) : res InfraVersionDetails := GetVersionDetails.
Definition query_GetServerVersion := QueryServerVersion.
End service.
