(* ===== verification/InfraListing.v ===== *)
(** * InfraListing.v: infrastructures as the browser sees them

    [GetInfra], [ListInfras], [GetInfraDetails], [GetInfraStats] and the gauges of
    [RecordInfraMetrics] ([graphql/server/pkg/chaos_infrastructure/service.go]),
    and the resolvers of [graph/chaos_infrastructure.resolvers.go] that answer
    requests about one project. *)
From S2P Require Import Prelude World GoStd AuthRepo GraphDocs Experiments RunScore RunEvent.
From S2P Require Import Pipelines Authorization Environments Infrastructure.
Local Open Scope string_scope.
Local Open Scope Z_scope.

(** ** Requests and answers *)
Record InfraFilterInput : Type := mkInfraFilter {
  if_Name : option string; if_InfraID : option string; if_Description : option string; if_PlatformName : option string;
  if_InfraScope : option string; if_IsActive : option bool; if_Tags : list string
}.
Record ListInfraRequest : Type := mkListInfra {
  li_InfraIDs : list string; li_EnvironmentIDs : list string; li_Pagination : option PageInput;
  li_Filter : option InfraFilterInput
}.
(** [model.Infra] *)
Record InfraOutput : Type := mkInfraOutput {
  io_ProjectID : string; io_InfraID : string; io_Name : string; io_Description : option string; io_Tags : list string;
  io_EnvironmentID : string; io_PlatformName : string; io_IsActive : bool; io_IsInfraConfirmed : bool;
  io_IsRemoved : bool; io_UpdatedAt : string; io_CreatedAt : string; io_NoOfExperiments : option Z;
  io_NoOfExperimentRuns : option Z; io_Token : string; io_InfraNamespace : option string;
  io_ServiceAccount : option string; io_InfraScope : string; io_LastExperimentTimestamp : option string;
  io_StartTime : string; io_Version : string; io_CreatedBy : string; io_UpdatedBy : string
}.
Record ListInfraResponse : Type := mkListInfraResponse { lir_TotalNoOfInfras : Z; lir_Infras : list InfraOutput }.
Record GetInfraStatsResponse : Type := mkInfraStats {
  ist_TotalInfrastructures : Z; ist_TotalActiveInfrastructure : Z; ist_TotalInactiveInfrastructures : Z;
  ist_TotalConfirmedInfrastructure : Z; ist_TotalNonConfirmedInfrastructures : Z
}.

(** ** Joined documents: [ChaosInfraDetails]

    [$group] over the documents of a [$lookup]: nothing when there are none. *)
Record ExperimentDetails : Type := mkExperimentDetails {
  xd_TotalSchedules : Z; xd_LastRunTimestamp : Z; xd_TotalRuns : Z
}.
Record RunDetails : Type := mkRunDetails { xr_LastRunTimestamp : Z; xr_TotalRuns : Z }.

Definition Zmax_list (l : list Z) : Z := foldr Z.max (default 0 (head l)) l.
Definition Zsum_list (l : list Z) : Z := foldr Z.add 0 l.

(** The experiments of an infrastructure that are not removed. *)
Definition experiments_of (infraID : string) (es : list ChaosExperimentRequest) : list ChaosExperimentRequest :=
  List.filter (λ e, str_eq (ex_InfraID e) infraID && negb (au_IsRemoved (ex_Audit e))) es.
Definition experiment_details (es : list ChaosExperimentRequest) : option ExperimentDetails :=
  match es with
  | [] => None
  | _ => Some (mkExperimentDetails (Z.of_nat (length es)) (Zmax_list (au_UpdatedAt ∘ ex_Audit <$> es))
                 (Zsum_list (ex_TotalExperimentRuns <$> es)))
  end.
(** [$sum: 1] and [$last]: the last document in the order they are visited. *)
Definition run_details (rs : list ChaosExperimentRun) : option RunDetails :=
  r ← last rs; Some (mkRunDetails (au_UpdatedAt (cr_Audit r)) (Z.of_nat (length rs))).

Definition infra_output (i : ChaosInfra) (projectID createdBy updatedBy : string) (removed : bool)
    (experiments runs : option Z) (lastRun : option Z) : InfraOutput :=
  mkInfraOutput projectID (in_InfraID i) (rs_Name (in_Resource i)) (Some (rs_Description (in_Resource i)))
    (rs_Tags (in_Resource i)) (in_EnvironmentID i) (in_PlatformName i) (in_IsActive i) (in_IsInfraConfirmed i)
    removed (Itoa (au_UpdatedAt (in_Audit i))) (Itoa (au_CreatedAt (in_Audit i))) experiments runs (in_Token i)
    (in_InfraNamespace i) (in_ServiceAccount i) (in_InfraScope i) (Itoa <$> lastRun) (in_StartTime i) (in_Version i)
    createdBy updatedBy.

(** ** The listing *)
Section listing.
Context `{MongoRegex}.

Definition infra_filter (f : InfraFilterInput) : list (ChaosInfra → bool) :=
  (given_match (λ x i, regex_find "mix" x (rs_Name (in_Resource i))) (if_Name f) ++
   given_match (λ x i, str_eq (in_InfraID i) x) (if_InfraID f) ++
   given_match (λ x i, str_eq (in_PlatformName i) x) (if_PlatformName f) ++
   given_match (λ x i, str_eq (in_InfraScope i) x) (if_InfraScope f) ++
   given_match (λ x i, regex_find "mix" x (rs_Description (in_Resource i))) (if_Description f) ++
   match if_IsActive f with Some b => [λ i, Bool.eqb (in_IsActive i) b] | None => [] end ++
   when (negb (bool_decide (if_Tags f = []))) (λ i, forallb (λ t, str_in t (rs_Tags (in_Resource i))) (if_Tags f)))%list.

Definition infra_matches (projectID : string) (request : option ListInfraRequest) : list (ChaosInfra → bool) :=
  ((λ i, str_eq (in_ProjectID i) projectID && negb (au_IsRemoved (in_Audit i))) ::
   match request with
   | None => []
   | Some r =>
       when (negb (bool_decide (li_EnvironmentIDs r = []))) (λ i, str_in (in_EnvironmentID i) (li_EnvironmentIDs r)) ++
       when (negb (bool_decide (li_InfraIDs r = []))) (λ i, str_in (in_InfraID i) (li_InfraIDs r)) ++
       match li_Filter r with Some f => infra_filter f | None => [] end
   end)%list.

Definition infra_page (request : option ListInfraRequest) : list (PStage ChaosInfra) :=
  match request ≫= li_Pagination with
  | Some p => [StSkip (int64 (pa_Page p * pa_Limit p)); StLimit (pa_Limit p)]
  | None => []
  end.
End listing.

(** ** The service *)
Section service.
Context `{MongoDriver} `{Runtime} `{MongoRegex} `{LookupOrder} `{Crypto} `{AuthClient}.

(** The joins of the pipeline of [ListInfras]: experiments whether removed or
    not, and runs in the order the database visits them. *)
Definition joined_output (s : GraphDB) (n : nat) (i : ChaosInfra) : InfraOutput :=
  let es := List.filter (λ e, str_eq (ex_InfraID e) (in_InfraID i)) (g_experiments s) in
  let runs := run_details (lookup_order n (List.filter (λ r, str_eq (cr_InfraID r) (in_InfraID i)) (g_runs s))) in
  infra_output i (in_ProjectID i) (ur_Username (au_CreatedBy (in_Audit i))) (ur_Username (au_UpdatedBy (in_Audit i)))
    (au_IsRemoved (in_Audit i)) (if bool_decide (es = []) then None else Some (Z.of_nat (length es)))
    (xr_TotalRuns <$> runs) (xr_LastRunTimestamp <$> runs).

Definition ListInfras (projectID : string) (request : option ListInfraRequest) : GM (res ListInfraResponse) := λ w,
  (let? infras := AggregatePage (StMatch <$> infra_matches projectID request) (infra_page request) in
   let '(count, page) := infras in
   mret (Ok (mkListInfraResponse count (joined_output (db w) (tick w) <$> page)))) w.

(** The aggregation answers with the documents that match; the last of them is
    reported, with the name of the caller as creator. *)
Definition GetInfra (ctx : Ctx) (projectID infraID : string) : GM (res InfraOutput) :=
  let? username := ctx_username ctx in
  λ w,
  (let! infraDetails := Aggregate (List.filter (λ i, by_infra_id infraID i && str_eq (in_ProjectID i) projectID &&
                                                     negb (au_IsRemoved (in_Audit i))))
   or e => mret (Err (ErrNew ("DB aggregate stage error: " +:+ error_text e))) in
   match last infraDetails with
   | None => mret (Err (ErrNew "no matching infra"))
   | Some i =>
       let d := experiment_details (experiments_of (in_InfraID i) (g_experiments (db w))) in
       mret (Ok (infra_output i "" username username false (xd_TotalSchedules <$> d) (xd_TotalRuns <$> d)
                   (xd_LastRunTimestamp <$> d)))
   end) w.

(** [$group] by a flag: a pair for each value that occurs. *)
Definition count_flag (f : ChaosInfra → bool) (l : list ChaosInfra) : list (bool * Z) :=
  let count b := length (List.filter (λ i, Bool.eqb (f i) b) l) in
  ((if bool_decide (count true = 0%nat) then [] else [(true, Z.of_nat (count true))]) ++
   (if bool_decide (count false = 0%nat) then [] else [(false, Z.of_nat (count false))]))%list.
(** [m[data.Id] = data.Count] from a map with zero for both values. *)
Definition flag_total (b : bool) (data : list (bool * Z)) : Z :=
  foldl (λ acc d, if Bool.eqb d.1 b then d.2 else acc) 0 data.

(** The answer is nil for a cursor without documents, which [$facet] never gives. *)
Definition GetInfraStats (projectID : string) : GM (res (option GetInfraStatsResponse)) :=
  let? result := Aggregate (λ l : list ChaosInfra,
    let own := List.filter (λ i, str_eq (in_ProjectID i) projectID && negb (au_IsRemoved (in_Audit i))) l in
    [(count_flag in_IsActive own, count_flag in_IsInfraConfirmed own)]) in
  match result with
  | [] => mret (Ok None)
  | (active, confirmed) :: _ =>
      mret (Ok (Some (mkInfraStats (flag_total true confirmed + flag_total false confirmed) (flag_total true active)
                  (flag_total false active) (flag_total true confirmed) (flag_total false confirmed))))
  end.

(** One tick of [RecordInfraMetrics]: connected and total agents of each project. *)
Definition count_agents (infras : list ChaosInfra) : gmap string (Z * Z) :=
  foldl (λ m i, let '(connected, total) := default (0, 0) (m !! in_ProjectID i) in
                <[in_ProjectID i := ((if in_IsActive i then connected + 1 else connected), total + 1)]> m) ∅ infras.
Definition infra_gauges : GM (res (gmap string (Z * Z))) :=
  let? infras := GetInfras (λ i, negb (au_IsRemoved (in_Audit i))) in
  mret (Ok (count_agents infras)).
End service.

(** ** The resolvers *)
Section resolvers.
Context `{MongoDriver} `{Runtime} `{MongoRegex} `{LookupOrder} `{Crypto} `{AuthClient} `{ServerConfig} `{InfraEnv}.

Definition mutation_RegisterInfra (ctx : Ctx) (projectID : string) (request : RegisterInfraRequest) :
    GM (res RegisterInfraResponse) :=
  let? _ := ValidateRole ctx projectID (MutationRbacRules UserInfrastructureReg) InvitationAccepted in
  RegisterInfra ctx projectID request.

Definition mutation_DeleteInfra (ctx : Ctx) (projectID infraID : string) : GM (res string) :=
  let? _ := ValidateRole ctx projectID (MutationRbacRules DeleteInfrastructures) InvitationAccepted in
  DeleteInfra ctx projectID infraID.

(** No role is asked for: the access key is the permission. *)
Definition mutation_GetManifestWithInfraID (ctx : Ctx) (infraID accessKey : string) : GM (res string) :=
  let? host := mret (referrer_host ctx) in
  GetManifestWithInfraID host infraID accessKey.

Definition query_GetInfra (ctx : Ctx) (projectID infraID : string) : GM (res InfraOutput) :=
  let? _ := ValidateRole ctx projectID (MutationRbacRules GetInfrastructure) InvitationAccepted in
  GetInfra ctx projectID infraID.

Definition query_ListInfras (ctx : Ctx) (projectID : string) (request : option ListInfraRequest) :
    GM (res ListInfraResponse) :=
  let? _ := ValidateRole ctx projectID (MutationRbacRules ListInfrastructures) InvitationAccepted in
  ListInfras projectID request.

(** The document stands for the copy made of it. *)
Definition query_GetInfraDetails (ctx : Ctx) (infraID projectID : string) : GM (res ChaosInfra) :=
  let? _ := ValidateRole ctx projectID (MutationRbacRules GetInfraDetailsRole) InvitationAccepted in
  GetInfraDetailsDoc infraID projectID.

Definition query_GetInfraManifest (ctx : Ctx) (infraID projectID : string) : GM (res string) :=
  let? host := mret (referrer_host ctx) in
  let? _ := ValidateRole ctx projectID (MutationRbacRules GetManifest) InvitationAccepted in
  let? getInfra := GetInfraDoc infraID in
  GetK8sInfraYaml host getInfra.

Definition query_GetInfraStats (ctx : Ctx) (projectID : string) : GM (res (option GetInfraStatsResponse)) :=
  let? _ := ValidateRole ctx projectID (MutationRbacRules GetInfraDetailsRole) InvitationAccepted in
  GetInfraStats projectID.
End resolvers.
