(* ===== verification/Connections.v ===== *)
(** * Connections.v: live connections of agents and browsers

    The subscriptions of [graph/chaos_infrastructure.resolvers.go]: an agent
    connects ([InfraConnect]) and is dropped when its context ends, a browser
    listens to events ([GetInfraEvents]) or waits for one answer ([GetPodLog] and
    the like). Connecting and disconnecting are each made of a change of the
    shared store under its mutex and of a write to the database; the steps of
    different connections interleave between the two. *)
From S2P Require Import Prelude World GoStd AuthRepo GraphDocs Experiments RunScore RunEvent.
From S2P Require Import Authorization Environments Infrastructure.
Local Open Scope string_scope.
Local Open Scope Z_scope.

(** ** The store *)
Definition disconnect_infra (infraID : string) (r : StateData) : StateData :=
  mkStateData (delete infraID (ConnectedInfra r)) (InfraEventPublish r) (ExperimentLog r) (KubeObjectData r)
    (KubeNamespaceData r) (sd_Actions r) (sd_Events r) (sd_Next r).

(** The critical section of the disconnection: the entry is removed unless it
    is the channel of another connection. Says whether it went on. *)
Definition drop_connection (infraID : string) (infraAction : nat) (r : StateData) : bool * StateData :=
  match ConnectedInfra r !! infraID with
  | Some current => if bool_decide (current ≠ infraAction) then (false, r) else (true, disconnect_infra infraID r)
  | None => (true, disconnect_infra infraID r)
  end.

Section connections.
Context `{MongoDriver} `{Runtime} `{ServerConfig}.

(** ** [InfraConnect] *)
Definition connect_update (t : Z) (version : string) (i : ChaosInfra) : ChaosInfra :=
  set_in_version version (set_in_active true (set_in_audit (set_updated_at t (in_Audit i)) i)).
Definition disconnect_update (t : Z) (i : ChaosInfra) : ChaosInfra :=
  set_in_active false (set_in_audit (set_updated_at t (in_Audit i)) i).

(** The channel is made and stored under the mutex; an older one is replaced. *)
Definition register_connection (infraID : string) : GM nat :=
  r ← get_store;
  _ ← with_store (connect_infra infraID);
  mret (sd_Next r).

(** The write that follows, and the event; [verified] is the document as it was
    read, with the flag it had then. *)
Definition activate (request : InfraIdentity) (verified : ChaosInfra) : GM (res unit) :=
  t ← now;
  let? _ := UpdateInfraDocs (by_infra_id (ii_InfraID request)) (connect_update t (ii_Version request)) in
  _ ← SendInfraEvent "infra-status" "Infra Live" "Infra is Live and Connected" verified;
  mret (Ok tt).

Definition InfraConnect (request : InfraIdentity) : GM (res (nat * ChaosInfra)) :=
  let? verified := VerifyInfra request in
  infraAction ← register_connection (ii_InfraID request);
  let? _ := activate request verified in
  mret (Ok (infraAction, verified)).

(** What happens when the context of the connection ends: first the store, then
    the event and the write, whose error is only logged. *)
Definition unregister (infraID : string) (infraAction : nat) : GM bool := λ w,
  let '(go, r) := drop_connection infraID infraAction (g_store (db w)) in
  (go, mkWorld (set_store (λ _, r) (db w)) (tick w)).
Definition deactivate (infraID : string) (verified : ChaosInfra) : GM unit :=
  _ ← SendInfraEvent "infra-status" "Infra Offline" "Infra Disconnect" (set_in_active false verified);
  t ← now;
  _ ← UpdateInfraDocs (by_infra_id infraID) (disconnect_update t);
  mret tt.
Definition InfraDisconnect (infraID : string) (infraAction : nat) (verified : ChaosInfra) : GM unit :=
  go ← unregister infraID infraAction;
  if (go : bool) then deactivate infraID verified else mret tt.

(** ** [GetInfraEvents] *)
Definition subscribe_events (projectID : string) (r : StateData) : StateData :=
  mkStateData (ConnectedInfra r)
    (<[projectID := (default [] (InfraEventPublish r !! projectID) ++ [sd_Next r])%list]> (InfraEventPublish r))
    (ExperimentLog r) (KubeObjectData r) (KubeNamespaceData r) (sd_Actions r) (<[sd_Next r := []]> (sd_Events r))
    (S (sd_Next r)).

(** The first entry of the slice that is this channel goes away. *)
Fixpoint remove_first (x : nat) (l : list nat) : list nat :=
  match l with
  | [] => []
  | y :: l => if bool_decide (y = x) then l else y :: remove_first x l
  end.
Definition unsubscribe_events (projectID : string) (infraEvent : nat) (r : StateData) : StateData :=
  let channels := remove_first infraEvent (default [] (InfraEventPublish r !! projectID)) in
  mkStateData (ConnectedInfra r)
    (if bool_decide (channels = []) then delete projectID (InfraEventPublish r)
     else <[projectID := channels]> (InfraEventPublish r))
    (ExperimentLog r) (KubeObjectData r) (KubeNamespaceData r) (sd_Actions r) (sd_Events r) (sd_Next r).

Definition GetInfraEvents (projectID : string) : GM nat :=
  r ← get_store;
  _ ← with_store (subscribe_events projectID);
  mret (sd_Next r).
Definition CloseInfraEvents (projectID : string) (infraEvent : nat) : GM unit :=
  with_store (unsubscribe_events projectID infraEvent).

(** ** [GetPodLog], [GetKubeObject], [GetKubeNamespace]

    A request of the browser: a channel under a fresh identifier, and an action
    for the agent ([GetLogs] of [chaos_experiment/handler/handler.go]); when the
    agent is not connected the answer is made here. [externalData] is the JSON
    of the request. *)
Definition send_to_infra (infraID : string) (a : ActionPayload) : GM bool := λ w,
  match ConnectedInfra (g_store (db w)) !! infraID with
  | Some observer =>
      (true, mkWorld (set_store (send_action observer (mkInfraAction "" a)) (db w)) (tick w))
  | None => (false, w)
  end.
Definition request_action (reqID reqType externalData : string) : ActionPayload :=
  mkAction reqID reqType "" "" (Some externalData) None.

Definition GetLogs (reqID infraID externalData : string) (refused : PodLogResponse) : GM (res unit) :=
  connected ← send_to_infra infraID (request_action reqID "logs" externalData);
  if (connected : bool) then mret (Ok tt)
  else
    r ← get_store;
    match ExperimentLog r !! reqID with
    | None => mret (Ok tt)
    | Some reqChan =>
        match reply reqChan refused with
        | None => mret Panic
        | Some reqChan' => _ ← with_store (set_log reqID reqChan'); mret (Ok tt)
        end
    end.

Definition GetKubeData (find : StateData → gmap string (Reply KubeObjectResponse))
    (store : string → Reply KubeObjectResponse → StateData → StateData) (reqID reqType infraID externalData : string) :
    GM (res unit) :=
  connected ← send_to_infra infraID (request_action reqID reqType externalData);
  if (connected : bool) then mret (Ok tt)
  else
    r ← get_store;
    match find r !! reqID with
    | None => mret (Ok tt)
    | Some reqChan =>
        match reply reqChan (mkKubeObject infraID "") with
        | None => mret Panic
        | Some reqChan' => _ ← with_store (store reqID reqChan'); mret (Ok tt)
        end
    end.

Definition no_reply {A} : Reply A := mkReply [] false.

(** The error text of a log request that cannot be served. *)
Definition not_connected (runID podName podType : string) : PodLogResponse :=
  mkPodLogResponse runID podName podType "INFRA ERROR : INFRA NOT CONNECTED".

Definition GetPodLog (infraID runID podName podType externalData : string) : GM (string * res unit) :=
  reqID ← NewUUID;
  _ ← with_store (set_log reqID no_reply);
  r ← GetLogs reqID infraID externalData (not_connected runID podName podType);
  mret (reqID, r).
Definition GetKubeObject (infraID objectType externalData : string) : GM (string * res unit) :=
  reqID ← NewUUID;
  _ ← with_store (set_kube_object reqID no_reply);
  r ← GetKubeData KubeObjectData set_kube_object reqID objectType infraID externalData;
  mret (reqID, r).
Definition GetKubeNamespace (infraID externalData : string) : GM (string * res unit) :=
  reqID ← NewUUID;
  _ ← with_store (set_kube_namespace reqID no_reply);
  r ← GetKubeData KubeNamespaceData set_kube_namespace reqID "namespace" infraID externalData;
  mret (reqID, r).

(** The listener is closed: its entry goes. *)
Definition close_log (reqID : string) (r : StateData) : StateData :=
  mkStateData (ConnectedInfra r) (InfraEventPublish r) (delete reqID (ExperimentLog r)) (KubeObjectData r)
    (KubeNamespaceData r) (sd_Actions r) (sd_Events r) (sd_Next r).
End connections.

(** ** Interleavings

    A connection of an agent has two goroutines: the resolver, which has its
    write still to make or not, and the one that waits for the end of the
    context. The rest of the server ([step_other]) may do anything in between but
    change the map of connected infrastructures. *)
Inductive Closer : Type := Waiting | Deactivating | Closed.
#[export] Instance Closer_eq_dec : EqDecision Closer.
Proof. solve_decision. Defined.
Record Connection : Type := mkConn {
  cn_Request : InfraIdentity; cn_Verified : ChaosInfra; cn_Activated : bool; cn_Closer : Closer
}.
(** Connections by the number of their channel. *)
Record Live : Type := mkLive { lv_World : World GraphDB; lv_Conns : gmap nat Connection }.

(** The part of the store connections depend on is the same: the entries of the
    map, and that numbers of channels are not used again. *)
Definition undisturbed (s s' : GraphDB) : Prop :=
  ConnectedInfra (g_store s') = ConnectedInfra (g_store s) ∧ (sd_Next (g_store s) ≤ sd_Next (g_store s'))%nat.

Section steps.
Context `{MongoDriver} `{Runtime} `{ServerConfig}.

Definition activated (c : Connection) : Connection := mkConn (cn_Request c) (cn_Verified c) true (cn_Closer c).
Definition closing (k : Closer) (c : Connection) : Connection :=
  mkConn (cn_Request c) (cn_Verified c) (cn_Activated c) k.

Inductive cstep : Live → Live → Prop :=
| step_connect w w1 w2 cs request verified n :
    VerifyInfra request w = (Ok verified, w1) →
    register_connection (ii_InfraID request) w1 = (n, w2) →
    cstep (mkLive w cs) (mkLive w2 (<[n := mkConn request verified false Waiting]> cs))
| step_activate w w' cs n c r :
    cs !! n = Some c → cn_Activated c = false →
    activate (cn_Request c) (cn_Verified c) w = (r, w') →
    cstep (mkLive w cs) (mkLive w' (<[n := activated c]> cs))
| step_close w w' cs n c go :
    cs !! n = Some c → cn_Closer c = Waiting →
    unregister (ii_InfraID (cn_Request c)) n w = (go, w') →
    cstep (mkLive w cs) (mkLive w' (<[n := closing (if go then Deactivating else Closed) c]> cs))
| step_deactivate w w' cs n c :
    cs !! n = Some c → cn_Closer c = Deactivating →
    deactivate (ii_InfraID (cn_Request c)) (cn_Verified c) w = (tt, w') →
    cstep (mkLive w cs) (mkLive w' (<[n := closing Closed c]> cs))
| step_other w w' cs :
    undisturbed (db w) (db w') → cstep (mkLive w cs) (mkLive w' cs).
End steps.
