(* ===== verification/Channels.v ===== *)
(** * Channels.v: the mutex of the store, its channels and its goroutines

    [Connections.v] takes a send on a channel to complete. Here it may block: the
    functions that use the maps of [data-store/store.go] are programs ([Go]) that
    stop at every use of the mutex, of a map and of a channel, so that any number
    of them interleave ([act], [step]). Every channel has one place
    ([make(chan ..., 1)]), and is read by the executor of GraphQL once the resolver
    that made it has returned it. What the programs do besides (database, encoding)
    touches no channel; its outcome is an argument of the program. *)
From S2P Require Import Prelude World GoStd AuthRepo GraphDocs Experiments.
From stdpp Require Import relations.
Local Open Scope string_scope.

(** ** Programs *)

(** The maps of [StateData]; channels are numbers. *)
Record Maps : Type := mkMaps {
  mp_Connected : gmap string nat; mp_Events : gmap string (list nat);
  mp_Log : gmap string nat; mp_Object : gmap string nat; mp_Namespace : gmap string nat
}.
Definition no_maps : Maps := mkMaps ∅ ∅ ∅ ∅ ∅.

(** [Access f k] changes the maps by [f] and goes on with what they were before.
    [Await c] waits for the end of the context of the subscription with channel
    [c]; [Serve c] returns [c] to the executor. The infrastructure of [SendAction]
    is the one the request names; it is not part of the message. *)
Inductive Go : Type :=
| Halt
| Lock (k : Go)
| Unlock (k : Go)
| Access (f : Maps → Maps) (k : Maps → Go)
| Make (k : nat → Go)
| SendAction (c : nat) (infraID : string) (a : InfraActionResponse) (k : Go)
| OfferEvent (c : nat) (e : InfraEventResponse) (k : Go)
| Answer (c : nat) (m : PodLogResponse + KubeObjectResponse) (k : Go)
| Close (c : nat) (k : Go)
| Spawn (g k : Go)
| Await (c : nat) (k : Go)
| Serve (c : nat) (k : Go).

Definition critical (f : Maps → Maps) (k : Maps → Go) : Go := Lock (Access f (λ m, Unlock (k m))).

(** [SendRequestToSubscriber] sends while it holds the mutex. *)
Definition SendRequestToSubscriber (sr : SubscriberRequests) (k : Go) : Go :=
  let newAction := mkInfraAction (sr_ProjectID sr)
    (mkAction "" (sr_RequestType sr) (sr_K8sManifest sr) (sr_Namespace sr) (sr_ExternalData sr) (sr_Username sr)) in
  Lock (Access id (λ m,
    match mp_Connected m !! sr_InfraID sr with
    | Some observer => SendAction observer (sr_InfraID sr) newAction (Unlock k)
    | None => Unlock k
    end)).

(** The listeners are copied under the mutex; the sends do not block. *)
Definition SendInfraEvent (newEvent : InfraEventResponse) (k : Go) : Go :=
  critical id (λ m, foldr (λ observer k, OfferEvent observer newEvent k) k
    (default [] (mp_Events m !! in_ProjectID (iv_Infra newEvent)))).

Definition set_connected (f : gmap string nat → gmap string nat) (m : Maps) : Maps :=
  mkMaps (f (mp_Connected m)) (mp_Events m) (mp_Log m) (mp_Object m) (mp_Namespace m).
(** The entry is that of another connection. *)
Definition replaced (infraID : string) (infraAction : nat) (m : Maps) : bool :=
  match mp_Connected m !! infraID with Some current => negb (current =? infraAction)%nat | None => false end.
Definition disconnect (infraID : string) (infraAction : nat) (offline : InfraEventResponse) : Go :=
  Await infraAction (critical
    (λ m, if replaced infraID infraAction m then m else set_connected (delete infraID) m)
    (λ m, if replaced infraID infraAction m then Halt else SendInfraEvent offline Halt)).
(** [verified] and [updated] say whether [VerifyInfra] and [UpdateInfra] succeed. *)
Definition InfraConnect (infraID : string) (verified updated : bool) (live offline : InfraEventResponse) : Go :=
  Make (λ infraAction,
    if verified then
      critical (set_connected <[infraID := infraAction]>) (λ _,
        Spawn (disconnect infraID infraAction offline)
          (if updated then SendInfraEvent live (Serve infraAction Halt) else Halt))
    else Halt).

Definition set_events (f : gmap string (list nat) → gmap string (list nat)) (m : Maps) : Maps :=
  mkMaps (mp_Connected m) (f (mp_Events m)) (mp_Log m) (mp_Object m) (mp_Namespace m).
Fixpoint remove_channel (x : nat) (l : list nat) : list nat :=
  match l with
  | [] => []
  | y :: l => if (y =? x)%nat then l else y :: remove_channel x l
  end.
Definition unsubscribe (projectID : string) (infraEvent : nat) (events : gmap string (list nat)) : gmap string (list nat) :=
  match remove_channel infraEvent (default [] (events !! projectID)) with
  | [] => delete projectID events
  | channels => <[projectID := channels]> events
  end.
Definition GetInfraEvents (projectID : string) : Go :=
  Make (λ infraEvent,
    critical (set_events (λ e, <[projectID := (default [] (e !! projectID) ++ [infraEvent])%list]> e)) (λ _,
      Spawn (Await infraEvent (critical (set_events (unsubscribe projectID infraEvent)) (λ _, Halt)))
        (Serve infraEvent Halt))).

(** Requests for logs, objects and namespaces have each their map. *)
Inductive Which : Type := Logs | Objects | Namespaces.
Definition waiting (x : Which) (m : Maps) : gmap string nat :=
  match x with Logs => mp_Log m | Objects => mp_Object m | Namespaces => mp_Namespace m end.
Definition set_waiting (x : Which) (f : gmap string nat → gmap string nat) (m : Maps) : Maps :=
  match x with
  | Logs => mkMaps (mp_Connected m) (mp_Events m) (f (mp_Log m)) (mp_Object m) (mp_Namespace m)
  | Objects => mkMaps (mp_Connected m) (mp_Events m) (mp_Log m) (f (mp_Object m)) (mp_Namespace m)
  | Namespaces => mkMaps (mp_Connected m) (mp_Events m) (mp_Log m) (mp_Object m) (f (mp_Namespace m))
  end.
(** [GetLogs], [GetKubeObjData], [GetKubeNamespaceData] of the handler of
    experiments: the send is made without the mutex. *)
Definition GetLogs (x : Which) (reqID infraID : string) (payload : InfraActionResponse)
    (resp : PodLogResponse + KubeObjectResponse) : Go :=
  critical id (λ m,
    match mp_Connected m !! infraID with
    | Some clusterChan => SendAction clusterChan infraID payload Halt
    | None => critical id (λ m,
        match waiting x m !! reqID with
        | Some reqChan => Answer reqChan resp (Close reqChan Halt)
        | None => Halt
        end)
    end).
(** [GetPodLog], [GetKubeObject], [GetKubeNamespace]. *)
Definition GetPodLog (x : Which) (reqID infraID : string) (payload : InfraActionResponse)
    (resp : PodLogResponse + KubeObjectResponse) : Go :=
  Make (λ workflowLog,
    critical (set_waiting x <[reqID := workflowLog]>) (λ _,
      Spawn (Await workflowLog (critical (set_waiting x (delete reqID)) (λ _, Halt)))
        (Spawn (GetLogs x reqID infraID payload resp) (Serve workflowLog Halt)))).
(** [PodLog], [KubeObj], [KubeNamespace]: the answer of the agent, [None] when it
    cannot be decoded. *)
Definition PodLog (x : Which) (verified : bool) (reqID : string) (resp : option (PodLogResponse + KubeObjectResponse)) : Go :=
  if verified then
    critical id (λ m,
      match waiting x m !! reqID, resp with
      | Some reqChan, Some resp => Answer reqChan resp (Close reqChan Halt)
      | _, _ => Halt
      end)
  else Halt.

(** What a client or the rest of the server starts. *)
Inductive Request : Type :=
| RSend (srs : list SubscriberRequests)
| REvent (e : InfraEventResponse)
| RConnect (infraID : string) (verified updated : bool) (live offline : InfraEventResponse)
| RListen (projectID : string)
| RAsk (x : Which) (reqID infraID : string) (payload : InfraActionResponse) (resp : PodLogResponse + KubeObjectResponse)
| RAnswer (x : Which) (verified : bool) (reqID : string) (resp : option (PodLogResponse + KubeObjectResponse)).
Definition program (r : Request) : Go :=
  match r with
  | RSend srs => foldr SendRequestToSubscriber Halt srs
  | REvent e => SendInfraEvent e Halt
  | RConnect id verified updated live offline => InfraConnect id verified updated live offline
  | RListen projectID => GetInfraEvents projectID
  | RAsk x reqID id payload resp => GetPodLog x reqID id payload resp
  | RAnswer x verified reqID resp => PodLog x verified reqID resp
  end.

(** ** The system *)

(** What waits in the places of the channels, the channels that are closed, which
    are read ([Some true]) or no longer read ([Some false]), the contexts that have
    ended, and the goroutines. A goroutine of a resolver ([true]) recovers from a
    panic, one that was started with [go] ends the process. *)
Record Sys : Type := mkSys {
  sy_Mutex : option nat; sy_Maps : Maps;
  sy_Actions : gmap nat (list InfraActionResponse); sy_Events : gmap nat (list InfraEventResponse);
  sy_Answers : gmap nat (list (PodLogResponse + KubeObjectResponse));
  sy_Closed : gset nat; sy_Readers : gmap nat bool; sy_Ended : gset nat;
  sy_Threads : gmap nat (bool * Go); sy_Next : nat; sy_Crashed : bool
}.
Definition start : Sys := mkSys None no_maps ∅ ∅ ∅ ∅ ∅ ∅ ∅ 0 false.

(** The place of a channel. *)
Definition place {A} (m : gmap nat (list A)) (c : nat) : list A := default [] (m !! c).

Definition set_mutex (o : option nat) (s : Sys) : Sys :=
  mkSys o (sy_Maps s) (sy_Actions s) (sy_Events s) (sy_Answers s) (sy_Closed s) (sy_Readers s) (sy_Ended s) (sy_Threads s) (sy_Next s) (sy_Crashed s).
Definition set_maps (m : Maps) (s : Sys) : Sys :=
  mkSys (sy_Mutex s) m (sy_Actions s) (sy_Events s) (sy_Answers s) (sy_Closed s) (sy_Readers s) (sy_Ended s) (sy_Threads s) (sy_Next s) (sy_Crashed s).
Definition set_actions (c : nat) (l : list InfraActionResponse) (s : Sys) : Sys :=
  mkSys (sy_Mutex s) (sy_Maps s) (<[c := l]> (sy_Actions s)) (sy_Events s) (sy_Answers s) (sy_Closed s) (sy_Readers s) (sy_Ended s) (sy_Threads s) (sy_Next s) (sy_Crashed s).
Definition set_listened (c : nat) (l : list InfraEventResponse) (s : Sys) : Sys :=
  mkSys (sy_Mutex s) (sy_Maps s) (sy_Actions s) (<[c := l]> (sy_Events s)) (sy_Answers s) (sy_Closed s) (sy_Readers s) (sy_Ended s) (sy_Threads s) (sy_Next s) (sy_Crashed s).
Definition set_answers (c : nat) (l : list (PodLogResponse + KubeObjectResponse)) (s : Sys) : Sys :=
  mkSys (sy_Mutex s) (sy_Maps s) (sy_Actions s) (sy_Events s) (<[c := l]> (sy_Answers s)) (sy_Closed s) (sy_Readers s) (sy_Ended s) (sy_Threads s) (sy_Next s) (sy_Crashed s).
Definition add_closed (c : nat) (s : Sys) : Sys :=
  mkSys (sy_Mutex s) (sy_Maps s) (sy_Actions s) (sy_Events s) (sy_Answers s) ({[c]} ∪ sy_Closed s) (sy_Readers s) (sy_Ended s) (sy_Threads s) (sy_Next s) (sy_Crashed s).
Definition set_reader (c : nat) (b : bool) (s : Sys) : Sys :=
  mkSys (sy_Mutex s) (sy_Maps s) (sy_Actions s) (sy_Events s) (sy_Answers s) (sy_Closed s) (<[c := b]> (sy_Readers s)) (sy_Ended s) (sy_Threads s) (sy_Next s) (sy_Crashed s).
Definition add_ended (c : nat) (s : Sys) : Sys :=
  mkSys (sy_Mutex s) (sy_Maps s) (sy_Actions s) (sy_Events s) (sy_Answers s) (sy_Closed s) (sy_Readers s) ({[c]} ∪ sy_Ended s) (sy_Threads s) (sy_Next s) (sy_Crashed s).
Definition set_thread (t : nat) (p : bool * Go) (s : Sys) : Sys :=
  mkSys (sy_Mutex s) (sy_Maps s) (sy_Actions s) (sy_Events s) (sy_Answers s) (sy_Closed s) (sy_Readers s) (sy_Ended s) (<[t := p]> (sy_Threads s)) (sy_Next s) (sy_Crashed s).
Definition bump (s : Sys) : Sys :=
  mkSys (sy_Mutex s) (sy_Maps s) (sy_Actions s) (sy_Events s) (sy_Answers s) (sy_Closed s) (sy_Readers s) (sy_Ended s) (sy_Threads s) (S (sy_Next s)) (sy_Crashed s).
Definition crash (s : Sys) : Sys :=
  mkSys (sy_Mutex s) (sy_Maps s) (sy_Actions s) (sy_Events s) (sy_Answers s) (sy_Closed s) (sy_Readers s) (sy_Ended s) (sy_Threads s) (sy_Next s) true.

Definition panic (t : nat) (recovers : bool) (s : Sys) : Sys := if recovers then set_thread t (true, Halt) s else crash s.

(** One step of goroutine [t]; [None] while it waits. To unlock a mutex that is
    not locked ends the process. *)
Definition run (t : nat) (s : Sys) : option Sys :=
  match sy_Threads s !! t with
  | None => None
  | Some (rec, g) =>
      let goto k s := set_thread t (rec, k) s in
      match g with
      | Halt => None
      | Lock k => match sy_Mutex s with None => Some (goto k (set_mutex (Some t) s)) | Some _ => None end
      | Unlock k => match sy_Mutex s with Some _ => Some (goto k (set_mutex None s)) | None => Some (crash s) end
      | Access f k => Some (goto (k (sy_Maps s)) (set_maps (f (sy_Maps s)) s))
      | Make k => Some (goto (k (sy_Next s)) (bump s))
      | SendAction c _ a k => match place (sy_Actions s) c with [] => Some (goto k (set_actions c [a] s)) | _ => None end
      | OfferEvent c e k => Some (goto k (match place (sy_Events s) c with [] => set_listened c [e] s | _ => s end))
      | Answer c m k =>
          if bool_decide (c ∈ sy_Closed s) then Some (panic t rec s)
          else match place (sy_Answers s) c with [] => Some (goto k (set_answers c [m] s)) | _ => None end
      | Close c k => Some (if bool_decide (c ∈ sy_Closed s) then panic t rec s else goto k (add_closed c s))
      | Spawn g k => Some (goto k (set_thread (sy_Next s) (false, g) (bump s)))
      | Await c k => if bool_decide (c ∈ sy_Ended s) then Some (goto k s) else None
      | Serve c k => Some (goto k (set_reader c true s))
      end
  end.

(** The executor takes what is in the place of [c]. *)
Definition read (c : nat) (s : Sys) : option Sys :=
  if bool_decide (sy_Readers s !! c = Some true) then
    match place (sy_Actions s) c, place (sy_Events s) c, place (sy_Answers s) c with
    | _ :: l, _, _ => Some (set_actions c l s)
    | [], _ :: l, _ => Some (set_listened c l s)
    | [], [], _ :: l => Some (set_answers c l s)
    | [], [], [] => None
    end
  else None.

(** A request arrives, a goroutine makes a step, the executor reads, a client goes
    away, the executor notices that, or that the channel is closed. *)
Inductive Act : Type := Start (r : Request) | Run (t : nat) | Read (c : nat) | End_ (c : nat) | Stop (c : nat).
Definition act (a : Act) (s : Sys) : option Sys :=
  if sy_Crashed s then None
  else match a with
  | Start r => Some (set_thread (sy_Next s) (true, program r) (bump s))
  | Run t => run t s
  | Read c => read c s
  | End_ c => Some (add_ended c s)
  | Stop c =>
      if bool_decide (sy_Readers s !! c = Some true) && (bool_decide (c ∈ sy_Ended s) || bool_decide (c ∈ sy_Closed s))
      then Some (set_reader c false s) else None
  end.
Definition acts (l : list Act) (s : Sys) : option Sys := foldl (λ o a, o ≫= act a) (Some s) l.
Definition step (s s' : Sys) : Prop := ∃ a, act a s = Some s'.
Definition reachable (s : Sys) : Prop := rtc step start s.
