(* ===== verification/ImageRegistries.v ===== *)
(** * ImageRegistries.v: the image registry of a project

    [graphql/server/pkg/image_registry/service.go] on the operators of
    [pkg/database/mongodb/image_registry/operations.go], behind the resolvers of
    [graph/image_registry.resolvers.go]. *)
From S2P Require Import Prelude World GoStd AuthRepo GraphDocs Experiments Authorization.
Local Open Scope string_scope.
Local Open Scope Z_scope.

Record ImageRegistryInput : Type := mkRegistryInput {
  ri_ImageRegistryName : string; ri_ImageRepoName : string; ri_ImageRegistryType : string;
  ri_SecretName : option string; ri_SecretNamespace : option string; ri_EnableRegistry : option bool;
  ri_IsDefault : bool
}.
Record ImageRegistryResponse : Type := mkRegistryResponse {
  rr_ImageRegistryID : string; rr_ProjectID : string; rr_Info : ImageRegistryInput; rr_CreatedAt : option string;
  rr_UpdatedAt : option string; rr_IsRemoved : option bool
}.

(** The unique index of the collection: the project, removed or not. *)
Definition registry_key (stored new : ImageRegistry) : bool := str_eq (ir_ProjectID stored) (ir_ProjectID new).
Definition registry_query (imageRegistryID projectID : string) (r : ImageRegistry) : bool :=
  str_eq (ir_ImageRegistryID r) imageRegistryID && str_eq (ir_ProjectID r) projectID.

Definition registry_info (r : ImageRegistry) : ImageRegistryInput :=
  mkRegistryInput (ir_ImageRegistryName r) (ir_ImageRepoName r) (ir_ImageRegistryType r) (ir_SecretName r)
    (ir_SecretNamespace r) (ir_EnableRegistry r) (ir_IsDefault r).
Definition registry_response (projectID : string) (r : ImageRegistry) : ImageRegistryResponse :=
  mkRegistryResponse (ir_ImageRegistryID r) projectID (registry_info r) (Some (Itoa (au_CreatedAt (ir_Audit r))))
    (Some (Itoa (au_UpdatedAt (ir_Audit r)))) (Some (au_IsRemoved (ir_Audit r))).

Definition set_ir_audit (a : mongodb_Audit) (r : ImageRegistry) : ImageRegistry :=
  mkRegistry a (ir_ImageRegistryID r) (ir_ProjectID r) (ir_ImageRegistryName r) (ir_ImageRepoName r)
    (ir_ImageRegistryType r) (ir_SecretName r) (ir_SecretNamespace r) (ir_IsDefault r) (ir_EnableRegistry r).
Definition registry_of (i : ImageRegistryInput) (a : mongodb_Audit) (id projectID : string) : ImageRegistry :=
  mkRegistry a id projectID (ri_ImageRegistryName i) (ri_ImageRepoName i) (ri_ImageRegistryType i) (ri_SecretName i)
    (ri_SecretNamespace i) (ri_IsDefault i) (ri_EnableRegistry i).

Section service.
Context `{MongoDriver} `{Runtime}.

(** *** [image_registry/operations.go] *)
Definition InsertImageRegistry (r : ImageRegistry) : GM (res unit) := InsertOne registry_key r.
Definition UpdateImageRegistryDoc (q : ImageRegistry → bool) (f : ImageRegistry → ImageRegistry) : GM (res unit) :=
  let? _ := UpdateOne q f in mret (Ok tt).
Definition ListImageRegistryDocs (q : ImageRegistry → bool) : GM (res (list ImageRegistry)) := Find q.
Definition GetImageRegistryDoc (q : ImageRegistry → bool) : GM (res ImageRegistry) := FindOne q.

(** *** [image_registry/service.go] *)
Definition CreateImageRegistry (projectID : string) (info : ImageRegistryInput) : GM (res ImageRegistryResponse) :=
  currentTime ← now;
  id ← NewUUID;
  let? _ := InsertImageRegistry
    (registry_of info (mkGAudit currentTime currentTime no_user no_user false) id projectID) in
  mret (Ok (mkRegistryResponse id projectID info (Some (Itoa currentTime)) (Some (Itoa currentTime)) (Some false))).

Definition UpdateImageRegistry (imageRegistryID projectID : string) (info : ImageRegistryInput) :
    GM (res ImageRegistryResponse) :=
  currentTime ← now;
  let? _ := UpdateImageRegistryDoc (registry_query imageRegistryID projectID)
    (λ r, registry_of info (set_updated_at currentTime (ir_Audit r)) (ir_ImageRegistryID r) (ir_ProjectID r)) in
  mret (Ok (mkRegistryResponse imageRegistryID projectID info None (Some (Itoa currentTime)) (Some false))).

Definition DeleteImageRegistry (imageRegistryID projectID : string) : GM (res string) :=
  let? _ := UpdateImageRegistryDoc (registry_query imageRegistryID projectID)
    (λ r, set_ir_audit (set_is_removed true (ir_Audit r)) r) in
  mret (Ok "image registry deleted").

Definition GetImageRegistry (projectID : string) : GM (res ImageRegistryResponse) :=
  let? r := GetImageRegistryDoc (λ r, str_eq (ir_ProjectID r) projectID) in
  mret (Ok (registry_response projectID r)).

Definition ListImageRegistries (projectID : string) : GM (res (list ImageRegistryResponse)) :=
  let? l := ListImageRegistryDocs (λ r, str_eq (ir_ProjectID r) projectID) in
  mret (Ok (registry_response projectID <$> l)).
End service.

(** ** The resolvers *)
Section resolvers.
Context `{MongoDriver} `{Runtime} `{Crypto} `{AuthClient}.

Definition mutation_CreateImageRegistry (ctx : Ctx) (projectID : string) (info : ImageRegistryInput) :
    GM (res ImageRegistryResponse) :=
  let? _ := ValidateRole ctx projectID (MutationRbacRules CreateImageRegistryRole) InvitationAccepted in
  CreateImageRegistry projectID info.
Definition mutation_UpdateImageRegistry (ctx : Ctx) (imageRegistryID projectID : string) (info : ImageRegistryInput) :
    GM (res ImageRegistryResponse) :=
  let? _ := ValidateRole ctx projectID (MutationRbacRules UpdateImageRegistryRole) InvitationAccepted in
  UpdateImageRegistry imageRegistryID projectID info.
Definition mutation_DeleteImageRegistry (ctx : Ctx) (imageRegistryID projectID : string) : GM (res string) :=
  let? _ := ValidateRole ctx projectID (MutationRbacRules DeleteImageRegistryRole) InvitationAccepted in
  DeleteImageRegistry imageRegistryID projectID.
Definition query_ListImageRegistry (ctx : Ctx) (projectID : string) : GM (res (list ImageRegistryResponse)) :=
  let? _ := ValidateRole ctx projectID (MutationRbacRules ListImageRegistryRole) InvitationAccepted in
  ListImageRegistries projectID.
Definition query_GetImageRegistry (ctx : Ctx) (projectID : string) : GM (res ImageRegistryResponse) :=
  let? _ := ValidateRole ctx projectID (MutationRbacRules GetImageRegistryRole) InvitationAccepted in
  GetImageRegistry projectID.
End resolvers.
