(* ===== verification/ProbeProperties.v ===== *)
(** * ProbeProperties.v: the properties of a probe on its way to the engine

    A probe is a request of a user or an entry of an experiment manifest
    ([ProbeInputsToProbeRequestConverter]); it is stored as a document
    ([Add...ProbeProperties] of [graphql/server/pkg/probe/utils/utils.go]), read
    back ([GetOutputProbe] of [pkg/database/mongodb/probe/schema.go]) and written
    into the chaos engine of an experiment ([GenerateProbeManifest] of
    [pkg/probe/handler/handler.go]). The properties have the same fields in the
    request, the document and the answer: one record stands for the three. *)
From S2P Require Import Prelude World GoStd GraphDocs Experiments.
Local Open Scope string_scope.
Local Open Scope Z_scope.

(** ** The types of the chaos operator ([v1alpha1]): what the code sets *)
Record RunProperty : Type := mkRunProperty {
  ru_ProbeTimeout : string; ru_Interval : string; ru_EvaluationTimeout : string; ru_ProbePollingInterval : string;
  ru_InitialDelay : string; ru_InitialDelaySeconds : Z; ru_Retry : Z; ru_Attempt : Z; ru_StopOnFailure : bool
}.
Record PostMethod : Type := mkPostMethod {
  po_ContentType : string; po_Body : string; po_BodyPath : string; po_Criteria : string; po_ResponseCode : string
}.
Record HTTPProbeInputs : Type := mkHTTPInputs {
  hi_URL : string; hi_InsecureSkipVerify : bool; hi_Get : option GET; hi_Post : option PostMethod
}.
Record CmdProbeInputs : Type := mkCmdInputs { ci_Command : string; ci_Comparator : Comparator; ci_Source : option string }.
Record PromProbeInputs : Type := mkPromInputs {
  pi_Endpoint : string; pi_Query : string; pi_QueryPath : string; pi_Comparator : Comparator
}.
Record K8sProbeInputs : Type := mkK8sInputs {
  ki_Group : string; ki_Version : string; ki_Resource : string; ki_ResourceNames : string; ki_Namespace : string;
  ki_FieldSelector : string; ki_LabelSelector : string; ki_Operation : string
}.
Record ProbeAttributes : Type := mkAttributes {
  at_Name : string; at_Type : string; at_HTTP : option HTTPProbeInputs; at_Cmd : option CmdProbeInputs;
  at_Prom : option PromProbeInputs; at_K8s : option K8sProbeInputs; at_Run : RunProperty; at_Mode : string;
  at_Data : string
}.

(** Sources of command probes are JSON of the chaos operator's [SourceDetails].
    [decode_source]: the fields that are stored, [None] for the text [null];
    [encode_source]: their JSON; [read_source]: what a manifest takes from it. *)
Class SourceCodec := {
  decode_source (text : string) : res (option string);
  encode_source (source : string) : string;
  read_source (text : string) : option string;
}.

(** ** Requests *)
Record ProbeRequest : Type := mkProbeRequest {
  pq_Name : string; pq_Description : option string; pq_Tags : list string; pq_Type : string;
  pq_InfrastructureType : string; pq_HTTP : option KubernetesHTTPProbe; pq_CMD : option KubernetesCMDProbe;
  pq_K8S : option K8SProbe; pq_PROM : option PROMProbe
}.

Definition set_http (h : KubernetesHTTPProbe) (p : Probe) : Probe :=
  mkProbe (pb_ProjectID p) (pb_Resource p) (pb_Audit p) (pb_Type p) (pb_InfrastructureType p) (Some h) (pb_CMD p)
    (pb_PROM p) (pb_K8S p).
Definition set_cmd (c : KubernetesCMDProbe) (p : Probe) : Probe :=
  mkProbe (pb_ProjectID p) (pb_Resource p) (pb_Audit p) (pb_Type p) (pb_InfrastructureType p) (pb_HTTP p) (Some c)
    (pb_PROM p) (pb_K8S p).
Definition set_prom (c : PROMProbe) (p : Probe) : Probe :=
  mkProbe (pb_ProjectID p) (pb_Resource p) (pb_Audit p) (pb_Type p) (pb_InfrastructureType p) (pb_HTTP p) (pb_CMD p)
    (Some c) (pb_K8S p).
Definition set_k8s (k : K8SProbe) (p : Probe) : Probe :=
  mkProbe (pb_ProjectID p) (pb_Resource p) (pb_Audit p) (pb_Type p) (pb_InfrastructureType p) (pb_HTTP p) (pb_CMD p)
    (pb_PROM p) (Some k).

(** ** To the document: [probe/utils/utils.go]

    A request without the properties is a nil dereference. *)
Definition AddKubernetesHTTPProbeProperties (newProbe : Probe) (request : ProbeRequest) : res Probe :=
  match pq_HTTP request with
  | None => Panic
  | Some h =>
      let method :=
        match me_GET (hp_Method h), me_POST (hp_Method h) with
        | Some g, _ => mkMethod (Some g) None
        | None, Some p => mkMethod None (Some p)
        | None, None => mkMethod None None
        end in
      Ok (set_http (mkHTTPProbe (hp_URL h) (hp_Common h) method (hp_InsecureSkipVerify h)) newProbe)
  end.

Definition AddKubernetesCMDProbeProperties `{SourceCodec} (newProbe : Probe) (request : ProbeRequest) : res Probe :=
  match pq_CMD request with
  | None => Panic
  | Some c =>
      let done source := Ok (set_cmd (mkCMDProbe (cm_Command c) (cm_Common c) (cm_Comparator c) source) newProbe) in
      match cm_Source c with
      | None => done None
      | Some text =>
          match decode_source text with
          | Ok source => done source
          | Err e => Err e
          | Panic => Panic
          end
      end
  end.

Definition AddPROMProbeProperties (newProbe : Probe) (request : ProbeRequest) : res Probe :=
  match pq_PROM request with
  | None => Panic
  | Some c => Ok (set_prom c newProbe)
  end.

(** The initial delay of the request is not copied. *)
Definition without_delay (c : CommonProbeProperties) : CommonProbeProperties :=
  mkCommonProps (cp_ProbeTimeout c) (cp_Interval c) (cp_EvaluationTimeout c) (cp_PollingInterval c) None (cp_Retry c)
    (cp_Attempt c) (cp_StopOnFailure c).
Definition AddK8SProbeProperties (newProbe : Probe) (request : ProbeRequest) : res Probe :=
  match pq_K8S request with
  | None => Panic
  | Some k =>
      Ok (set_k8s (mkK8SProbe (kp_Group k) (kp_Version k) (kp_Resource k) (kp_ResourceNames k) (kp_Namespace k)
                     (kp_FieldSelector k) (kp_LabelSelector k) (kp_Operation k) (without_delay (kp_Common k))) newProbe)
  end.

(** ** To the answer: [GetOutputProbe]

    The answer has the shape of the document, with times and users as texts,
    which are left out here. Only the properties of the probe's own type are
    set; those of a document that lacks them are a nil dereference. *)
Record ProbeOutput : Type := mkProbeOutput {
  ou_ProjectID : string; ou_Name : string; ou_Description : string; ou_Tags : list string; ou_Type : string;
  ou_InfrastructureType : string; ou_HTTP : option KubernetesHTTPProbe; ou_CMD : option KubernetesCMDProbe;
  ou_PROM : option PROMProbe; ou_K8S : option K8SProbe
}.

(** The optional fields of a POST are copied under a test of the new value, which
    is still nil: they are never set. *)
Definition output_method (m : Method) : Method :=
  match me_GET m, me_POST m with
  | Some g, _ => mkMethod (Some g) None
  | None, Some p => mkMethod None (Some (mkPOST None None None (post_Criteria p) (post_ResponseCode p)))
  | None, None => mkMethod None None
  end.

Section output.
Context `{SourceCodec}.

Definition GetOutputProbe (p : Probe) : res ProbeOutput :=
  let out := mkProbeOutput (pb_ProjectID p) (rs_Name (pb_Resource p)) (rs_Description (pb_Resource p))
               (rs_Tags (pb_Resource p)) (pb_Type p) (pb_InfrastructureType p) in
  if negb (str_eq (pb_InfrastructureType p) InfrastructureTypeKubernetes) then Ok (out None None None None)
  else if str_eq (pb_Type p) ProbeTypeHTTPProbe then
    match pb_HTTP p with
    | None => Panic
    | Some h => Ok (out (Some (mkHTTPProbe (hp_URL h) (hp_Common h) (output_method (hp_Method h))
                                 (hp_InsecureSkipVerify h))) None None None)
    end
  else if str_eq (pb_Type p) ProbeTypeCmdProbe then
    match pb_CMD p with
    | None => Panic
    | Some c => Ok (out None (Some (mkCMDProbe (cm_Command c) (cm_Common c) (cm_Comparator c)
                                      (encode_source <$> cm_Source c))) None None)
    end
  else if str_eq (pb_Type p) ProbeTypePromProbe then
    match pb_PROM p with None => Panic | Some c => Ok (out None None (Some c) None) end
  else if str_eq (pb_Type p) ProbeTypeK8sProbe then
    match pb_K8S p with None => Panic | Some k => Ok (out None None None (Some k)) end
  else Ok (out None None None None).

(** ** To the engine: [GenerateProbeManifest]

    The JSON text it returns is read back by its callers: the attributes stand
    for it. A pointer that is set replaces the zero value. *)
Definition run_property (c : CommonProbeProperties) (delay : option string) : RunProperty :=
  mkRunProperty (cp_ProbeTimeout c) (cp_Interval c) (default "" (cp_EvaluationTimeout c))
    (default "" (cp_PollingInterval c)) (default "" delay) 0 (default 0 (cp_Retry c)) (default 0 (cp_Attempt c))
    (default false (cp_StopOnFailure c)).

(** A method replaces the inputs made so far, the flag with them. *)
Definition http_inputs (h : KubernetesHTTPProbe) : HTTPProbeInputs :=
  match me_GET (hp_Method h), me_POST (hp_Method h) with
  | Some g, _ => mkHTTPInputs (hp_URL h) false (Some g) None
  | None, Some p =>
      mkHTTPInputs (hp_URL h) false None
        (Some (mkPostMethod (default "" (post_ContentType p)) (default "" (post_Body p)) (default "" (post_BodyPath p))
                 (post_Criteria p) (post_ResponseCode p)))
  | None, None => mkHTTPInputs "" (default false (hp_InsecureSkipVerify h)) None None
  end.

(** A source that does not parse is empty. *)
Definition cmd_inputs (c : KubernetesCMDProbe) : CmdProbeInputs :=
  mkCmdInputs (cm_Command c) (cm_Comparator c) ((λ text, default "" (read_source text)) <$> cm_Source c).
Definition prom_inputs (c : PROMProbe) : PromProbeInputs :=
  mkPromInputs (pr_Endpoint c) (default "" (pr_Query c)) (default "" (pr_QueryPath c)) (pr_Comparator c).
(** Resource names are not copied. *)
Definition k8s_inputs (k : K8SProbe) : K8sProbeInputs :=
  mkK8sInputs (default "" (kp_Group k)) (kp_Version k) (kp_Resource k) "" (default "" (kp_Namespace k))
    (default "" (kp_FieldSelector k)) (default "" (kp_LabelSelector k)) (kp_Operation k).

(** [None] is the empty text, for a type that is none of the four. *)
Definition GenerateProbeManifest (p : ProbeOutput) (mode : string) : res (option ProbeAttributes) :=
  if str_eq (ou_Type p) ProbeTypeHTTPProbe then
    match ou_HTTP p with
    | None => Panic
    | Some h => Ok (Some (mkAttributes (ou_Name p) (ou_Type p) (Some (http_inputs h)) None None None
                            (run_property (hp_Common h) None) mode ""))
    end
  else if str_eq (ou_Type p) ProbeTypeCmdProbe then
    match ou_CMD p with
    | None => Panic
    | Some c => Ok (Some (mkAttributes (ou_Name p) (ou_Type p) None (Some (cmd_inputs c)) None None
                            (run_property (cm_Common c) (cp_InitialDelay (cm_Common c))) mode ""))
    end
  else if str_eq (ou_Type p) ProbeTypePromProbe then
    match ou_PROM p with
    | None => Panic
    | Some c => Ok (Some (mkAttributes (ou_Name p) (ou_Type p) None None (Some (prom_inputs c)) None
                            (run_property (pr_Common c) (cp_InitialDelay (pr_Common c))) mode ""))
    end
  else if str_eq (ou_Type p) ProbeTypeK8sProbe then
    match ou_K8S p with
    | None => Panic
    | Some k => Ok (Some (mkAttributes (ou_Name p) (ou_Type p) None None None (Some (k8s_inputs k))
                            (run_property (kp_Common k) (cp_InitialDelay (kp_Common k))) mode ""))
    end
  else Ok None.

(** ** From a manifest: [ProbeInputsToProbeRequestConverter]

    [name] is the name of the probe with a random suffix. *)
Definition non_empty_text (s : string) : option string := if str_eq s "" then None else Some s.

Definition http_request (inputs : ProbeAttributes) : res KubernetesHTTPProbe :=
  match at_HTTP inputs with
  | None => Panic
  | Some h =>
      let r := at_Run inputs in
      let build method :=
        if str_eq (hi_URL h) "" then Err (ErrNew "URL not specified")
        else Ok (mkHTTPProbe (hi_URL h)
                   (mkCommonProps (ru_ProbeTimeout r) (ru_Interval r) (non_empty_text (ru_EvaluationTimeout r))
                      (non_empty_text (ru_ProbePollingInterval r)) (non_empty_text (ru_InitialDelay r))
                      (Some (ru_Retry r)) (Some (ru_Attempt r)) (Some (ru_StopOnFailure r)))
                   method (Some (hi_InsecureSkipVerify h))) in
      match hi_Get h, hi_Post h with
      | Some g, _ => build (mkMethod (Some g) None)
      | None, Some p =>
          build (mkMethod None (Some (mkPOST (Some (po_ContentType p)) (Some (po_Body p)) (Some (po_BodyPath p))
                                        (po_Criteria p) (po_ResponseCode p))))
      | None, None => Err (ErrNew "GET/POST method not specified")
      end
  end.

Definition prom_request (inputs : ProbeAttributes) : res PROMProbe :=
  match at_Prom inputs with
  | None => Panic
  | Some p =>
      let r := at_Run inputs in
      if str_eq (pi_Endpoint p) "" then Err (ErrNew "endpoint not specified")
      else Ok (mkPROMProbe (pi_Endpoint p) (Some (pi_Query p)) (Some (pi_QueryPath p))
                 (mkCommonProps (ru_ProbeTimeout r) (ru_Interval r) (Some (ru_EvaluationTimeout r))
                    (Some (ru_ProbePollingInterval r)) (Some (ru_InitialDelay r)) (Some (ru_Retry r))
                    (Some (ru_Attempt r)) (Some (ru_StopOnFailure r)))
                 (pi_Comparator p))
  end.

Definition k8s_request (inputs : ProbeAttributes) : res K8SProbe :=
  match at_K8s inputs with
  | None => Panic
  | Some k =>
      let r := at_Run inputs in
      if str_eq (ki_Resource k) "" || str_eq (ki_Operation k) "" || str_eq (ki_Version k) ""
      then Err (ErrNew "resource, operation and version are required")
      else Ok (mkK8SProbe (Some (ki_Group k)) (ki_Version k) (ki_Resource k) (Some (ki_ResourceNames k))
                 (Some (ki_Namespace k)) (Some (ki_FieldSelector k)) (Some (ki_LabelSelector k)) (ki_Operation k)
                 (mkCommonProps (ru_ProbeTimeout r) (ru_Interval r) (Some (ru_EvaluationTimeout r))
                    (Some (ru_ProbePollingInterval r)) None (Some (ru_Retry r)) (Some (ru_Attempt r))
                    (Some (ru_StopOnFailure r))))
  end.

(** [json.Marshal] of a nil source is the text [null]. *)
Definition cmd_request (inputs : ProbeAttributes) : res KubernetesCMDProbe :=
  match at_Cmd inputs with
  | None => Panic
  | Some c =>
      let r := at_Run inputs in
      Ok (mkCMDProbe (ci_Command c)
            (mkCommonProps (ru_ProbeTimeout r) (ru_Interval r) None (Some (ru_ProbePollingInterval r))
               (Some (ru_InitialDelay r)) (Some (ru_Retry r)) (Some (ru_Attempt r)) (Some (ru_StopOnFailure r)))
            (ci_Comparator c) (Some (match ci_Source c with Some s => encode_source s | None => "null" end)))
  end.

Definition ProbeInputsToProbeRequestConverter (inputs : ProbeAttributes) (name : string) : res ProbeRequest :=
  let build http cmd k8s prom :=
    mkProbeRequest name None [] (at_Type inputs) InfrastructureTypeKubernetes http cmd k8s prom in
  if str_eq (ru_ProbeTimeout (at_Run inputs)) "" || str_eq (ru_Interval (at_Run inputs)) ""
  then Err (ErrNew "values for ProbeTimeout and Interval are required")
  else if str_eq (at_Type inputs) ProbeTypeHTTPProbe then
    match http_request inputs with Ok h => Ok (build (Some h) None None None) | Err e => Err e | Panic => Panic end
  else if str_eq (at_Type inputs) ProbeTypePromProbe then
    match prom_request inputs with Ok p => Ok (build None None None (Some p)) | Err e => Err e | Panic => Panic end
  else if str_eq (at_Type inputs) ProbeTypeK8sProbe then
    match k8s_request inputs with Ok k => Ok (build None None (Some k) None) | Err e => Err e | Panic => Panic end
  else if str_eq (at_Type inputs) ProbeTypeCmdProbe then
    match cmd_request inputs with Ok c => Ok (build None (Some c) None None) | Err e => Err e | Panic => Panic end
  else Ok (build None None None None).
End output.
