(* ===== verification/Manifests.v ===== *)
(** * Manifests.v: workflows, cron workflows and chaos engines

    Argo workflows and chaos engines are types of other projects. The records
    have the fields the code reads or writes and, as a text, the rest. A map that
    is nil is an empty one: the code writes to it as if it were. Here also are
    the changes the server makes to manifests: labels, weights, units
    ([graphql/server/utils/faults.go], [utils/misc.go]) and the annotation that
    names the probes ([pkg/probe/utils/utils.go]). *)
From S2P Require Import Prelude World GoStd EventTracker GraphDocs Experiments RunScore RunEvent ProbeProperties.
From Stdlib Require Import Ascii.
Local Open Scope string_scope.
Local Open Scope Z_scope.

Record Template : Type := mkTemplate {
  tm_Artifacts : list Artifact; tm_Labels : gmap string string; tm_Other : string
}.
Record Workflow : Type := mkWorkflow {
  wk_Name : string; wk_Labels : gmap string string; wk_Templates : list Template; wk_Other : string
}.
(** [cw_RunLabels] are the labels of the workflows it starts. *)
Record CronWorkflow : Type := mkCronWorkflow {
  cw_Labels : gmap string string; cw_RunLabels : gmap string string; cw_Schedule : string; cw_Suspend : bool;
  cw_Templates : list Template; cw_Other : string
}.
Record EngineExperiment : Type := mkEngineExperiment { ee_Name : string; ee_Probe : option (list ProbeAttributes) }.
Record ChaosEngine : Type := mkChaosEngine {
  eg_Kind : string; eg_Name : string; eg_GenerateName : string; eg_Annotations : gmap string string;
  eg_Labels : gmap string string; eg_Experiments : list EngineExperiment; eg_Other : string
}.

Definition set_wk_templates (l : list Template) (k : Workflow) : Workflow :=
  mkWorkflow (wk_Name k) (wk_Labels k) l (wk_Other k).
Definition set_cw_templates (l : list Template) (k : CronWorkflow) : CronWorkflow :=
  mkCronWorkflow (cw_Labels k) (cw_RunLabels k) (cw_Schedule k) (cw_Suspend k) l (cw_Other k).
Definition set_cw_suspend (b : bool) (k : CronWorkflow) : CronWorkflow :=
  mkCronWorkflow (cw_Labels k) (cw_RunLabels k) (cw_Schedule k) b (cw_Templates k) (cw_Other k).
Definition set_eg_labels (m : gmap string string) (g : ChaosEngine) : ChaosEngine :=
  mkChaosEngine (eg_Kind g) (eg_Name g) (eg_GenerateName g) (eg_Annotations g) m (eg_Experiments g) (eg_Other g).
Definition set_eg_annotations (m : gmap string string) (g : ChaosEngine) : ChaosEngine :=
  mkChaosEngine (eg_Kind g) (eg_Name g) (eg_GenerateName g) m (eg_Labels g) (eg_Experiments g) (eg_Other g).
(** The probes of the first experiment. *)
Definition set_eg_probes (probes : option (list ProbeAttributes)) (g : ChaosEngine) : ChaosEngine :=
  mkChaosEngine (eg_Kind g) (eg_Name g) (eg_GenerateName g) (eg_Annotations g) (eg_Labels g)
    (match eg_Experiments g with e :: rest => mkEngineExperiment (ee_Name e) probes :: rest | [] => [] end) (eg_Other g).

(** Encodings. [read_object] is the name and kind of any object; engines inside
    a workflow are YAML, engines and schedules on their own JSON, of which the
    code uses the same fields. [suspended] is [sjson.Set(m, "spec.suspend", true)],
    [kind_of] [gjson.Get(m, "kind")], [queued_data] the JSON of the execution
    data of a run that waits. *)
Class ManifestCodec := {
  read_object : string → option (string * string);
  read_workflow : string → result string Workflow;
  write_workflow : Workflow → res string;
  yaml_workflow : Workflow → res string;
  read_cron : string → result string CronWorkflow;
  write_cron : CronWorkflow → res string;
  yaml_cron : CronWorkflow → res string;
  read_engine : string → result string ChaosEngine;
  write_engine : ChaosEngine → result string string;
  read_standalone : string → option ChaosEngine;
  write_standalone : ChaosEngine → res string;
  read_schedule : string → option ChaosEngine;
  write_schedule : ChaosEngine → res string;
  annotation_probes : string → result string (list (string * string));
  marshal_refs : list (string * string) → string;
  read_tree : string → res JValue;
  write_tree : JValue → res string;
  suspended : string → res string;
  kind_of : string → string;
  queued_data : string → string → res string;
}.

(** ** Labels *)

(** The four labels of a workflow. *)
Definition workflow_labels (experimentID infraID revID : string) (m : gmap string string) : gmap string string :=
  <["revision_id" := revID]> (<["workflows.argoproj.io/controller-instanceid" := infraID]>
    (<["infra_id" := infraID]> (<["workflow_id" := experimentID]> m))).
Definition standalone_labels (experimentID infraID revID : string) (m : gmap string string) : gmap string string :=
  <["revision_id" := revID]> (<["type" := "standalone_workflow"]>
    (<["infra_id" := infraID]> (<["workflow_id" := experimentID]> m))).
(** Those of an engine that is about to run. *)
Definition run_labels (infraID : string) (m : gmap string string) : gmap string string :=
  <["workflow_run_id" := "{{workflow.uid}}"]> (<["step_pod_name" := "{{pod.name}}"]> (<["infra_id" := infraID]> m)).

(** ** The annotation with the probes: [InsertProbeRefAnnotation] *)
Definition tree_find (k : string) (l : list (string * JValue)) : option JValue :=
  snd <$> List.find (λ kv, str_eq kv.1 k) l.
Fixpoint tree_set (k : string) (v : JValue) (l : list (string * JValue)) : list (string * JValue) :=
  match l with
  | [] => [(k, v)]
  | (k', v') :: l => if str_eq k' k then (k, v) :: l else (k', v') :: tree_set k v l
  end.

Definition annotate_tree (value : string) (data : JValue) : res JValue :=
  match data with
  | JMap dataMap =>
      match tree_find "metadata" dataMap with
      | None | Some JNil => Err (ErrNew "metadata not found")
      | Some (JMap metadata) =>
          match tree_find "annotations" metadata with
          | None | Some JNil =>
              Ok (JMap (tree_set "metadata" (JMap (tree_set "annotations" (JMap [("probeRef", JString value)]) metadata))
                          dataMap))
          | Some (JMap annotations) =>
              Ok (JMap (tree_set "metadata"
                          (JMap (tree_set "annotations" (JMap (tree_set "probeRef" (JString value) annotations)) metadata))
                          dataMap))
          | Some _ => Panic
          end
      | Some _ => Panic
      end
  | _ => Panic
  end.
Definition InsertProbeRefAnnotation `{ManifestCodec} (rawYaml value : string) : res string :=
  match read_tree rawYaml with
  | Err e => Err e
  | Panic => Panic
  | Ok data =>
      match annotate_tree value data with
      | Ok dataMap => write_tree dataMap
      | Err e => Err e
      | Panic => Panic
      end
  end.

(** ** Units: [validateUnits]

    [\b(\d+(\.\d+)?)((ns|us|ms|s|m|h))\b] somewhere in the text. Units start
    with letters: the digits before one are as many as there are. *)
Definition is_word (c : ascii) : bool := is_alnum c || bool_decide (c = "_"%char).
Fixpoint span_digits (l : list ascii) : list ascii :=
  match l with c :: l' => if is_digit c then span_digits l' else l | [] => [] end.
Definition digits1 (l : list ascii) : option (list ascii) :=
  match l with c :: l' => if is_digit c then Some (span_digits l') else None | [] => None end.
Definition word_end (l : list ascii) : bool := match l with [] => true | c :: _ => negb (is_word c) end.
Definition unit_here (l : list ascii) : bool :=
  existsb (λ u, match strip_prefix (chars u) l with Some r => word_end r | None => false end)
    ["ns"; "us"; "ms"; "s"; "m"; "h"].
Definition quantity_here (l : list ascii) : bool :=
  match digits1 l with
  | None => false
  | Some r =>
      unit_here r ||
      match r with
      | c :: r' => bool_decide (c = "."%char) && match digits1 r' with Some r'' => unit_here r'' | None => false end
      | [] => false
      end
  end.
Fixpoint has_quantity (boundary : bool) (l : list ascii) : bool :=
  match l with
  | [] => false
  | c :: l' => (boundary && quantity_here l) || has_quantity (negb (is_word c)) l'
  end.

Definition validateUnits (value unit : string) : string :=
  if str_eq value "" then ""
  else if has_quantity true (chars value) then value else value +:+ unit.

(** [TransformProbe] *)
Definition transform_probe (p : ProbeAttributes) : ProbeAttributes :=
  let r := at_Run p in
  let typed t := str_eq (at_Type p) t in
  let own {A} (t : string) (x : option A) : option A := if typed t then x else None in
  mkAttributes (at_Name p) (at_Type p) (own ProbeTypeHTTPProbe (at_HTTP p)) (own ProbeTypeCmdProbe (at_Cmd p))
    (own ProbeTypePromProbe (at_Prom p)) (own ProbeTypeK8sProbe (at_K8s p))
    (mkRunProperty (validateUnits (ru_ProbeTimeout r) (if typed ProbeTypeHTTPProbe then "ms" else "s"))
       (validateUnits (ru_Interval r) "s") (validateUnits (ru_EvaluationTimeout r) "s")
       (validateUnits (ru_ProbePollingInterval r) "s")
       (if bool_decide (ru_InitialDelaySeconds r = 0) then validateUnits (ru_InitialDelay r) "s"
        else validateUnits (Itoa (ru_InitialDelaySeconds r)) "s")
       0 (ru_Retry r) (ru_Attempt r) (ru_StopOnFailure r))
    (at_Mode p) (at_Data p).
Definition TransformProbe (l : list ProbeAttributes) : list ProbeAttributes := transform_probe <$> l.

(** ** Engines of a workflow that is about to run

    The loops of [RunChaosWorkFlow], [RunCronExperiment] and
    [UpdateRuntimeCronWorkflowConfiguration] over the templates. All label the
    engine and give units to its probes; [names] says whether the annotations
    are read as well, for the names of the probes of each fault. *)
Section runtime.
Context `{MapOrder} `{Decoders} `{ManifestCodec}.

Definition label_engine (infraID : string) (meta : ChaosEngine) : res string :=
  match eg_Experiments meta with
  | [] => Panic
  | e :: _ =>
      let meta := set_eg_labels (run_labels infraID (eg_Labels meta)) meta in
      let meta := match ee_Probe e with
                  | None | Some [] => meta
                  | Some l => set_eg_probes (Some (TransformProbe l)) meta
                  end in
      match write_engine meta with
      | Ok data => Ok data
      | Err _ => Err (ErrNew "failed to marshal chaosengine")
      | Panic => Panic
      end
  end.

Definition read_names (names : bool) (meta : ChaosEngine) : GM (res (list string)) :=
  if names then
    keys ← range_keys (eg_Annotations meta);
    match annotation_names (eg_Annotations meta) keys with
    | Ok l => mret (Ok l)
    | Err _ => mret (Err (ErrNew "failed to unmarshal experiment annotation object"))
    | Panic => mret Panic
    end
  else mret (Ok []).

(** The new text of an artifact, with the probes when it is an engine. *)
Definition runtime_engine (names : bool) (infraID data : string) : GM (res (option (string * list string))) :=
  match read_engine data with
  | Err _ => mret (Err (ErrNew "failed to unmarshal chaosengine"))
  | Panic => mret Panic
  | Ok meta =>
      if lower_eq (eg_Kind meta) "chaosengine" then
        let? l := read_names names meta in
        let? res := mret (label_engine infraID meta) in
        mret (Ok (Some (res, l)))
      else mret (Ok None)
  end.

Fixpoint runtime_templates (names : bool) (infraID : string) (templates : list Template) :
    GM (res (list Template * list Probes)) :=
  match templates with
  | [] => mret (Ok ([], []))
  | template :: templates =>
      let? here :=
        match tm_Artifacts template with
        | [] => mret (Ok (template, []))
        | a :: arts =>
            match af_RawData a with
            | None | Some "" => mret (Ok (template, []))
            | Some data =>
                let? engine := runtime_engine names infraID data in
                match engine with
                | None => mret (Ok (template, []))
                | Some (data', l) =>
                    mret (Ok (mkTemplate (mkArtifact (af_Name a) (Some data') :: arts) (tm_Labels template)
                                (tm_Other template), [mkProbes (af_Name a) l]))
                end
            end
        end in
      let? rest := runtime_templates names infraID templates in
      mret (Ok (here.1 :: rest.1, (here.2 ++ rest.2)%list))
  end.
End runtime.

(** ** The latest revision

    [sort.Slice] by time, the latest first; which of two revisions with one time
    comes first, Go leaves open: here the one that was pushed first. *)
Fixpoint latest_of (r : ExperimentRevision) (l : list ExperimentRevision) : ExperimentRevision :=
  match l with
  | [] => r
  | r' :: l => latest_of (if bool_decide (rv_UpdatedAt r < rv_UpdatedAt r') then r' else r) l
  end.
Definition latest_revision (l : list ExperimentRevision) : option ExperimentRevision :=
  match l with [] => None | r :: l => Some (latest_of r l) end.
