(* ===== verification/Probes.v ===== *)
(** * Probes.v: probes of a project

    [graphql/server/pkg/probe/handler/handler.go] on the operators of
    [pkg/database/mongodb/probe/operations.go], behind the resolvers of
    [graph/probe.resolvers.go]; [GetProbesInExperimentRun] of
    [pkg/chaos_experiment/handler/handler.go]. *)
From S2P Require Import Prelude World GoStd AuthRepo GraphDocs Experiments RunScore RunEvent.
From S2P Require Import Pipelines Authorization Environments Infrastructure ProbeProperties Manifests.
From stdpp Require Import sorting.
Local Open Scope string_scope.
Local Open Scope Z_scope.

(** ** Requests and answers *)
Record DateRange : Type := mkDateRange { dr_StartDate : string; dr_EndDate : option string }.
Record ProbeFilterInput : Type := mkProbeFilter {
  pf_Name : option string; pf_DateRange : option DateRange; pf_Type : list string
}.
Inductive ProbeVerdict : Type := ProbeVerdictPassed | ProbeVerdictFailed | ProbeVerdictNa | ProbeVerdictAwaited.
#[export] Instance ProbeVerdict_eq_dec : EqDecision ProbeVerdict.
Proof. solve_decision. Defined.

(** One execution of a probe in a run; the mode only in references. *)
Record ProbeExecution : Type := mkProbeExecution {
  pe_FaultName : string; pe_Mode : string; pe_Verdict : ProbeVerdict; pe_ExperimentID : string;
  pe_ExperimentName : string; pe_UpdatedAt : Z; pe_UpdatedBy : string
}.
Record ListedProbe : Type := mkListedProbe {
  lq_Probe : ProbeOutput; lq_RecentExecutions : list ProbeExecution; lq_ReferencedBy : Z
}.
Record FaultHistory : Type := mkFaultHistory {
  fh_FaultName : string; fh_Mode : string; fh_ExecutionHistory : list ProbeExecution
}.
Record GetProbeReferenceResponse : Type := mkProbeReference {
  gr_ProjectID : string; gr_Name : string; gr_TotalRuns : Z; gr_RecentExecutions : list FaultHistory
}.

(** The unique index of the collection: name and project, among probes that are
    not removed. *)
Definition probe_key (stored new : Probe) : bool :=
  str_eq (rs_Name (pb_Resource stored)) (rs_Name (pb_Resource new)) && str_eq (pb_ProjectID stored) (pb_ProjectID new) &&
  negb (au_IsRemoved (pb_Audit stored)) && negb (au_IsRemoved (pb_Audit new)).
(** [{name, project_id, is_removed: false}] *)
Definition probe_query (probeName projectID : string) (p : Probe) : bool :=
  str_eq (rs_Name (pb_Resource p)) probeName && str_eq (pb_ProjectID p) projectID && negb (au_IsRemoved (pb_Audit p)).

(** ** The verdict of a probe in a run *)
Definition convertProbeVerdict (verdict : string) : ProbeVerdict :=
  if str_eq verdict "Passed" then ProbeVerdictPassed
  else if str_eq verdict "Failed" then ProbeVerdictFailed
  else if str_eq verdict "Awaited" then ProbeVerdictAwaited
  else ProbeVerdictNa.

(** The last status with the name of the probe decides, with its mode. *)
Definition status_verdict (probeName : string) (statuses : list ProbeStatus) (acc : ProbeVerdict * string) :
    ProbeVerdict * string :=
  foldl (λ acc s, if str_eq (ps_Name s) probeName then (convertProbeVerdict (ps_Verdict s), ps_Mode s) else acc)
    acc statuses.

Definition engine_node (types : list string) (n : Node) : bool := str_in (nd_Type n) types.

Definition node_verdict (types : list string) (faultName probeName : string) (acc : ProbeVerdict * string) (n : Node) :
    ProbeVerdict * string :=
  if str_eq (nd_Name n) faultName && engine_node types n then
    match nd_ChaosExp n with
    | None => (ProbeVerdictNa, acc.2)
    | Some c =>
        match cd_ChaosResult c with
        | None => (ProbeVerdictNa, acc.2)
        | Some statuses => status_verdict probeName statuses (ProbeVerdictAwaited, acc.2)
        end
    end
  else acc.

Definition fault_verdict (types : list string) (faultName probeName : string) (nodes : list Node) (mode : string) :
    ProbeVerdict * string :=
  foldl (node_verdict types faultName probeName) (ProbeVerdictNa, mode) nodes.

Definition probe_node_types : list string := ["ChaosEngine"; "LinuxTask"].

Section operators.
Context `{MongoDriver}.
Definition CreateProbe (p : Probe) : GM (res unit) := InsertOne probe_key p.
Definition GetProbeByName (probeName projectID : string) : GM (res Probe) := FindOne (probe_query probeName projectID).
Definition IsProbeUnique (q : Probe → bool) : GM (res bool) :=
  let? count := CountDocuments q in
  mret (Ok (negb (bool_decide (0 < count)))).
Definition UpdateProbeDoc (q : Probe → bool) (f : Probe → Probe) : GM (res unit) :=
  let? matched := UpdateOne q f in
  if bool_decide (matched = 0%nat) then mret (Err (ErrNew "no matching documents found")) else mret (Ok tt).
End operators.

Section service.
Context `{MongoDriver} `{Runtime} `{MongoRegex} `{MapOrder} `{LookupOrder} `{Crypto} `{AuthClient} `{SourceCodec} `{Decoders}
  `{ManifestCodec}.

Definition ValidateUniqueProbe (probeName projectID : string) : GM (res bool) :=
  IsProbeUnique (probe_query probeName projectID).

Definition is_none {A} (o : option A) : bool := match o with None => true | Some _ => false end.

(** The empty-properties errors, by the type of the request. *)
Definition missing_properties (request : ProbeRequest) : option string :=
  if str_eq (pq_Type request) ProbeTypeHTTPProbe && is_none (pq_HTTP request)
  then Some "http probe type's properties are empty"
  else if str_eq (pq_Type request) ProbeTypeCmdProbe && is_none (pq_CMD request)
  then Some "cmd probe type's properties are empty"
  else if str_eq (pq_Type request) ProbeTypePromProbe && is_none (pq_PROM request)
  then Some "prom probe type's properties are empty"
  else if str_eq (pq_Type request) ProbeTypeK8sProbe && is_none (pq_K8S request)
  then Some "k8s probe type's properties are empty"
  else None.

(** The properties that belong to the type [type]. *)
Definition add_properties (type : string) (newProbe : Probe) (request : ProbeRequest) : res Probe :=
  if str_eq type ProbeTypeHTTPProbe then AddKubernetesHTTPProbeProperties newProbe request
  else if str_eq type ProbeTypeCmdProbe then AddKubernetesCMDProbeProperties newProbe request
  else if str_eq type ProbeTypePromProbe then AddPROMProbeProperties newProbe request
  else if str_eq type ProbeTypeK8sProbe then AddK8SProbeProperties newProbe request
  else Ok newProbe.

Definition AddProbe (ctx : Ctx) (probe : ProbeRequest) (projectID : string) : GM (res ProbeOutput) :=
  let? isUnique := ValidateUniqueProbe (pq_Name probe) projectID in
  if negb isUnique then mret (Err (ErrNew "probe already exists"))
  else
    currTime ← now;
    let? username := GetUsernameFromContext ctx in
    let newProbe := mkProbe projectID
      (mkResource (pq_Name probe) (default "" (pq_Description probe)) (pq_Tags probe))
      (mkGAudit currTime currTime (named_user username) (named_user username) false) (pq_Type probe)
      (pq_InfrastructureType probe) None None None None in
    match missing_properties probe with
    | Some msg => mret (Err (ErrNew msg))
    | None =>
        let! newProbe := mret (add_properties (pq_Type probe) newProbe probe)
        or e => mret (Err (ErrNew ("error adding cmd probe properties: " +:+ error_text e))) in
        let? _ := CreateProbe newProbe in
        mret (GetOutputProbe newProbe)
    end.

(** [$set] of a whole document: the properties that it lacks are left as they are. *)
Definition set_probe (n p : Probe) : Probe :=
  let or_old {A} (x y : option A) := match x with Some _ => x | None => y end in
  mkProbe (pb_ProjectID n) (pb_Resource n) (pb_Audit n) (pb_Type n) (pb_InfrastructureType n)
    (or_old (pb_HTTP n) (pb_HTTP p)) (or_old (pb_CMD n) (pb_CMD p)) (or_old (pb_PROM n) (pb_PROM p))
    (or_old (pb_K8S n) (pb_K8S p)).

(** The type is the stored one; the test for empty properties is made on the
    type of the request, after they have been used. *)
Definition UpdateProbe (ctx : Ctx) (request : ProbeRequest) (projectID : string) : GM (res string) :=
  let? username := GetUsernameFromContext ctx in
  let? pr := GetProbeByName (pq_Name request) projectID in
  t ← now;
  let newProbe := mkProbe projectID
    (mkResource (pq_Name request) (default "" (pq_Description request)) (pq_Tags request))
    (mkGAudit t (au_CreatedAt (pb_Audit pr)) (au_CreatedBy (pb_Audit pr)) (named_user username) false) (pb_Type pr)
    (pb_InfrastructureType pr) None None None None in
  let? newProbe := mret (if str_eq (pb_InfrastructureType pr) InfrastructureTypeKubernetes
                         then add_properties (pb_Type pr) newProbe request else Ok newProbe) in
  match missing_properties request with
  | Some msg => mret (Err (ErrNew msg))
  | None =>
      let? _ := UpdateProbeDoc (probe_query (pq_Name request) projectID) (set_probe newProbe) in
      mret (Ok "Updated successfully")
  end.

Definition GetProbe (probeName projectID : string) : GM (res ProbeOutput) :=
  let? probe := GetProbeByName probeName projectID in
  mret (GetOutputProbe probe).

Definition generate (p : Probe) (mode : string) : res (option ProbeAttributes) :=
  match GetOutputProbe p with
  | Ok out => GenerateProbeManifest out mode
  | Err e => Err e
  | Panic => Panic
  end.
Definition GetProbeYAMLData (probeName mode projectID : string) : GM (res (option ProbeAttributes)) :=
  let? probe := GetProbeByName probeName projectID in
  mret (generate probe mode).

(** The name of the caller is empty when it cannot be read. *)
Definition DeleteProbe (ctx : Ctx) (probeName projectID : string) : GM (res bool) :=
  let? _ := GetProbeByName probeName projectID in
  match cx_AuthKey ctx with
  | None => mret Panic
  | Some tkn =>
      let! username := (let! u := GetUsername tkn or _ => mret (Ok "") in mret (Ok u)) or e => mret (Err e) in
      t ← now;
      let? _ := UpdateProbeDoc (probe_query probeName projectID)
        (λ p, set_pb_audit (set_is_removed true (touch t (named_user username) (pb_Audit p))) p) in
      mret (Ok true)
  end.

(** ** Executions *)

(** The nodes of execution data, in the order the map is visited. *)
Definition run_nodes (data : ExecutionData) : GM (list Node) :=
  keys ← range_keys (ed_Nodes data);
  mret (omap (λ k, ed_Nodes data !! k) keys).

Definition mentions (probeName : string) (f : Probes) : bool := str_in probeName (pb_ProbeNames f).

(** The entries of one run: a fault that uses the probe, in data with nodes when
    [need] asks for them. *)
Fixpoint run_executions (need : bool) (probeName mode : string) (run : ChaosExperimentRun) (data : ExecutionData)
    (faults : list Probes) : GM (list ProbeExecution) :=
  match faults with
  | [] => mret []
  | f :: faults =>
      if mentions probeName f && negb (need && bool_decide (size (ed_Nodes data) = 0%nat)) then
        nodes ← run_nodes data;
        let '(verdict, mode') := fault_verdict probe_node_types (pb_FaultName f) probeName nodes mode in
        rest ← run_executions need probeName mode run data faults;
        mret (mkProbeExecution (pb_FaultName f) mode' verdict (cr_ExperimentID run) (cr_ExperimentName run)
                (au_UpdatedAt (cr_Audit run)) (ur_Username (au_UpdatedBy (cr_Audit run))) :: rest)
      else run_executions need probeName mode run data faults
  end.

(** [None] when the stored text does not decode. *)
Definition stored_data (run : ChaosExperimentRun) : option ExecutionData :=
  if str_eq (cr_ExecutionData run) "" then Some no_execution_data
  else match execution_data (cr_ExecutionData run) with Ok d => Some d | _ => None end.

Fixpoint executions_of (need : bool) (probeName mode : string) (runs : list ChaosExperimentRun) : GM (list ProbeExecution) :=
  match runs with
  | [] => mret []
  | run :: runs =>
      here ← match stored_data run with
             | None => mret []
             | Some data => run_executions need probeName mode run data (cr_Probes run)
             end;
      rest ← executions_of need probeName mode runs;
      mret (here ++ rest)%list
  end.

Definition runs_with_probe (probeName : string) (run : ChaosExperimentRun) : bool :=
  existsb (mentions probeName) (cr_Probes run).

Definition GetProbeExecutionHistoryInExperimentRuns (projectID probeName : string) : GM (res (list ProbeExecution)) :=
  let! expRuns := Aggregate (List.filter (λ r, str_eq (cr_ProjectID r) projectID && runs_with_probe probeName r))
  or e => mret (Err (ErrNew ("DB aggregate stage error: " +:+ error_text e))) in
  l ← executions_of true probeName "" expRuns;
  mret (Ok l).

Definition last_ten {A} (l : list A) : list A := drop (length l - 10) l.

Definition probe_matches (probeNames : list string) (infrastructureType : option string) (filter : option ProbeFilterInput)
    (projectID : string) (now_ : Z) : list (Probe → bool) :=
  (when (negb (bool_decide (probeNames = []))) (λ p, str_in (rs_Name (pb_Resource p)) probeNames) ++
   match infrastructureType with Some t => [λ p, str_eq (pb_InfrastructureType p) t] | None => [] end ++
   match filter with
   | None => []
   | Some f =>
       when (negb (bool_decide (pf_Type f = []))) (λ p, str_in (pb_Type p) (pf_Type f)) ++
       given_match (λ x p, regex_find "" x (rs_Name (pb_Resource p))) (pf_Name f) ++
       match pf_DateRange f with
       | None => []
       | Some d =>
           let endDate := match dr_EndDate d with Some e => Atoi_value e | None => now_ end in
           [λ p, bool_decide (Atoi_value (dr_StartDate d) ≤ au_UpdatedAt (pb_Audit p) ≤ endDate)]
       end
   end ++
   [λ p, str_eq (pb_ProjectID p) projectID && negb (au_IsRemoved (pb_Audit p))])%list.

Fixpoint list_details (projectID : string) (probes : list Probe) : GM (res (list ListedProbe)) :=
  match probes with
  | [] => mret (Ok [])
  | probe :: probes =>
      let? recent := GetProbeExecutionHistoryInExperimentRuns projectID (rs_Name (pb_Resource probe)) in
      let? out := mret (GetOutputProbe probe) in
      let? rest := list_details projectID probes in
      mret (Ok (mkListedProbe out (last_ten recent) (Z.of_nat (length recent)) :: rest))
  end.

Definition ListProbes (probeNames : list string) (infrastructureType : option string) (filter : option ProbeFilterInput)
    (projectID : string) : GM (res (list ListedProbe)) :=
  t ← now;
  let? allProbes := Aggregate
    (run_pipeline (StMatch <$> probe_matches probeNames infrastructureType filter projectID t)) in
  list_details projectID allProbes.

(** ** References *)

(** [sort.Slice] by time, the latest first; the order of entries with one time,
    which Go leaves open, is the one they came in. *)
Definition later (x y : ProbeExecution) : bool := bool_decide (pe_UpdatedAt y ≤ pe_UpdatedAt x).
Definition fault_history (all : list ProbeExecution) (name : string) : FaultHistory :=
  let own := List.filter (λ e, str_eq (pe_FaultName e) name) all in
  mkFaultHistory name (default "" (pe_Mode <$> head own)) (take 10 (merge_sort (bool_rel later) own)).
(** By the last entry of each history. *)
Definition oldest_shown (h : FaultHistory) : Z := default 0 (pe_UpdatedAt <$> last (fh_ExecutionHistory h)).
Definition later_history (x y : FaultHistory) : bool := bool_decide (oldest_shown y ≤ oldest_shown x).

(** [for name := range m] for a map with these keys. *)
Definition range_names (keys : list string) : GM (list string) := λ w, (map_order (tick w) keys, bump w).

(** The [$lookup] joins the runs of all projects that use a probe of this name.
    Entries are made only of runs with execution data. *)
Definition GetProbeReference (probeName projectID : string) : GM (res GetProbeReferenceResponse) := λ w,
  (let? probeRuns := Aggregate (List.filter (probe_query probeName projectID)) in
   match probeRuns with
   | [] => mret Panic
   | p :: _ =>
       let runs := lookup_order (tick w) (List.filter (runs_with_probe probeName) (g_runs (db w))) in
       history ← executions_of false probeName "SOT" (List.filter (λ r, negb (str_eq (cr_ExecutionData r) "")) runs);
       names ← range_names (remove_dups (pe_FaultName <$> history));
       mret (Ok (mkProbeReference (pb_ProjectID p) (rs_Name (pb_Resource p)) (Z.of_nat (length runs))
                   (merge_sort (bool_rel later_history) (fault_history history <$> names))))
   end) w.

(** ** Probes of a manifest *)

(** Whether an annotation is read as a list of probes. *)
Definition probe_prefix : string := requote "[{'name'".

Fixpoint named_probes (names : list (string * string)) (projectID : string) (probes : list ProbeAttributes) :
    GM (res (list ProbeAttributes)) :=
  match names with
  | [] => mret (Ok probes)
  | (name, mode) :: names =>
      let! probe := GetProbeByName name projectID
      or e => mret (Err (ErrNew ("failed to fetch probe details, error: " +:+ error_text e))) in
      let? a := mret (generate probe mode) in
      named_probes names projectID (match a with Some x => probes ++ [x] | None => probes end)%list
  end.

Fixpoint annotated_probes (guard : bool) (texts : list string) (projectID : string) (probes : list ProbeAttributes) :
    GM (res (list ProbeAttributes)) :=
  match texts with
  | [] => mret (Ok probes)
  | text :: texts =>
      if guard && negb (HasPrefix text probe_prefix) then annotated_probes guard texts projectID probes
      else
        match annotation_probes text with
        | Err msg => mret (Err (ErrNew ("failed to unmarshal experiment annotation object, error: " +:+ msg)))
        | Panic => mret Panic
        | Ok names =>
            let? probes := named_probes names projectID probes in
            annotated_probes guard texts projectID probes
        end
  end.

(** The raw data of a template, with the probes its annotations name. *)
Definition fill_engine (guard : bool) (data projectID : string) : GM (res string) :=
  match read_engine data with
  | Err msg => mret (Err (ErrNew ("failed to unmarshal chaosengine, error: " +:+ msg)))
  | Panic => mret Panic
  | Ok meta =>
      if lower_eq (eg_Kind meta) "chaosengine" then
        match eg_Experiments meta with
        | [] => mret Panic
        | e :: _ =>
            keys ← range_keys (eg_Annotations meta);
            let? probes := annotated_probes guard (omap (λ k, eg_Annotations meta !! k) keys) projectID
                             (default [] (ee_Probe e)) in
            match write_engine (set_eg_probes (if bool_decide (probes = []) then ee_Probe e else Some probes) meta) with
            | Ok res => mret (Ok res)
            | Err _ => mret (Err (ErrNew "failed to marshal chaosengine"))
            | Panic => mret Panic
            end
        end
      else mret (Ok data)
  end.

Fixpoint fill_templates (guard : bool) (projectID : string) (templates : list Template) : GM (res (list Template)) :=
  match templates with
  | [] => mret (Ok [])
  | template :: templates =>
      let? template' :=
        match tm_Artifacts template with
        | a :: rest =>
            match af_RawData a with
            | None | Some "" => mret (Ok template)
            | Some data =>
                let? data' := fill_engine guard data projectID in
                mret (Ok (mkTemplate (mkArtifact (af_Name a) (Some data') :: rest) (tm_Labels template)
                            (tm_Other template)))
            end
        | [] => mret (Ok template)
        end in
      let? rest := fill_templates guard projectID templates in
      mret (Ok (template' :: rest))
  end.

(** A plain workflow reads only annotations that start like a list of probes, a
    cron workflow all of them. *)
Definition GenerateExperimentManifestWithProbes (manifest projectID : string) : GM (res Workflow) :=
  match read_workflow manifest with
  | Err msg => mret (Err (ErrNew ("failed to unmarshal experiment manifest, error: " +:+ msg)))
  | Panic => mret Panic
  | Ok k => let? templates := fill_templates true projectID (wk_Templates k) in mret (Ok (set_wk_templates templates k))
  end.
Definition GenerateCronExperimentManifestWithProbes (manifest projectID : string) : GM (res CronWorkflow) :=
  match read_cron manifest with
  | Err msg => mret (Err (ErrNew ("failed to unmarshal experiment manifest, error: " +:+ msg)))
  | Panic => mret Panic
  | Ok k => let? templates := fill_templates false projectID (cw_Templates k) in mret (Ok (set_cw_templates templates k))
  end.

(** ** Probes of one run *)
Record RunProbe : Type := mkRunProbe { rp_Name : string; rp_Mode : string; rp_Verdict : option ProbeVerdict }.

(** Descriptions are left out. Here the verdict stays unset unless a node has the name of the fault, and
    only engine nodes count. *)
Definition run_probe_verdict (faultName probeName : string) (nodes : list Node) : RunProbe :=
  let own := List.filter (λ n, str_eq (nd_Name n) faultName && engine_node ["ChaosEngine"] n) nodes in
  let '(v, mode) := foldl (node_verdict ["ChaosEngine"] faultName probeName) (ProbeVerdictNa, "") own in
  mkRunProbe probeName mode (if bool_decide (own = []) then None else Some v).

Fixpoint run_probes (data : ExecutionData) (faultName : string) (names : list string) : GM (list RunProbe) :=
  match names with
  | [] => mret []
  | n :: names =>
      nodes ← run_nodes data;
      rest ← run_probes data faultName names;
      mret (run_probe_verdict faultName n nodes :: rest)
  end.

Fixpoint probe_details (projectID : string) (l : list RunProbe) : GM (res (list (RunProbe * ProbeOutput))) :=
  match l with
  | [] => mret (Ok [])
  | x :: l =>
      let? p := GetProbeByName (rp_Name x) projectID in
      let? out := mret (GetOutputProbe p) in
      let? rest := probe_details projectID l in
      mret (Ok ((x, out) :: rest))
  end.

Definition GetProbesInExperimentRun (projectID experimentRunID faultName : string) :
    GM (res (list (RunProbe * ProbeOutput))) :=
  let? wfRun := GetExperimentRun (λ r, str_eq (cr_ProjectID r) projectID && negb (au_IsRemoved (cr_Audit r)) &&
                                       str_eq (cr_ExperimentRunID r) experimentRunID) in
  let names := List.filter (λ f, str_eq (pb_FaultName f) faultName) (cr_Probes wfRun) ≫= pb_ProbeNames in
  if bool_decide (names = []) then mret (Ok [])
  else
    match execution_data (cr_ExecutionData wfRun) with
    | Ok data => l ← run_probes data faultName names; probe_details projectID l
    | _ => mret (Err (ErrNew "failed to unmarshal workflow manifest"))
    end.
End service.

(** ** The resolvers *)
Section resolvers.
Context `{MongoDriver} `{Runtime} `{MongoRegex} `{MapOrder} `{LookupOrder} `{Crypto} `{AuthClient} `{SourceCodec} `{Decoders}
  `{ManifestCodec}.

Definition mutation_AddProbe (ctx : Ctx) (request : ProbeRequest) (projectID : string) : GM (res ProbeOutput) :=
  let? _ := ValidateRole ctx projectID (MutationRbacRules AddProbeRole) InvitationAccepted in
  match missing_properties request with
  | Some _ => mret (Err (ErrNew "probe type and properties don't match"))
  | None => AddProbe ctx request projectID
  end.
Definition mutation_UpdateProbe (ctx : Ctx) (request : ProbeRequest) (projectID : string) : GM (res string) :=
  let? _ := ValidateRole ctx projectID (MutationRbacRules UpdateProbeRole) InvitationAccepted in
  UpdateProbe ctx request projectID.
Definition mutation_DeleteProbe (ctx : Ctx) (probeName projectID : string) : GM (res bool) :=
  let? _ := ValidateRole ctx projectID (MutationRbacRules DeleteProbeRole) InvitationAccepted in
  DeleteProbe ctx probeName projectID.
Definition query_ListProbes (ctx : Ctx) (projectID : string) (infrastructureType : option string)
    (probeNames : list string) (filter : option ProbeFilterInput) : GM (res (list ListedProbe)) :=
  let? _ := ValidateRole ctx projectID (MutationRbacRules ListProbesRole) InvitationAccepted in
  ListProbes probeNames infrastructureType filter projectID.
Definition query_GetProbe (ctx : Ctx) (projectID probeName : string) : GM (res ProbeOutput) :=
  let? _ := ValidateRole ctx projectID (MutationRbacRules GetProbeRole) InvitationAccepted in
  GetProbe probeName projectID.
Definition query_GetProbeYaml (ctx : Ctx) (projectID probeName mode : string) : GM (res (option ProbeAttributes)) :=
  let? _ := ValidateRole ctx projectID (MutationRbacRules GetProbeRole) InvitationAccepted in
  GetProbeYAMLData probeName mode projectID.
Definition query_GetProbeReference (ctx : Ctx) (projectID probeName : string) : GM (res GetProbeReferenceResponse) :=
  let? _ := ValidateRole ctx projectID (MutationRbacRules GetProbeRole) InvitationAccepted in
  GetProbeReference probeName projectID.
Definition query_GetProbesInExperimentRun (ctx : Ctx) (projectID experimentRunID faultName : string) :
    GM (res (list (RunProbe * ProbeOutput))) :=
  let? _ := ValidateRole ctx projectID (MutationRbacRules GetProbeRole) InvitationAccepted in
  GetProbesInExperimentRun projectID experimentRunID faultName.
Definition query_ValidateUniqueProbe (ctx : Ctx) (projectID probeName : string) : GM (res bool) :=
  let? _ := ValidateRole ctx projectID (MutationRbacRules GetProbeRole) InvitationAccepted in
  ValidateUniqueProbe probeName projectID.
End resolvers.
