(* ===== verification/ExperimentOps.v ===== *)
(** * ExperimentOps.v: creating, changing and removing experiments

    [graphql/server/pkg/chaos_experiment/ops/service.go] and the handlers of
    [pkg/chaos_experiment/handler/handler.go] that change experiments, with
    [RunChaosWorkFlow] and [RunCronExperiment] of
    [pkg/chaos_experiment_run/handler/handler.go], behind the resolvers of
    [graph/chaos_experiment.resolvers.go] and [graph/chaos_experiment_run.resolvers.go]. *)
From S2P Require Import Prelude World GoStd AuthRepo GraphDocs Experiments RunScore RunEvent.
From S2P Require Import Authorization Environments Infrastructure ProbeProperties Manifests Probes.
From Stdlib Require Import SpecFloat.
Local Open Scope string_scope.
Local Open Scope Z_scope.

(** [model.ChaosExperimentRequest]; the type in it is not read. *)
Record ExperimentInput : Type := mkExperimentInput {
  xi_ExperimentID : option string; xi_RunExperiment : option bool; xi_ExperimentManifest : string;
  xi_CronSyntax : string; xi_ExperimentName : string; xi_ExperimentDescription : string;
  xi_Weightages : list WeightagesInput; xi_IsCustomExperiment : bool; xi_InfraID : string; xi_Tags : list string
}.
Record SaveChaosExperimentRequest : Type := mkSaveExperiment {
  sx_ID : string; sx_Name : string; sx_Description : string; sx_Manifest : string; sx_InfraID : string;
  sx_Tags : list string
}.
Record ChaosExperimentResponse : Type := mkExperimentResponse {
  xp_ExperimentID : string; xp_CronSyntax : string; xp_ExperimentName : string; xp_ExperimentDescription : string;
  xp_IsCustomExperiment : bool
}.

Definition set_xi_id (id : string) (x : ExperimentInput) : ExperimentInput :=
  mkExperimentInput (Some id) (xi_RunExperiment x) (xi_ExperimentManifest x) (xi_CronSyntax x) (xi_ExperimentName x)
    (xi_ExperimentDescription x) (xi_Weightages x) (xi_IsCustomExperiment x) (xi_InfraID x) (xi_Tags x).
(** What processing a manifest changes. *)
Definition set_xi_manifest (manifest cron : string) (new : list WeightagesInput) (x : ExperimentInput) : ExperimentInput :=
  mkExperimentInput (xi_ExperimentID x) (xi_RunExperiment x) manifest cron (xi_ExperimentName x)
    (xi_ExperimentDescription x) (xi_Weightages x ++ new)%list (xi_IsCustomExperiment x) (xi_InfraID x) (xi_Tags x).

(** The collection has a unique index on [experiment_id]. *)
Definition experiment_key (stored new : ChaosExperimentRequest) : bool :=
  str_eq (ex_ExperimentID stored) (ex_ExperimentID new).

(** [utils.GenerateUUID] *)
Class ShortID := short_id : nat → string.

(** ** Weights *)
Definition weight_map (l : list WeightagesInput) : gmap string Z :=
  foldl (λ m w, <[we_FaultName w := we_Weightage w]> m) ∅ l.

(** The labels with a weight, and the weight that is new. [put] writes the
    label: it replaces all labels of a template, and adds to those of an engine
    on its own. *)
Definition fault_weight (put : string → gmap string string → gmap string string) (weights : gmap string Z)
    (name : string) (labels : gmap string string) : res (gmap string string * list WeightagesInput) :=
  match weights !! name with
  | Some val => Ok (put (Itoa val) labels, [])
  | None =>
      match labels !! "weight" with
      | Some val =>
          match Atoi val with
          | Some x => Ok (labels, [mkWeightage name x])
          | None => Err (ErrNew "failed to convert")
          end
      | None => Ok (put "10" labels, [mkWeightage name 10])
      end
  end.
Definition only_weight (w : string) (_ : gmap string string) : gmap string string := {["weight" := w]}.
Definition add_weight (w : string) (m : gmap string string) : gmap string string := <["weight" := w]> m.

Section manifests.
Context `{MongoDriver} `{Runtime} `{Crypto} `{AuthClient} `{SourceCodec} `{ManifestCodec} `{ShortID}.

(** ** Probes that a manifest defines are created for the project *)
Fixpoint create_probes (ctx : Ctx) (projectID : string) (probes : list ProbeAttributes) (refs : list (string * string)) :
    GM (res (list (string * string))) :=
  match probes with
  | [] => mret (Ok refs)
  | p :: probes =>
      let? id := call_out (λ n, Ok (short_id n)) in
      let? request := mret (ProbeInputsToProbeRequestConverter p (at_Name p +:+ "-" +:+ id)) in
      let? result := AddProbe ctx request projectID in
      create_probes ctx projectID probes (refs ++ [(ou_Name result, at_Mode p)])
  end.

(** The references to the probes of an engine: none when it has the annotation
    already. *)
Definition engine_refs (ctx : Ctx) (projectID : string) (meta : ChaosEngine) (e : EngineExperiment) :
    GM (res (option string)) :=
  match eg_Annotations meta !! "probeRef" with
  | Some _ => mret (Ok None)
  | None =>
      match ee_Probe e with
      | None => mret (Err (ErrNew ("no probes specified in chaosengine - " +:+ eg_Name meta)))
      | Some probes =>
          let? refs := create_probes ctx projectID probes [] in
          mret (Ok (Some (marshal_refs refs)))
      end
  end.

(** ** Workflows and cron workflows *)

(** Template syntax does not parse as YAML. *)
Definition strip_braces (data : string) : string := ReplaceAll (ReplaceAll data "{{" "") "}}" "".

Definition process_engine (ctx : Ctx) (projectID : string) (weights : gmap string Z) (labels : gmap string string)
    (data : string) : GM (res (string * gmap string string * list WeightagesInput)) :=
  match read_engine (strip_braces data) with
  | Err _ => mret (Err (ErrNew "failed to unmarshal chaosengine"))
  | Panic => mret Panic
  | Ok meta =>
      if lower_eq (eg_Kind meta) "chaosengine" then
        match eg_Experiments meta with
        | [] => mret (Err (ErrNew ("no experiments specified in chaosengine - " +:+ eg_Name meta)))
        | e :: _ =>
            if str_eq (eg_GenerateName meta) "" then mret (Err (ErrNew "empty chaos experiment name"))
            else
              let? refs := engine_refs ctx projectID meta e in
              let? data' := mret (match refs with Some value => InsertProbeRefAnnotation data value | None => Ok data end) in
              let? weighted := mret (fault_weight only_weight weights (eg_GenerateName meta) labels) in
              mret (Ok (data', weighted.1, weighted.2))
        end
      else mret (Ok (data, labels, []))
  end.

Fixpoint process_templates (ctx : Ctx) (projectID : string) (weights : gmap string Z) (templates : list Template) :
    GM (res (list Template * list WeightagesInput)) :=
  match templates with
  | [] => mret (Ok ([], []))
  | template :: templates =>
      let? here :=
        match tm_Artifacts template with
        | [] => mret (Ok (template, []))
        | a :: arts =>
            match af_RawData a with
            | None | Some "" => mret (Ok (template, []))
            | Some data =>
                let? x := process_engine ctx projectID weights (tm_Labels template) data in
                mret (Ok (mkTemplate (mkArtifact (af_Name a) (Some x.1.1) :: arts) x.1.2 (tm_Other template), x.2))
            end
        end in
      let? rest := process_templates ctx projectID weights templates in
      mret (Ok (here.1 :: rest.1, (here.2 ++ rest.2)%list))
  end.

(** [experimentID] is the identifier, which the request has by now. *)
Definition processExperimentManifest (ctx : Ctx) (x : ExperimentInput) (experimentID : string) (weights : gmap string Z)
    (revID projectID : string) : GM (res ExperimentInput) :=
  match read_workflow (xi_ExperimentManifest x) with
  | Err _ => mret (Err (ErrNew "failed to unmarshal workflow manifest"))
  | Panic => mret Panic
  | Ok k =>
      let? done := process_templates ctx projectID weights (wk_Templates k) in
      let? out := mret (write_workflow (mkWorkflow (wk_Name k)
        (workflow_labels experimentID (xi_InfraID x) revID (wk_Labels k)) done.1 (wk_Other k))) in
      mret (Ok (set_xi_manifest out (xi_CronSyntax x) done.2 x))
  end.

Definition processCronExperimentManifest (ctx : Ctx) (x : ExperimentInput) (experimentID : string)
    (weights : gmap string Z) (revID projectID : string) : GM (res ExperimentInput) :=
  match read_cron (xi_ExperimentManifest x) with
  | Err _ => mret (Err (ErrNew "failed to unmarshal workflow manifest"))
  | Panic => mret Panic
  | Ok k =>
      if str_eq (TrimSpace (cw_Schedule k)) ""
      then mret (Err (ErrNew "failed to process cron workflow, cron syntax not provided in manifest"))
      else
        let labels := workflow_labels experimentID (xi_InfraID x) revID in
        let? done := process_templates ctx projectID weights (cw_Templates k) in
        let? out := mret (write_cron (mkCronWorkflow (labels (cw_Labels k)) (labels (cw_RunLabels k)) (cw_Schedule k)
          (cw_Suspend k) done.1 (cw_Other k))) in
        mret (Ok (set_xi_manifest out (cw_Schedule k) done.2 x))
  end.

(** ** Engines and schedules on their own *)
Definition process_standalone (read : string → option ChaosEngine) (write : ChaosEngine → res string) (what : string)
    (ctx : Ctx) (x : ExperimentInput) (experimentID : string) (weights : gmap string Z) (revID projectID : string) :
    GM (res ExperimentInput) :=
  match read (xi_ExperimentManifest x) with
  | None => mret (Err (ErrNew "failed to unmarshal workflow manifest"))
  | Some meta =>
      match eg_Experiments meta with
      | [] => mret (Err (ErrNew ("no experiments specified in " +:+ what +:+ " - " +:+ eg_Name meta)))
      | e :: _ =>
          if str_eq (ee_Name e) "" then mret (Err (ErrNew "empty chaos experiment name"))
          else
            let? refs := engine_refs ctx projectID meta e in
            let meta := match refs with
                        | Some value => set_eg_annotations (<["probeRef" := value]> (eg_Annotations meta)) meta
                        | None => meta
                        end in
            let? weighted := mret (fault_weight add_weight weights (ee_Name e)
              (standalone_labels experimentID (xi_InfraID x) revID (eg_Labels meta))) in
            let? out := mret (write (set_eg_labels weighted.1 meta)) in
            mret (Ok (set_xi_manifest out (xi_CronSyntax x) weighted.2 x))
      end
  end.
Definition processChaosEngineManifest := process_standalone read_standalone write_standalone "chaosengine".
Definition processChaosScheduleManifest := process_standalone read_schedule write_schedule "chaos engine".

(** ** [ProcessExperiment] *)
Definition ProcessExperiment (ctx : Ctx) (x : ExperimentInput) (projectID revID : string) :
    GM (res (ExperimentInput * string)) :=
  let! infra := GetInfraDoc (xi_InfraID x)
  or e => mret (Err (ErrNew ("failed to get infra details: " +:+ error_text e))) in
  if negb (in_IsActive infra) then mret (Err (ErrNew "experiment scheduling failed due to inactive infra"))
  else if negb (str_eq (in_ProjectID infra) projectID)
  then mret (Err (ErrNew "ProjectID doesn't match with the chaos_infra identifiers"))
  else
    workflowID ← NewUUID;
    let weights := weight_map (xi_Weightages x) in
    let experimentID := or_default (xi_ExperimentID x) workflowID in
    let x := set_xi_id experimentID x in
    match read_object (xi_ExperimentManifest x) with
    | None => mret (Err (ErrNew "failed to unmarshal workflow manifest1"))
    | Some (name, kind) =>
        if negb (str_eq (xi_ExperimentName x) name) then mret (Err (ErrNew (kind +:+ " name doesn't match")))
        else if lower_eq kind "workflow" then
          let? x := processExperimentManifest ctx x experimentID weights revID projectID in
          mret (Ok (x, NonCronExperiment))
        else if lower_eq kind "cronworkflow" then
          let? x := processCronExperimentManifest ctx x experimentID weights revID projectID in
          mret (Ok (x, CronExperiment))
        else if lower_eq kind "chaosengine" then
          let? x := processChaosEngineManifest ctx x experimentID weights revID projectID in
          mret (Ok (x, ChaosEngineExperiment))
        else if lower_eq kind "chaosschedule" then
          let? x := processChaosScheduleManifest ctx x experimentID weights revID projectID in
          mret (Ok (x, ChaosEngineExperiment))
        else mret (Err (ErrNew "not a valid object, only workflows/cron workflows/chaos engines supported"))
    end.
End manifests.
