(* ===== verification/ExperimentService.v ===== *)
(** * ExperimentService.v: the writes on experiments

    The documents and the writes of
    [graphql/server/pkg/chaos_experiment/ops/service.go] that the handlers of
    experiments and the GitOps service share. *)
From S2P Require Import Prelude World GoStd AuthRepo GraphDocs Experiments RunScore RunEvent.
From S2P Require Import Authorization Environments Infrastructure ProbeProperties Manifests Probes ExperimentOps.
From Stdlib Require Import SpecFloat.
Local Open Scope string_scope.
Local Open Scope Z_scope.

(** ** Documents *)
Definition new_revision (revisionID : string) (x : ExperimentInput) (t : Z) : ExperimentRevision :=
  mkRevision revisionID (xi_ExperimentManifest x) t (match xi_Weightages x with [] => None | l => Some (Some <$> l) end) [].

Definition new_experiment (x : ExperimentInput) (experimentID username projectID wfType revisionID : string) (t : Z) :
    ChaosExperimentRequest :=
  mkExperiment (xi_ExperimentName x) (xi_ExperimentDescription x) (xi_Tags x)
    (mkGAudit t t (named_user username) (named_user username) false) projectID experimentID (xi_CronSyntax x)
    (xi_InfraID x) wfType [new_revision revisionID x t] (xi_IsCustomExperiment x) [] 0.

(** The [$set] and [$push] of an update. *)
Definition update_experiment (x : ExperimentInput) (username wfType : string) (revision : ExperimentRevision) (t : Z)
    (e : ChaosExperimentRequest) : ChaosExperimentRequest :=
  mkExperiment (xi_ExperimentName x) (xi_ExperimentDescription x) (xi_Tags x)
    (touch t (named_user username) (ex_Audit e)) (ex_ProjectID e) (ex_ExperimentID e) (xi_CronSyntax x) (xi_InfraID x)
    wfType (ex_Revision e ++ [revision])%list (xi_IsCustomExperiment x) (ex_RecentExperimentRunDetails e)
    (ex_TotalExperimentRuns e).

Definition set_revisions (l : list ExperimentRevision) (e : ChaosExperimentRequest) : ChaosExperimentRequest :=
  mkExperiment (ex_Name e) (ex_Description e) (ex_Tags e) (ex_Audit e) (ex_ProjectID e) (ex_ExperimentID e)
    (ex_CronSyntax e) (ex_InfraID e) (ex_ExperimentType e) l (ex_IsCustomExperiment e)
    (ex_RecentExperimentRunDetails e) (ex_TotalExperimentRuns e).
Definition is_revision (revisionID : string) (r : ExperimentRevision) : bool := str_eq (rv_RevisionID r) revisionID.
(** [revision.$]: the first revision with this identifier. *)
Definition replace_manifest (revisionID manifest username : string) (t t' : Z) (e : ChaosExperimentRequest) :
    ChaosExperimentRequest :=
  let put r := mkRevision (rv_RevisionID r) manifest t' (rv_Weightages r) (rv_Probes r) in
  let e := set_ex_audit (touch t (named_user username) (ex_Audit e)) e in
  match find_index (is_revision revisionID) (ex_Revision e) with
  | Some i => set_revisions (alter put i (ex_Revision e)) e
  | None => e
  end.

Definition own_experiment (experimentID projectID : string) (e : ChaosExperimentRequest) : bool :=
  str_eq (ex_ExperimentID e) experimentID && str_eq (ex_ProjectID e) projectID.
(** [{experiment_id, project_id, is_removed: false}] *)
Definition live_experiment (experimentID projectID : string) (e : ChaosExperimentRequest) : bool :=
  own_experiment experimentID projectID e && negb (au_IsRemoved (ex_Audit e)).
(** [{project_id, name, is_removed: false}] *)
Definition named_experiment (projectID name : string) (e : ChaosExperimentRequest) : bool :=
  str_eq (ex_ProjectID e) projectID && str_eq (ex_Name e) name && negb (au_IsRemoved (ex_Audit e)).

Definition remove_experiment (t : Z) (username : string) (e : ChaosExperimentRequest) : ChaosExperimentRequest :=
  set_ex_audit (set_is_removed true (touch t (named_user username) (ex_Audit e))) e.
Definition remove_run (t : Z) (username : string) (r : ChaosExperimentRun) : ChaosExperimentRun :=
  set_run_audit (set_is_removed true (touch t (named_user username) (cr_Audit r))) r.

Section service.
Context `{MongoDriver} `{MongoTxn} `{MongoAbort} `{Runtime} `{MapOrder} `{Decoders} `{ManifestNamespace} `{ManifestCodec}.

(** *** More of [chaos_experiment/operations.go] and [chaos_experiment_run/operations.go] *)
Definition InsertChaosExperiment (e : ChaosExperimentRequest) : GM (res unit) := InsertOne experiment_key e.
Definition GetExperiments (q : ChaosExperimentRequest → bool) : GM (res (list ChaosExperimentRequest)) := Find q.
Definition CountChaosExperiments (q : ChaosExperimentRequest → bool) : GM (res Z) := CountDocuments q.
Definition UpdateExperimentRunsWithQuery (q : ChaosExperimentRun → bool) (f : ChaosExperimentRun → ChaosExperimentRun) :
    GM (res unit) := UpdateMany q f.

(** ** [ops/service.go] *)

(** A message to the agent when a store of connections was given. *)
Definition send_if (r : bool) (m : GM unit) : GM (res unit) :=
  if r then _ ← m; mret (Ok tt) else mret (Ok tt).

Definition ProcessExperimentCreation (x : ExperimentInput) (experimentID username projectID wfType revisionID : string)
    (r : bool) : GM (res unit) :=
  timeNow ← now;
  let? _ := InsertChaosExperiment (new_experiment x experimentID username projectID wfType revisionID timeNow) in
  send_if r (SendExperimentToSubscriber projectID (xi_ExperimentManifest x) (xi_InfraID x) (Some username) None "create").

Definition ProcessExperimentUpdate (x : ExperimentInput) (experimentID username wfType revisionID : string)
    (updateRevision : bool) (projectID : string) (r : bool) : GM (res unit) :=
  t ← now;
  t' ← now;
  let? _ :=
    (if updateRevision then
       t1 ← now;
       t2 ← now;
       UpdateChaosExperiment
         (λ e, own_experiment experimentID projectID e && existsb (is_revision revisionID) (ex_Revision e))
         (replace_manifest revisionID (xi_ExperimentManifest x) username t1 t2)
     else
       UpdateChaosExperiment (own_experiment experimentID projectID)
         (update_experiment x username wfType (new_revision revisionID x t) t')) in
  match read_object (xi_ExperimentManifest x) with
  | None => mret (Err (ErrNew "failed to unmarshal workflow manifest"))
  | Some _ =>
      send_if r (SendExperimentToSubscriber projectID (xi_ExperimentManifest x) (xi_InfraID x) (Some username) None
                   "update")
  end.

(** The experiment and all its runs are removed in one transaction. *)
Definition delete_body (query : ChaosExperimentRequest → bool) (experimentID username : string) : GM (res unit) :=
  t ← now;
  let? _ := UpdateChaosExperiment query (remove_experiment t username) in
  UpdateExperimentRunsWithQuery (λ run, str_eq (cr_ExperimentID run) experimentID) (remove_run t username).

Definition ProcessExperimentDelete (query : ChaosExperimentRequest → bool) (workflow : ChaosExperimentRequest)
    (username : string) (r : bool) : GM (res unit) :=
  let? _ := call_out txn_start_session in
  let? _ := run_transaction (delete_body query (ex_ExperimentID workflow) username) in
  send_if r (SendExperimentToSubscriber (ex_ProjectID workflow) "" (ex_InfraID workflow) (Some username)
               (Some (ex_ExperimentID workflow)) "workflow_delete").

Definition UpdateRuntimeCronWorkflowConfiguration (k : CronWorkflow) (experiment : ChaosExperimentRequest) :
    GM (res CronWorkflow) :=
  let? done := runtime_templates true (ex_InfraID experiment) (cw_Templates k) in
  mret (Ok (set_cw_templates done.1 k)).
End service.
