(* ===== verification/GitRepo.v ===== *)
(** * GitRepo.v: the repository of a project

    [graphql/server/pkg/gitops/gitops.go] and [util.go]: cloning, pulling,
    committing and pushing, and the walk through the history that finds the files
    that changed. The git library and the disk are the outside: every call may
    answer anything, and those that succeed are recorded in [g_gitcalls]. *)
From S2P Require Import Prelude World GoStd AuthRepo GraphDocs Experiments RunScore RunEvent Authorization.
Local Open Scope string_scope.
Local Open Scope Z_scope.

(** ** The outside *)

(** The answer of a transfer: [NoErrAlreadyUpToDate] is told apart. *)
Inductive Transfer : Type := Transferred | AlreadyUpToDate | TransferFailed (e : error).

(** A commit as the iterator over the history gives it: the files of its tree,
    its first parent, and the two sides of every file of the patch from the
    parent. Each of the three may fail on its own. *)
Record GitCommitInfo : Type := mkCommitInfo {
  ci_Hash : string; ci_NumParents : nat; ci_Files : res (list string); ci_Parent : res unit;
  ci_Patch : res (list (option string * option string))
}.

(** [os] and [go-git]; [n] is the number of the call. [git_log] is the sequence
    of answers of the iterator up to [io.EOF]; [git_log_path] the first answer of
    the iterator over the commits that touch the directory. *)
Class GitLibrary := {
  os_stat (n : nat) (path : string) : res bool;
  os_read (n : nat) (path : string) : res string;
  os_write (n : nat) (path data : string) : res unit;
  os_mkdir_all (n : nat) (path : string) : res unit;
  os_remove_all (n : nat) (path : string) : res unit;
  os_rename (n : nat) (from to : string) : res unit;
  git_clone (n : nat) (path url branch : string) (auth : option AuthMethod) : res unit;
  git_open (n : nat) (path : string) : res unit;
  git_worktree (n : nat) (path : string) : res unit;
  git_status_clean (n : nat) (path : string) : res bool;
  git_fetch (n : nat) (path remote : string) (auth : option AuthMethod) : Transfer;
  git_reference (n : nat) (path remote branch : string) : res string;
  git_branch (n : nat) (path branch : string) : res unit;
  git_reset (n : nat) (path : string) (hash : option string) : res unit;
  git_checkout (n : nat) (path branch : string) (create : bool) : res unit;
  git_add (n : nat) (path dir : string) : res unit;
  git_remove (n : nat) (path file : string) : res unit;
  git_commit (n : nat) (path message : string) (author : GitUser) : res string;
  git_push (n : nat) (path remote : string) (auth : option AuthMethod) : Transfer;
  git_head (n : nat) (path : string) : res string;
  git_log (n : nat) (path from : string) : res (list (res GitCommitInfo));
  git_log_path (n : nat) (path dir : string) : res (res string);
  ssh_public_keys (key : string) : res unit;
}.
(** [encoding/json] on a map of strings, the YAML library of manifests, [gjson]
    and [sjson], and the configured name for tokens. *)
Class GitData := {
  decode_info (data : string) : res (gmap string string);
  encode_info (info : gmap string string) : string;
  json_to_yaml (data : string) : res string;
  yaml_to_json (data : string) : res string;
  gjson_string (data path : string) : string;
  sjson_set (data path value : string) : res string;
  GitUsername : string;
}.

(** A call that changes the outside is recorded when it succeeds. *)
Definition git_call {A} (f : nat → res A) (c : A → GitCall) : GM (res A) := λ w,
  match f (tick w) with
  | Ok a => (Ok a, mkWorld (add_gitcall (c a) (db w)) (S (tick w)))
  | Err e => (Err e, bump w)
  | Panic => (Panic, bump w)
  end.
(** A transfer: being up to date already is no error. *)
Definition transfer (f : nat → Transfer) (c : GitCall) : GM (res unit) :=
  git_call (λ n, match f n with Transferred | AlreadyUpToDate => Ok tt | TransferFailed e => Err e end) (λ _, c).

(** ** Settings *)
Record GitConfig : Type := mkGitConfig {
  gc_ProjectID : string; gc_RepositoryURL : string; gc_LocalPath : string; gc_RemoteName : string;
  gc_Branch : string; gc_LatestCommit : string; gc_UserName : option string; gc_Password : option string;
  gc_AuthType : string; gc_Token : option string; gc_SSHPrivateKey : option string
}.
Definition set_gc_path (path : string) (c : GitConfig) : GitConfig :=
  mkGitConfig (gc_ProjectID c) (gc_RepositoryURL c) path (gc_RemoteName c) (gc_Branch c) (gc_LatestCommit c)
    (gc_UserName c) (gc_Password c) (gc_AuthType c) (gc_Token c) (gc_SSHPrivateKey c).

Definition DefaultPath : string := "/tmp/gitops/".
Definition ProjectDataPath : string := "litmus".

Definition default_git_user : GitUser := mkGitUser "gitops@litmus-chaos" "gitops@litmus.chaos".
(** A claim that is no string is a failed type assertion. *)
Definition GitUserFromContext (ctx : Ctx) : res GitUser :=
  match cx_UserClaims ctx with
  | None => Ok default_git_user
  | Some claims =>
      match claims !! "username" with
      | None => Panic
      | Some username =>
          let name := username +:+ "@litmus-chaos" in
          Ok (mkGitUser name (default name (claims !! "email")))
      end
  end.

Definition GetGitOpsConfig (repoData : GitConfigDB) : GitConfig :=
  mkGitConfig (gd_ProjectID repoData) (gd_RepositoryURL repoData) (DefaultPath +:+ gd_ProjectID repoData) "origin"
    (gd_Branch repoData) (gd_LatestCommit repoData) (gd_UserName repoData) (gd_Password repoData)
    (gd_AuthType repoData) (gd_Token repoData) (gd_SSHPrivateKey repoData).

(** The directory of the project in its repository. *)
Definition project_dir (c : GitConfig) : string := gc_LocalPath c +:+ "/" +:+ ProjectDataPath +:+ "/" +:+ gc_ProjectID c.
Definition change_prefix (c : GitConfig) : string := ProjectDataPath +:+ "/" +:+ gc_ProjectID c +:+ "/".

Section repo.
Context `{GitLibrary} `{GitData}.

Definition PathExists (path : string) : GM (res bool) := call_out (λ n, os_stat n path).
Definition ReadFile (path : string) : GM (res string) := call_out (λ n, os_read n path).
Definition WriteFile (path data : string) : GM (res unit) :=
  git_call (λ n, os_write n path data) (λ _, CallWriteFile path data).
Definition RemoveAll (path : string) : GM (res unit) := git_call (λ n, os_remove_all n path) (λ _, CallRemoveAll path).

(** A credential that is missing is a nil dereference. *)
Definition getAuthMethod (c : GitConfig) : res (option AuthMethod) :=
  if str_eq (gc_AuthType c) AuthTypeToken then
    match gc_Token c with Some token => Ok (Some (BasicAuth GitUsername token)) | None => Panic end
  else if str_eq (gc_AuthType c) AuthTypeBasic then
    match gc_UserName c, gc_Password c with
    | Some username, Some password => Ok (Some (BasicAuth username password))
    | _, _ => Panic
    end
  else if str_eq (gc_AuthType c) AuthTypeSSH then
    match gc_SSHPrivateKey c with
    | None => Panic
    | Some key =>
        match ssh_public_keys key with
        | Ok _ => Ok (Some (PublicKeys "git" key))
        | Err e => Err e
        | Panic => Panic
        end
    end
  else if str_eq (gc_AuthType c) AuthTypeNone then Ok None
  else Err (ErrNew "no Matching Auth Type Found").

Definition GitClone (c : GitConfig) : GM (res unit) :=
  let? _ := RemoveAll (gc_LocalPath c) in
  let? auth := mret (getAuthMethod c) in
  git_call (λ n, git_clone n (gc_LocalPath c) (gc_RepositoryURL c) (gc_Branch c) auth)
    (λ _, CallClone (gc_LocalPath c) (gc_RepositoryURL c) (gc_Branch c) auth).

Definition getRepositoryWorktreeReference (c : GitConfig) : GM (res unit) :=
  let? _ := call_out (λ n, git_open n (gc_LocalPath c)) in
  call_out (λ n, git_worktree n (gc_LocalPath c)).

Definition GitGetStatus (c : GitConfig) : GM (res bool) :=
  let? _ := getRepositoryWorktreeReference c in
  call_out (λ n, git_status_clean n (gc_LocalPath c)).

(** The error that is reported is that of opening the repository, which is nil. *)
Definition GitHardReset (c : GitConfig) : GM (res unit) :=
  let? _ := getRepositoryWorktreeReference c in
  let! _ := git_call (λ n, git_reset n (gc_LocalPath c) None) (λ _, CallReset (gc_LocalPath c) None)
  or _ => mret (Err (ErrNew "error in executing Reset: %!s(<nil>)")) in
  mret (Ok tt).

Definition GitPull (c : GitConfig) : GM (res unit) :=
  let? _ := getRepositoryWorktreeReference c in
  let? auth := mret (getAuthMethod c) in
  let? _ := transfer (λ n, git_fetch n (gc_LocalPath c) (gc_RemoteName c) auth)
              (CallFetch (gc_LocalPath c) (gc_RemoteName c) auth) in
  let? hash := call_out (λ n, git_reference n (gc_LocalPath c) (gc_RemoteName c) (gc_Branch c)) in
  git_call (λ n, git_reset n (gc_LocalPath c) (Some hash)) (λ _, CallReset (gc_LocalPath c) (Some hash)).

Definition handlerForDirtyStatus (c : GitConfig) : GM (res unit) :=
  let? _ := GitHardReset c in GitPull c.

Definition UnsafeGitPull (c : GitConfig) : GM (res unit) :=
  let? cleanStatus := GitGetStatus c in
  if negb cleanStatus then handlerForDirtyStatus c else GitPull c.

Definition GitCheckout (c : GitConfig) : GM (res unit) :=
  let? _ := getRepositoryWorktreeReference c in
  let! create := (let! _ := call_out (λ n, git_branch n (gc_LocalPath c) (gc_Branch c)) or _ => mret (Ok true) in mret (Ok false))
  or e => mret (Err e) in
  git_call (λ n, git_checkout n (gc_LocalPath c) (gc_Branch c) create)
    (λ _, CallCheckout (gc_LocalPath c) (gc_Branch c) create).

Definition GitPush (c : GitConfig) : GM (res unit) :=
  if str_eq (gc_AuthType c) AuthTypeNone
  then mret (Err (ErrNew "cannot write/push without credentials, auth type = none"))
  else
    let? _ := getRepositoryWorktreeReference c in
    let? auth := mret (getAuthMethod c) in
    transfer (λ n, git_push n (gc_LocalPath c) (gc_RemoteName c) auth) (CallPush (gc_LocalPath c) (gc_RemoteName c) auth).

Definition GitCommit (c : GitConfig) (user : GitUser) (message : string) (deleteFile : option string) : GM (res string) :=
  let? _ := getRepositoryWorktreeReference c in
  let? _ :=
    match deleteFile with
    | None => let dir := "./litmus/" +:+ gc_ProjectID c +:+ "/" in
              git_call (λ n, git_add n (gc_LocalPath c) dir) (λ _, CallAdd (gc_LocalPath c) dir)
    | Some file => git_call (λ n, git_remove n (gc_LocalPath c) file) (λ _, CallRemove (gc_LocalPath c) file)
    end in
  git_call (λ n, git_commit n (gc_LocalPath c) message user) (CallCommit (gc_LocalPath c) message user).

(** The entries of the file [.info] go over those of the map. *)
Definition next_info (c : GitConfig) (data : string) : res (gmap string string) :=
  match decode_info data with
  | Err e => Err (ErrNew ("can't read existing git info file " +:+ error_text e))
  | Panic => Panic
  | Ok m =>
      let gitInfo := m ∪ {["projectID" := gc_ProjectID c; "revision" := "1"]} in
      match Atoi (default "" (gitInfo !! "revision")) with
      | None => Err (ErrNew "can't read existing git info file[failed to parse revision] ")
      | Some newRev => Ok (<["revision" := Itoa (int64 (newRev + 1))]> gitInfo)
      end
  end.

Definition setupGitRepo (c : GitConfig) (user : GitUser) : GM (res unit) :=
  let projectPath := project_dir c in
  let? _ := GitClone c in
  let? exists_ := PathExists (projectPath +:+ "/.info") in
  let? gitInfo :=
    (if exists_ : bool then
       let! data := ReadFile (projectPath +:+ "/.info")
       or e => mret (Err (ErrNew ("can't read existing git info file " +:+ error_text e))) in
       mret (next_info c data)
     else
       let? _ := git_call (λ n, os_mkdir_all n projectPath) (λ _, CallMkdirAll projectPath) in
       mret (Ok {["projectID" := gc_ProjectID c; "revision" := "1"]})) in
  let? _ := WriteFile (projectPath +:+ "/.info") (encode_info gitInfo) in
  let? _ := GitCommit c user ("Setup Litmus Chaos GitOps for Project :" +:+ gc_ProjectID c) None in
  GitPush c.

(** ** Changes *)

(** [visited[name]++] for a file in the directory of the project. *)
Definition visit (path name : string) (visited : gmap string Z) : gmap string Z :=
  if HasPrefix name path then <[name := default 0 (visited !! name) + 1]> visited else visited.
Definition visit_side (path : string) (side : option string) (visited : gmap string Z) : gmap string Z :=
  match side with Some name => visit path name visited | None => visited end.

Fixpoint walk (path prevKnownHash : string) (commits : list (res GitCommitInfo)) (visited : gmap string Z) :
    res (gmap string Z) :=
  match commits with
  | [] => Ok visited
  | Err e :: _ => Err e
  | Panic :: _ => Panic
  | Ok commit :: commits =>
      if negb (str_eq prevKnownHash "") && str_eq (ci_Hash commit) prevKnownHash then Ok visited
      else if bool_decide (ci_NumParents commit = 0%nat) then
        match ci_Files commit with
        | Ok files => walk path prevKnownHash commits (foldl (λ m name, visit path name m) visited files)
        | Err e => Err e
        | Panic => Panic
        end
      else
        match ci_Parent commit with
        | Ok _ =>
            match ci_Patch commit with
            | Ok patch =>
                walk path prevKnownHash commits
                  (foldl (λ m fp, visit_side path fp.2 (visit_side path fp.1 m)) visited patch)
            | Err e => Err e
            | Panic => Panic
            end
        | Err e => Err e
        | Panic => Panic
        end
  end.

Definition GetChanges (c : GitConfig) : GM (res (string * gmap string Z)) :=
  let? _ := getRepositoryWorktreeReference c in
  let? head := call_out (λ n, git_head n (gc_LocalPath c)) in
  let! commits := call_out (λ n, git_log n (gc_LocalPath c) head)
  or e => mret (Err (ErrNew ("failed to get commit iterator: " +:+ error_text e))) in
  let? visited := mret (walk (change_prefix c) (gc_LatestCommit c) commits ∅) in
  mret (Ok (head, visited)).

Definition GetLatestCommitHash (c : GitConfig) : GM (res string) :=
  let? _ := getRepositoryWorktreeReference c in
  let! first := call_out (λ n, git_log_path n (gc_LocalPath c) (change_prefix c))
  or e => mret (Err (ErrNew ("failed to get latest commit hash :" +:+ error_text e))) in
  match first with
  | Ok hash => mret (Ok hash)
  | Err e => mret (Err (ErrNew ("failed to get latest commit hash:" +:+ error_text e)))
  | Panic => mret Panic
  end.

Definition SetupGitOps (user : GitUser) (c : GitConfig) : GM (res string) :=
  let? _ := setupGitRepo c user in
  GetLatestCommitHash c.
End repo.
