(* ===== verification/GitOps.v ===== *)
(** * GitOps.v: experiments kept in git

    [graphql/server/pkg/gitops/service.go] with the operators of
    [pkg/database/mongodb/gitops/operations.go] and the resolvers of
    [graph/gitops.resolvers.go]. A project may name a repository; experiments that
    are saved are pushed to it, and what others push to it is brought back into the
    database ([SyncDBToGit]), before every push and every two minutes. The locks of
    [git-lock.go] serialise the operations on a project and on a repository: here
    operations run one after the other. *)
From S2P Require Import Prelude World GoStd AuthRepo GraphDocs Experiments RunScore RunEvent.
From S2P Require Import Authorization Environments Infrastructure ProbeProperties Manifests Probes ExperimentOps.
From S2P Require Import ExperimentService GitRepo.
From Stdlib Require Import SpecFloat.
Local Open Scope string_scope.
Local Open Scope Z_scope.

(** ** Texts *)
Definition HasSuffix (s suffix : string) : bool :=
  bool_decide (is_Some (strip_prefix (reverse (chars suffix)) (reverse (chars s)))).
(** The name that [filepath.Split] gives, without [.yaml]. *)
Definition file_name (file : string) : string := ReplaceAll (default "" (last (Split file "/"))) ".yaml" "".

(** The context of the sync that no request asked for. *)
Definition backgroundContext : Ctx := mkCtx None (Some "git-ops") None None.
Definition tempPath : string := "/tmp/gitops_test/".

(** One configuration per project, by the unique index. *)
Definition gitconfig_key (stored new : GitConfigDB) : bool := str_eq (gd_ProjectID stored) (gd_ProjectID new).
Definition gitconfig_query (projectID : string) (c : GitConfigDB) : bool := str_eq (gd_ProjectID c) projectID.

(** [{experiment_name, project_id}]: a document of an experiment keeps its name
    under [name], and has no field [experiment_name] to compare with. *)
Definition experiment_name_field (e : ChaosExperimentRequest) : option string := None.
Definition deleted_query (fileName projectID : string) (e : ChaosExperimentRequest) : bool :=
  bool_decide (experiment_name_field e = Some fileName) && str_eq (ex_ProjectID e) projectID.

(** [model.GitConfigResponse] *)
Record GitConfigResponse : Type := mkGitConfigResponse {
  gr_Enabled : bool; gr_ProjectID : string; gr_Branch : option string; gr_RepoURL : option string;
  gr_AuthType : option string; gr_Token : option string; gr_UserName : option string; gr_Password : option string;
  gr_SSHPrivateKey : option string
}.

(** ** The groups of a round

    [for count >= min { go ...; count -= 1 }], and the loop around it. [None]: an
    index out of range, or not enough fuel. *)
Definition syncGroupSize : Z := 10.
Fixpoint take_group {A} (fuel : nat) (configs : list A) (count min : Z) : option (list A * Z) :=
  match fuel with
  | O => None
  | S fuel =>
      if bool_decide (min ≤ count) then
        config ← configs !! Z.to_nat count;
        rest ← take_group fuel configs (count - 1) min;
        Some (config :: rest.1, rest.2)
      else Some ([], count)
  end.
Fixpoint sync_groups {A} (fuel : nat) (configs : list A) (count : Z) : option (list (list A)) :=
  match fuel with
  | O => None
  | S fuel =>
      if bool_decide (0 ≤ count) then
        let min := count - (syncGroupSize - 1) in
        let min := if bool_decide (min < 0) then 0 else min in
        group ← take_group (S (length configs)) configs count min;
        rest ← sync_groups fuel configs group.2;
        Some (group.1 :: rest)
      else Some []
  end.

(** The order in which the goroutines of a group get to run. *)
Class GoOrder := go_order : ∀ A : Type, nat → list A → list A.
Arguments go_order {_ A} _ _ : assert.
Class GoOrderLaws (go : GoOrder) : Prop := go_order_perm : ∀ A n (l : list A), go_order n l ≡ₚ l.

(** An error with a text in front of it. *)
Definition wrap_err {A} (msg : string) (m : GM (res A)) : GM (res A) :=
  let! x := m or e => mret (Err (ErrNew (msg +:+ error_text e))) in mret (Ok x).
(** An error that is logged and forgotten: a panic is not. *)
Definition logged {A} (m : GM (res A)) (dflt : A) : GM (res A) :=
  let! x := m or _ => mret (Ok dflt) in mret (Ok x).

Section operators.
Context `{MongoDriver}.

Definition AddGitConfig (config : GitConfigDB) : GM (res unit) := InsertOne gitconfig_key config.
(** [None]: GitOps is not enabled for the project. *)
Definition GetGitConfig (projectID : string) : GM (res (option GitConfigDB)) :=
  let! c := FindOne (gitconfig_query projectID)
  or e => mret (if bool_decide (e = ErrNoDocuments) then Ok None else Err e) in
  mret (Ok (Some c)).
Definition GetAllGitConfig : GM (res (list GitConfigDB)) := Find (λ _ : GitConfigDB, true).
(** [ReplaceOne] with upsert: without a match the document is inserted, and
    the count of matches is 0. *)
Definition ReplaceGitConfig (q : GitConfigDB → bool) (config : GitConfigDB) : GM (res unit) :=
  let? matched := UpdateOne q (λ _, config) in
  if bool_decide (matched = 0%nat) then
    let? _ := InsertOne gitconfig_key config in
    mret (Err (ErrNew "No matching git config found"))
  else mret (Ok tt).
Definition UpdateGitConfig (q : GitConfigDB → bool) (f : GitConfigDB → GitConfigDB) : GM (res unit) :=
  let? matched := UpdateOne q f in
  if bool_decide (matched = 0%nat) then mret (Err (ErrNew "No matching git config found")) else mret (Ok tt).
Definition DeleteGitConfig (projectID : string) : GM (res unit) :=
  let? _ := DeleteOne (gitconfig_query projectID) in mret (Ok tt).
End operators.

Section service.
Context `{MongoDriver} `{MongoTxn} `{MongoAbort} `{Runtime} `{Crypto} `{AuthClient} `{MapOrder} `{Decoders}
  `{ManifestNamespace} `{SourceCodec} `{ManifestCodec} `{ShortID} `{GitLibrary} `{GitData}.

(** ** From git to the database *)

(** An experiment of the file, as its manifest names it. *)
Definition wf_name (data : string) : string := gjson_string data "metadata.name".
Definition wf_infra (data : string) : string := gjson_string data "metadata.labels.infra_id".

Definition git_input (id : option string) (data cron name description : string) (custom : bool) (infraID : string) :
    ExperimentInput :=
  mkExperimentInput id None data cron name description [] custom infraID [].

(** The answer says whether the file was rewritten. *)
Definition createExperiment (ctx : Ctx) (data file : string) (config : GitConfig) : GM (res bool) :=
  if str_eq (wf_name data) "" || str_eq (wf_infra data) "" then mret (Ok false)
  else if negb (str_eq (file_name file) (wf_name data))
  then mret (Err (ErrNew "file name doesn't match experiment name"))
  else
    let? processed := ProcessExperiment ctx (git_input None data "" (wf_name data) "" true (wf_infra data))
                        (gc_ProjectID config) "" in
    let '(input, wfType) := processed in
    let? _ := ProcessExperimentCreation input (default "" (xi_ExperimentID input)) "git-ops" (gc_ProjectID config)
                wfType "" true in
    let? yamlData := wrap_err "Cannot convert manifest to yaml : " (mret (json_to_yaml (xi_ExperimentManifest input))) in
    let? _ := wrap_err "Cannot write experiment to git : " (WriteFile (gc_LocalPath config +:+ "/" +:+ file) yamlData) in
    mret (Ok true).

(** An error of the query leaves no experiments. *)
Definition updateExperiment (ctx : Ctx) (data wfID file : string) (config : GitConfig) : GM (res unit) :=
  if str_eq (wf_name data) "" || str_eq (wf_infra data) "" then mret (Ok tt)
  else if negb (str_eq (file_name file) (wf_name data))
  then mret (Err (ErrNew "file name doesn't match experiment name"))
  else
    let? experiments := logged (GetExperiments (live_experiment wfID (gc_ProjectID config))) [] in
    match experiments with
    | [] => mret (Err (ErrNew ("No such experiment found : " +:+ wfID)))
    | experiment :: _ =>
        if negb (str_eq (wf_infra data) (ex_InfraID experiment)) then mret (Ok tt)
        else
          let? processed := ProcessExperiment ctx
            (git_input (Some (ex_ExperimentID experiment)) data (ex_CronSyntax experiment) (wf_name data)
               (ex_Description experiment) (ex_IsCustomExperiment experiment) (ex_InfraID experiment))
            (gc_ProjectID config) "" in
          let '(input, wfType) := processed in
          ProcessExperimentUpdate input (default "" (xi_ExperimentID input)) "git-ops" wfType "" false
            (gc_ProjectID config) true
    end.

Definition deleteExperiment (file : string) (config : GitConfig) : GM (res unit) :=
  let query := deleted_query (file_name file) (gc_ProjectID config) in
  let? experiment := GetExperiment query in
  ProcessExperimentDelete query experiment "git-ops" true.

Definition synced_kinds : list string := ["cronexperiment"; "experiment"; "chaosengine"; "workflow"].

(** One file that changed. The answer says whether a new experiment was written
    back; an error ends the sync. *)
Definition sync_file (ctx : Ctx) (config : GitConfig) (file : string) : GM (res bool) :=
  let path := gc_LocalPath config +:+ "/" +:+ file in
  if negb (HasSuffix file ".yaml") then mret (Ok false)
  else
    let? exists_ := wrap_err ("Error checking file in local repo : " +:+ file +:+ " | ") (PathExists path) in
    if negb exists_ then
      let? _ := logged (deleteExperiment file config) tt in mret (Ok false)
    else
      let! data := ReadFile path or _ => mret (Ok false) in
      let! data := mret (yaml_to_json data) or _ => mret (Ok false) in
      let wfID := gjson_string data "metadata.labels.workflow_id" in
      if negb (existsb (lower_eq (gjson_string data "kind")) synced_kinds) then mret (Ok false)
      else if str_eq wfID "" then logged (createExperiment ctx data file config) false
      else
        let? _ := logged (updateExperiment ctx data wfID file config) tt in mret (Ok false).

Fixpoint sync_files (ctx : Ctx) (config : GitConfig) (files : list string) (newExperiments : bool) : GM (res bool) :=
  match files with
  | [] => mret (Ok newExperiments)
  | file :: files =>
      let? flag := sync_file ctx config file in
      sync_files ctx config files (newExperiments || flag)
  end.

(** An error of setting the repository up is overwritten by the next call. *)
Definition SyncDBToGit (ctx : Ctx) (config : GitConfig) : GM (res unit) :=
  let? repositoryExists := wrap_err "Error while checking repo exists, err: " (PathExists (gc_LocalPath config)) in
  let? _ :=
    (if negb repositoryExists then
       let? user := mret (GitUserFromContext ctx) in logged (setupGitRepo config user) tt
     else wrap_err "Error syncing DB : " (GitPull config)) in
  let? changes := wrap_err "Error Getting File Changes : " (GetChanges config) in
  let '(latestCommit, visited) := changes in
  if str_eq latestCommit (gc_LatestCommit config) then mret (Ok tt)
  else
    files ← range_keys visited;
    let? newExperiments := sync_files ctx config files false in
    let? latestCommit :=
      (if newExperiments : bool then
         let? user := mret (GitUserFromContext ctx) in
         let? commit := wrap_err "Cannot commit experiments to git : " (GitCommit config user "Updated New Experiments" None) in
         let? _ := wrap_err "Cannot push experiments to git : " (GitPush config) in
         mret (Ok commit)
       else mret (Ok latestCommit)) in
    wrap_err "Failed to update git config : "
      (UpdateGitConfig (gitconfig_query (gc_ProjectID config)) (set_latest_commit latestCommit)).

(** ** From the database to git *)

(** The repository is brought up to date before it is changed. *)
Definition synced_config (ctx : Ctx) (projectID : string) : GM (res (option GitConfig)) :=
  let? config := wrap_err "Cannot get Git Config from DB : " (GetGitConfig projectID) in
  match config with
  | None => mret (Ok None)
  | Some config =>
      let gitConfig := GetGitOpsConfig config in
      let? _ := wrap_err "Sync Error | " (SyncDBToGit ctx gitConfig) in
      mret (Ok (Some gitConfig))
  end.

(** The commit is pushed and recorded; [what] is in the texts of errors. *)
Definition publish (ctx : Ctx) (gitConfig : GitConfig) (message what : string) (deleteFile : option string) :
    GM (res unit) :=
  let? user := mret (GitUserFromContext ctx) in
  let? commit := wrap_err ("Cannot commit " +:+ what +:+ " to git : ") (GitCommit gitConfig user message deleteFile) in
  let? _ := wrap_err ("Cannot push " +:+ what +:+ " to git : ") (GitPush gitConfig) in
  wrap_err "Failed to update git config : "
    (UpdateGitConfig (gitconfig_query (gc_ProjectID gitConfig)) (set_latest_commit commit)).

Definition experiment_file (gitConfig : GitConfig) (name : string) : string :=
  ProjectDataPath +:+ "/" +:+ gc_ProjectID gitConfig +:+ "/" +:+ name +:+ ".yaml".

Definition UpsertExperimentToGit (ctx : Ctx) (projectID : string) (experiment : ExperimentInput) : GM (res unit) :=
  let? gitConfig := synced_config ctx projectID in
  match gitConfig with
  | None => mret (Ok tt)
  | Some gitConfig =>
      let experimentPath := gc_LocalPath gitConfig +:+ "/" +:+ experiment_file gitConfig (xi_ExperimentName experiment) in
      let? data := wrap_err "Cannot convert manifest to yaml : " (mret (json_to_yaml (xi_ExperimentManifest experiment))) in
      let? _ := wrap_err "Cannot write experiment to git : " (WriteFile experimentPath data) in
      publish ctx gitConfig ("Updated Experiment : " +:+ xi_ExperimentName experiment) "experiment" None
  end.

Definition DeleteExperimentFromGit (ctx : Ctx) (projectID experimentName : string) : GM (res unit) :=
  let? gitConfig := synced_config ctx projectID in
  match gitConfig with
  | None => mret (Ok tt)
  | Some gitConfig =>
      let experimentPath := experiment_file gitConfig experimentName in
      let? exists_ := wrap_err "Cannot delete experiment from git : "
                        (PathExists (gc_LocalPath gitConfig +:+ "/" +:+ experimentPath)) in
      if negb exists_ then mret (Ok tt)
      else
        let? _ := wrap_err "Cannot delete experiment from git : "
                    (RemoveAll (gc_LocalPath gitConfig +:+ "/" +:+ experimentPath)) in
        publish ctx gitConfig ("Deleted Experiment : " +:+ experimentName) "experiment[delete]" (Some experimentPath)
  end.

(** ** Every two minutes *)
Definition gitSyncHelper (config : GitConfigDB) : GM (res unit) :=
  let? conf := logged (GetGitConfig (gd_ProjectID config)) None in
  match conf with
  | None => mret (Ok tt)
  | Some conf => logged (SyncDBToGit backgroundContext (GetGitOpsConfig conf)) tt
  end.

Fixpoint sync_each (configs : list GitConfigDB) : GM (res unit) :=
  match configs with
  | [] => mret (Ok tt)
  | config :: configs => let? _ := gitSyncHelper config in sync_each configs
  end.
(** A group starts when the one before it is done. *)
Fixpoint sync_all `{GoOrder} (groups : list (list GitConfigDB)) : GM (res unit) :=
  match groups with
  | [] => mret (Ok tt)
  | group :: groups =>
      let? order := call_out (λ n, Ok (go_order n group)) in
      let? _ := sync_each order in
      sync_all groups
  end.
Definition sync_round `{GoOrder} : GM (res unit) :=
  let? configs := logged GetAllGitConfig [] in
  match sync_groups (S (length configs)) configs (Z.of_nat (length configs) - 1) with
  | Some groups => sync_all groups
  | None => mret Panic
  end.
(** [rounds] is how often the loop runs: once for [singleRun]. *)
Fixpoint GitOpsSyncHandler `{GoOrder} (rounds : nat) : GM (res unit) :=
  match rounds with
  | O => mret (Ok tt)
  | S rounds => let? _ := sync_round in GitOpsSyncHandler rounds
  end.

(** ** Requests *)
Definition GitOpsNotificationHandler (infra : ChaosInfra) (experimentID : string) : GM (res string) :=
  let? config := wrap_err "Cannot get Git Config from DB : " (GetGitConfig (in_ProjectID infra)) in
  match config with
  | None => mret (Ok "GitOps Disabled")
  | Some _ =>
      let? experiments := GetExperiments (λ e, str_eq (ex_InfraID e) (in_InfraID infra) &&
        str_eq (ex_ExperimentID e) experimentID && negb (au_IsRemoved (ex_Audit e))) in
      match experiments with
      | [] => mret (Err (ErrNew "no such experiment found"))
      | experiment :: _ =>
          match last (ex_Revision experiment) with
          | None => mret Panic
          | Some rev =>
              if lower_eq (gjson_string (rv_ExperimentManifest rev) "kind") "cronexperiment"
              then mret (Ok ("Request Acknowledged for experimentID: " +:+ experimentID))
              else
                t ← now;
                let? manifest := wrap_err "Failed to updated experiment name "
                  (mret (sjson_set (rv_ExperimentManifest rev) "metadata.name" (ex_Name experiment +:+ "-" +:+ Itoa t))) in
                _ ← SendExperimentToSubscriber (ex_ProjectID experiment) manifest (ex_InfraID experiment)
                      (Some "git-ops") None "create";
                mret (Ok ("Request Acknowledged for experimentID: " +:+ experimentID))
          end
      end
  end.

Definition EnableGitOpsHandler (ctx : Ctx) (projectID : string) (config : GitConfigInput) : GM (res bool) :=
  let? _ := wrap_err "Failed to setup GitOps : " (auth_call (λ n, rpc_GetProjectById n projectID)) in
  let gitDB := GetGitConfigDB projectID config in
  let? user := mret (GitUserFromContext ctx) in
  let? commit := wrap_err "Failed to setup GitOps : " (SetupGitOps user (GetGitOpsConfig gitDB)) in
  let? _ := wrap_err "Failed to enable GitOps in DB : " (AddGitConfig (set_latest_commit commit gitDB)) in
  mret (Ok true).

Definition DisableGitOpsHandler (projectID : string) : GM (res bool) :=
  let? _ := wrap_err "Failed to delete git config from DB : " (DeleteGitConfig projectID) in
  let? _ := wrap_err "Failed to delete git repo from disk : " (RemoveAll (DefaultPath +:+ projectID)) in
  mret (Ok true).

(** The new repository is set up beside the old one, and takes its place. *)
Definition UpdateGitOpsDetailsHandler (ctx : Ctx) (projectID : string) (config : GitConfigInput) : GM (res bool) :=
  let? existingConfig := wrap_err "Cannot get Git Config from DB : " (GetGitConfig projectID) in
  match existingConfig with
  | None => mret (Err (ErrNew "GitOps Disabled "))
  | Some _ =>
      let gitDB := GetGitConfigDB projectID config in
      let gitConfig := GetGitOpsConfig gitDB in
      let originalPath := gc_LocalPath gitConfig in
      let gitConfig := set_gc_path (tempPath +:+ gc_ProjectID gitConfig) gitConfig in
      let? user := mret (GitUserFromContext ctx) in
      let? commit := wrap_err "Failed to setup GitOps : " (SetupGitOps user gitConfig) in
      let? _ := wrap_err "Failed to enable GitOps in DB : "
                  (ReplaceGitConfig (gitconfig_query projectID) (set_latest_commit commit gitDB)) in
      let? _ := wrap_err "Cannot remove existing repo : " (RemoveAll originalPath) in
      let? _ := wrap_err "Cannot copy new repo : "
                  (git_call (λ n, os_rename n (gc_LocalPath gitConfig) originalPath)
                     (λ _, CallRename (gc_LocalPath gitConfig) originalPath)) in
      mret (Ok true)
  end.

Definition git_response (config : GitConfigDB) : GitConfigResponse :=
  let by_ t := str_eq (gd_AuthType config) t in
  let only (b : bool) (o : option string) := if b then o else None in
  mkGitConfigResponse true (gd_ProjectID config) (Some (gd_Branch config)) (Some (gd_RepositoryURL config))
    (Some (gd_AuthType config)) (only (by_ AuthTypeToken) (gd_Token config)) (only (by_ AuthTypeBasic) (gd_UserName config))
    (only (by_ AuthTypeBasic) (gd_Password config)) (only (by_ AuthTypeSSH) (gd_SSHPrivateKey config)).
Definition GetGitOpsDetailsHandler (projectID : string) : GM (res GitConfigResponse) :=
  let? config := wrap_err "Cannot get Git Config from DB : " (GetGitConfig projectID) in
  mret (Ok (match config with
            | None => mkGitConfigResponse false projectID None None None None None None None
            | Some config => git_response config
            end)).

(** *** The resolvers *)
Definition mutation_GitopsNotifier `{ServerConfig} `{InfraEnv} (clusterInfo : InfraIdentity) (experimentID : string) : GM (res string) :=
  let? infra := VerifyInfra clusterInfo in
  GitOpsNotificationHandler infra experimentID.
Definition mutation_EnableGitOps (ctx : Ctx) (projectID : string) (config : GitConfigInput) : GM (res bool) :=
  let? _ := ValidateRole ctx projectID (MutationRbacRules EnableGitOps) InvitationAccepted in
  EnableGitOpsHandler ctx projectID config.
Definition mutation_DisableGitOps (ctx : Ctx) (projectID : string) : GM (res bool) :=
  let? _ := ValidateRole ctx projectID (MutationRbacRules DisableGitOps) InvitationAccepted in
  DisableGitOpsHandler projectID.
Definition mutation_UpdateGitOps (ctx : Ctx) (projectID : string) (config : GitConfigInput) : GM (res bool) :=
  let? _ := ValidateRole ctx projectID (MutationRbacRules UpdateGitOps) InvitationAccepted in
  UpdateGitOpsDetailsHandler ctx projectID config.
Definition query_GetGitOpsDetails (ctx : Ctx) (projectID : string) : GM (res GitConfigResponse) :=
  let? _ := ValidateRole ctx projectID (MutationRbacRules GetGitOpsDetails) InvitationAccepted in
  GetGitOpsDetailsHandler projectID.
End service.
