(* ===== verification/ServerRoutes.v ===== *)
(** * ServerRoutes.v: what the GraphQL server does beside GraphQL

    [graphql/server/server.go]: the collections and indexes
    ([pkg/database/mongodb/init.go]) and the check of the stored version at
    start-up, the routes next to [/query] ([pkg/handlers]), the origin of requests
    ([api/middleware/cors.go]), and the loop that prepares new projects
    ([pkg/projects/project_handler.go]). *)
From S2P Require Import Prelude World GoStd AuthRepo GraphDocs Experiments RunScore RunEvent Pipelines Authorization.
From S2P Require Import Environments Infrastructure ImageRegistries GitRepo GitOps.
Local Open Scope string_scope.
Local Open Scope Z_scope.

(** ** The outside *)

(** [jwt.Parse] with the claim [chaos_infra_id], the names of the databases, Go's
    [regexp.MatchString], and [GetUserById] of the authentication service, of
    whose answer the role is read. *)
Class ServerEdge := {
  parse_infra (secret token : string) : res string;
  list_databases (n : nat) : res (list string);
  regexp_match (pattern s : string) : res bool;
  rpc_GetUserById (n : nat) (userID : string) : res string;
}.
(** A token that [InfraCreateJWT] signed parses to its identifier: it has no
    expiry. *)
Class InfraTokenLaws `{InfraEnv} `{ServerEdge} : Prop := {
  infra_token_roundtrip secret infraID token : sign_infra secret infraID = Ok token → parse_infra secret token = Ok infraID;
}.

(** An answer: a text, or the text of an error. *)
Inductive Http : Type := HText (code : Z) (text : string) | HError (code : Z) (e : error).
Definition http_code (h : Http) : Z := match h with HText code _ | HError code _ => code end.

(** [strings.TrimSuffix] *)
Definition TrimSuffix (s suffix : string) : string :=
  match strip_prefix (rev (chars suffix)) (rev (chars s)) with Some l => of_chars (rev l) | None => s end.

Section routes.
Context `{MongoDriver} `{Runtime} `{Crypto} `{AuthClient} `{ServerConfig} `{InfraEnv} `{ServerEdge}.

(** ** [/file/:key] *)
(** The code reads the secret once the header of the token is parsed; a token that
    is not one is an error here as there. *)
Definition InfraValidateJWT (token : string) : GM (res string) :=
  let? secret := auth_call db_GetAuthConfig in
  mret (parse_infra secret token).

(** [reqHeader] is the [Referer] of the header under the key [request-header] of
    the context, [None] when the context has no such key. *)
Definition FileHandler (key : string) (reqHeader : option string) : GM (res Http) :=
  let fail e := mret (Ok (HError 500 e)) in
  let token := TrimSuffix key ".yaml" in
  let! infraId := InfraValidateJWT token or e => fail e in
  let! infra := GetInfraDoc infraId or e => fail e in
  match reqHeader with
  | None | Some "" => mret (Ok (HText 500 "unable to parse referer header"))
  | Some referrer =>
      let! '(scheme, host) := mret (parse_url referrer) or e => fail e in
      let! response := GetK8sInfraYaml (scheme +:+ "://" +:+ host) infra or e => fail e in
      mret (Ok (HText 200 response))
  end.
(** The route has no middleware that sets a key of the context: only
    [Middleware], on [/query], puts the header into the context of the request it
    passes on. *)
Definition file_route (key : string) : GM (res Http) := FileHandler key None.

(** ** [/status] and [/readiness] *)
Definition ListDataBase : GM (res (list string)) := call_out list_databases.
Definition StatusHandler : GM (res Http) :=
  let! dbs := ListDataBase or _ => mret (Ok (HText 503 "down")) in
  mret (Ok (if existsb (λ db, str_eq db "litmus") dbs then HText 200 "up" else HText 503 "down")).
(** The list of an error is empty. *)
Definition ReadinessHandler : GM (res Http) :=
  let! dbs := ListDataBase or _ => mret (Ok (HText 503 "down")) in
  mret (Ok (if negb (existsb (λ db, str_eq db "litmus") dbs) then HText 503 "down" else HText 200 "up")).

(** ** Origins *)
Definition request_origin (origin host : string) : string := if str_eq origin "" then host else origin.
(** A pattern that is no regular expression matches nothing. *)
Definition valid_origin (allowedOrigins : list string) (origin : string) : bool :=
  existsb (λ allowedOrigin, match regexp_match allowedOrigin origin with Ok b => b | _ => false end) allowedOrigins.
(** The middleware of both servers. *)
Definition ValidateCors (allowedOrigins : list string) (origin host : string) (next : GM (res Http)) : GM (res Http) :=
  if negb (valid_origin allowedOrigins (request_origin origin host)) then mret (Ok (HText 403 "Invalid origin")) else next.
(** [CheckOrigin] of the websocket transport. *)
Definition CheckOrigin (allowedOrigins : list string) (origin host : string) : bool :=
  valid_origin allowedOrigins (request_origin origin host).

(** ** New projects *)

(** [project.Project], as far as it is read. *)
Record Project : Type := mkProject { pr_ID : string; pr_CreatedBy : mongodb_User; pr_UpdatedBy : mongodb_User }.
Record ProjectCreationEvent : Type := mkCreation { pe_OperationType : string; pe_FullDocument : Project }.

(** The role is not used. *)
Definition ProjectInitializer (project : Project) (role : string) : GM (res unit) :=
  currentTime ← now;
  id ← NewUUID;
  InsertImageRegistry (mkRegistry (mkGAudit currentTime currentTime (pr_CreatedBy project) (pr_UpdatedBy project) false) id
    (pr_ID project) "docker.io" "litmuschaos" "public" None None true (Some true)).

(** One round of the loop of [ProjectEvents]. The error of [GetUserById] is
    logged, and the role is then read from nil. *)
Definition project_event (event : ProjectCreationEvent) : GM (res unit) :=
  if str_eq (pe_OperationType event) "insert" then
    user ← auth_call (λ n, rpc_GetUserById n (ur_UserID (pr_CreatedBy (pe_FullDocument event))));
    match user with
    | Ok role => logged (ProjectInitializer (pe_FullDocument event) role) tt
    | _ => mret Panic
    end
  else mret (Ok tt).
End routes.

(** ** The version in the database

    The collection [serverConfig], which has a unique index on the key. A value is
    a text here, as the code only stores texts. *)
Record ServerConfigDoc : Type := mkConfigDoc { sc_Key : string; sc_Value : string }.
#[export, refine] Instance config_collection : Collection (list ServerConfigDoc) ServerConfigDoc := {|
  docs := id; set_docs l _ := l
|}.
Proof. all: done. Defined.
Definition config_key (stored new : ServerConfigDoc) : bool := str_eq (sc_Key stored) (sc_Key new).
Abbreviation ConfigM := (M (World (list ServerConfigDoc))).

Section version.
Context `{MongoDriver}.
Definition CreateConfig (config : ServerConfigDoc) : ConfigM (res unit) := InsertOne config_key config.
Definition GetConfig (key : string) : ConfigM (res (option ServerConfigDoc)) :=
  let! config := FindOne (λ c : ServerConfigDoc, str_eq (sc_Key c) key) or e =>
    mret (if bool_decide (e = ErrNoDocuments) then Ok None else Err e) in
  mret (Ok (Some config)).
Definition UpdateConfig (key value : string) : ConfigM (res unit) :=
  let? _ := UpdateOne (λ c : ServerConfigDoc, str_eq (sc_Key c) key) (λ c, mkConfigDoc (sc_Key c) value) in
  mret (Ok tt).
(** The stored version is not compared with the current one. *)
Definition validateVersion (currentVersion : string) : ConfigM (res unit) :=
  let! dbVersion := GetConfig "version" or e =>
    mret (Err (ErrNew ("failed to get version from db, error = " +:+ error_text e))) in
  match dbVersion with
  | None =>
      let! _ := CreateConfig (mkConfigDoc "version" currentVersion) or e =>
        mret (Err (ErrNew ("failed to insert current version in db, error = " +:+ error_text e))) in
      mret (Ok tt)
  | Some _ => mret (Ok tt)
  end.
End version.

(** ** Collections and indexes: [pkg/database/mongodb/init.go], [collection.go] *)
Inductive CollectionType : Type :=
| ChaosInfraCollection | ChaosExperimentCollection | ChaosExperimentRunsCollection | ChaosHubCollection
| ImageRegistryCollection | ServerConfigCollection | GitOpsCollection | UserCollection | ProjectCollection
| EnvironmentCollection | ChaosProbeCollection.
#[export] Instance CollectionType_eq_dec : EqDecision CollectionType.
Proof. solve_decision. Defined.
Definition Collections (t : CollectionType) : string :=
  match t with
  | ChaosInfraCollection => "chaosInfrastructures"
  | ChaosExperimentCollection => "chaosExperiments"
  | ChaosExperimentRunsCollection => "chaosExperimentRuns"
  | ChaosProbeCollection => "chaosProbes"
  | ChaosHubCollection => "chaosHubs"
  | ImageRegistryCollection => "imageRegistry"
  | ServerConfigCollection => "serverConfig"
  | GitOpsCollection => "gitops"
  | UserCollection => "user"
  | ProjectCollection => "project"
  | EnvironmentCollection => "environment"
  end.

Section collections.
Context {C : Type} {cat : Catalog C}.

Definition MongoConnection (dbServer dbUser dbPassword : string) : M C (res unit) :=
  if str_eq dbServer "" || str_eq dbUser "" || str_eq dbPassword "" then mret (Err (ErrNew "DB configuration failed"))
  else
    let? _ := mongo_connect dbServer dbUser dbPassword in
    mongo_ping.

(** [CreateCollection], whatever it reports. *)
Definition init_collection (t : CollectionType) : M C unit :=
  _ ← create_collection (Collections t); mret tt.
(** [Indexes().CreateMany], with an error that is logged, or ends the process. *)
Definition indexes_or_log (t : CollectionType) (indexes : list IndexModel) : M C (res unit) :=
  let! _ := create_indexes (Collections t) indexes or _ => mret (Ok tt) in mret (Ok tt).
Definition indexes_or_fatal (t : CollectionType) (indexes : list IndexModel) : M C (res unit) :=
  let! _ := create_indexes (Collections t) indexes or _ => mret Panic in mret (Ok tt).

Definition plain_index (key : string) : IndexModel := mkIndexModel [key] false None None.
Definition unique_index (key : string) : IndexModel := mkIndexModel [key] true None None.
(** The indexes of a collection. *)
Definition index_models (t : CollectionType) : list IndexModel :=
  match t with
  | ChaosInfraCollection => [unique_index "infra_id"; plain_index "name"]
  | ChaosExperimentCollection => [unique_index "experiment_id"; plain_index "name"]
  | ChaosExperimentRunsCollection => [plain_index "experiment_run_id"]
  | ChaosHubCollection => [unique_index "hub_id"; plain_index "name"]
  | GitOpsCollection | ImageRegistryCollection => [unique_index "project_id"]
  | ServerConfigCollection => [unique_index "key"]
  | EnvironmentCollection => [mkIndexModel ["environment_id"] true (Some ("is_removed", false)) None; plain_index "name"]
  | ChaosProbeCollection => [mkIndexModel ["name"; "project_id"] true (Some ("is_removed", false)) None]
  | UserCollection | ProjectCollection => []
  end.
Definition log_step (t : CollectionType) : M C (res unit) := indexes_or_log t (index_models t).
Definition fatal_step (t : CollectionType) : M C (res unit) := indexes_or_fatal t (index_models t).

Definition initAllCollection : M C (res unit) :=
  _ ← init_collection ChaosInfraCollection;
  let? _ := log_step ChaosInfraCollection in
  _ ← init_collection ChaosExperimentCollection;
  let? _ := log_step ChaosExperimentCollection in
  _ ← init_collection ChaosExperimentRunsCollection;
  let? _ := fatal_step ChaosExperimentRunsCollection in
  _ ← init_collection ChaosHubCollection;
  let? _ := fatal_step ChaosHubCollection in
  let? _ := fatal_step GitOpsCollection in
  let? _ := fatal_step ImageRegistryCollection in
  let? _ := fatal_step ServerConfigCollection in
  let? _ := fatal_step EnvironmentCollection in
  _ ← init_collection ChaosProbeCollection;
  log_step ChaosProbeCollection.

(** The head of [main]: an error ends the process. *)
Definition start `{MongoDriver} (dbServer dbUser dbPassword currentVersion : string) :
    M (C * World (list ServerConfigDoc)) (res unit) := λ s,
  let connected := MongoConnection dbServer dbUser dbPassword s.1 in
  if is_ok connected.1 then
    let initialized := initAllCollection connected.2 in
    if is_ok initialized.1 then
      let validated := validateVersion currentVersion s.2 in
      (if is_ok validated.1 then Ok tt else Panic, (initialized.2, validated.2))
    else (Panic, (initialized.2, s.2))
  else (Panic, (connected.2, s.2)).
End collections.
