(* ===== verification/HubFiles.v ===== *)
(** * HubFiles.v: the repositories and files of chaos hubs

    [graphql/server/pkg/chaoshub/ops/gitops.go]: a hub is a clone of a repository,
    in the directory [/tmp/<project>/<name>], or [/tmp/default/<name>] for the hub
    all projects share. [graphql/server/pkg/chaoshub/handler]: charts and predefined
    experiments are read from the directory of a hub; a remote hub is downloaded as
    an archive and unpacked into the directory of the project. The git library and
    the disk are the outside, as in [GitRepo.v]. *)
From S2P Require Import Prelude World GoStd Paths AuthRepo GraphDocs Experiments RunScore RunEvent Pipelines Authorization.
From S2P Require Import GitRepo GitOps EventTracker.
Local Open Scope string_scope.
Local Open Scope Z_scope.

(** ** The outside *)

(** What hubs use of [go-git] beyond [GitLibrary]: clones and pulls of a named
    reference. *)
Class HubLibrary := {
  hub_clone (n : nat) (path url reference : string) (auth : option AuthMethod) : res unit;
  hub_pull (n : nat) (path remote reference : string) (auth : option AuthMethod) : Transfer;
}.

Definition NewBranchReferenceName (name : string) : string := "refs/heads/" +:+ name.
Definition NewTagReferenceName (name : string) : string := "refs/tags/" +:+ name.

(** ** Settings *)
Record CloningInput : Type := mkCloning {
  cl_Name : string; cl_RepoBranch : string; cl_RepoURL : string; cl_RemoteHub : string; cl_IsPrivate : bool;
  cl_AuthType : string; cl_Token : option string; cl_UserName : option string; cl_Password : option string;
  cl_SSHPrivateKey : option string; cl_IsDefault : bool
}.
(** The commits are not set before the configuration is thrown away. *)
Record ChaosHubConfig : Type := mkHubConfig {
  hc_ProjectID : string; hc_RepositoryURL : string; hc_RemoteName : string; hc_HubName : string; hc_Branch : string;
  hc_IsPrivate : bool; hc_IsDefault : bool; hc_UserName : option string; hc_Password : option string;
  hc_AuthType : string; hc_Token : option string; hc_SSHPrivateKey : option string
}.

Definition HubPath : string := "/tmp/".
Definition GetClonePath (c : ChaosHubConfig) : string :=
  if hc_IsDefault c then "/tmp/default/" +:+ hc_HubName c else HubPath +:+ hc_ProjectID c +:+ "/" +:+ hc_HubName c.
Definition GitConfigConstruct (repoData : CloningInput) (projectID : string) : ChaosHubConfig :=
  mkHubConfig projectID (cl_RepoURL repoData) "origin" (cl_Name repoData) (cl_RepoBranch repoData) (cl_IsPrivate repoData)
    (cl_IsDefault repoData) (cl_UserName repoData) (cl_Password repoData) (cl_AuthType repoData) (cl_Token repoData)
    (cl_SSHPrivateKey repoData).

Section ops.
Context `{GitLibrary} `{GitData} `{HubLibrary}.

(** A credential that is missing is a nil dereference; a type that is none of the
    three means no credentials. *)
Definition generateAuthMethod (c : ChaosHubConfig) : res (option AuthMethod) :=
  if str_eq (hc_AuthType c) AuthTypeToken then
    match hc_Token c with Some token => Ok (Some (BasicAuth GitUsername token)) | None => Panic end
  else if str_eq (hc_AuthType c) AuthTypeBasic then
    match hc_UserName c, hc_Password c with
    | Some username, Some password => Ok (Some (BasicAuth username password))
    | _, _ => Panic
    end
  else if str_eq (hc_AuthType c) AuthTypeSSH then
    match hc_SSHPrivateKey c with
    | None => Panic
    | Some key =>
        match ssh_public_keys key with
        | Ok _ => Ok (Some (PublicKeys "git" key))
        | Err e => Err e
        | Panic => Panic
        end
    end
  else Ok None.

(** The branch of that name, or else the tag. *)
Definition clone_at (c : ChaosHubConfig) (auth : option AuthMethod) : GM (res unit) :=
  let path := GetClonePath c in
  let clone reference := git_call (λ n, hub_clone n path (hc_RepositoryURL c) reference auth)
                           (λ _, CallClone path (hc_RepositoryURL c) reference auth) in
  let! _ := clone (NewBranchReferenceName (hc_Branch c)) or _ => clone (NewTagReferenceName (hc_Branch c)) in
  mret (Ok tt).

(** What was in the directory is removed first; an error there is ignored. *)
Definition getChaosChartRepo (c : ChaosHubConfig) : GM (res unit) :=
  _ ← RemoveAll (GetClonePath c);
  clone_at c None.
Definition getPrivateChaosChartRepo (c : ChaosHubConfig) : GM (res unit) :=
  _ ← RemoveAll (GetClonePath c);
  let? auth := mret (generateAuthMethod c) in
  clone_at c auth.

Definition HubGitClone (repoData : CloningInput) (projectID : string) : GM (res unit) :=
  let gitConfig := GitConfigConstruct repoData projectID in
  if cl_IsPrivate repoData then wrap_err "error in cloning private repo: " (getPrivateChaosChartRepo gitConfig)
  else wrap_err "error in cloning public repo: " (getChaosChartRepo gitConfig).

Definition isRepositoryExists (c : ChaosHubConfig) : GM (res bool) := PathExists (GetClonePath c).

Definition setterRepositoryWorktreeReference (c : ChaosHubConfig) : GM (res string) :=
  let path := GetClonePath c in
  let? _ := wrap_err "error in executing PlainOpen: " (call_out (λ n, git_open n path)) in
  let? _ := wrap_err "error in executing Worktree: " (call_out (λ n, git_worktree n path)) in
  wrap_err "error in executing Head: " (call_out (λ n, git_head n path)).

Definition GitPlainOpen (repoPath : string) : GM (res unit) := call_out (λ n, git_open n repoPath).

Definition pull_with (c : ChaosHubConfig) (auth : option AuthMethod) : GM (res unit) :=
  let path := GetClonePath c in let reference := NewBranchReferenceName (hc_Branch c) in
  transfer (λ n, hub_pull n path (hc_RemoteName c) reference auth) (CallPull path (hc_RemoteName c) reference auth).
(** Credentials that cannot be used are no error: the repository is then left as
    it is. *)
Definition gitPullPrivateRepo (c : ChaosHubConfig) : GM (res unit) :=
  let? _ := setterRepositoryWorktreeReference c in
  let! auth := mret (generateAuthMethod c) or _ => mret (Ok tt) in
  pull_with c auth.
Definition HubGitPull (c : ChaosHubConfig) : GM (res unit) :=
  let? _ := setterRepositoryWorktreeReference c in
  if negb (hc_IsPrivate c) then pull_with c None else gitPullPrivateRepo c.

(** The remote hub is not passed on. *)
Definition chaosChartSyncHandler (c : ChaosHubConfig) : GM (res unit) :=
  let? repositoryExists := wrap_err "Error while checking repo exists, err: " (isRepositoryExists c) in
  if negb repositoryExists then
    HubGitClone (mkCloning (hc_HubName c) (hc_Branch c) (hc_RepositoryURL c) "" (hc_IsPrivate c) (hc_AuthType c) (hc_Token c)
      (hc_UserName c) (hc_Password c) (hc_SSHPrivateKey c) (hc_IsDefault c)) (hc_ProjectID c)
  else HubGitPull c.

Definition GitSyncHandlerForProjects (repoData : CloningInput) (projectID : string) : GM (res unit) :=
  chaosChartSyncHandler (GitConfigConstruct repoData projectID).
Definition GitSyncDefaultHub (repoData : CloningInput) : GM (res unit) :=
  chaosChartSyncHandler (GitConfigConstruct repoData "").
End ops.

(** ** Charts: [types.go] *)
Record Maintainer : Type := mkMaintainer { mt_Name : string; mt_Email : string }.
Record Link : Type := mkLink { lk_Name : string; lk_URL : string }.
Record Faults : Type := mkFaults { fl_Name : string; fl_DisplayName : string; fl_Description : string; fl_Plan : list string }.
Record Annotation : Type := mkAnnotation {
  an_Categories : string; an_Vendor : string; an_CreatedAt : string; an_Repository : string; an_Support : string;
  an_ChartDescription : string
}.
Record Metadata : Type := mkMetadata { md_Name : string; md_Version : string; md_Annotations : Annotation }.
Record Spec : Type := mkSpec {
  sp_DisplayName : string; sp_CategoryDescription : string; sp_Plan : list string; sp_Keywords : list string;
  sp_Maturity : string; sp_Maintainers : list Maintainer; sp_MinKubeVersion : string; sp_Scenarios : list string;
  sp_Provider : string; sp_Links : list Link; sp_Experiments : list string; sp_Faults : list Faults;
  sp_ChaosExpCRDLink : string; sp_Platforms : list string; sp_ChaosType : string
}.
Record PackageInformation : Type := mkPackage { pk_PackageName : string; pk_Experiments : list (string * string * string) }.
Record ChaosChart : Type := mkChart {
  ch_APIVersion : string; ch_Kind : string; ch_Metadata : Metadata; ch_Spec : Spec; ch_PackageInfo : PackageInformation
}.
(** The zero value of the struct. *)
Definition no_chart : ChaosChart :=
  mkChart "" "" (mkMetadata "" "" (mkAnnotation "" "" "" "" "" ""))
    (mkSpec "" "" [] [] "" [] "" [] "" [] [] [] "" [] "") (mkPackage "" []).

(** [model.Chart]: the same, through JSON. The plan and the scenarios have no
    counterpart; a type that is empty is left out. *)
Record SpecOutput : Type := mkSpecOutput {
  so_DisplayName : string; so_CategoryDescription : string; so_Keywords : list string; so_Maturity : string;
  so_Maintainers : list Maintainer; so_MinKubeVersion : string; so_Provider : string; so_Links : list Link;
  so_Faults : list Faults; so_Experiments : list string; so_ChaosExpCRDLink : string; so_Platforms : list string;
  so_ChaosType : option string
}.
Record Chart : Type := mkChartOutput {
  co_APIVersion : string; co_Kind : string; co_Metadata : Metadata; co_Spec : SpecOutput; co_PackageInfo : PackageInformation
}.
Definition chart_output (c : ChaosChart) : Chart :=
  let s := ch_Spec c in
  mkChartOutput (ch_APIVersion c) (ch_Kind c) (ch_Metadata c)
    (mkSpecOutput (sp_DisplayName s) (sp_CategoryDescription s) (sp_Keywords s) (sp_Maturity s) (sp_Maintainers s)
       (sp_MinKubeVersion s) (sp_Provider s) (sp_Links s) (sp_Faults s) (sp_Experiments s) (sp_ChaosExpCRDLink s)
       (sp_Platforms s) (if str_eq (sp_ChaosType s) "" then None else Some (sp_ChaosType s)))
    (ch_PackageInfo c).

Record PredefinedExperimentList : Type := mkPredefined {
  pd_ExperimentName : string; pd_ExperimentCSV : string; pd_ExperimentManifest : string
}.
Record CreateRemoteChaosHub : Type := mkCreateRemote {
  rh_Name : string; rh_Tags : list string; rh_Description : option string; rh_RepoURL : string; rh_RemoteHub : string
}.

(** ** The outside *)
Record Download : Type := mkDownload {
  dl_StatusCode : Z; dl_Status : string; dl_ContentLength : string; dl_ContentType : string; dl_Body : res string
}.
(** An entry of an archive: opening it, and reading it, may fail. *)
Record ZipFile : Type := mkZipFile { zf_Name : string; zf_IsDir : bool; zf_Open : res (res string) }.
(** Directories in the order of their names; [os_open] is a file opened for
    reading, and what can be read of it; [yaml] fills what it can before it
    reports an error; [sanitize.URL]; [net/http] and [archive/zip]. *)
Class HubDisk := {
  os_read_dir (n : nat) (path : string) : res (list string);
  os_open (n : nat) (path : string) : res string;
  os_create (n : nat) (path : string) : res unit;
  os_remove (n : nat) (path : string) : res unit;
  yaml_chart (data : string) : ChaosChart * option error;
  sanitize_url (url : string) : string;
  http_get (n : nat) (url : string) : res Download;
  zip_open (n : nat) (path : string) : res (list ZipFile);
}.
Class HubConfig := {
  RemoteHubMaxSize : string; CustomChaosHubPath : string; DefaultChaosHubPath : string; DefaultHubName : string;
  DefaultHubGitURL : string; DefaultHubBranchName : string; DefaultHubIsPrivate : bool; DefaultHubAuthType : string;
  DefaultHubToken : string; DefaultHubUserName : string; DefaultHubPassword : string; DefaultHubSshPrivateKey : string;
}.

Definition GetChartsPath (chartsInput : CloningInput) (projectID : string) (isDefault : bool) : string :=
  if isDefault then HubPath +:+ "default/" +:+ cl_Name chartsInput +:+ "/faults/"
  else HubPath +:+ projectID +:+ "/" +:+ cl_Name chartsInput +:+ "/faults/".

Section files.
Context `{GitLibrary} `{GitData} `{HubLibrary} `{HubDisk} `{HubConfig}.

Definition ReadDir (path : string) : GM (res (list string)) := call_out (λ n, os_read_dir n path).

(** *** Reading *)

(** The chart comes with the error. *)
Definition ReadExperimentFile (path : string) : GM (ChaosChart * option error) :=
  r ← ReadFile path;
  mret (match r with
        | Ok data => yaml_chart data
        | Err e => (no_chart, Some (ErrNew ("file path of the, err: " +:+ error_text e)))
        | Panic => (no_chart, Some (ErrNew ""))
        end).

Fixpoint read_charts (chartsPath : string) (names : list string) : GM (list ChaosChart) :=
  match names with
  | [] => mret []
  | name :: names =>
      if str_eq name "icons" then read_charts chartsPath names
      else
        '(chart, _) ← ReadExperimentFile (chartsPath +:+ name +:+ "/" +:+ name +:+ ".chartserviceversion.yaml");
        rest ← read_charts chartsPath names;
        mret (chart :: rest)
  end.
Definition GetChartsData (chartsPath : string) : GM (res (list Chart)) :=
  let? charts := ReadDir chartsPath in
  allChartsDetails ← read_charts chartsPath charts;
  mret (Ok (chart_output <$> allChartsDetails)).

Definition GetExperimentData (experimentFilePath : string) : GM (res Chart) :=
  data ← ReadExperimentFile experimentFilePath;
  mret (match data.2 with None => Ok (chart_output data.1) | Some e => Err e end).

Definition ReadExperimentYAMLFile (path : string) : GM (res string) :=
  wrap_err "file path of the, err: " (ReadFile path).

(** An error other than "not found" counts as existing. *)
Definition IsFileExisting (path : string) : GM (res bool) :=
  let! found := PathExists path or _ => mret (Ok true) in mret (Ok found).

Definition or_text (dflt : string) (m : GM (res string)) : GM string :=
  r ← m; mret (match r with Ok s => s | _ => dflt end).

Fixpoint predefined_workflows (experimentsPath : string) (names : list string) : GM (res (list PredefinedExperimentList)) :=
  match names with
  | [] => mret (Ok [])
  | name :: names =>
      let csv := experimentsPath +:+ "/" +:+ name +:+ "/" +:+ name +:+ ".chartserviceversion.yaml" in
      let? isExist := IsFileExisting csv in
      if isExist then
        csvManifest ← or_text "na" (ReadExperimentYAMLFile csv);
        workflowManifest ← or_text "na" (ReadExperimentYAMLFile (experimentsPath +:+ "/" +:+ name +:+ "/workflow.yaml"));
        let? rest := predefined_workflows experimentsPath names in
        mret (Ok (mkPredefined name csvManifest workflowManifest :: rest))
      else predefined_workflows experimentsPath names
  end.
Definition ListPredefinedWorkflowDetails (name projectID : string) : GM (res (list PredefinedExperimentList)) :=
  let experimentsPath := HubPath +:+ projectID +:+ "/" +:+ name +:+ "/workflows" in
  let? files := ReadDir experimentsPath in
  predefined_workflows experimentsPath files.

(** *** Archives *)

(** Failures to create, open for writing or read are logged. An entry that cannot
    be opened is read and closed all the same, which dereferences nil. *)
Definition CopyZipItems (file : ZipFile) (extractPath chartsPath : string) : GM (res unit) :=
  let path := PathJoin extractPath chartsPath in
  if negb (HasPrefix path (Clean extractPath +:+ "/")) then mret (Err (ErrNew ("illegal file path: " +:+ path)))
  else
    _ ← git_call (λ n, os_mkdir_all n (PathDir path)) (λ _, CallMkdirAll (PathDir path));
    _ ← (if negb (zf_IsDir file) then
           created ← git_call (λ n, os_create n path) (λ _, CallCreate path);
           match created, zf_Open file with
           | Ok _, Ok (Ok data) => _ ← WriteFile path data; mret tt
           | _, _ => mret tt
           end
         else mret tt);
    mret (if is_ok (zf_Open file) then Ok tt else Panic).
Fixpoint copy_items (files : list ZipFile) (extractPath : string) : GM (res unit) :=
  match files with
  | [] => mret (Ok tt)
  | file :: files =>
      let? _ := CopyZipItems file extractPath (zf_Name file) in
      copy_items files extractPath
  end.
Definition UnzipRemoteHub (zipPath projectID : string) : GM (res unit) :=
  let? files := call_out (λ n, zip_open n zipPath) in
  copy_items files (HubPath +:+ projectID).

(** The length the server announces is compared with the limit; a text that is no
    number, as that of a missing header, counts as 0. *)
Definition DownloadRemoteHub (hubDetails : CreateRemoteChaosHub) (projectID : string) : GM (res unit) :=
  let dirPath := HubPath +:+ projectID in
  let hubPath := dirPath +:+ "/" +:+ rh_Name hubDetails +:+ ".zip" in
  let discard := git_call (λ n, os_remove n hubPath) (λ _, CallRemoveFile hubPath) in
  let? _ := git_call (λ n, os_mkdir_all n dirPath) (λ _, CallMkdirAll dirPath) in
  let? _ := git_call (λ n, os_create n hubPath) (λ _, CallCreate hubPath) in
  let? download := call_out (λ n, http_get n (sanitize_url (rh_RepoURL hubDetails))) in
  if negb (bool_decide (dl_StatusCode download = 200)) then mret (Err (ErrNew ("err: " +:+ dl_Status download)))
  else
    let? maxSize := mret (match Atoi RemoteHubMaxSize with
                          | Some z => Ok z
                          | None => Err (ErrNew ("strconv.Atoi: parsing " +:+ RemoteHubMaxSize +:+ ": invalid syntax"))
                          end) in
    let length := Atoi_value (dl_ContentLength download) in
    if bool_decide (maxSize < length) then
      _ ← discard; mret (Err (ErrNew ("err: File size exceeded the threshold " +:+ Itoa length)))
    else if negb (str_eq (dl_ContentType download) "application/zip") then
      _ ← discard; mret (Err (ErrNew ("err: Invalid file type " +:+ dl_ContentType download)))
    else
      let? body := mret (dl_Body download) in
      let? _ := WriteFile hubPath body in
      let? _ := UnzipRemoteHub hubPath projectID in
      discard.

Definition SyncRemoteRepo (hubData : CloningInput) (projectID : string) : GM (res unit) :=
  let? _ := RemoveAll (HubPath +:+ projectID +:+ "/" +:+ cl_Name hubData) in
  DownloadRemoteHub (mkCreateRemote (cl_Name hubData) [] None (cl_RepoURL hubData) "") projectID.

Definition ValidateLocalRepository (hub : ChaosHub) : GM (res bool) :=
  let name := rs_Name (hb_Resource hub) in
  let repoPath := if hb_IsDefault hub then HubPath +:+ "default/" +:+ name else HubPath +:+ hb_ProjectID hub +:+ "/" +:+ name in
  let? _ := GitPlainOpen repoPath in
  mret (Ok true).

(** *** Icons *)

(** The status of an answer is settled when its first byte is written: an error
    text goes out with 200. *)
Definition serve_icon (path : string) : GM (Z * string) :=
  img ← call_out (λ n, os_open n path);
  mret (match img with
        | Ok data => (200, data)
        | Err e => (200, "icon cannot be fetched, err : " +:+ error_text e)
        | Panic => (200, "")
        end).
Definition ChaosHubIconHandler (projectId hubName chartName iconName : string) : GM (Z * string) :=
  if str_eq (ToLower chartName) "predefined"
  then serve_icon (CustomChaosHubPath +:+ projectId +:+ "/" +:+ hubName +:+ "/experiments/icons/" +:+ iconName)
  else serve_icon (CustomChaosHubPath +:+ projectId +:+ "/" +:+ hubName +:+ "/faults/" +:+ chartName +:+ "/icons/" +:+ iconName).
Definition DefaultChaosHubIconHandler (hubName chartName iconName : string) : GM (Z * string) :=
  if str_eq (ToLower chartName) "predefined"
  then serve_icon (DefaultChaosHubPath +:+ hubName +:+ "/experiments/icons/" +:+ iconName)
  else serve_icon (DefaultChaosHubPath +:+ hubName +:+ "/faults/" +:+ chartName +:+ "/icons/" +:+ iconName).
End files.
