(* ===== verification/ChaosHubs.v ===== *)
(** * ChaosHubs.v: the hubs of a project

    [graphql/server/pkg/chaoshub/service.go] with the operators of
    [pkg/database/mongodb/chaos_hub/operations.go] and the resolvers of
    [graph/chaoshub.resolvers.go]. A hub is a document and a directory; the loops
    that bring the directories up to date are modelled by one round each. *)
From S2P Require Import Prelude World GoStd AuthRepo GraphDocs Experiments RunScore RunEvent Pipelines Authorization.
From S2P Require Import Environments Infrastructure GitRepo GitOps HubFiles.
Local Open Scope string_scope.
Local Open Scope Z_scope.

Definition HubTypeGit : string := "GIT".
Definition HubTypeRemote : string := "REMOTE".
Definition DefaultHubID : string := "6f39cea9-6264-4951-83a8-29976b614289".

(** ** Requests and answers *)
Record CreateChaosHubRequest : Type := mkCreateHub {
  ch_Name : string; ch_Tags : list string; ch_Description : option string; ch_RepoURL : string; ch_RepoBranch : string;
  ch_RemoteHub : string; ch_IsPrivate : bool; ch_AuthType : string; ch_Token : option string; ch_UserName : option string;
  ch_Password : option string; ch_SSHPrivateKey : option string; ch_SSHPublicKey : option string
}.
Record UpdateChaosHubRequest : Type := mkUpdateHub {
  uh_ID : string; uh_Name : string; uh_Description : option string; uh_Tags : list string; uh_RepoURL : string;
  uh_RepoBranch : string; uh_RemoteHub : string; uh_IsPrivate : bool; uh_AuthType : string; uh_Token : option string;
  uh_UserName : option string; uh_Password : option string; uh_SSHPrivateKey : option string; uh_SSHPublicKey : option string
}.
Record ChaosHubFilterInput : Type := mkHubFilter {
  hf_ChaosHubName : option string; hf_Tags : list string; hf_Description : option string
}.
Record ListChaosHubRequest : Type := mkListHubs { lh_ChaosHubIDs : list string; lh_Filter : option ChaosHubFilterInput }.
Record ExperimentRequest : Type := mkFaultRequest { fr_Category : string; fr_ExperimentName : string; fr_HubID : string }.
Record FaultDetails : Type := mkFaultDetails { fd_Fault : string; fd_Engine : string; fd_CSV : string }.

(** [model.ChaosHub]; the users are not filled where they are [None]. *)
Record HubOutput : Type := mkHubOutput {
  ho_ID : string; ho_RepoURL : string; ho_RepoBranch : string; ho_RemoteHub : string; ho_ProjectID : string;
  ho_IsDefault : bool; ho_Name : string; ho_Tags : list string; ho_CreatedBy : option string; ho_UpdatedBy : option string;
  ho_Description : option string; ho_HubType : string; ho_IsPrivate : bool; ho_AuthType : string; ho_Token : option string;
  ho_UserName : option string; ho_Password : option string; ho_SSHPrivateKey : option string; ho_IsRemoved : bool;
  ho_CreatedAt : string; ho_UpdatedAt : string; ho_LastSyncedAt : string
}.
(** [model.ChaosHubStatus], as far as it is filled. *)
Record ChaosHubStatus : Type := mkHubStatus {
  hs_ID : string; hs_RepoURL : string; hs_RepoBranch : string; hs_RemoteHub : string; hs_IsAvailable : bool;
  hs_TotalFaults : string; hs_TotalExperiments : string; hs_Name : string; hs_IsPrivate : bool; hs_AuthType : string;
  hs_Token : option string; hs_SSHPrivateKey : option string; hs_SSHPublicKey : option string; hs_LastSyncedAt : string;
  hs_Tags : list string; hs_CreatedBy : string; hs_UpdatedBy : string; hs_CreatedAt : string; hs_UpdatedAt : string;
  hs_Description : string; hs_IsDefault : bool
}.

Definition NewCloningInputFrom (h : CreateChaosHubRequest) : CloningInput :=
  mkCloning (ch_Name h) (ch_RepoBranch h) (ch_RepoURL h) (ch_RemoteHub h) (ch_IsPrivate h) (ch_AuthType h) (ch_Token h)
    (ch_UserName h) (ch_Password h) (ch_SSHPrivateKey h) false.

Definition hb_Name (h : ChaosHub) : string := rs_Name (hb_Resource h).
Definition set_hb_audit (a : mongodb_Audit) (h : ChaosHub) : ChaosHub :=
  mkChaosHub (hb_ID h) (hb_ProjectID h) (hb_Resource h) a (hb_RepoURL h) (hb_RepoBranch h) (hb_RemoteHub h)
    (hb_IsPrivate h) (hb_AuthType h) (hb_HubType h) (hb_Token h) (hb_UserName h) (hb_Password h) (hb_SSHPrivateKey h)
    (hb_SSHPublicKey h) (hb_LastSyncedAt h) (hb_IsDefault h).
Definition set_synced_at (t : Z) (h : ChaosHub) : ChaosHub :=
  mkChaosHub (hb_ID h) (hb_ProjectID h) (hb_Resource h) (hb_Audit h) (hb_RepoURL h) (hb_RepoBranch h) (hb_RemoteHub h)
    (hb_IsPrivate h) (hb_AuthType h) (hb_HubType h) (hb_Token h) (hb_UserName h) (hb_Password h) (hb_SSHPrivateKey h)
    (hb_SSHPublicKey h) t (hb_IsDefault h).

Definition GetOutputChaosHub (c : ChaosHub) : HubOutput :=
  mkHubOutput (hb_ID c) (hb_RepoURL c) (hb_RepoBranch c) (hb_RemoteHub c) (hb_ProjectID c) (hb_IsDefault c) (hb_Name c)
    (rs_Tags (hb_Resource c)) None None (Some (rs_Description (hb_Resource c))) (hb_HubType c) (hb_IsPrivate c)
    (hb_AuthType c) (hb_Token c) (hb_UserName c) (hb_Password c) (hb_SSHPrivateKey c) (au_IsRemoved (hb_Audit c))
    (Itoa (au_CreatedAt (hb_Audit c))) (Itoa (au_UpdatedAt (hb_Audit c))) (Itoa (hb_LastSyncedAt c)).

(** What is cloned for a stored hub. *)
Definition cloning_of (c : ChaosHub) : CloningInput :=
  mkCloning (hb_Name c) (hb_RepoBranch c) (hb_RepoURL c) (hb_RemoteHub c) (hb_IsPrivate c) (hb_AuthType c) (hb_Token c)
    (hb_UserName c) (hb_Password c) (hb_SSHPrivateKey c) false.

(** ** Operators *)

(** The unique index is on the identifier. *)
Definition hub_key (d d' : ChaosHub) : bool := str_eq (hb_ID d) (hb_ID d').
Definition hub_query (hubID projectID : string) (h : ChaosHub) : bool :=
  str_eq (hb_ID h) hubID && str_eq (hb_ProjectID h) projectID.
Definition live_hub (hubID : string) (h : ChaosHub) : bool := str_eq (hb_ID h) hubID && negb (au_IsRemoved (hb_Audit h)).
Definition project_hub (projectID : string) (h : ChaosHub) : bool :=
  str_eq (hb_ProjectID h) projectID && negb (au_IsRemoved (hb_Audit h)).

Section operators.
Context `{MongoDriver}.

Definition CreateChaosHub (chaosHub : ChaosHub) : GM (res unit) :=
  wrap_err "error creating chaoshub : " (InsertOne hub_key chaosHub).
Definition GetChaosHubByProjectID (projectID : string) : GM (res (list ChaosHub)) :=
  wrap_err "error getting chaoshubs : " (Find (project_hub projectID)).
Definition GetHubs : GM (res (list ChaosHub)) := wrap_err "error getting chaosHubs: " (Find (λ _ : ChaosHub, true)).
(** Hubs that were removed are found too. *)
Definition GetHubByID (hubID projectID : string) : GM (res ChaosHub) := FindOne (hub_query hubID projectID).
Definition UpdateChaosHubDoc (q : ChaosHub → bool) (f : ChaosHub → ChaosHub) : GM (res unit) :=
  let? matched := UpdateOne q f in
  if bool_decide (matched = 0%nat) then mret (Err (ErrNew "ChaosHub collection query didn't match")) else mret (Ok tt).
End operators.

(** ** The service *)
Section service.
Context `{MongoDriver} `{Runtime} `{MongoRegex} `{Crypto} `{AuthClient} `{GitLibrary} `{GitData} `{HubLibrary} `{HubDisk}
  `{HubConfig}.

Definition IsChaosHubAvailable (name projectID : string) : GM (res bool) :=
  let? chaosHubs := GetChaosHubByProjectID projectID in
  mret (Ok (existsb (λ h, str_eq (hb_Name h) name) chaosHubs)).
Definition check_hub_name (name projectID : string) : GM (res unit) :=
  let? isExist := IsChaosHubAvailable name projectID in
  if isExist then mret (Err (ErrNew "name already exists")) else mret (Ok tt).

Definition new_audit (t : Z) (username : string) : mongodb_Audit := mkGAudit t t (named_user username) (named_user username) false.

Definition AddChaosHub (ctx : Ctx) (chaosHub : CreateChaosHubRequest) (projectID : string) : GM (res HubOutput) :=
  let? _ := check_hub_name (ch_Name chaosHub) projectID in
  currentTime ← now;
  let cloneHub := NewCloningInputFrom chaosHub in
  let description := default "" (ch_Description chaosHub) in
  let? username := ctx_username ctx in
  id ← NewUUID;
  t ← now;
  let newHub := mkChaosHub id projectID (mkResource (ch_Name chaosHub) description (ch_Tags chaosHub))
    (new_audit currentTime username) (ch_RepoURL chaosHub) (ch_RepoBranch chaosHub) (ch_RemoteHub chaosHub)
    (ch_IsPrivate chaosHub) (ch_AuthType chaosHub) HubTypeGit (ch_Token chaosHub) (ch_UserName chaosHub)
    (ch_Password chaosHub) (ch_SSHPrivateKey chaosHub) (ch_SSHPublicKey chaosHub) t false in
  let? _ := CreateChaosHub newHub in
  let? _ := logged (HubGitClone cloneHub projectID) tt in
  mret (Ok (GetOutputChaosHub newHub)).

Definition AddRemoteChaosHub (ctx : Ctx) (chaosHub : CreateRemoteChaosHub) (projectID : string) : GM (res HubOutput) :=
  let? _ := check_hub_name (rh_Name chaosHub) projectID in
  let description := default "" (rh_Description chaosHub) in
  currentTime ← now;
  let? username := ctx_username ctx in
  id ← NewUUID;
  t ← now;
  let newHub := mkChaosHub id projectID (mkResource (rh_Name chaosHub) description (rh_Tags chaosHub))
    (new_audit currentTime username) (rh_RepoURL chaosHub) "" (rh_RemoteHub chaosHub) false AuthTypeNone HubTypeRemote
    None None None None None t false in
  let? _ := CreateChaosHub newHub in
  let? _ := wrap_err "Hub configurations saved successfully. Failed to connect the remote repo: "
              (DownloadRemoteHub chaosHub projectID) in
  mret (Ok (GetOutputChaosHub newHub)).

(** The type of the hub is left empty. *)
Definition SaveChaosHub (ctx : Ctx) (chaosHub : CreateChaosHubRequest) (projectID : string) : GM (res HubOutput) :=
  let? _ := check_hub_name (ch_Name chaosHub) projectID in
  id ← NewUUID;
  let? username := ctx_username ctx in
  let description := default "" (ch_Description chaosHub) in
  currentTime ← now;
  t ← now;
  let newHub := mkChaosHub id projectID (mkResource (ch_Name chaosHub) description (ch_Tags chaosHub))
    (new_audit currentTime username) (ch_RepoURL chaosHub) (ch_RepoBranch chaosHub) (ch_RemoteHub chaosHub)
    (ch_IsPrivate chaosHub) (ch_AuthType chaosHub) "" (ch_Token chaosHub) (ch_UserName chaosHub)
    (ch_Password chaosHub) (ch_SSHPrivateKey chaosHub) (ch_SSHPublicKey chaosHub) t false in
  let? _ := CreateChaosHub newHub in
  mret (Ok (GetOutputChaosHub newHub)).

(** The update names the hub by its identifier alone. *)
Definition SyncChaosHub (hubID projectID : string) : GM (res string) :=
  let? chaosHub := GetHubByID hubID projectID in
  let syncHubInput := cloning_of chaosHub in
  t ← now;
  let? _ := (if str_eq (hb_HubType chaosHub) HubTypeRemote then SyncRemoteRepo syncHubInput projectID
             else GitSyncHandlerForProjects syncHubInput projectID) in
  let? _ := UpdateChaosHubDoc (live_hub hubID) (set_synced_at t) in
  mret (Ok "Successfully synced ChaosHub").

(** Whether the directory has to be made anew: the token, the password and the
    keys do not count. *)
Definition remote_changed (prev : ChaosHub) (h : UpdateChaosHubRequest) : bool :=
  negb (str_eq (hb_Name prev) (uh_Name h)) || negb (str_eq (hb_RepoURL prev) (uh_RepoURL h)) ||
  negb (str_eq (hb_RemoteHub prev) (uh_RemoteHub h)).
Definition repo_changed (prev : ChaosHub) (h : UpdateChaosHubRequest) : bool :=
  negb (str_eq (hb_Name prev) (uh_Name h)) || negb (str_eq (hb_RepoURL prev) (uh_RepoURL h)) ||
  negb (str_eq (hb_RepoBranch prev) (uh_RepoBranch h)) || negb (Bool.eqb (hb_IsPrivate prev) (uh_IsPrivate h)) ||
  negb (str_eq (hb_AuthType prev) (uh_AuthType h)) || negb (str_eq (hb_RemoteHub prev) (uh_RemoteHub h)).

Definition renew_directory (prev : ChaosHub) (h : UpdateChaosHubRequest) (projectID : string) : GM (res unit) :=
  let cloneHub := mkCloning (uh_Name h) (uh_RepoBranch h) (uh_RepoURL h) (uh_RemoteHub h) (uh_IsPrivate h) (uh_AuthType h)
    (uh_Token h) (uh_UserName h) (uh_Password h) (uh_SSHPrivateKey h) false in
  let clonePath := HubPath +:+ hb_ProjectID prev +:+ "/" +:+ hb_Name prev in
  if str_eq (hb_HubType prev) HubTypeRemote then
    if remote_changed prev h then
      let? _ := RemoveAll clonePath in
      DownloadRemoteHub (mkCreateRemote (uh_Name h) [] None (uh_RepoURL h) (uh_RemoteHub h)) projectID
    else mret (Ok tt)
  else if repo_changed prev h then
    let? _ := RemoveAll clonePath in
    HubGitClone cloneHub projectID
  else GitSyncHandlerForProjects cloneHub projectID.

Definition hub_update (h : UpdateChaosHubRequest) (t : Z) (username : string) (c : ChaosHub) : ChaosHub :=
  mkChaosHub (hb_ID c) (hb_ProjectID c) (mkResource (uh_Name h) (default "" (uh_Description h)) (uh_Tags h))
    (touch t (named_user username) (hb_Audit c)) (uh_RepoURL h) (uh_RepoBranch h) (uh_RemoteHub h) (uh_IsPrivate h)
    (uh_AuthType h) (hb_HubType c) (uh_Token h) (uh_UserName h) (uh_Password h) (uh_SSHPrivateKey h) (uh_SSHPublicKey h)
    (hb_LastSyncedAt c) (hb_IsDefault c).

(** The name is not compared with those of other hubs, and an error about the
    caller is overwritten. *)
Definition UpdateChaosHub (ctx : Ctx) (chaosHub : UpdateChaosHubRequest) (projectID : string) : GM (res HubOutput) :=
  let? prevChaosHub := GetHubByID (uh_ID chaosHub) projectID in
  let? _ := renew_directory prevChaosHub chaosHub projectID in
  t ← now;
  let? username := logged (ctx_username ctx) "" in
  let? _ := UpdateChaosHubDoc (live_hub (uh_ID chaosHub)) (hub_update chaosHub t username) in
  mret (Ok (mkHubOutput (uh_ID chaosHub) (uh_RepoURL chaosHub) (uh_RepoBranch chaosHub) (uh_RemoteHub chaosHub) "" false
    (uh_Name chaosHub) (uh_Tags chaosHub) None None (uh_Description chaosHub) "" (uh_IsPrivate chaosHub)
    (uh_AuthType chaosHub) (uh_Token chaosHub) (uh_UserName chaosHub) (uh_Password chaosHub) (uh_SSHPrivateKey chaosHub)
    false "" (Itoa t) "")).

Definition DeleteChaosHub (ctx : Ctx) (hubID projectID : string) : GM (res bool) :=
  let? username := ctx_username ctx in
  let? chaosHub := GetHubByID hubID projectID in
  t ← now;
  let? _ := UpdateChaosHubDoc (hub_query hubID projectID)
              (λ h, set_hb_audit (set_is_removed true (touch t (named_user username) (hb_Audit h))) h) in
  let? _ := RemoveAll (HubPath +:+ projectID +:+ "/" +:+ hb_Name chaosHub) in
  mret (Ok true).

(** *** What hubs hold *)
Definition listDefaultHubs : HubOutput :=
  mkHubOutput DefaultHubID DefaultHubGitURL DefaultHubBranchName "" "" true DefaultHubName [] None None None ""
    DefaultHubIsPrivate DefaultHubAuthType (Some DefaultHubToken) (Some DefaultHubUserName) (Some DefaultHubPassword)
    (Some DefaultHubSshPrivateKey) false "" "" "".

Definition getChaosHubDetails (hubID projectID : string) : GM (res HubOutput) :=
  if str_eq DefaultHubID hubID then mret (Ok listDefaultHubs)
  else
    let? hub := wrap_err "DB fetch stage error: " (GetHubByID hubID projectID) in
    mret (Ok (mkHubOutput (hb_ID hub) (hb_RepoURL hub) (hb_RepoBranch hub) (hb_RemoteHub hub) (hb_ProjectID hub) false
      (hb_Name hub) (rs_Tags (hb_Resource hub)) (Some (ur_Username (au_CreatedBy (hb_Audit hub))))
      (Some (ur_Username (au_UpdatedBy (hb_Audit hub)))) (Some (rs_Description (hb_Resource hub))) "" false (hb_AuthType hub)
      None None None None false (Itoa (au_CreatedAt (hb_Audit hub))) (Itoa (au_UpdatedAt (hb_Audit hub)))
      (Itoa (hb_LastSyncedAt hub)))).

(** The directory of a hub. *)
Definition hub_dir (hub : HubOutput) (projectID : string) : string :=
  if ho_IsDefault hub then "/tmp/default/" +:+ ho_Name hub else HubPath +:+ projectID +:+ "/" +:+ ho_Name hub.

Definition ListChaosFaults (hubID projectID : string) : GM (res (list Chart)) :=
  let? hub := getChaosHubDetails hubID projectID in
  let chartsInput := mkCloning (ho_Name hub) (ho_RepoBranch hub) (ho_RepoURL hub) (ho_RemoteHub hub) false "" None None None
    None false in
  GetChartsData (GetChartsPath chartsInput projectID (ho_IsDefault hub)).

(** A file that cannot be read is an empty text. *)
Definition GetChaosFault (request : ExperimentRequest) (projectID : string) : GM (res FaultDetails) :=
  let? chaosHub := getChaosHubDetails (fr_HubID request) projectID in
  let basePath := hub_dir chaosHub projectID +:+ "/faults/" +:+ fr_Category request +:+ "/" +:+ fr_ExperimentName request in
  csvYaml ← or_text "" (ReadFile (basePath +:+ "/" +:+ fr_ExperimentName request +:+ ".chartserviceversion.yaml"));
  engineYaml ← or_text "" (ReadFile (basePath +:+ "/engine.yaml"));
  faultYaml ← or_text "" (ReadFile (basePath +:+ "/fault.yaml"));
  mret (Ok (mkFaultDetails faultYaml engineYaml csvYaml)).

Definition getPredefinedExperimentDetails (experimentsPath experiment : string) : GM PredefinedExperimentList :=
  let csv := experimentsPath +:+ experiment +:+ "/" +:+ experiment +:+ ".chartserviceversion.yaml" in
  exists_ ← PathExists csv;
  match exists_ with
  | Ok true =>
      csvManifest ← or_text "" (ReadFile csv);
      workflowManifest ← or_text "" (ReadFile (experimentsPath +:+ experiment +:+ "/experiment.yaml"));
      mret (mkPredefined experiment csvManifest workflowManifest)
  | _ => mret (mkPredefined "" "" "")
  end.
Fixpoint predefined_list (hubPath : string) (names : list string) : GM (list PredefinedExperimentList) :=
  match names with
  | [] => mret []
  | name :: names =>
      preDefinedWorkflow ← getPredefinedExperimentDetails hubPath name;
      rest ← predefined_list hubPath names;
      mret (if negb (str_eq (pd_ExperimentCSV preDefinedWorkflow) "") then preDefinedWorkflow :: rest else rest)
  end.

Definition ListPredefinedExperiments (hubID projectID : string) : GM (res (list PredefinedExperimentList)) :=
  let? hub := getChaosHubDetails hubID projectID in
  let hubPath := hub_dir hub projectID +:+ "/experiments/" in
  let? files := ReadDir hubPath in
  l ← predefined_list hubPath (List.filter (λ name, negb (str_eq name "icons")) files);
  mret (Ok l).
Definition GetPredefinedExperiment (hubID : string) (experiments : list string) (projectID : string) :
    GM (res (list PredefinedExperimentList)) :=
  let? hub := getChaosHubDetails hubID projectID in
  l ← predefined_list (hub_dir hub projectID +:+ "/experiments/") experiments;
  mret (Ok l).

(** *** Listings *)
Definition count_faults (charts : res (list Chart)) : Z :=
  match charts with Ok l => foldl (λ sum c, sum + Z.of_nat (length (so_Faults (co_Spec c)))) 0 l | _ => 0 end.
Definition count_ok {A} (r : res (list A)) : Z := match r with Ok l => Z.of_nat (length l) | _ => 0 end.

Definition GetChaosHub (chaosHubID projectID : string) : GM (res ChaosHubStatus) :=
  let? hub := wrap_err "DB fetch stage error: " (GetHubByID chaosHubID projectID) in
  let chartPath := if hb_IsDefault hub then HubPath +:+ "default/" +:+ hb_Name hub
                   else HubPath +:+ hb_ProjectID hub +:+ "/" +:+ hb_Name hub in
  chartsData ← GetChartsData chartPath;
  wfs ← ListPredefinedExperiments (hb_ID hub) projectID;
  isConfirmed ← ValidateLocalRepository hub;
  mret (Ok (mkHubStatus (hb_ID hub) (hb_RepoURL hub) (hb_RepoBranch hub) (hb_RemoteHub hub) (is_ok isConfirmed)
    (Itoa (count_faults chartsData)) (Itoa (count_ok wfs)) (hb_Name hub) false (hb_AuthType hub) None None None
    (Itoa (hb_LastSyncedAt hub)) (rs_Tags (hb_Resource hub)) (ur_Username (au_CreatedBy (hb_Audit hub)))
    (ur_Username (au_UpdatedBy (hb_Audit hub))) (Itoa (au_CreatedAt (hb_Audit hub))) (Itoa (au_UpdatedAt (hb_Audit hub)))
    (rs_Description (hb_Resource hub)) false)).

Definition hub_status (projectID : string) (hub : ChaosHub) : GM ChaosHubStatus :=
  let chartPath := if hb_IsDefault hub then HubPath +:+ "default/" +:+ hb_Name hub +:+ "/faults/"
                   else HubPath +:+ hb_ProjectID hub +:+ "/" +:+ hb_Name hub +:+ "/faults/" in
  chartsData ← GetChartsData chartPath;
  wfs ← ListPredefinedExperiments (hb_ID hub) projectID;
  isConfirmed ← ValidateLocalRepository hub;
  mret (mkHubStatus (hb_ID hub) (hb_RepoURL hub) (hb_RepoBranch hub) (hb_RemoteHub hub) (is_ok isConfirmed)
    (Itoa (count_faults chartsData)) (Itoa (count_ok wfs)) (hb_Name hub) (hb_IsPrivate hub) (hb_AuthType hub) (hb_Token hub)
    (hb_SSHPrivateKey hub) (hb_SSHPublicKey hub) (Itoa (hb_LastSyncedAt hub)) (rs_Tags (hb_Resource hub))
    (ur_Username (au_CreatedBy (hb_Audit hub))) (ur_Username (au_UpdatedBy (hb_Audit hub)))
    (Itoa (au_CreatedAt (hb_Audit hub))) (Itoa (au_UpdatedAt (hb_Audit hub))) (rs_Description (hb_Resource hub))
    (hb_IsDefault hub)).
Fixpoint hub_statuses (projectID : string) (hubs : list ChaosHub) : GM (list ChaosHubStatus) :=
  match hubs with
  | [] => mret []
  | hub :: hubs =>
      s ← hub_status projectID hub;
      rest ← hub_statuses projectID hubs;
      mret (s :: rest)
  end.

(** The hub all projects share, as a document. *)
Definition default_hub_doc : ChaosHub :=
  mkChaosHub DefaultHubID "" (mkResource DefaultHubName "" []) (mkGAudit 0 0 (named_user "") (named_user "") false)
    DefaultHubGitURL DefaultHubBranchName "" false "" "" None None None None None 0 true.
Definition hub_matches (projectID : string) (request : option ListChaosHubRequest) : list (ChaosHub → bool) :=
  (project_hub projectID ::
   match request with
   | None => []
   | Some r =>
       when (negb (bool_decide (lh_ChaosHubIDs r = []))) (λ h, str_in (hb_ID h) (lh_ChaosHubIDs r)) ++
       match lh_Filter r with
       | None => []
       | Some f =>
           given_match (λ x h, regex_find "mix" x (hb_Name h)) (hf_ChaosHubName f) ++
           given_match (λ x h, regex_find "mix" x (rs_Description (hb_Resource h))) (hf_Description f) ++
           when (negb (bool_decide (hf_Tags f = []))) (λ h, forallb (λ t, str_in t (rs_Tags (hb_Resource h))) (hf_Tags f))
       end
   end)%list.
Definition ListChaosHubs (projectID : string) (request : option ListChaosHubRequest) : GM (res (list ChaosHubStatus)) :=
  let? allHubs := wrap_err "error on getting the chaos hubs : "
                    (Aggregate (run_pipeline (StMatch <$> hub_matches projectID request))) in
  l ← hub_statuses projectID (default_hub_doc :: allHubs);
  mret (Ok l).

Definition GetChaosHubStats (projectID : string) : GM (res Z) :=
  let? res := wrap_err "error on getting the chaos hubs : "
                (Aggregate (λ l : list ChaosHub, [Z.of_nat (length (List.filter (project_hub projectID) l))])) in
  mret (Ok (match res with [] => 1 | count :: _ => count + 1 end)).

(** *** Keeping the directories up to date *)
Definition GetAllHubs : GM (res (list HubOutput)) :=
  let? chaosHubs := GetHubs in mret (Ok (GetOutputChaosHub <$> chaosHubs)).

Definition sync_hub (h : HubOutput) : GM (res unit) :=
  if negb (ho_IsRemoved h) then
    let chartsInput := mkCloning (ho_Name h) (ho_RepoBranch h) (ho_RepoURL h) (ho_RemoteHub h) (ho_IsPrivate h)
      (ho_AuthType h) (ho_Token h) (ho_UserName h) (ho_Password h) (ho_SSHPrivateKey h) false in
    if negb (str_eq (ho_HubType h) HubTypeRemote) then logged (GitSyncHandlerForProjects chartsInput (ho_ProjectID h)) tt
    else logged (SyncRemoteRepo chartsInput (ho_ProjectID h)) tt
  else mret (Ok tt).
Fixpoint sync_hubs (l : list HubOutput) : GM (res unit) :=
  match l with
  | [] => mret (Ok tt)
  | h :: l => let? _ := sync_hub h in sync_hubs l
  end.
(** One round of [RecurringHubSync]; an error of the listing is an empty list. *)
Definition hub_sync_round : GM (res unit) :=
  let! chaosHubs := GetAllHubs or _ => mret (Ok tt) in sync_hubs chaosHubs.
(** One round of [SyncDefaultChaosHubs]. *)
Definition default_sync_round : GM (res unit) :=
  let h := listDefaultHubs in
  logged (GitSyncDefaultHub (mkCloning (ho_Name h) (ho_RepoBranch h) (ho_RepoURL h) "" (ho_IsPrivate h) (ho_AuthType h)
    (ho_Token h) (ho_UserName h) (ho_Password h) (ho_SSHPrivateKey h) true)) tt.

(** ** The resolvers: the first seven ask for a right *)
Definition mutation_AddChaosHub (ctx : Ctx) (projectID : string) (request : CreateChaosHubRequest) : GM (res HubOutput) :=
  let? _ := ValidateRole ctx projectID (MutationRbacRules Authorization.AddChaosHub) InvitationAccepted in
  AddChaosHub ctx request projectID.
Definition mutation_AddRemoteChaosHub (ctx : Ctx) (projectID : string) (request : CreateRemoteChaosHub) : GM (res HubOutput) :=
  let? _ := ValidateRole ctx projectID (MutationRbacRules Authorization.SaveChaosHub) InvitationAccepted in
  AddRemoteChaosHub ctx request projectID.
Definition mutation_SaveChaosHub (ctx : Ctx) (projectID : string) (request : CreateChaosHubRequest) : GM (res HubOutput) :=
  let? _ := ValidateRole ctx projectID (MutationRbacRules Authorization.SaveChaosHub) InvitationAccepted in
  SaveChaosHub ctx request projectID.
Definition mutation_SyncChaosHub (ctx : Ctx) (id projectID : string) : GM (res string) :=
  let? _ := ValidateRole ctx projectID (MutationRbacRules UpdateChaosExperimentRole) InvitationAccepted in
  SyncChaosHub id projectID.
Definition mutation_UpdateChaosHub (ctx : Ctx) (projectID : string) (request : UpdateChaosHubRequest) : GM (res HubOutput) :=
  let? _ := ValidateRole ctx projectID (MutationRbacRules Authorization.UpdateChaosHub) InvitationAccepted in
  UpdateChaosHub ctx request projectID.
Definition mutation_DeleteChaosHub (ctx : Ctx) (projectID hubID : string) : GM (res bool) :=
  let? _ := ValidateRole ctx projectID (MutationRbacRules Authorization.DeleteChaosHub) InvitationAccepted in
  DeleteChaosHub ctx hubID projectID.
Definition query_ListChaosFaults (ctx : Ctx) (hubID projectID : string) : GM (res (list Chart)) :=
  let? _ := ValidateRole ctx projectID (MutationRbacRules ListCharts) InvitationAccepted in
  ListChaosFaults hubID projectID.
Definition query_GetChaosFault (ctx : Ctx) (projectID : string) (request : ExperimentRequest) : GM (res FaultDetails) :=
  GetChaosFault request projectID.
Definition query_ListChaosHub (ctx : Ctx) (projectID : string) (request : option ListChaosHubRequest) :
    GM (res (list ChaosHubStatus)) := ListChaosHubs projectID request.
Definition query_GetChaosHub (ctx : Ctx) (projectID chaosHubID : string) : GM (res ChaosHubStatus) :=
  GetChaosHub chaosHubID projectID.
Definition query_ListPredefinedExperiments (ctx : Ctx) (hubID projectID : string) : GM (res (list PredefinedExperimentList)) :=
  ListPredefinedExperiments hubID projectID.
Definition query_GetPredefinedExperiment (ctx : Ctx) (hubID : string) (experimentName : list string) (projectID : string) :
    GM (res (list PredefinedExperimentList)) := GetPredefinedExperiment hubID experimentName projectID.
Definition query_GetChaosHubStats (ctx : Ctx) (projectID : string) : GM (res Z) := GetChaosHubStats projectID.
End service.

(** ** SSH keys: [pkg/chaoshub/ops/sshkey-gen.go] *)

(** [crypto/rsa], [x509] with [pem], and [crypto/ssh]. *)
Class SshKeys := {
  RsaKey : Type;
  rsa_generate (n : nat) (bitSize : Z) : res RsaKey;
  rsa_validate (key : RsaKey) : res unit;
  pkcs1_pem (key : RsaKey) : string;
  authorized_key (key : RsaKey) : res string;
}.
Section keys.
Context `{SshKeys}.
Definition generatePrivateKey (bitSize : Z) : GM (res RsaKey) :=
  let? privateKey := call_out (λ n, rsa_generate n bitSize) in
  let? _ := mret (rsa_validate privateKey) in
  mret (Ok privateKey).
Definition GenerateKeys : GM (res (string * string)) :=
  let? privateKey := generatePrivateKey 4096 in
  let? publicKey := mret (authorized_key privateKey) in
  mret (Ok (publicKey, pkcs1_pem privateKey)).
(** The resolver asks for no right. *)
Record SSHKey : Type := mkSSHKey { sk_PrivateKey : string; sk_PublicKey : string }.
Definition mutation_GenerateSSHKey (ctx : Ctx) : GM (res SSHKey) :=
  let? keys := GenerateKeys in
  mret (Ok (mkSSHKey keys.2 keys.1)).
End keys.
