(* ===== verification/ExperimentHandlers.v ===== *)
(** * ExperimentHandlers.v: the life of an experiment

    The handlers of
    [graphql/server/pkg/chaos_experiment/handler/handler.go] that change experiments,
    [RunChaosWorkFlow] and [RunCronExperiment] of
    [pkg/chaos_experiment_run/handler/handler.go], and the resolvers of
    [graph/chaos_experiment.resolvers.go] and [graph/chaos_experiment_run.resolvers.go]. *)
From S2P Require Import Prelude World GoStd AuthRepo GraphDocs Experiments RunScore RunEvent.
From S2P Require Import Authorization Environments Infrastructure ProbeProperties Manifests Probes ExperimentOps.
From S2P Require Import ExperimentService GitRepo GitOps.
From Stdlib Require Import SpecFloat.
Local Open Scope string_scope.
Local Open Scope Z_scope.

Section service.
Context `{MongoDriver} `{MongoTxn} `{MongoAbort} `{Runtime} `{Crypto} `{AuthClient} `{MapOrder} `{Decoders}
  `{Positional} `{ManifestNamespace} `{SourceCodec} `{ManifestCodec} `{ShortID} `{GitLibrary} `{GitData}.

(** ** The handlers *)
Definition duplicate_name (name : string) : error :=
  ErrNew ("experiment name should be unique, duplicate experiment found with name: " +:+ name).

Definition validateDuplicateExperimentName (projectID name : string) : GM (res unit) :=
  let? experimentCount := CountChaosExperiments (named_experiment projectID name) in
  if bool_decide (0 < experimentCount) then mret (Err (duplicate_name name)) else mret (Ok tt).

(** [details] is the experiment that was found; the zero document stands for
    none, with an empty identifier and name. *)
Definition save_input (request : SaveChaosExperimentRequest) : ExperimentInput :=
  mkExperimentInput (Some (sx_ID request)) None (sx_Manifest request) "" (sx_Name request) (sx_Description request) []
    false (sx_InfraID request) (sx_Tags request).

Definition save_experiment (ctx : Ctx) (request : SaveChaosExperimentRequest) (projectID username revID : string)
    (details : option ChaosExperimentRequest) : GM (res string) :=
  let id := default "" (ex_ExperimentID <$> details) in
  let name := default "" (ex_Name <$> details) in
  let? processed := ProcessExperiment ctx (save_input request) projectID revID in
  let '(newRequest, wfType) := processed in
  let newID := default "" (xi_ExperimentID newRequest) in
  if str_eq id (sx_ID request) then
    let? _ := (if negb (str_eq name (sx_Name request)) then validateDuplicateExperimentName projectID (sx_Name request)
               else mret (Ok tt)) in
    let? _ := UpsertExperimentToGit ctx projectID newRequest in
    let? _ := ProcessExperimentUpdate newRequest newID username wfType revID false projectID true in
    mret (Ok ("experiment updated successfully with ID " +:+ id))
  else
    let? _ := validateDuplicateExperimentName projectID (sx_Name request) in
    let? _ := UpsertExperimentToGit ctx projectID newRequest in
    let? _ := ProcessExperimentCreation newRequest newID username projectID wfType revID false in
    mret (Ok ("experiment saved successfully with ID " +:+ id)).

Definition SaveChaosExperiment (ctx : Ctx) (request : SaveChaosExperimentRequest) (projectID username : string) :
    GM (res string) :=
  revID ← NewUUID;
  r ← GetExperiment (live_experiment (sx_ID request) projectID);
  match r with
  | Ok wfDetails => save_experiment ctx request projectID username revID (Some wfDetails)
  | Err e => if bool_decide (e = ErrNoDocuments) then save_experiment ctx request projectID username revID None
             else mret (Err e)
  | Panic => mret Panic
  end.

Definition experiment_response (x : ExperimentInput) : ChaosExperimentResponse :=
  mkExperimentResponse (default "" (xi_ExperimentID x)) (xi_CronSyntax x) (xi_ExperimentName x)
    (xi_ExperimentDescription x) (xi_IsCustomExperiment x).

(** The name of a new experiment is checked, and that of an old one when it
    changes. *)
Definition check_new_name (x : ExperimentInput) (projectID : string) : GM (res ExperimentInput) :=
  match xi_ExperimentID x with
  | None =>
      newID ← NewUUID;
      let? _ := validateDuplicateExperimentName projectID (xi_ExperimentName x) in
      mret (Ok (set_xi_id newID x))
  | Some id =>
      let? existing := GetExperiment (live_experiment id projectID) in
      let? _ := (if negb (str_eq (ex_Name existing) (xi_ExperimentName x))
                 then validateDuplicateExperimentName projectID (xi_ExperimentName x) else mret (Ok tt)) in
      mret (Ok x)
  end.

Definition CreateChaosExperiment (ctx : Ctx) (request : ExperimentInput) (projectID username : string) :
    GM (res ChaosExperimentResponse) :=
  revID ← NewUUID;
  let? request := check_new_name request projectID in
  let? processed := ProcessExperiment ctx request projectID revID in
  let '(newRequest, wfType) := processed in
  let? _ := UpsertExperimentToGit ctx projectID newRequest in
  let? _ := ProcessExperimentCreation newRequest (default "" (xi_ExperimentID newRequest)) username projectID wfType
              revID false in
  mret (Ok (experiment_response newRequest)).

(** The identifier of the request is used when another experiment has the name. *)
Fixpoint other_with_name (id : option string) (experiments : list ChaosExperimentRequest) : res bool :=
  match experiments with
  | [] => Ok false
  | e :: experiments =>
      match id with
      | None => Panic
      | Some i => if negb (str_eq (ex_ExperimentID e) i) then Ok true else other_with_name id experiments
      end
  end.

Definition UpdateChaosExperimentHandler (ctx : Ctx) (request : ExperimentInput) (projectID : string) (r : bool)
    (username : string) : GM (res ChaosExperimentResponse) :=
  revID ← NewUUID;
  let? experiments := GetExperiments (named_experiment projectID (xi_ExperimentName request)) in
  let? other := mret (other_with_name (xi_ExperimentID request) experiments) in
  if (other : bool) then mret (Err (duplicate_name (xi_ExperimentName request)))
  else
    let? processed := ProcessExperiment ctx request projectID revID in
    let '(newRequest, wfType) := processed in
    let? _ := UpsertExperimentToGit ctx projectID newRequest in
    let? _ := ProcessExperimentUpdate newRequest (default "" (xi_ExperimentID newRequest)) username wfType revID false
                projectID r in
    mret (Ok (experiment_response newRequest)).

(** A missing weightage is a nil dereference. *)
Fixpoint all_weightages (l : list (option WeightagesInput)) : option (list WeightagesInput) :=
  match l with
  | [] => Some []
  | w :: l => x ← w; rest ← all_weightages l; Some (x :: rest)
  end.

(** When the weightages are nil the revision has no name. *)
Definition DisableCronExperiment (username : string) (experiment : ChaosExperimentRequest) (projectID : string)
    (r : bool) : GM (res unit) :=
  match last (ex_Revision experiment) with
  | None => mret (Err (ErrNew "revision array is empty"))
  | Some rev =>
      let? workflowManifest := mret (suspended (rv_ExperimentManifest rev)) in
      match all_weightages (revision_weights rev) with
      | None => mret Panic
      | Some weightages =>
          let revisionID := match rv_Weightages rev with None => "" | Some _ => rv_RevisionID rev end in
          ProcessExperimentUpdate
            (mkExperimentInput (Some (ex_ExperimentID experiment)) None workflowManifest (ex_CronSyntax experiment)
               (ex_Name experiment) (ex_Description experiment) weightages (ex_IsCustomExperiment experiment)
               (ex_InfraID experiment) [])
            (ex_ExperimentID experiment) username (ex_ExperimentType experiment) revisionID true projectID r
      end
  end.

Definition DeleteChaosExperiment (ctx : Ctx) (projectID workflowID : string) (workflowRunID : option string) (r : bool)
    (username : string) : GM (res bool) :=
  let? workflow := GetExperiment (own_experiment workflowID projectID) in
  if au_IsRemoved (ex_Audit workflow) then mret (Err (ErrNew ("chaos experiment already deleted: " +:+ workflowID)))
  else
    match workflowRunID with
    | None =>
        let? _ := (if negb (str_eq (ex_CronSyntax workflow) "") then DisableCronExperiment username workflow projectID r
                   else mret (Ok tt)) in
        let? _ := DeleteExperimentFromGit ctx projectID (ex_Name workflow) in
        let? _ := ProcessExperimentDelete (own_experiment workflowID projectID) workflow username r in
        mret (Ok true)
    | Some "" => mret (Ok true)
    | Some runID =>
        let query run := str_eq (cr_ExperimentID run) workflowID && str_eq (cr_ExperimentRunID run) runID in
        let? workflowRun := GetExperimentRun query in
        let workflowRun := set_run_audit (set_is_removed true (cr_Audit workflowRun)) workflowRun in
        let? _ := ProcessExperimentRunDelete query (Some runID) workflowRun workflow username r in
        mret (Ok true)
    end.

Definition UpdateCronExperimentState (workflowID : string) (disable : bool) (projectID : string) (r : bool)
    (username : string) : GM (res bool) :=
  let! experiment := GetExperiment (live_experiment workflowID projectID)
  or e => mret (Err (ErrNew ("could not get experiment run, error: " +:+ error_text e))) in
  let! infra := GetInfraDoc (ex_InfraID experiment)
  or e => mret (Err (ErrNew ("failed to get infra for infraID: " +:+ ex_InfraID experiment +:+ ", error: " +:+
                             error_text e))) in
  if negb (in_IsActive infra) then mret (Err (ErrNew "cron experiement updation failed due to inactive infra, err: <nil>"))
  else
    match latest_revision (ex_Revision experiment) with
    | None => mret (Err (ErrNew "no revisions found"))
    | Some rev =>
        match read_cron (rv_ExperimentManifest rev) with
        | Err msg => mret (Err (ErrNew ("failed to unmarshal experiment manifest, error: " +:+ msg)))
        | Panic => mret Panic
        | Ok k =>
            let k := set_cw_suspend disable k in
            let! updatedManifest := mret (write_cron k)
            or e => mret (Err (ErrNew ("failed to marshal workflow manifest, error: " +:+ error_text e))) in
            let? _ := ProcessExperimentUpdate
              (mkExperimentInput (Some workflowID) None updatedManifest "" (ex_Name experiment) "" [] false "" [])
              workflowID username (ex_ExperimentType experiment) (rv_RevisionID rev) true (ex_ProjectID experiment) false in
            let? k := UpdateRuntimeCronWorkflowConfiguration k experiment in
            let! updatedManifest := mret (write_cron k)
            or _ => mret (Err (ErrNew "failed to marshal workflow manifest")) in
            let! k := GenerateCronExperimentManifestWithProbes updatedManifest (ex_ProjectID experiment)
            or e => mret (Err (ErrNew ("failed to unmarshal experiment manifest, error: " +:+ error_text e))) in
            let! updatedManifest := mret (write_cron k)
            or _ => mret (Err (ErrNew "failed to marshal workflow manifest")) in
            let? _ := send_if r (SendExperimentToSubscriber projectID updatedManifest (ex_InfraID experiment)
                                   (Some username) None "update") in
            mret (Ok true)
        end
    end.

(** ** Running an experiment *)
Definition RunCronExperiment (ctx : Ctx) (projectID : string) (workflow : ChaosExperimentRequest) (r : bool) :
    GM (res unit) :=
  match latest_revision (ex_Revision workflow) with
  | None => mret (Err (ErrNew "no revisions found"))
  | Some rev =>
      let! k := GenerateCronExperimentManifestWithProbes (rv_ExperimentManifest rev) (ex_ProjectID workflow)
      or _ => mret (Err (ErrNew "failed to unmarshal experiment manifest")) in
      let? done := runtime_templates false (ex_InfraID workflow) (cw_Templates k) in
      let? manifest := mret (yaml_cron (set_cw_templates done.1 k)) in
      let? username := ctx_username ctx in
      send_if r (SendExperimentToSubscriber projectID manifest (ex_InfraID workflow) (Some username) None "create")
  end.

Definition queued_detail (projectID notifyID username : string) (sequence t : Z) : ExperimentRunDetail :=
  mkRunDetail (mkGAudit t t (named_user username) (named_user username) false) projectID "" ExperimentRunStatusQueued
    (Some notifyID) None false sequence [].
Definition queued_run (workflow : ChaosExperimentRequest) (revisionID projectID notifyID username data : string)
    (probes : list Probes) (sequence t : Z) : ChaosExperimentRun :=
  mkRun projectID (mkGAudit t t (named_user username) (named_user username) false) (ex_InfraID workflow) ""
    (ex_ExperimentID workflow) "" ExperimentRunStatusQueued probes data revisionID (Some notifyID)
    (Some (S754_zero false)) None sequence false.

Definition by_experiment_id (experimentID : string) (e : ChaosExperimentRequest) : bool :=
  str_eq (ex_ExperimentID e) experimentID.

(** The body of the transaction: an error of the first write is only logged. *)
Definition queue_run (workflow : ChaosExperimentRequest) (run : ChaosExperimentRun) (detail : ExperimentRunDetail)
    (sequence t : Z) : GM (res unit) :=
  let! _ := (let! _ := UpdateChaosExperiment (by_experiment_id (ex_ExperimentID workflow))
               (λ e, push_recent detail (set_total sequence (set_ex_audit (set_updated_at t (ex_Audit e)) e)))
             or _ => mret (Ok tt) in mret (Ok tt))
  or e => mret (Err e) in
  CreateExperimentRun run.

(** The workflow with the label and the name of this run. *)
Definition name_run (k : Workflow) (notifyID : string) (t : Z) : Workflow :=
  mkWorkflow (wk_Name k +:+ "-" +:+ Itoa t) (<["notify_id" := notifyID]> (wk_Labels k)) (wk_Templates k) (wk_Other k).

Definition run_workflow (ctx : Ctx) (projectID : string) (workflow : ChaosExperimentRequest) (rev : ExperimentRevision)
    (currentTime : Z) (r : bool) : GM (res string) :=
  notifyID ← NewUUID;
  match read_workflow (rv_ExperimentManifest rev) with
  | Err _ => mret (Err (ErrNew "failed to unmarshal workflow manifest"))
  | Panic => mret Panic
  | Ok k =>
      if bool_decide (wk_Labels k !! "infra_id" = None)
      then mret (Err (ErrNew "failed to rerun the chaos experiment due to invalid metadata/labels. Check the troubleshooting guide or contact support"))
      else
        let k := name_run k notifyID currentTime in
        let? done := runtime_templates true (ex_InfraID workflow) (wk_Templates k) in
        let k := set_wk_templates done.1 k in
        let? _ := UpdateChaosExperiment (by_experiment_id (ex_ExperimentID workflow))
                    (λ e, set_ex_audit (set_updated_at currentTime (ex_Audit e)) e) in
        let? parsedData := mret (queued_data (wk_Name k) (ex_ExperimentID workflow)) in
        let? username := ctx_username ctx in
        let? _ := call_out txn_start_session in
        let sequence := int64 (ex_TotalExperimentRuns workflow + 1) in
        let? _ := run_transaction (queue_run workflow
          (queued_run workflow (rv_RevisionID rev) projectID notifyID username parsedData done.2 sequence currentTime)
          (queued_detail projectID notifyID username sequence currentTime) sequence currentTime) in
        let! manifestString := mret (write_workflow k)
        or e => mret (Err (ErrNew ("failed to marshal experiment manifest, err: " +:+ error_text e))) in
        let! k := GenerateExperimentManifestWithProbes manifestString projectID
        or e => mret (Err (ErrNew ("failed to generate probes in workflow manifest, err: " +:+ error_text e))) in
        let? manifest := mret (yaml_workflow k) in
        let? _ := send_if r (SendExperimentToSubscriber projectID manifest (ex_InfraID workflow) (Some username) None
                               "create") in
        mret (Ok notifyID)
  end.

(** The answer is the notification identifier, empty for a cron experiment. *)
Definition RunChaosWorkFlow (ctx : Ctx) (projectID : string) (workflow : ChaosExperimentRequest) (r : bool) :
    GM (res string) :=
  let? infra := GetInfraDoc (ex_InfraID workflow) in
  if negb (in_IsActive infra) then mret (Err (ErrNew "experiment re-run failed due to inactive infra"))
  else
    currentTime ← now;
    match latest_revision (ex_Revision workflow) with
    | None => mret (Err (ErrNew "no revisions found"))
    | Some rev =>
        if lower_eq (kind_of (rv_ExperimentManifest rev)) "cronworkflow" then
          let? _ := RunCronExperiment ctx projectID workflow r in
          mret (Ok "")
        else run_workflow ctx projectID workflow rev currentTime r
    end.

(** ** The resolvers *)
Definition mutation_CreateChaosExperiment (ctx : Ctx) (request : ExperimentInput) (projectID : string) :
    GM (res ChaosExperimentResponse) :=
  let? _ := ValidateRole ctx projectID (MutationRbacRules CreateEnvironmentRole) InvitationAccepted in
  let? username := ctx_username ctx in
  let! uiResponse := CreateChaosExperiment ctx request projectID username
  or e => mret (Err (ErrNew ("could not create experiment, error: " +:+ error_text e))) in
  if default false (xi_RunExperiment request) then
    let! experiment := GetExperiment (λ e, by_experiment_id (xp_ExperimentID uiResponse) e && negb (au_IsRemoved (ex_Audit e)))
    or e => mret (Err (ErrNew ("could not get experiment run, error: " +:+ error_text e))) in
    if negb (str_eq (ex_CronSyntax experiment) "") then
      let? _ := RunCronExperiment ctx projectID experiment true in
      mret (Ok uiResponse)
    else
      let? _ := RunChaosWorkFlow ctx projectID experiment true in
      mret (Ok uiResponse)
  else mret (Ok uiResponse).

Definition mutation_SaveChaosExperiment (ctx : Ctx) (request : SaveChaosExperimentRequest) (projectID : string) :
    GM (res string) :=
  let? _ := ValidateRole ctx projectID (MutationRbacRules CreateChaosExperimentRole) InvitationAccepted in
  let? username := ctx_username ctx in
  SaveChaosExperiment ctx request projectID username.

Definition mutation_UpdateChaosExperiment (ctx : Ctx) (request : ExperimentInput) (projectID : string) :
    GM (res ChaosExperimentResponse) :=
  let? _ := ValidateRole ctx projectID (MutationRbacRules ReRunChaosExperiment) InvitationAccepted in
  let? username := ctx_username ctx in
  UpdateChaosExperimentHandler ctx request projectID true username.

Definition mutation_DeleteChaosExperiment (ctx : Ctx) (experimentID : string) (experimentRunID : option string)
    (projectID : string) : GM (res bool) :=
  let? _ := ValidateRole ctx projectID (MutationRbacRules DeleteChaosExperimentRole) InvitationAccepted in
  let? username := ctx_username ctx in
  DeleteChaosExperiment ctx projectID experimentID experimentRunID true username.

Definition mutation_UpdateCronExperimentState (ctx : Ctx) (experimentID : string) (disable : bool) (projectID : string) :
    GM (res bool) :=
  let? _ := ValidateRole ctx projectID (MutationRbacRules UpdateChaosExperimentRole) InvitationAccepted in
  let? username := ctx_username ctx in
  UpdateCronExperimentState experimentID disable projectID true username.

Definition mutation_RunChaosExperiment (ctx : Ctx) (experimentID projectID : string) : GM (res string) :=
  let? _ := ValidateRole ctx projectID (MutationRbacRules ReRunChaosExperiment) InvitationAccepted in
  let! experiment := GetExperiment (λ e, by_experiment_id experimentID e && negb (au_IsRemoved (ex_Audit e)))
  or e => mret (Err (ErrNew ("could not get experiment run, error: " +:+ error_text e))) in
  RunChaosWorkFlow ctx projectID experiment true.

Definition mutation_StopExperimentRuns (ctx : Ctx) (projectID experimentID : string)
    (experimentRunID notifyID : option string) : GM (res bool) :=
  let? _ := ValidateRole ctx projectID (MutationRbacRules StopChaosExperiment) InvitationAccepted in
  StopExperimentRuns projectID experimentID experimentRunID notifyID true "".
End service.
