(* ===== verification/ExperimentListing.v ===== *)
(** * ExperimentListing.v: experiments and runs as the browser sees them

    [GetExperiment], [ListExperiment] and [GetExperimentStats] of
    [graphql/server/pkg/chaos_experiment/handler/handler.go]; [GetExperimentRun],
    [ListExperimentRun] and [GetExperimentRunStats] of
    [pkg/chaos_experiment_run/handler/handler.go]; their resolvers. Each is one
    aggregation with joins, whose documents are then copied into an answer. *)
From S2P Require Import Prelude World GoStd Float64 AuthRepo GraphDocs Experiments RunScore RunEvent.
From S2P Require Import Pipelines Authorization Environments Infrastructure ProbeProperties Manifests Probes.
From S2P Require Import ExperimentOps ExperimentService GitRepo GitOps ExperimentHandlers.
From Stdlib Require Import SpecFloat.
Local Open Scope string_scope.
Local Open Scope Z_scope.

(** ** Requests *)
Definition ScheduleTypeCron : string := "CRON".
Definition ScheduleTypeNonCron : string := "NON_CRON".
Definition ScheduleTypeAll : string := "ALL".

Record DateRange : Type := mkDateRange { dr_StartDate : string; dr_EndDate : option string }.
Inductive ExperimentSortingField : Type := ExperimentSortingFieldName | ExperimentSortingFieldTime.
Record ExperimentSortInput : Type := mkExperimentSort { xs_Field : ExperimentSortingField; xs_Ascending : option bool }.
(** The name of the infrastructure and the status in the filter are not read. *)
Record ExperimentFilterInput : Type := mkExperimentFilter {
  xf_ExperimentName : option string; xf_InfraID : option string; xf_InfraActive : option bool;
  xf_ScheduleType : option string; xf_DateRange : option DateRange; xf_InfraTypes : list string
}.
Record ListExperimentRequest : Type := mkListExperiment {
  lx_ExperimentIDs : list (option string); lx_Pagination : option PageInput; lx_Sort : option ExperimentSortInput;
  lx_Filter : option ExperimentFilterInput
}.
(** The type of the experiment and of the infrastructure in the filter are not
    read. *)
Record ExperimentRunFilterInput : Type := mkRunFilter {
  rf_ExperimentName : option string; rf_InfraID : option string; rf_ExperimentStatus : option string;
  rf_DateRange : option DateRange; rf_ExperimentRunID : option string; rf_ExperimentRunStatus : list (option string)
}.
Record ListExperimentRunRequest : Type := mkListRuns {
  lr_ExperimentRunIDs : list (option string); lr_ExperimentIDs : list (option string); lr_Pagination : option PageInput;
  lr_Sort : option ExperimentSortInput; lr_Filter : option ExperimentRunFilterInput
}.

(** ** Answers *)

(** [model.Infra], as far as the handlers fill it. *)
Record JoinedInfra : Type := mkJoinedInfra {
  ji_InfraID : string; ji_Name : string; ji_EnvironmentID : string; ji_Description : string; ji_PlatformName : string;
  ji_IsActive : bool; ji_UpdatedAt : string; ji_CreatedAt : string; ji_InfraNamespace : option string;
  ji_ServiceAccount : option string; ji_InfraScope : string; ji_StartTime : string; ji_Version : string;
  ji_Tags : list string; ji_InfraType : option string
}.
Record RecentExperimentRun : Type := mkRecentRun {
  rr_ExperimentRunID : string; rr_Phase : string; rr_ResiliencyScore : option spec_float; rr_UpdatedBy : mongodb_User;
  rr_CreatedBy : mongodb_User; rr_UpdatedAt : string; rr_CreatedAt : string; rr_RunSequence : Z
}.
Record ExperimentOutput : Type := mkExperimentOutput {
  xo_ProjectID : string; xo_ExperimentID : string; xo_ExperimentType : option string; xo_ExperimentManifest : string;
  xo_CronSyntax : string; xo_Name : string; xo_Description : string; xo_Weightages : list WeightagesInput;
  xo_IsCustomExperiment : bool; xo_UpdatedAt : string; xo_CreatedAt : string; xo_Infra : option JoinedInfra;
  xo_IsRemoved : bool; xo_Tags : list string; xo_CreatedBy : string; xo_UpdatedBy : string;
  xo_Recent : list RecentExperimentRun
}.
Record GetExperimentResponse : Type := mkGetExperiment {
  gx_ExperimentDetails : ExperimentOutput; gx_AverageResiliencyScore : spec_float
}.
Record ListExperimentResponse : Type := mkListExperimentResponse {
  lxr_TotalNoOfExperiments : Z; lxr_Experiments : list ExperimentOutput
}.
Record ResilienceScoreCategory : Type := mkScoreCategory { sg_ID : Z; sg_Count : Z }.
Record GetExperimentStatsResponse : Type := mkExperimentStats {
  xt_TotalExperiments : Z; xt_ByScore : list ResilienceScoreCategory
}.
Record ExperimentRunOutput : Type := mkRunOutput {
  ro_ProjectID : string; ro_ExperimentRunID : string; ro_ExperimentType : string; ro_ExperimentID : string;
  ro_Weightages : list WeightagesInput; ro_UpdatedAt : string; ro_CreatedAt : string; ro_Infra : option JoinedInfra;
  ro_ExperimentName : string; ro_ExperimentManifest : string; ro_Phase : string; ro_ResiliencyScore : option spec_float;
  ro_Faults : option FaultCounts; ro_ExecutionData : string; ro_IsRemoved : bool; ro_UpdatedBy : string;
  ro_NotifyID : option string; ro_RunSequence : Z
}.
Record ListExperimentRunResponse : Type := mkListRunResponse {
  lrr_TotalNoOfExperimentRuns : Z; lrr_ExperimentRuns : list ExperimentRunOutput
}.
Record GetExperimentRunStatsResponse : Type := mkRunStats {
  rt_Total : Z; rt_Completed : Z; rt_Terminated : Z; rt_Running : Z; rt_Stopped : Z; rt_Errored : Z
}.

(** ** What the database computes *)

(** [$avg] of numbers. *)
Class MongoAvg := mongo_avg : list spec_float → spec_float.

(** [$in] with an array of pointers. *)
Definition opt_in (x : string) (l : list (option string)) : bool := bool_decide (Some x ∈ l).

(** A text of the filter that is set, not empty and not "All". *)
Definition chosen {A} (f : string → A) (o : option string) : list A :=
  match given o with Some x => when (negb (str_eq x "All")) (f x) | None => [] end.

(** An order by a key, ascending or descending. *)
Definition ordered {D K} (le : K → K → bool) (key : D → K) (ascending : option bool) (d d' : D) : bool :=
  match ascending with Some true => le (key d) (key d') | _ => le (key d') (key d) end.
Definition Zle (x y : Z) : bool := bool_decide (x ≤ y).
(** A missing name comes before every name. *)
Definition name_le (x y : option string) : bool :=
  match x, y with None, _ => true | Some _, None => false | Some a, Some b => String.leb a b end.

Definition paged {D} (sort : D → D → bool) (p : option PageInput) : list (PStage D) :=
  StSort sort ::
  match p with
  | Some p => [StSkip (int64 (pa_Page p * pa_Limit p)); StLimit (pa_Limit p)]
  | None => [StLimit 15]
  end.

(** Documents of experiments have no field [infra_type]. *)
Definition experiment_infra_type (e : ChaosExperimentRequest) : option string := None.

Definition schedule_type (s : string) : string :=
  if str_eq s ScheduleTypeNonCron then NonCronExperiment else if str_eq s ScheduleTypeCron then CronExperiment else "".

Definition joined_infra (withType : bool) (i : ChaosInfra) : JoinedInfra :=
  mkJoinedInfra (in_InfraID i) (rs_Name (in_Resource i)) (in_EnvironmentID i) (rs_Description (in_Resource i))
    (in_PlatformName i) (in_IsActive i) (Itoa (au_UpdatedAt (in_Audit i))) (Itoa (au_CreatedAt (in_Audit i)))
    (in_InfraNamespace i) (in_ServiceAccount i) (in_InfraScope i) (in_StartTime i) (in_Version i)
    (rs_Tags (in_Resource i)) (if withType then Some (in_InfraType i) else None).

Section dates.
Context `{Runtime}.

(** The bounds of a date range; the clock is read in any case. *)
Definition date_range (r : option DateRange) : GM (res (option (Z * Z))) :=
  match r with
  | None => mret (Ok None)
  | Some r =>
      t ← now;
      let? endDate := mret (match dr_EndDate r with
                            | None => Ok t
                            | Some s => match Atoi s with Some z => Ok z | None => Err (ErrNew "unable to parse end date") end
                            end) in
      let? startDate := mret (match Atoi (dr_StartDate r) with
                              | Some z => Ok z
                              | None => Err (ErrNew "unable to parse start date")
                              end) in
      mret (Ok (Some (startDate, endDate)))
  end.
Definition in_range (range : option (Z * Z)) (t : Z) : bool :=
  match range with Some (a, b) => bool_decide (t ≤ b) && bool_decide (a ≤ t) | None => true end.
End dates.

Section listing.
Context `{MongoDriver} `{Runtime} `{MongoRegex} `{LookupOrder} `{MongoAvg} `{FloatToInt} `{Crypto} `{AuthClient}.

(** *** Joins *)
Definition infras_of (s : GraphDB) (n : nat) (infraID : string) : list ChaosInfra :=
  lookup_order n (List.filter (λ i, str_eq (in_InfraID i) infraID) (g_infras s)).
(** [$group] with [$avg] over the completed runs: no document without runs, null
    when no run has a score. *)
Definition completed_runs (s : GraphDB) (n : nat) (experimentID : string) : list ChaosExperimentRun :=
  lookup_order n (List.filter (λ r, str_eq (cr_ExperimentID r) experimentID && cr_Completed r) (g_runs s)).
Definition avg_resiliency_score (runs : list ChaosExperimentRun) : list (option spec_float) :=
  match runs with
  | [] => []
  | _ => [match omap cr_ResiliencyScore runs with [] => None | scores => Some (mongo_avg scores) end]
  end.

(** *** Experiments *)

(** The weightages of the last revision, unless those of the first one are nil; a
    weightage that is nil is dereferenced. *)
Definition shown_weightages (revisions : list ExperimentRevision) : res (list WeightagesInput) :=
  match revisions, last revisions with
  | first :: _, Some rev =>
      match rv_Weightages first with
      | None => Ok []
      | Some _ => match all_weightages (revision_weights rev) with Some l => Ok l | None => Panic end
      end
  | _, _ => Panic
  end.
Definition recent_run (listing : bool) (v : ExperimentRunDetail) : RecentExperimentRun :=
  let by_ := if listing then mkUserResponse "" (ur_Username (au_UpdatedBy (rd_Audit v))) ""
             else mkUserResponse (ur_UserID (au_UpdatedBy (rd_Audit v))) (ur_Username (au_UpdatedBy (rd_Audit v))) "" in
  let created := if listing then by_
                 else mkUserResponse (ur_UserID (au_CreatedBy (rd_Audit v))) (ur_Username (au_CreatedBy (rd_Audit v))) "" in
  mkRecentRun (rd_ExperimentRunID v) (rd_Phase v) (rd_ResiliencyScore v) by_ created
    (Itoa (au_UpdatedAt (rd_Audit v))) (Itoa (au_CreatedAt (rd_Audit v))) (rd_RunSequence v).

(** The listing leaves the project out, the single experiment its type. *)
Definition experiment_output (listing : bool) (e : ChaosExperimentRequest) (infras : list ChaosInfra) :
    res ExperimentOutput :=
  match shown_weightages (ex_Revision e), last (ex_Revision e) with
  | Ok weightages, Some rev =>
      Ok (mkExperimentOutput (if listing then "" else ex_ProjectID e) (ex_ExperimentID e)
        (if listing then Some (ex_ExperimentType e) else None) (rv_ExperimentManifest rev) (ex_CronSyntax e) (ex_Name e)
        (ex_Description e) weightages (ex_IsCustomExperiment e) (Itoa (au_UpdatedAt (ex_Audit e)))
        (Itoa (au_CreatedAt (ex_Audit e))) (joined_infra true <$> head infras) (au_IsRemoved (ex_Audit e)) (ex_Tags e)
        (ur_Username (au_UpdatedBy (ex_Audit e))) (ur_Username (au_UpdatedBy (ex_Audit e)))
        (recent_run listing <$> ex_RecentExperimentRunDetails e))
  | _, _ => Panic
  end.

Definition GetExperimentHandler (projectID experimentID : string) : GM (res GetExperimentResponse) := λ w,
  (let! expDetails := Aggregate (List.filter (live_experiment experimentID projectID))
   or e => mret (Err (ErrNew ("DB aggregate stage error: " +:+ error_text e))) in
   match expDetails with
   | [] => mret (Err (ErrNew "no matching experiments"))
   | exp :: _ =>
       match infras_of (db w) (tick w) (ex_InfraID exp) with
       | [] => mret (Err (ErrNew "no matching infra found for given expDetails"))
       | infras =>
           let? details := mret (experiment_output false exp infras) in
           mret (match avg_resiliency_score (completed_runs (db w) (tick w) (ex_ExperimentID exp)) with
                 | [] => Ok (mkGetExperiment details (S754_zero false))
                 | Some avg :: _ => Ok (mkGetExperiment details (Truncate avg))
                 | None :: _ => Panic
                 end)
       end
   end) w.

(** The filter on the schedule. *)
Definition schedule_match (o : option string) : list (ChaosExperimentRequest → bool) :=
  match o with
  | Some t => when (negb (str_eq t ScheduleTypeAll)) (λ e, str_eq (ex_ExperimentType e) (schedule_type t))
  | None => []
  end.
(** An experiment without infrastructure passes the filter on its state: the
    expression is then an array, which counts as true. *)
Definition active_match (s : GraphDB) (n : nat) (o : option bool) : list (ChaosExperimentRequest → bool) :=
  match o with
  | Some active => [λ e, match infras_of s n (ex_InfraID e) with
                         | [] => true
                         | infras => existsb (λ i, Bool.eqb (in_IsActive i) active) infras
                         end]
  | None => []
  end.
Definition experiment_filter (s : GraphDB) (n : nat) (range : option (Z * Z)) (f : ExperimentFilterInput) :
    list (ChaosExperimentRequest → bool) :=
  (given_match (λ x e, regex_find "" x (ex_Name e)) (xf_ExperimentName f) ++
   chosen (λ x e, str_eq (ex_InfraID e) x) (xf_InfraID f) ++
   schedule_match (xf_ScheduleType f) ++
   when (negb (bool_decide (xf_InfraTypes f = [])))
     (λ e, match experiment_infra_type e with Some t => str_in t (xf_InfraTypes f) | None => false end) ++
   [λ e, in_range range (au_UpdatedAt (ex_Audit e))] ++
   active_match s n (xf_InfraActive f))%list.
Definition experiment_matches (s : GraphDB) (n : nat) (projectID : string) (request : ListExperimentRequest)
    (range : option (Z * Z)) : list (ChaosExperimentRequest → bool) :=
  (when (negb (bool_decide (lx_ExperimentIDs request = []))) (λ e, opt_in (ex_ExperimentID e) (lx_ExperimentIDs request)) ++
   [λ e, str_eq (ex_ProjectID e) projectID; λ e, negb (au_IsRemoved (ex_Audit e))] ++
   match lx_Filter request with None => [] | Some f => experiment_filter s n range f end)%list.
(** Sorting before the filters leaves no trace: documents that the last sort does
    not tell apart come in any order. *)
Definition experiment_sort (sort : option ExperimentSortInput) : ChaosExperimentRequest → ChaosExperimentRequest → bool :=
  match sort with
  | Some (mkExperimentSort ExperimentSortingFieldTime asc) => ordered Zle (au_UpdatedAt ∘ ex_Audit) asc
  | Some (mkExperimentSort ExperimentSortingFieldName asc) => ordered String.leb ex_Name asc
  | None => ordered Zle (au_UpdatedAt ∘ ex_Audit) None
  end.

(** All answers, or the first panic. *)
Fixpoint all_ok {A} (l : list (res A)) : res (list A) :=
  match l with
  | [] => Ok []
  | Ok a :: l => match all_ok l with Ok l => Ok (a :: l) | Err e => Err e | Panic => Panic end
  | Err e :: _ => Err e
  | Panic :: _ => Panic
  end.

Definition ListExperiment (projectID : string) (request : ListExperimentRequest) : GM (res ListExperimentResponse) :=
  let? range := date_range (lx_Filter request ≫= xf_DateRange) in
  λ w,
  (let! found := AggregatePage (StMatch <$> experiment_matches (db w) (tick w) projectID request range)
                   (paged (experiment_sort (lx_Sort request)) (lx_Pagination request))
   or e => mret (Err (ErrNew ("DB aggregate stage error: " +:+ error_text e))) in
   let '(count, page) := found in
   let? result := mret (all_ok ((λ e, experiment_output true e (infras_of (db w) (tick w) (ex_InfraID e))) <$> page)) in
   mret (Ok (mkListExperimentResponse count result))) w.

(** *** Statistics of experiments *)

(** [$bucket] with the boundaries 0, 40, 80, 101 and the default 101. *)
Definition bucket_of (avg : option spec_float) : Z :=
  match avg with
  | None => 101
  | Some s =>
      let below z := SFltb s (float64 z) in
      if negb (SFleb (float64 0) s) then 101
      else if below 40 then 0 else if below 80 then 40 else if below 101 then 80 else 101
  end.
Definition bucket_counts (ids : list Z) : list ResilienceScoreCategory :=
  List.filter (λ c, negb (bool_decide (sg_Count c = 0)))
    ((λ b, mkScoreCategory b (Z.of_nat (length (List.filter (λ i, bool_decide (i = b)) ids)))) <$> [0; 40; 80; 101]).

Definition live_in (projectID : string) (e : ChaosExperimentRequest) : bool :=
  str_eq (ex_ProjectID e) projectID && negb (au_IsRemoved (ex_Audit e)).
(** [$unwind] leaves out the experiments without an average. *)
Definition score_buckets (s : GraphDB) (n : nat) (projectID : string) (l : list ChaosExperimentRequest) : list Z :=
  List.filter (live_in projectID) l ≫= λ e, bucket_of <$> avg_resiliency_score (completed_runs s n (ex_ExperimentID e)).

Definition GetExperimentStats (projectID : string) : GM (res GetExperimentStatsResponse) := λ w,
  (let! res := Aggregate (λ l : list ChaosExperimentRequest,
     [(Z.of_nat (length (List.filter (live_in projectID) l)), bucket_counts (score_buckets (db w) (tick w) projectID l))])
   or e => mret (Err (ErrNew ("DB aggregate stage: " +:+ error_text e))) in
   match res with
   | [] => mret Panic
   | (total, categories) :: _ => mret (Ok (mkExperimentStats total categories))
   end) w.

(** *** Runs *)

(** The experiment of a run, with the revisions the run is of. *)
Definition experiments_of_run (s : GraphDB) (n : nat) (r : ChaosExperimentRun) : list ChaosExperimentRequest :=
  lookup_order n (List.filter (λ e, str_eq (ex_ExperimentID e) (cr_ExperimentID r)) (g_experiments s)).
Definition revision_of_run (e : ChaosExperimentRequest) (r : ChaosExperimentRun) : option ExperimentRevision :=
  head (List.filter (is_revision (cr_RevisionID r)) (ex_Revision e)).

Definition run_output (r : ChaosExperimentRun) (e : option ChaosExperimentRequest) (infra : option JoinedInfra)
    (notifyID : option string) : res ExperimentRunOutput :=
  let rev := e ≫= λ e, revision_of_run e r in
  match all_weightages (default [] (revision_weights <$> rev)) with
  | None => Panic
  | Some weightages =>
      Ok (mkRunOutput (cr_ProjectID r) (cr_ExperimentRunID r) (default "" (ex_ExperimentType <$> e)) (cr_ExperimentID r)
        weightages (Itoa (au_UpdatedAt (cr_Audit r))) (Itoa (au_CreatedAt (cr_Audit r))) infra
        (default "" (ex_Name <$> e)) (default "" (rv_ExperimentManifest <$> rev)) (cr_Phase r) (cr_ResiliencyScore r)
        (cr_Faults r) (cr_ExecutionData r) (au_IsRemoved (cr_Audit r)) (ur_Username (au_UpdatedBy (cr_Audit r)))
        notifyID (cr_RunSequence r))
  end.

(** A run and its experiment: the experiment is indexed without a test. *)
Definition single_run (s : GraphDB) (n : nat) (r : ChaosExperimentRun) : res ExperimentRunOutput :=
  match experiments_of_run s n r with
  | [] => Panic
  | e :: _ => run_output r (Some e) (joined_infra false <$> head (infras_of s n (cr_InfraID r))) (cr_NotifyID r)
  end.

(** A condition is added for each identifier that is given and not empty. *)
Definition one_run_matches (projectID : string) (experimentRunID notifyID : option string) : list (ChaosExperimentRun → bool) :=
  let own (r : ChaosExperimentRun) := str_eq (cr_ProjectID r) projectID && negb (au_IsRemoved (cr_Audit r)) in
  (given_match (λ x r, str_eq (cr_ExperimentRunID r) x && own r) experimentRunID ++
   given_match (λ x r, bool_decide (cr_NotifyID r = Some x) && own r) notifyID)%list.

Definition find_run (projectID : string) (experimentRunID notifyID : option string) : GM (res ExperimentRunOutput) := λ w,
  (let! found := Aggregate (run_pipeline (StMatch <$> one_run_matches projectID experimentRunID notifyID))
   or e => mret (Err (ErrNew ("DB aggregate stage error: " +:+ error_text e))) in
   match found with
   | [] => mret (Err (ErrNew "no matching experiment run"))
   | first :: _ =>
       match infras_of (db w) (tick w) (cr_InfraID first) with
       | [] => mret (Err (ErrNew "no matching infra found for given experiment run"))
       | _ =>
           let? all := mret (all_ok (single_run (db w) (tick w) <$> found)) in
           mret (match last all with Some response => Ok response | None => Panic end)
       end
   end) w.
Definition GetExperimentRunHandler (projectID : string) (experimentRunID notifyID : option string) :
    GM (res ExperimentRunOutput) :=
  match experimentRunID, notifyID with
  | None, None => mret (Err (ErrNew "experimentRunID or notifyID not provided"))
  | _, _ => find_run projectID experimentRunID notifyID
  end.

Definition list_run_matches (s : GraphDB) (n : nat) (projectID : string) (request : ListExperimentRunRequest)
    (range : option (Z * Z)) : list (ChaosExperimentRun → bool) :=
  ([λ r, str_eq (cr_ProjectID r) projectID] ++
   when (negb (bool_decide (lr_ExperimentRunIDs request = [])))
     (λ r, opt_in (cr_ExperimentRunID r) (lr_ExperimentRunIDs request)) ++
   when (negb (bool_decide (lr_ExperimentIDs request = []))) (λ r, opt_in (cr_ExperimentID r) (lr_ExperimentIDs request)) ++
   [λ r, negb (au_IsRemoved (cr_Audit r))] ++
   match lr_Filter request with
   | None => []
   | Some f =>
       given_match (λ x r, existsb (λ e, regex_find "" x (ex_Name e)) (experiments_of_run s n r)) (rf_ExperimentName f) ++
       given_match (λ x r, regex_find "" x (cr_ExperimentRunID r)) (rf_ExperimentRunID f) ++
       when (negb (bool_decide (rf_ExperimentRunStatus f = []))) (λ r, opt_in (cr_Phase r) (rf_ExperimentRunStatus f)) ++
       chosen (λ x r, str_eq (cr_InfraID r) x) (rf_InfraID f) ++
       chosen (λ x r, str_eq (cr_Phase r) x) (rf_ExperimentStatus f) ++
       [λ r, in_range range (au_UpdatedAt (cr_Audit r))]
   end)%list.
(** The name of the experiment is in an array of at most one element, the
    identifier being unique. *)
Definition run_sort (s : GraphDB) (n : nat) (sort : option ExperimentSortInput) :
    ChaosExperimentRun → ChaosExperimentRun → bool :=
  match sort with
  | Some (mkExperimentSort ExperimentSortingFieldTime asc) => ordered Zle (au_CreatedAt ∘ cr_Audit) asc
  | Some (mkExperimentSort ExperimentSortingFieldName asc) =>
      ordered name_le (λ r, ex_Name <$> head (experiments_of_run s n r)) asc
  | None => ordered Zle (au_CreatedAt ∘ cr_Audit) None
  end.

Definition ListExperimentRun (projectID : string) (request : ListExperimentRunRequest) : GM (res ListExperimentRunResponse) :=
  let? range := date_range (lr_Filter request ≫= rf_DateRange) in
  λ w,
  (let! found := AggregatePage (StMatch <$> list_run_matches (db w) (tick w) projectID request range)
                   (paged (run_sort (db w) (tick w) (lr_Sort request)) (lr_Pagination request))
   or e => mret (Err (ErrNew ("DB aggregate stage error: " +:+ error_text e))) in
   let '(count, page) := found in
   let? result := mret (all_ok ((λ r, run_output r (head (experiments_of_run (db w) (tick w) r))
                                   (joined_infra true <$> head (infras_of (db w) (tick w) (cr_InfraID r))) None) <$> page)) in
   mret (Ok (mkListRunResponse count result))) w.

(** [$group] by phase: one document for each phase that occurs, in any order. *)
Fixpoint phase_counts (l : list string) (acc : gmap string Z) : gmap string Z :=
  match l with
  | [] => acc
  | p :: l => phase_counts l (<[p := default 0 (acc !! p) + 1]> acc)
  end.
Definition run_phases (projectID : string) (l : list ChaosExperimentRun) : gmap string Z :=
  phase_counts (cr_Phase <$> List.filter (λ r, str_eq (cr_ProjectID r) projectID) l) ∅.

Definition GetExperimentRunStats (projectID : string) : GM (res GetExperimentRunStatsResponse) :=
  let? res := Aggregate (λ l : list ChaosExperimentRun, map_to_list (run_phases projectID l)) in
  let resMap := foldl (λ m c, <[c.1 := c.2]> m) (∅ : gmap string Z) res in
  let count_of phase := default 0 (resMap !! phase) in
  mret (Ok (mkRunStats (foldl (λ t c, t + c.2) 0 res) (count_of ExperimentRunStatusCompleted) (count_of ExperimentRunStatusTerminated)
              (count_of ExperimentRunStatusRunning) (count_of ExperimentRunStatusStopped) (count_of ExperimentRunStatusError))).

(** ** The resolvers *)
Definition query_GetExperiment (ctx : Ctx) (projectID experimentID : string) : GM (res GetExperimentResponse) :=
  let? _ := ValidateRole ctx projectID (MutationRbacRules ListExperimentRole) InvitationAccepted in
  GetExperimentHandler projectID experimentID.
Definition query_ListExperiment (ctx : Ctx) (projectID : string) (request : ListExperimentRequest) :
    GM (res ListExperimentResponse) :=
  let? _ := ValidateRole ctx projectID (MutationRbacRules ListExperimentRole) InvitationAccepted in
  ListExperiment projectID request.
Definition query_GetExperimentStats (ctx : Ctx) (projectID : string) : GM (res GetExperimentStatsResponse) :=
  let? _ := ValidateRole ctx projectID (MutationRbacRules ListExperimentRole) InvitationAccepted in
  GetExperimentStats projectID.
Definition query_GetExperimentRun (ctx : Ctx) (projectID : string) (experimentRunID notifyID : option string) :
    GM (res ExperimentRunOutput) :=
  let? _ := ValidateRole ctx projectID (MutationRbacRules GetWorkflowRun) InvitationAccepted in
  GetExperimentRunHandler projectID experimentRunID notifyID.
Definition query_ListExperimentRun (ctx : Ctx) (projectID : string) (request : ListExperimentRunRequest) :
    GM (res ListExperimentRunResponse) :=
  let? _ := ValidateRole ctx projectID (MutationRbacRules ListWorkflowRuns) InvitationAccepted in
  ListExperimentRun projectID request.
Definition query_GetExperimentRunStats (ctx : Ctx) (projectID : string) : GM (res GetExperimentRunStatsResponse) :=
  let? _ := ValidateRole ctx projectID (MutationRbacRules ListWorkflowRuns) InvitationAccepted in
  GetExperimentRunStats projectID.
End listing.
