(* ===== verification/Isolation.v ===== *)
(** * Isolation.v: what a request may change

    A small logic for the question which documents a piece of the GraphQL server
    may touch: [stays R m] says that whatever [m] does and whatever it returns,
    the states before and after are related by the preorder [R]. Reading is
    [stays eq]; keeping the documents of other projects is the preorder
    [isolated]. *)
From S2P Require Import Prelude World GoStd AuthRepo GraphDocs Experiments RunScore RunEvent.
From S2P Require Import Pipelines Authorization Environments Infrastructure GitRepo.
From Stdlib Require Import Permutation.
Local Open Scope string_scope.
Local Open Scope Z_scope.

(** ** Code that stays inside a preorder *)
Definition stays {A} (R : relation GraphDB) (m : GM A) : Prop := ∀ w, R (db w) (db (m w).2).
Abbreviation reads := (stays eq).

Section stays.
Context {R : relation GraphDB} {HR : PreOrder R}.

Lemma stays_ret {A} (a : A) : stays R (mret a).
Proof. intros w. reflexivity. Qed.

Lemma stays_bind {A B} (m : GM A) (k : A → GM B) : stays R m → (∀ a, stays R (k a)) → stays R (m ≫= k).
Proof. intros Hm Hk w. etrans; [apply Hm|apply Hk]. Qed.

Lemma stays_on_err {E A B} `{HasPanic B} (m : GM (result E A)) (h : E → GM B) (k : A → GM B) :
  stays R m → (∀ e, stays R (h e)) → (∀ a, stays R (k a)) → stays R (on_err m h k).
Proof.
  intros Hm Hh Hk. apply stays_bind; [done|]. intros [a|e|]; [apply Hk|apply Hh|apply stays_ret].
Qed.

(** A result that is known. *)
Lemma stays_known {E A B} `{HasPanic B} (r : result E A) (h : E → GM B) (k : A → GM B) :
  (∀ e, r = Err e → stays R (h e)) → (∀ a, r = Ok a → stays R (k a)) → stays R (on_err (mret r) h k).
Proof. intros Hh Hk w. destruct r as [a|e|]; [by apply Hk|by apply Hh|reflexivity]. Qed.

(** Code that looks at the whole state first. *)
Lemma stays_at {A} (m : World GraphDB → GM A) : (∀ w, stays R (m w)) → stays R (λ w, m w w).
Proof. intros Hm w. apply Hm. Qed.

Lemma stays_reads {A} (m : GM A) : reads m → stays R m.
Proof. intros Hm w. rewrite <-(Hm w). reflexivity. Qed.

(** A state that is not committed is the old one. *)
Lemma stays_transaction `{MongoTxn} `{MongoAbort} (body : GM (res unit)) : stays R body → stays R (run_transaction body).
Proof.
  intros Hb w. unfold run_transaction.
  assert (stays R (let? _ := call_out txn_start in body)) as Hs.
  { apply stays_on_err; [|intros ?; apply stays_ret|done]. intros w0. reflexivity. }
  specialize (Hs w). destruct ((let? _ := call_out txn_start in body) w) as [r w1]. cbn in Hs.
  destruct r as [[]|e|]; cbn; [destruct (txn_commit _) as [[[]|e|] []]|..]; cbn;
    repeat case_match; simplify_eq/=; done || reflexivity.
Qed.
End stays.

(** A document that is read first is one of the database. *)
Lemma wp_found {drv : MongoDriver} {laws : MongoLaws drv} {R : relation GraphDB} {HR : PreOrder R}
    `{Collection GraphDB D} `{HasPanic B} (q : D → bool) (h : error → GM B) (k : D → GM B) w :
  (∀ e, stays R (h e)) → (∀ d, d ∈ docs (db w) → q d = true → stays R (k d)) →
  wp (on_err (FindOne q) h k) (λ _ w', R (db w) (db w')) w.
Proof.
  intros Hh Hk. wp_step. wp_use wp_FindOne. intros [d|e|] w1 [E Hd]; rewrite <-E; [|apply Hh|reflexivity].
  destruct Hd as [Hin Hq]. by apply Hk.
Qed.

(** What holds of a run that stays inside [R]. *)
Lemma stays_wp {A} (R : relation GraphDB) (m : GM A) w : stays R m → wp m (λ _ w', R (db w) (db w')) w.
Proof. intros Hm. apply Hm. Qed.

Lemma wp_reads {A} (m : GM A) w : reads m → wp m (λ _ w', db w' = db w) w.
Proof. intros Hm. symmetry. apply Hm. Qed.

Create HintDb stays.
(** One step through the code; what is left to a lemma is looked up. *)
Ltac stays_step :=
  lazymatch goal with
  | |- stays _ (mret _) => apply stays_ret
  | |- stays _ (on_err _ _ _) => apply stays_on_err; [|intros ?|intros ?]
  | |- stays _ (_ ≫= _) => apply stays_bind; [|intros ?]
  | |- stays _ (if ?b then _ else _) => destruct b eqn:?
  | |- stays _ (let '(_, _) := ?x in _) => destruct x eqn:?
  | |- stays _ (match ?x with _ => _ end) => destruct x eqn:?
  | |- stays _ _ => solve [eauto 4 with stays typeclass_instances]
  end.
Ltac stays_auto := cbv zeta; repeat stays_step.

(** ** Reads *)
Section reads.
Context {drv : MongoDriver} {rt : Runtime} {mo : MapOrder}.

Lemma reads_now : reads now. Proof. done. Qed.
Lemma reads_NewUUID : reads NewUUID. Proof. done. Qed.
Lemma reads_call_out {A} (f : nat → res A) : reads (call_out f). Proof. done. Qed.
Lemma reads_auth_call {A} (f : nat → res A) : reads (auth_call f). Proof. done. Qed.
Lemma reads_FindOne `{Collection GraphDB D} (q : D → bool) : reads (FindOne q). Proof. done. Qed.
Lemma reads_Aggregate `{Collection GraphDB D} {X} (p : list D → list X) : reads (Aggregate p). Proof. done. Qed.
Lemma reads_Find `{Collection GraphDB D} (q : D → bool) : reads (Find q). Proof. done. Qed.
Lemma reads_range_keys {A} (m : gmap string A) : reads (range_keys m). Proof. done. Qed.
Lemma reads_get_store : reads get_store. Proof. done. Qed.
Lemma reads_CountDocuments `{Collection GraphDB D} (q : D → bool) : reads (CountDocuments q).
Proof. unfold CountDocuments. stays_auto; apply reads_Aggregate. Qed.
Lemma reads_AggregatePage `{Collection GraphDB D} (s p : list (PStage D)) : reads (AggregatePage s p).
Proof. unfold AggregatePage. stays_auto; apply reads_Aggregate. Qed.
End reads.
#[export] Hint Resolve reads_now reads_NewUUID reads_call_out reads_auth_call reads_FindOne reads_Aggregate
  reads_Find reads_range_keys reads_get_store reads_CountDocuments reads_AggregatePage : stays.
#[export] Hint Extern 5 (stays ?R _) => (lazymatch R with eq => fail | _ => apply stays_reads end) : stays.

(** ** Documents of other projects *)

(** The documents that satisfy [P] stay the same, as a multiset. *)
Definition keeps {D} (P : D → bool) (l l' : list D) : Prop := List.filter P l' ≡ₚ List.filter P l.
#[export] Instance keeps_preorder {D} (P : D → bool) : PreOrder (keeps P).
Proof. unfold keeps. split; [by intros ?|]. intros x y z H1 H2. by rewrite H2. Qed.

Section keeps.
Context {D : Type} (P : D → bool).

Lemma keeps_insert key d r l l' : P d = false → insert_one_post key d r l l' → keeps P l l'.
Proof.
  intros Hd.
  assert (inserted key d l l' → keeps P l l') as Hins.
  { intros [Hp _]. unfold keeps. rewrite (filterb_perm P _ _ Hp). cbn. by rewrite Hd. }
  destruct r as [u|e|]; cbn; [done| |done]. intros (_ & [->|?] & _); [done|auto].
Qed.

Lemma keeps_updated q f l l' :
  (∀ d, d ∈ l → q d = true → P d = false ∧ P (f d) = false) → updated_some q f l l' → keeps P l l'.
Proof.
  intros HP HU. induction HU as [|d d' l l' Hd ? IH]; [done|].
  assert (keeps P l l') as IH' by (apply IH; intros; apply HP; set_solver).
  unfold keeps in *. destruct Hd as [->|[Hq ->]]; cbn; [destruct (P d); by rewrite IH'|].
  destruct (HP d) as [-> ->]; [set_solver|done..].
Qed.
End keeps.

(** Every document names the project it belongs to. *)
Class Owned (D : Type) := owner : D → string.
#[export] Instance experiment_owned : Owned ChaosExperimentRequest := ex_ProjectID.
#[export] Instance run_owned : Owned ChaosExperimentRun := cr_ProjectID.
#[export] Instance infra_owned : Owned ChaosInfra := in_ProjectID.
#[export] Instance environment_owned : Owned Environment := en_ProjectID.
#[export] Instance probe_owned : Owned Probe := pb_ProjectID.
#[export] Instance registry_owned : Owned ImageRegistry := ir_ProjectID.
#[export] Instance gitconfig_owned : Owned GitConfigDB := gd_ProjectID.
#[export] Instance hub_owned : Owned ChaosHub := hb_ProjectID.

Definition foreign {D} `{Owned D} (projectID : string) (d : D) : bool := negb (str_eq (owner d) projectID).
(** A run is out of reach when it is another project's and of none of the
    experiments [ids]. *)
Definition foreign_run (projectID : string) (ids : list string) (r : ChaosExperimentRun) : bool :=
  foreign projectID r && negb (str_in (cr_ExperimentID r) ids).

Lemma foreign_own {D} `{Owned D} projectID (d : D) : owner d = projectID → foreign projectID d = false.
Proof. intros <-. unfold foreign. by rewrite str_eq_refl. Qed.

(** Nothing of another project changed; [ids] are experiments of the project. *)
Record isolated (projectID : string) (ids : list string) (s s' : GraphDB) : Prop := mkIsolated {
  iso_experiments : keeps (foreign projectID) (g_experiments s) (g_experiments s');
  iso_runs : keeps (foreign_run projectID ids) (g_runs s) (g_runs s');
  iso_infras : keeps (foreign projectID) (g_infras s) (g_infras s');
  iso_environments : keeps (foreign projectID) (g_environments s) (g_environments s');
  iso_probes : keeps (foreign projectID) (g_probes s) (g_probes s');
  iso_registries : keeps (foreign projectID) (g_registries s) (g_registries s');
  iso_gitconfigs : keeps (foreign projectID) (g_gitconfigs s) (g_gitconfigs s');
  iso_hubs : keeps (foreign projectID) (g_hubs s) (g_hubs s');
}.
#[export] Instance isolated_preorder projectID ids : PreOrder (isolated projectID ids).
Proof.
  split; [by intros s; split|]. intros s1 s2 s3 [] []. split; etrans; done.
Qed.

(** The experiments with an identifier are all of the project: there is at most
    one, by the unique index. *)
Definition owned_id (projectID id : string) (s : GraphDB) : Prop :=
  ∀ e, e ∈ g_experiments s → ex_ExperimentID e = id → ex_ProjectID e = projectID.
(** The identifiers of the experiments of the project. *)
Definition own_ids (projectID : string) (s : GraphDB) : list string :=
  ex_ExperimentID <$> List.filter (λ e, str_eq (ex_ProjectID e) projectID) (g_experiments s).

(** ** Collections inside a preorder

    For a collection of documents that belong to projects: [shield] is the part
    that has to stay for [R] to hold. Documents of the project are never in it. *)
Class Shielded (projectID : string) (R : relation GraphDB) (D : Type) `{Collection GraphDB D} `{Owned D} := {
  shield : D → bool;
  shield_kept s l' : keeps shield (docs s) l' → R s (set_docs l' s);
  shield_own d : owner d = projectID → shield d = false;
}.
Arguments shield _ _ {D _ _ _} _ : assert.
Arguments shield_own _ {R D _ _ _} _ _ : assert.
(** Messages to agents and browsers are no documents, nor is what happens to the
    repositories. *)
Class StoreFree (R : relation GraphDB) : Prop := {
  store_free f s : R s (set_store f s);
  git_free c s : R s (add_gitcall c s);
}.

Section shields.
Context (projectID : string) (ids : list string).
Abbreviation R := (isolated projectID ids).
#[export, refine] Instance shielded_experiments : Shielded projectID R ChaosExperimentRequest := {| shield := foreign projectID |}.
Proof. all: [> intros s l' Hk; by split|intros d Hd; by apply foreign_own]. Defined.
#[export, refine] Instance shielded_runs : Shielded projectID R ChaosExperimentRun := {| shield := foreign_run projectID ids |}.
Proof.
  all: [> intros s l' Hk; by split|intros d Hd]. unfold foreign_run. by rewrite foreign_own.
Defined.
#[export, refine] Instance shielded_infras : Shielded projectID R ChaosInfra := {| shield := foreign projectID |}.
Proof. all: [> intros s l' Hk; by split|intros d Hd; by apply foreign_own]. Defined.
#[export, refine] Instance shielded_environments : Shielded projectID R Environment := {| shield := foreign projectID |}.
Proof. all: [> intros s l' Hk; by split|intros d Hd; by apply foreign_own]. Defined.
#[export, refine] Instance shielded_probes : Shielded projectID R Probe := {| shield := foreign projectID |}.
Proof. all: [> intros s l' Hk; by split|intros d Hd; by apply foreign_own]. Defined.
#[export, refine] Instance shielded_registries : Shielded projectID R ImageRegistry := {| shield := foreign projectID |}.
Proof. all: [> intros s l' Hk; by split|intros d Hd; by apply foreign_own]. Defined.
#[export, refine] Instance shielded_gitconfigs : Shielded projectID R GitConfigDB := {| shield := foreign projectID |}.
Proof. all: [> intros s l' Hk; by split|intros d Hd; by apply foreign_own]. Defined.
#[export, refine] Instance shielded_hubs : Shielded projectID R ChaosHub := {| shield := foreign projectID |}.
Proof. all: [> intros s l' Hk; by split|intros d Hd; by apply foreign_own]. Defined.
#[export] Instance isolated_store : StoreFree R.
Proof. split; intros f s; by split. Qed.
End shields.

(** ** Writes *)
Section writes.
Context {drv : MongoDriver} {laws : MongoLaws drv} {rt : Runtime} {projectID : string} {R : relation GraphDB}.

Lemma stays_InsertOne `{Shielded projectID R D} key (d : D) : shield projectID R d = false → stays R (InsertOne key d).
Proof.
  intros Hd w. destruct (wp_InsertOne key d w) as (l' & E & HI).
  rewrite E. apply shield_kept. by eapply keeps_insert.
Qed.

(** Only documents within reach are changed, and they stay within reach. *)
Definition within `{Shielded projectID R D} (q : D → bool) (f : D → D) : Prop :=
  ∀ d, q d = true → shield projectID R d = false ∧ shield projectID R (f d) = false.

Lemma stays_UpdateOne `{Shielded projectID R D} (q : D → bool) f : within q f → stays R (UpdateOne q f).
Proof.
  intros Hq w. destruct (wp_UpdateOne q f w) as (l' & E & HU).
  rewrite E. apply shield_kept. eapply keeps_updated; [intros ? _; apply Hq|by eapply update_one_some].
Qed.
Lemma stays_UpdateMany `{Shielded projectID R D} (q : D → bool) f : within q f → stays R (UpdateMany q f).
Proof.
  intros Hq w. destruct (wp_UpdateMany q f w) as (l' & E & HU).
  rewrite E. apply shield_kept. eapply keeps_updated; [intros ? _; apply Hq|by eapply update_many_some].
Qed.

Lemma stays_DeleteOne `{Shielded projectID R D} (q : D → bool) :
  (∀ d, q d = true → shield projectID R d = false) → stays R (DeleteOne q).
Proof.
  intros Hq w. destruct (wp_DeleteOne q w) as (l' & E & HU).
  rewrite E. apply shield_kept.
  assert (deleted_one q (docs (db w)) l' → keeps (shield projectID R) (docs (db w)) l') as Hdel.
  { intros (l1 & d & l2 & -> & Hd & ->). unfold keeps. rewrite !List.filter_app. cbn. by rewrite (Hq d Hd). }
  destruct (DeleteOne q w).1 as [c|e|]; cbn in HU; naive_solver.
Qed.

(** The usual reason: the filter asks for the project, and the update keeps it. *)
Lemma within_owned `{Shielded projectID R D} (q : D → bool) f :
  (∀ d, q d = true → owner d = projectID) → (∀ d, owner (f d) = owner d) → within q f.
Proof. intros Hq Hf d Hd. specialize (Hq d Hd). split; apply shield_own; by rewrite ?Hf. Qed.

Context {HR : PreOrder R} {HS : StoreFree R}.
Lemma stays_with_store f : stays R (with_store f).
Proof. intros w. apply store_free. Qed.
Lemma stays_git_call {A} (f : nat → res A) c : stays R (git_call f c).
Proof. intros w. unfold git_call. destruct (f (tick w)); [apply git_free|reflexivity..]. Qed.
Lemma stays_SendRequest sr : stays R (SendRequestToSubscriber sr).
Proof.
  intros w. unfold SendRequestToSubscriber. destruct (_ !! _); [apply store_free|reflexivity].
Qed.
Lemma stays_SendExperiment `{ManifestNamespace} pid manifest infraID username data reqType :
  stays R (SendExperimentToSubscriber pid manifest infraID username data reqType).
Proof.
  unfold SendExperimentToSubscriber. destruct (manifest_namespace manifest); [apply stays_SendRequest|apply stays_ret].
Qed.
End writes.
#[export] Hint Resolve stays_with_store stays_git_call stays_SendRequest stays_SendExperiment : stays.
