(* ===== verification/ProjectRequests.v ===== *)
(** * ProjectRequests.v: requests about a project stay inside the project

    All requests of the GraphQL server that name a project, as data, with what
    they ask for ([role_of]) and how they are served ([resolve]). The services
    behind them keep the documents of all other projects. *)
From S2P Require Import Prelude World GoStd Float64 AuthRepo GraphDocs Experiments RunScore RunEvent.
From S2P Require Import Pipelines Authorization Environments Infrastructure InfraListing ImageRegistries.
From S2P Require Import ProbeProperties Manifests Probes ExperimentOps ExperimentService GitRepo GitOps ExperimentHandlers ExperimentListing Isolation.
Local Open Scope string_scope.
Local Open Scope Z_scope.

(** Documents selected by a filter that names the project. *)
Ltac own_filter := intros ? ?;
  unfold environment_query, registry_query, probe_query, live_experiment, own_experiment, stop_query in *;
  repeat match goal with
  | H : _ && _ = true |- _ => apply andb_true_iff in H as [? ?]
  | H : str_eq _ _ = true |- _ => apply str_eq_true in H
  end; done.

Section services.
Context {drv : MongoDriver} {laws : MongoLaws drv} {rt : Runtime} {rx : MongoRegex} {lo : LookupOrder}
  {mo : MapOrder} {cr : Crypto} {ac : AuthClient} {cfg : ServerConfig} {ie : InfraEnv} {sc : SourceCodec}
  {dec : Decoders} {mc : ManifestCodec} {sid : ShortID} {gl : GitLibrary} {gd : GitData} {tx : MongoTxn} {ab : MongoAbort}
  {ps : Positional} {mn : ManifestNamespace}.
Context {projectID : string} {R : relation GraphDB} {HR : PreOrder R} {HS : StoreFree R}
  {HE : Shielded projectID R Environment} {HI : Shielded projectID R ChaosInfra} {HP : Shielded projectID R Probe}
  {HG : Shielded projectID R ImageRegistry}.

(** ** The caller *)
Lemma reads_ValidateRole ctx roles i : reads (ValidateRole ctx projectID roles i).
Proof. intros w. by destruct (wp_ValidateRole ctx projectID roles i w). Qed.
Lemma reads_GetUsername tkn : reads (GetUsername tkn).
Proof. intros w. by rewrite (wp_GetUsername tkn w). Qed.
Lemma reads_ctx_username ctx : reads (ctx_username ctx).
Proof. intros w. by rewrite (wp_ctx_username ctx w). Qed.
Lemma reads_GetUsernameFromContext ctx : reads (GetUsernameFromContext ctx).
Proof. intros w. by rewrite (wp_GetUsernameFromContext ctx w). Qed.
Hint Resolve reads_ValidateRole reads_GetUsername reads_ctx_username reads_GetUsernameFromContext : stays.

(** ** Environments *)
Lemma environment_update_owner request t u e : owner (environment_update request t u e) = owner e.
Proof. by destruct request as [? [] [] [] []], e. Qed.

Lemma stays_CreateEnvironment input u : stays R (CreateEnvironment projectID input u).
Proof. unfold CreateEnvironment, InsertEnvironment. stays_auto. by apply stays_InsertOne, (shield_own projectID). Qed.
Lemma stays_UpdateEnvironment request u : stays R (UpdateEnvironment projectID request u).
Proof.
  unfold UpdateEnvironment, UpdateEnvironmentDocs, GetEnvironments. stays_auto.
  apply stays_UpdateMany, within_owned; [own_filter|apply environment_update_owner].
Qed.
Lemma stays_DeleteEnvironment id u : stays R (DeleteEnvironment projectID id u).
Proof.
  unfold DeleteEnvironment, UpdateEnvironmentDocs, GetEnvironmentDoc. stays_auto.
  apply stays_UpdateMany, within_owned; [own_filter|done].
Qed.
Lemma reads_GetEnvironment id : reads (GetEnvironment projectID id).
Proof. unfold GetEnvironment, GetEnvironmentDoc. stays_auto. Qed.
Lemma reads_ListEnvironments request : reads (ListEnvironments projectID request).
Proof. unfold ListEnvironments. stays_auto. Qed.

(** ** Image registries *)
Lemma stays_UpdateImageRegistryDoc id f : (∀ r, owner (f r) = owner r) →
  stays R (UpdateImageRegistryDoc (registry_query id projectID) f).
Proof.
  intros Hf. unfold UpdateImageRegistryDoc. stays_auto.
  apply stays_UpdateOne, within_owned; [own_filter|done].
Qed.
Lemma stays_CreateImageRegistry info : stays R (CreateImageRegistry projectID info).
Proof. unfold CreateImageRegistry, InsertImageRegistry. stays_auto. by apply stays_InsertOne, (shield_own projectID). Qed.
Lemma stays_UpdateImageRegistry id info : stays R (UpdateImageRegistry id projectID info).
Proof. unfold UpdateImageRegistry. stays_auto. by apply stays_UpdateImageRegistryDoc. Qed.
Lemma stays_DeleteImageRegistry id : stays R (DeleteImageRegistry id projectID).
Proof. unfold DeleteImageRegistry. stays_auto. by apply stays_UpdateImageRegistryDoc. Qed.
Lemma reads_GetImageRegistry : reads (GetImageRegistry projectID).
Proof. unfold GetImageRegistry, GetImageRegistryDoc. stays_auto. Qed.
Lemma reads_ListImageRegistries : reads (ListImageRegistries projectID).
Proof. unfold ListImageRegistries, ListImageRegistryDocs. stays_auto. Qed.

(** ** Infrastructures *)
Lemma reads_fill_files root values names done_ : reads (fill_files root values names done_).
Proof. revert done_. induction names as [|n names IH]; intros done_; cbn [fill_files]; stays_auto; auto. Qed.
Lemma reads_ManifestParser i root endpoint : reads (ManifestParser i root endpoint).
Proof. unfold ManifestParser. stays_auto. apply reads_fill_files. Qed.
Lemma reads_GetK8sInfraYaml host i : reads (GetK8sInfraYaml host i).
Proof. unfold GetK8sInfraYaml. stays_auto; apply reads_ManifestParser. Qed.
Hint Resolve reads_GetK8sInfraYaml : stays.

Lemma stays_link_infra id f : (∀ e, owner (f e) = owner e) →
  stays R (UpdateEnvironmentDocs (λ e, str_eq (en_ProjectID e) projectID && str_eq (en_EnvironmentID e) id) f).
Proof.
  intros Hf. apply stays_UpdateMany, within_owned; [own_filter|done].
Qed.
Lemma stays_RegisterInfra ctx input : stays R (RegisterInfra ctx projectID input).
Proof.
  unfold RegisterInfra, GetInfras, GetEnvironmentDetails, InfraCreateJWT, GenerateAccessKey, InsertInfra.
  stays_auto; [by apply stays_InsertOne, (shield_own projectID)|by apply stays_link_infra].
Qed.
Lemma stays_send_requests i ns u requests : stays R (send_requests i ns u requests).
Proof. induction requests as [|x requests IH]; cbn [send_requests]; stays_auto. Qed.
Lemma stays_DeleteInfra ctx id : stays R (DeleteInfra ctx projectID id).
Proof.
  unfold DeleteInfra, GetInfraDoc. stays_auto; [|by apply stays_link_infra|apply stays_send_requests].
  apply stays_UpdateMany, within_owned; [own_filter|done].
Qed.
Lemma reads_ListInfras request : reads (ListInfras projectID request).
Proof. unfold ListInfras. refine (stays_at (λ _, _) _). intros w. stays_auto. Qed.
Lemma reads_GetInfra ctx id : reads (GetInfra ctx projectID id).
Proof. unfold GetInfra. stays_auto. refine (stays_at (λ _, _) _). intros w. stays_auto. Qed.
Lemma reads_GetInfraStats : reads (GetInfraStats projectID).
Proof. unfold GetInfraStats. stays_auto. Qed.

(** ** Probes *)
Lemma add_properties_owner type p request p' : add_properties type p request = Ok p' → owner p' = owner p.
Proof.
  unfold add_properties, AddKubernetesHTTPProbeProperties, AddKubernetesCMDProbeProperties, AddPROMProbeProperties,
    AddK8SProbeProperties.
  repeat case_match; intros; simplify_eq/=; done.
Qed.

Lemma stays_AddProbe ctx probe : stays R (AddProbe ctx probe projectID).
Proof.
  unfold AddProbe, ValidateUniqueProbe, IsProbeUnique, CreateProbe. stays_step; [stays_auto..|].
  stays_step; [stays_auto|]. stays_step; [stays_auto|]. stays_step; [stays_auto..|].
  cbv zeta. destruct (missing_properties probe); [stays_auto|].
  apply stays_known; [intros; apply stays_ret|]. intros p' Hp%add_properties_owner.
  stays_auto. by apply stays_InsertOne, (shield_own projectID).
Qed.
Lemma stays_UpdateProbeDoc name f : (∀ p, owner p = projectID → owner (f p) = projectID) →
  stays R (UpdateProbeDoc (probe_query name projectID) f).
Proof.
  intros Hf. unfold UpdateProbeDoc. stays_auto. apply stays_UpdateOne. intros d Hd.
  assert (owner d = projectID) as Ho by (revert d Hd; own_filter).
  split; apply shield_own; auto.
Qed.
Lemma stays_UpdateProbe ctx request : stays R (UpdateProbe ctx request projectID).
Proof.
  unfold UpdateProbe, GetProbeByName. do 3 (stays_step; [stays_auto..|]). cbv zeta.
  apply stays_known; [intros; apply stays_ret|]. intros p' Hp.
  assert (owner p' = projectID).
  { case_match; [|by simplify_eq]. by apply add_properties_owner in Hp. }
  stays_auto. by apply stays_UpdateProbeDoc.
Qed.
Lemma stays_DeleteProbe ctx name : stays R (DeleteProbe ctx name projectID).
Proof. unfold DeleteProbe, GetProbeByName. stays_auto. by apply stays_UpdateProbeDoc. Qed.

Lemma reads_GetProbe name : reads (GetProbe name projectID).
Proof. unfold GetProbe, GetProbeByName. stays_auto. Qed.
Lemma reads_run_executions need name mode run data faults : reads (run_executions need name mode run data faults).
Proof. induction faults as [|f faults IH]; cbn [run_executions]; unfold run_nodes; stays_auto. Qed.
Lemma reads_executions_of need name mode runs : reads (executions_of need name mode runs).
Proof. induction runs as [|run runs IH]; cbn [executions_of]; stays_auto. apply reads_run_executions. Qed.
Hint Resolve reads_executions_of : stays.
Lemma reads_list_details probes : reads (list_details projectID probes).
Proof.
  induction probes as [|p probes IH]; cbn [list_details]; unfold GetProbeExecutionHistoryInExperimentRuns; stays_auto.
Qed.
Lemma reads_ListProbes names t f : reads (ListProbes names t f projectID).
Proof. unfold ListProbes. stays_auto. apply reads_list_details. Qed.
Lemma reads_GetProbeYAMLData name mode : reads (GetProbeYAMLData name mode projectID).
Proof. unfold GetProbeYAMLData. stays_auto. Qed.
Lemma reads_GetProbeReference name : reads (GetProbeReference name projectID).
Proof.
  unfold GetProbeReference. refine (stays_at (λ _, _) _). intros w. stays_auto.
Qed.
Lemma reads_run_probes data f names : reads (run_probes data f names).
Proof. induction names as [|n names IH]; cbn [run_probes]; unfold run_nodes; stays_auto. Qed.
Lemma reads_probe_details l : reads (probe_details projectID l).
Proof. induction l as [|x l IH]; cbn [probe_details]; unfold GetProbeByName; stays_auto. Qed.
Lemma reads_GetProbesInExperimentRun runID fault : reads (GetProbesInExperimentRun projectID runID fault).
Proof.
  unfold GetProbesInExperimentRun, GetExperimentRun. stays_auto; [apply reads_run_probes|apply reads_probe_details].
Qed.
Lemma reads_ValidateUniqueProbe name : reads (ValidateUniqueProbe name projectID).
Proof. unfold ValidateUniqueProbe, IsProbeUnique. stays_auto. Qed.

(** ** Manifests *)
Lemma reads_named_probes names pid probes : reads (named_probes names pid probes).
Proof. revert probes. induction names as [|[] names IH]; intros probes; cbn [named_probes]; unfold GetProbeByName; stays_auto. Qed.
Lemma reads_annotated_probes guard texts pid probes : reads (annotated_probes guard texts pid probes).
Proof.
  revert probes. induction texts as [|t texts IH]; intros probes; cbn [annotated_probes]; stays_auto.
  apply reads_named_probes.
Qed.
Lemma reads_fill_templates guard pid templates : reads (fill_templates guard pid templates).
Proof.
  induction templates as [|t templates IH]; cbn [fill_templates]; unfold fill_engine; stays_auto.
  all: apply reads_annotated_probes.
Qed.
Lemma reads_GenerateManifest m pid : reads (GenerateExperimentManifestWithProbes m pid).
Proof. unfold GenerateExperimentManifestWithProbes. stays_auto. apply reads_fill_templates. Qed.
Lemma reads_GenerateCronManifest m pid : reads (GenerateCronExperimentManifestWithProbes m pid).
Proof. unfold GenerateCronExperimentManifestWithProbes. stays_auto. apply reads_fill_templates. Qed.
Lemma reads_runtime_templates names infraID templates : reads (runtime_templates names infraID templates).
Proof.
  induction templates as [|t templates IH]; cbn [runtime_templates]; unfold runtime_engine, read_names; stays_auto.
Qed.
Hint Resolve reads_GenerateManifest reads_GenerateCronManifest reads_runtime_templates : stays.

Lemma stays_send_if r m : stays R m → stays R (send_if r m).
Proof. intros Hm. unfold send_if. stays_auto. Qed.
End services.

(** Probes may be added without leaving the preorder: all that processing a
    manifest asks of it. *)
Class AddsProbes `{MongoDriver} `{Runtime} `{Crypto} `{AuthClient} `{SourceCodec} (projectID : string) (R : relation GraphDB) :=
  adds_probe : ∀ ctx request, stays R (AddProbe ctx request projectID).
#[export] Instance shielded_adds_probes {drv : MongoDriver} {laws : MongoLaws drv} `{Runtime} `{Crypto} `{AuthClient}
  `{SourceCodec} projectID R `{!PreOrder R} `{!Shielded projectID R Probe} : AddsProbes projectID R.
Proof. intros ctx request. apply stays_AddProbe. Qed.

Section processing.
Context {drv : MongoDriver} {laws : MongoLaws drv} {rt : Runtime} {cr : Crypto} {ac : AuthClient} {sc : SourceCodec}
  {mc : ManifestCodec} {sid : ShortID} {projectID : string} {R : relation GraphDB} {HR : PreOrder R}
  {HA : AddsProbes projectID R}.

Lemma stays_create_probes ctx probes refs : stays R (create_probes ctx projectID probes refs).
Proof.
  revert refs. induction probes as [|p probes IH]; intros refs; cbn [create_probes]; stays_auto.
Qed.
Lemma stays_engine_refs ctx meta e : stays R (engine_refs ctx projectID meta e).
Proof. unfold engine_refs. stays_auto. apply stays_create_probes. Qed.
Hint Resolve stays_engine_refs : stays.
Lemma stays_process_templates ctx weights templates : stays R (process_templates ctx projectID weights templates).
Proof.
  induction templates as [|t templates IH]; cbn [process_templates]; unfold process_engine; stays_auto.
Qed.
Hint Resolve stays_process_templates : stays.
Lemma stays_ProcessExperiment ctx x revID : stays R (ProcessExperiment ctx x projectID revID).
Proof.
  unfold ProcessExperiment, GetInfraDoc, processExperimentManifest, processCronExperimentManifest,
    processChaosEngineManifest, processChaosScheduleManifest, process_standalone. stays_auto.
Qed.
End processing.
#[export] Hint Resolve reads_ValidateRole reads_GetUsername reads_ctx_username reads_GetUsernameFromContext
  stays_CreateEnvironment stays_UpdateEnvironment stays_DeleteEnvironment reads_GetEnvironment reads_ListEnvironments
  stays_CreateImageRegistry stays_UpdateImageRegistry stays_DeleteImageRegistry reads_GetImageRegistry
  reads_ListImageRegistries stays_RegisterInfra stays_DeleteInfra reads_ListInfras reads_GetInfra reads_GetInfraStats
  reads_GetK8sInfraYaml stays_AddProbe stays_UpdateProbe stays_DeleteProbe reads_GetProbe reads_ListProbes
  reads_GetProbeYAMLData reads_GetProbeReference reads_GetProbesInExperimentRun reads_ValidateUniqueProbe stays_ProcessExperiment
  reads_GenerateManifest reads_GenerateCronManifest reads_runtime_templates stays_send_if : stays.

(** ** GitOps

    Experiments of the project may be written without leaving the preorder: all
    that bringing a repository into the database asks of it, beside probes and
    the configuration. *)
Class WritesExperiments `{MongoDriver} `{Runtime} `{ManifestNamespace} `{ManifestCodec} (projectID : string)
    (R : relation GraphDB) : Prop := {
  writes_creation x id u type revID r : stays R (ProcessExperimentCreation x id u projectID type revID r);
  writes_update x id u type revID r : stays R (ProcessExperimentUpdate x id u type revID false projectID r);
}.

Section writes.
Context {drv : MongoDriver} {laws : MongoLaws drv} {rt : Runtime} {mc : ManifestCodec} {mn : ManifestNamespace}.
Context {projectID : string} {R : relation GraphDB} {HR : PreOrder R} {HS : StoreFree R}
  {HX : Shielded projectID R ChaosExperimentRequest}.

Lemma stays_UpdateChaosExperiment q f :
  (∀ e, q e = true → owner e = projectID) → (∀ e, owner (f e) = owner e) → stays R (UpdateChaosExperiment q f).
Proof.
  intros Hq Hf. unfold UpdateChaosExperiment. stays_auto. apply stays_UpdateOne, within_owned; [done..].
Qed.
Lemma stays_ProcessExperimentCreation x id u type revID r :
  stays R (ProcessExperimentCreation x id u projectID type revID r).
Proof.
  unfold ProcessExperimentCreation, InsertChaosExperiment. stays_auto. by apply stays_InsertOne, (shield_own projectID).
Qed.
Lemma replace_manifest_owner revID m u t t' e : owner (replace_manifest revID m u t t' e) = owner e.
Proof. unfold replace_manifest. by destruct (find_index _ _). Qed.
Lemma stays_ProcessExperimentUpdate x id u type revID b r :
  stays R (ProcessExperimentUpdate x id u type revID b projectID r).
Proof.
  unfold ProcessExperimentUpdate. stays_auto; apply stays_UpdateChaosExperiment;
    [own_filter|apply replace_manifest_owner|own_filter|done].
Qed.
#[export] Instance shielded_writes : WritesExperiments projectID R.
Proof. split; intros; [apply stays_ProcessExperimentCreation|apply stays_ProcessExperimentUpdate]. Qed.
End writes.
#[export] Hint Resolve stays_ProcessExperimentCreation stays_ProcessExperimentUpdate : stays.

Section gitops.
Context {drv : MongoDriver} {laws : MongoLaws drv} {rt : Runtime} {mo : MapOrder} {cr : Crypto} {ac : AuthClient}
  {sc : SourceCodec} {dec : Decoders} {mc : ManifestCodec} {sid : ShortID} {gl : GitLibrary} {gd : GitData}
  {tx : MongoTxn} {ab : MongoAbort} {mn : ManifestNamespace}.
Context {projectID : string} {R : relation GraphDB} {HR : PreOrder R} {HS : StoreFree R}
  {HA : AddsProbes projectID R} {HW : WritesExperiments projectID R} {HC : Shielded projectID R GitConfigDB}.

Lemma stays_wrap_err {A} msg (m : GM (res A)) : stays R m → stays R (wrap_err msg m).
Proof. intros Hm. unfold wrap_err. stays_auto. Qed.
Lemma stays_logged {A} (m : GM (res A)) d : stays R m → stays R (logged m d).
Proof. intros Hm. unfold logged. stays_auto. Qed.
Hint Resolve stays_wrap_err stays_logged : stays.

(** *** The repository *)
Lemma reads_worktree c : reads (getRepositoryWorktreeReference c).
Proof. unfold getRepositoryWorktreeReference. stays_auto. Qed.
Hint Resolve reads_worktree : stays.
Lemma stays_GitPull c : stays R (GitPull c).
Proof. unfold GitPull, transfer. stays_auto. Qed.
Lemma stays_GitPush c : stays R (GitPush c).
Proof. unfold GitPush, transfer. stays_auto. Qed.
Lemma stays_GitCommit c user message file : stays R (GitCommit c user message file).
Proof. unfold GitCommit. stays_auto. Qed.
Hint Resolve stays_GitPull stays_GitPush stays_GitCommit : stays.
Lemma stays_setupGitRepo c user : stays R (setupGitRepo c user).
Proof. unfold setupGitRepo, GitClone, RemoveAll, PathExists, ReadFile, WriteFile. stays_auto. Qed.
Lemma reads_GetChanges c : reads (GetChanges c).
Proof. unfold GetChanges. stays_auto. Qed.
Lemma reads_GetLatestCommitHash c : reads (GetLatestCommitHash c).
Proof. unfold GetLatestCommitHash. stays_auto. Qed.
Hint Resolve stays_setupGitRepo reads_GetChanges reads_GetLatestCommitHash : stays.
Lemma stays_SetupGitOps c user : stays R (SetupGitOps user c).
Proof. unfold SetupGitOps. stays_auto. Qed.
Hint Resolve stays_SetupGitOps : stays.

(** *** The configuration *)
Lemma within_commit commit :
  within (projectID := projectID) (R := R) (gitconfig_query projectID) (set_latest_commit commit).
Proof. apply within_owned; [|done]. by intros d ?%str_eq_true. Qed.
Lemma stays_UpdateGitConfig commit : stays R (UpdateGitConfig (gitconfig_query projectID) (set_latest_commit commit)).
Proof. unfold UpdateGitConfig. stays_auto. apply stays_UpdateOne, within_commit. Qed.
Lemma stays_publish ctx c message what file :
  gc_ProjectID c = projectID → stays R (publish ctx c message what file).
Proof.
  intros Hc. unfold publish. rewrite Hc. stays_auto; apply stays_wrap_err; stays_auto. apply stays_UpdateGitConfig.
Qed.

(** The configuration that is found is the project's. *)
Lemma wp_GetGitConfig pid w :
  wp (GetGitConfig pid) (λ r w', db w' = db w ∧
    match r with
    | Ok (Some c) => c ∈ g_gitconfigs (db w) ∧ gd_ProjectID c = pid
    | Ok None => no_match (gitconfig_query pid) (g_gitconfigs (db w))
    | Err _ => True
    | Panic => False
    end) w.
Proof.
  unfold GetGitConfig. wp_step. wp_use wp_FindOne. intros [c|e|] w1 [E Hc]; [|case_bool_decide|]; repeat wp_step.
  - destruct Hc as [? ?%str_eq_true]. auto.
  - destruct Hc as [_ Hc]. auto.
  - done.
  - done.
Qed.
Lemma wp_config {B} msg pid (k : option GitConfigDB → GM (res B)) (Q : res B → World GraphDB → Prop) w :
  (∀ c w1, db w1 = db w → c ∈ g_gitconfigs (db w) → gd_ProjectID c = pid → wp (k (Some c)) Q w1) →
  (∀ w1, db w1 = db w → no_match (gitconfig_query pid) (g_gitconfigs (db w)) → wp (k None) Q w1) →
  (∀ e w1, db w1 = db w → Q (Err e) w1) → wp (let? c := wrap_err msg (GetGitConfig pid) in k c) Q w.
Proof.
  intros Hs Hn He. unfold wrap_err. do 2 wp_step. wp_use wp_GetGitConfig.
  intros [[c|]|e|] w1 [E Hc]; [wp_step..|done]; [|by apply Hn|wp_step; by apply He]. destruct Hc. by apply Hs.
Qed.
Lemma stays_configured {B} msg (k : option GitConfigDB → GM (res B)) :
  (∀ c, gd_ProjectID c = projectID → stays R (k (Some c))) → stays R (k None) →
  stays R (let? c := wrap_err msg (GetGitConfig projectID) in k c).
Proof.
  intros Hs Hn w. apply (wp_config msg projectID k (λ _ w', R (db w) (db w'))).
  - intros c w1 <- _ Hc. by apply Hs.
  - intros w1 <- _. apply Hn.
  - intros e w1 ->. reflexivity.
Qed.

(** *** From git to the database *)

(** No document has the field that is asked for. *)
Lemma stays_deleteExperiment file c : stays R (deleteExperiment file c).
Proof.
  intros w. apply (wp_found (R := R)); [intros; apply stays_ret|]. intros e _ [He _]%andb_true_iff.
  by apply bool_decide_eq_true in He.
Qed.
Lemma stays_createExperiment ctx data file c : gc_ProjectID c = projectID → stays R (createExperiment ctx data file c).
Proof.
  intros Hc. unfold createExperiment, WriteFile. rewrite Hc.
  stays_auto; try apply stays_wrap_err; stays_auto. apply writes_creation.
Qed.
Lemma stays_updateExperiment ctx data id file c :
  gc_ProjectID c = projectID → stays R (updateExperiment ctx data id file c).
Proof.
  intros Hc. unfold updateExperiment, GetExperiments. rewrite Hc. stays_auto.
  apply writes_update.
Qed.
Hint Resolve stays_deleteExperiment stays_createExperiment stays_updateExperiment : stays.
Lemma stays_sync_file ctx c file : gc_ProjectID c = projectID → stays R (sync_file ctx c file).
Proof.
  intros Hc. unfold sync_file, ReadFile, PathExists.
  stays_auto; try apply stays_logged; try apply stays_wrap_err; stays_auto.
Qed.
Lemma stays_sync_files ctx c files b : gc_ProjectID c = projectID → stays R (sync_files ctx c files b).
Proof.
  intros Hc. revert b. induction files as [|f files IH]; intros b; cbn [sync_files]; stays_auto.
  by apply stays_sync_file.
Qed.
Lemma stays_SyncDBToGit ctx c : gc_ProjectID c = projectID → stays R (SyncDBToGit ctx c).
Proof.
  intros Hc. unfold SyncDBToGit, PathExists.
  stays_auto; try apply stays_logged; try apply stays_wrap_err; stays_auto.
  - by apply stays_sync_files.
  - rewrite Hc. apply stays_UpdateGitConfig.
Qed.

(** *** From the database to git *)
Lemma wp_synced_config ctx pid w :
  wp (synced_config ctx pid) (λ r _, ∀ c, r = Ok (Some c) → gc_ProjectID c = pid) w.
Proof.
  apply wp_config; [|intros; by wp_step|done]. intros c w1 _ _ Hc. cbv zeta. wp_step. apply wp_any.
  intros [[]|e|] w2; [by intros ? [= <-]|by wp_step|done].
Qed.
Lemma stays_synced {B} ctx (k : option GitConfig → GM (res B)) :
  (∀ c, gc_ProjectID c = projectID → stays R (k (Some c))) → stays R (k None) →
  stays R (let? c := synced_config ctx projectID in k c).
Proof.
  intros Hs Hn w.
  change (wp (let? c := synced_config ctx projectID in k c) (λ _ w', R (db w) (db w')) w).
  wp_step. eapply wp_mono; [apply wp_conj; [apply (stays_wp R)|apply wp_synced_config]|].
  - unfold synced_config. apply stays_configured; [|apply stays_ret]. intros c Hc.
    stays_auto. apply stays_wrap_err. by apply stays_SyncDBToGit.
  - intros [[c|]|e|] w1 [H1 Hc]; [..|done]; [| |by wp_step]; unfold wp; (etrans; [exact H1|]); [by apply Hs, Hc|apply Hn].
Qed.
Lemma stays_Upsert ctx x : stays R (UpsertExperimentToGit ctx projectID x).
Proof.
  unfold UpsertExperimentToGit. apply stays_synced; [|apply stays_ret]. intros c Hc. unfold WriteFile.
  stays_auto; try apply stays_wrap_err; stays_auto. by apply stays_publish.
Qed.
Lemma stays_DeleteFromGit ctx name : stays R (DeleteExperimentFromGit ctx projectID name).
Proof.
  unfold DeleteExperimentFromGit. apply stays_synced; [|apply stays_ret]. intros c Hc. unfold RemoveAll, PathExists.
  stays_auto; try apply stays_wrap_err; stays_auto. by apply stays_publish.
Qed.

(** *** Requests *)
Lemma stays_EnableGitOps ctx config : stays R (EnableGitOpsHandler ctx projectID config).
Proof.
  unfold EnableGitOpsHandler, AddGitConfig. stays_auto; try apply stays_wrap_err; stays_auto.
  by apply stays_InsertOne, (shield_own projectID).
Qed.
Lemma stays_DisableGitOps : stays R (DisableGitOpsHandler projectID).
Proof.
  unfold DisableGitOpsHandler, DeleteGitConfig, RemoveAll. stays_auto; try apply stays_wrap_err; stays_auto.
  apply stays_DeleteOne. intros d Hd%str_eq_true. by apply (shield_own projectID).
Qed.
Lemma stays_UpdateGitOps ctx config : stays R (UpdateGitOpsDetailsHandler ctx projectID config).
Proof.
  unfold UpdateGitOpsDetailsHandler. apply stays_configured; [|apply stays_ret]. intros c Hc.
  unfold ReplaceGitConfig, RemoveAll. stays_auto; try apply stays_wrap_err; stays_auto.
  - apply stays_UpdateOne. intros d Hd%str_eq_true. split; by apply (shield_own projectID).
  - by apply stays_InsertOne, (shield_own projectID).
Qed.
Lemma reads_GetGitOpsDetails : reads (GetGitOpsDetailsHandler projectID).
Proof. unfold GetGitOpsDetailsHandler, wrap_err, GetGitConfig. stays_auto. Qed.
End gitops.
#[export] Hint Resolve stays_Upsert stays_DeleteFromGit stays_EnableGitOps stays_DisableGitOps stays_UpdateGitOps
  reads_GetGitOpsDetails : stays.

(** ** Experiments of the project *)
Section experiments.
Context {drv : MongoDriver} {laws : MongoLaws drv} {rt : Runtime} {rx : MongoRegex} {lo : LookupOrder}
  {mo : MapOrder} {cr : Crypto} {ac : AuthClient} {cfg : ServerConfig} {ie : InfraEnv} {sc : SourceCodec}
  {dec : Decoders} {mc : ManifestCodec} {sid : ShortID} {gl : GitLibrary} {gd : GitData} {tx : MongoTxn} {ab : MongoAbort}
  {ps : Positional} {mn : ManifestNamespace}.
Context {projectID : string} {ids : list string}.
Abbreviation R := (isolated projectID ids).

Lemma stays_validateName name : stays R (validateDuplicateExperimentName projectID name).
Proof. unfold validateDuplicateExperimentName, CountChaosExperiments. stays_auto. Qed.
Hint Resolve stays_validateName : stays.
Lemma stays_save_experiment ctx request u revID d : stays R (save_experiment ctx request projectID u revID d).
Proof. unfold save_experiment. stays_auto. Qed.
Lemma stays_SaveChaosExperiment ctx request u : stays R (SaveChaosExperiment ctx request projectID u).
Proof. unfold SaveChaosExperiment, GetExperiment. stays_auto; apply stays_save_experiment. Qed.
Lemma stays_CreateChaosExperiment ctx request u : stays R (CreateChaosExperiment ctx request projectID u).
Proof. unfold CreateChaosExperiment, check_new_name, GetExperiment. stays_auto. Qed.
Lemma stays_UpdateChaosExperimentHandler ctx request r u :
  stays R (UpdateChaosExperimentHandler ctx request projectID r u).
Proof. unfold UpdateChaosExperimentHandler, GetExperiments. stays_auto. Qed.
Lemma stays_DisableCronExperiment u e r : stays R (DisableCronExperiment u e projectID r).
Proof. unfold DisableCronExperiment. stays_auto. Qed.
Hint Resolve stays_DisableCronExperiment : stays.

(** Runs are reached through their experiment. *)
Lemma stays_UpdateRuns q f :
  (∀ r, q r = true → owner r = projectID ∨ cr_ExperimentID r ∈ ids) →
  (∀ r, owner (f r) = owner r ∧ cr_ExperimentID (f r) = cr_ExperimentID r) → within (projectID := projectID) (R := R) q f.
Proof.
  intros Hq Hf r Hr. destruct (Hf r) as [Ho Hi]. cbn. unfold foreign_run.
  assert (str_in (cr_ExperimentID (f r)) ids = str_in (cr_ExperimentID r) ids) as -> by (by rewrite Hi).
  assert (foreign projectID (f r) = foreign projectID r) as -> by (unfold foreign; by rewrite Ho).
  destruct (Hq r Hr) as [Hr'%foreign_own|Hr'%str_in_true]; rewrite Hr'; [done|]. by rewrite andb_false_r.
Qed.
Lemma stays_ProcessExperimentDelete q e u r :
  (∀ e', q e' = true → owner e' = projectID) → ex_ExperimentID e ∈ ids → stays R (ProcessExperimentDelete q e u r).
Proof.
  intros Hq Hin. unfold ProcessExperimentDelete. stays_auto. apply stays_transaction. unfold delete_body. stays_auto.
  - by apply stays_UpdateChaosExperiment.
  - apply stays_UpdateMany, stays_UpdateRuns; [|done]. intros run Hr%str_eq_true. right. by rewrite Hr.
Qed.
Lemma stays_ProcessExperimentRunDelete q runID run e u r :
  (∀ r', q r' = true → cr_ExperimentID r' ∈ ids) → stays R (ProcessExperimentRunDelete q runID run e u r).
Proof.
  intros Hq. unfold ProcessExperimentRunDelete, UpdateExperimentRunWithQuery. stays_auto.
  apply stays_UpdateOne, stays_UpdateRuns; [|done]. intros r' Hr. right. auto.
Qed.

Lemma stays_positional_update q cs f : (∀ e, q e = true → owner e = projectID) → stays R (positional_update q cs f).
Proof.
  intros Hq. refine (stays_at (λ _, _) _). intros w. apply stays_UpdateChaosExperiment.
  - intros e [He _]%andb_true_iff. auto.
  - intros e. by destruct (positional_choice _ _ _).
Qed.
Lemma stays_ProcessExperimentRunStop q runID notifyID e u r :
  (∀ r', q r' = true → owner r' = projectID) → stays R (ProcessExperimentRunStop q runID notifyID e u projectID r).
Proof.
  intros Hq. unfold ProcessExperimentRunStop, UpdateExperimentRunWithQuery. stays_auto.
  - apply stays_UpdateOne, stays_UpdateRuns; [|done]. intros r' Hr. left. auto.
  - apply stays_positional_update. own_filter.
  - apply stays_positional_update. own_filter.
Qed.
Lemma stays_stop_runs id u e r runs : stays R (stop_runs projectID id u e r runs).
Proof.
  induction runs as [|[runID n] runs IH]; cbn [stop_runs]; stays_auto. apply stays_ProcessExperimentRunStop. own_filter.
Qed.
Lemma stays_StopExperimentRuns id runID notifyID r u : stays R (StopExperimentRuns projectID id runID notifyID r u).
Proof.
  unfold StopExperimentRuns, GetExperiment, runs_to_stop, GetExperimentRuns. stays_auto. apply stays_stop_runs.
Qed.

(** ** Running an experiment

    The writes of a run are by the identifier of the experiment alone. *)
Definition running (id : string) (s s' : GraphDB) : Prop := owned_id projectID id s → R s s' ∧ owned_id projectID id s'.
#[export] Instance running_preorder id : PreOrder (running id).
Proof.
  split; [by intros s ?|]. intros s1 s2 s3 H12 H23 H1. destruct (H12 H1) as [HR1 H2]. destruct (H23 H2) as [HR2 H3].
  split; [by etrans|done].
Qed.

(** Steps that leave the experiments alone. *)
Lemma running_other {A} id (m : GM A) :
  (∀ w, g_experiments (db (m w).2) = g_experiments (db w)) → stays R m → stays (running id) m.
Proof. intros He Hm w Ho. split; [apply Hm|]. unfold owned_id. by rewrite He. Qed.

Lemma running_update id f :
  (∀ e, ex_ExperimentID (f e) = ex_ExperimentID e ∧ owner (f e) = owner e) →
  stays (running id) (UpdateChaosExperiment (by_experiment_id id) f).
Proof.
  intros Hf. unfold UpdateChaosExperiment. stays_auto. intros w Ho.
  destruct (wp_UpdateOne (by_experiment_id id) f w) as (l' & E & HU%update_one_some). rewrite E.
  assert (owned_id projectID id (set_docs l' (db w))) as Ho'.
  { intros e' He' Hid. apply (updated_some_elem _ _ _ _ _ HU) in He' as (e & He & [->|[_ ->]]); [by apply Ho|].
    destruct (Hf e) as [Hi Hp]. transitivity (owner e); [exact Hp|]. apply Ho; [done|congruence]. }
  split; [|done]. apply shield_kept. eapply keeps_updated; [|done]. intros e He Hq%str_eq_true. cbn.
  assert (owner e = projectID) by (by apply Ho). destruct (Hf e). split; apply foreign_own; congruence.
Qed.
Lemma running_send r pid manifest infraID u data type id :
  stays (running id) (send_if r (SendExperimentToSubscriber pid manifest infraID u data type)).
Proof.
  apply running_other; [|apply stays_send_if, stays_SendExperiment]. intros w.
  unfold send_if, SendExperimentToSubscriber, SendRequestToSubscriber.
  destruct r; [|done]. destruct (manifest_namespace manifest); [|done].
  unfold mbind, M_bind. repeat case_match; done.
Qed.
Lemma running_CreateExperimentRun id run : owner run = projectID → stays (running id) (CreateExperimentRun run).
Proof.
  intros Hr. apply running_other; [done|]. by apply stays_InsertOne, (shield_own projectID).
Qed.
Lemma running_RunCron ctx e r id : stays (running id) (RunCronExperiment ctx projectID e r).
Proof. unfold RunCronExperiment. stays_auto. apply running_send. Qed.
Lemma running_RunChaosWorkFlow ctx e r : stays (running (ex_ExperimentID e)) (RunChaosWorkFlow ctx projectID e r).
Proof.
  unfold RunChaosWorkFlow, run_workflow, GetInfraDoc. stays_auto; [apply running_RunCron|by apply running_update| |apply running_send].
  apply stays_transaction. unfold queue_run. stays_auto; [by apply running_update|by apply running_CreateExperimentRun].
Qed.

(** A new experiment is the only one with its identifier. *)
Lemma wp_ProcessExperimentCreation x id u type revID w :
  wp (ProcessExperimentCreation x id u projectID type revID false) (λ r w', r = Ok tt → owned_id projectID id (db w')) w.
Proof.
  unfold ProcessExperimentCreation. wp_step. apply wp_any. intros t w1. wp_step. wp_use wp_InsertOne.
  intros [[]|e|] w2 (l' & E & HI); [|wp_step; discriminate|discriminate]. unfold send_if. apply wp_ret. intros _ e He Hid. rewrite E in He. cbn in *.
  destruct HI as [Hp HF]. rewrite Hp in He. apply elem_of_cons in He as [->|He]; [done|].
  rewrite Forall_forall in HF. specialize (HF e He). apply str_eq_false in HF. by rewrite Hid in HF.
Qed.
Lemma wp_CreateChaosExperiment ctx request u w :
  wp (CreateChaosExperiment ctx request projectID u)
     (λ r w', ∀ resp, r = Ok resp → owned_id projectID (xp_ExperimentID resp) (db w')) w.
Proof.
  unfold CreateChaosExperiment. wp_step. apply wp_any. intros revID w1.
  wp_step. apply wp_any. intros [x|e|] w2; [|wp_step; discriminate|discriminate].
  wp_step. apply wp_any. intros [[x' type]|e|] w3; [|wp_step; discriminate|discriminate].
  wp_step. apply wp_any. intros [[]|e|] w4; [|wp_step; discriminate|discriminate].
  wp_step. wp_use wp_ProcessExperimentCreation. intros [[]|e|] w5 Ho; [|wp_step; discriminate|discriminate].
  wp_step. intros resp [= <-]. by apply Ho.
Qed.
End experiments.
#[export] Hint Resolve stays_SaveChaosExperiment stays_CreateChaosExperiment stays_UpdateChaosExperimentHandler
  stays_DisableCronExperiment stays_ProcessExperimentUpdate stays_StopExperimentRuns : stays.

(** ** What the browser is shown *)
Section listing.
Context {drv : MongoDriver} {laws : MongoLaws drv} {rt : Runtime} {rx : MongoRegex} {lo : LookupOrder} {avg : MongoAvg}
  {fti : FloatToInt}.

Lemma reads_date_range r : reads (date_range r).
Proof. unfold date_range. stays_auto. Qed.
Hint Resolve reads_date_range : stays.
Ltac read_at := refine (stays_at (λ _, _) _); intros w; stays_auto.

Lemma reads_GetExperimentHandler pid id : reads (GetExperimentHandler pid id).
Proof. unfold GetExperimentHandler. read_at. Qed.
Lemma reads_ListExperiment pid request : reads (ListExperiment pid request).
Proof. unfold ListExperiment. stays_auto. read_at. Qed.
Lemma reads_GetExperimentStats pid : reads (GetExperimentStats pid).
Proof. unfold GetExperimentStats. read_at. Qed.
Lemma reads_GetExperimentRunHandler pid runID notifyID : reads (GetExperimentRunHandler pid runID notifyID).
Proof. unfold GetExperimentRunHandler, find_run. destruct runID, notifyID; try read_at; stays_auto. Qed.
Lemma reads_ListExperimentRun pid request : reads (ListExperimentRun pid request).
Proof. unfold ListExperimentRun. stays_auto. read_at. Qed.
Lemma reads_GetExperimentRunStats pid : reads (GetExperimentRunStats pid).
Proof. unfold GetExperimentRunStats. stays_auto. Qed.
End listing.
#[export] Hint Resolve reads_GetExperimentHandler reads_ListExperiment reads_GetExperimentStats
  reads_GetExperimentRunHandler reads_ListExperimentRun reads_GetExperimentRunStats : stays.
