(* ===== verification/HubRequests.v ===== *)
(** * HubRequests.v: requests about hubs stay inside the project

    The services of [ChaosHubs.v] in the logic of [Isolation.v]. The updates of
    [SyncChaosHub] and [UpdateChaosHub] name the hub by its identifier alone. *)
From S2P Require Import Prelude World GoStd Paths AuthRepo GraphDocs Experiments RunScore RunEvent Pipelines Authorization.
From S2P Require Import Environments Infrastructure GitRepo GitOps HubFiles ChaosHubs.
From S2P Require Import ProbeProperties Manifests Probes ExperimentOps ExperimentService ExperimentHandlers ExperimentListing Isolation ProjectRequests.
Local Open Scope string_scope.
Local Open Scope Z_scope.

(** An update that keeps the identifier and the project of a hub. *)
Definition same_hub (f : ChaosHub → ChaosHub) : Prop := ∀ h, hb_ID (f h) = hb_ID h ∧ hb_ProjectID (f h) = hb_ProjectID h.
Class WritesHub `{MongoDriver} (id : string) (R : relation GraphDB) : Prop :=
  writes_hub f : same_hub f → stays R (UpdateChaosHubDoc (live_hub id) f).

#[export] Hint Resolve stays_wrap_err stays_logged : stays.

Section hubs.
Context {drv : MongoDriver} {laws : MongoLaws drv} {rt : Runtime} {rx : MongoRegex} {cr : Crypto} {ac : AuthClient}
  {gl : GitLibrary} {gd : GitData} {hl : HubLibrary} {hd : HubDisk} {hcf : HubConfig}.
Context {R : relation GraphDB} {HR : PreOrder R} {HS : StoreFree R}.

(** ** Directories *)
Lemma stays_RemoveAll path : stays R (RemoveAll path).
Proof. unfold RemoveAll. stays_auto. Qed.
Lemma stays_clone_at c auth : stays R (clone_at c auth).
Proof. unfold clone_at. stays_auto. Qed.
Hint Resolve stays_RemoveAll stays_clone_at : stays.
Lemma stays_HubGitClone input pid : stays R (HubGitClone input pid).
Proof. unfold HubGitClone, getPrivateChaosChartRepo, getChaosChartRepo. stays_auto; apply stays_wrap_err; stays_auto. Qed.
Lemma reads_worktree_reference c : reads (setterRepositoryWorktreeReference c).
Proof. unfold setterRepositoryWorktreeReference. stays_auto. Qed.
Hint Resolve stays_HubGitClone reads_worktree_reference : stays.
Lemma stays_HubGitPull c : stays R (HubGitPull c).
Proof. unfold HubGitPull, gitPullPrivateRepo, pull_with, transfer. stays_auto. Qed.
Hint Resolve stays_HubGitPull : stays.
Lemma stays_chaosChartSyncHandler c : stays R (chaosChartSyncHandler c).
Proof. unfold chaosChartSyncHandler, isRepositoryExists, PathExists. stays_auto. Qed.
Lemma stays_CopyZipItems file root name : stays R (CopyZipItems file root name).
Proof. unfold CopyZipItems, WriteFile. stays_auto. Qed.
Lemma stays_copy_items files root : stays R (copy_items files root).
Proof. induction files; cbn [copy_items]; stays_auto; apply stays_CopyZipItems. Qed.
Hint Resolve stays_chaosChartSyncHandler stays_copy_items : stays.
Lemma stays_DownloadRemoteHub hub pid : stays R (DownloadRemoteHub hub pid).
Proof. unfold DownloadRemoteHub, UnzipRemoteHub, WriteFile. stays_auto. Qed.
Hint Resolve stays_DownloadRemoteHub : stays.
Lemma stays_SyncRemoteRepo input pid : stays R (SyncRemoteRepo input pid).
Proof. unfold SyncRemoteRepo. stays_auto. Qed.
Lemma stays_renew_directory prev h pid : stays R (renew_directory prev h pid).
Proof. unfold renew_directory, GitSyncHandlerForProjects. stays_auto. Qed.
Hint Resolve stays_SyncRemoteRepo stays_renew_directory : stays.

(** ** Hubs *)
Lemma stays_check_hub_name name pid : stays R (check_hub_name name pid).
Proof. unfold check_hub_name, IsChaosHubAvailable, GetChaosHubByProjectID. stays_auto. Qed.
Hint Resolve stays_check_hub_name reads_ctx_username : stays.

Section own.
Context {projectID : string} {HH : Shielded projectID R ChaosHub}.
Lemma stays_CreateChaosHub h : hb_ProjectID h = projectID → stays R (CreateChaosHub h).
Proof. intros Hh. unfold CreateChaosHub. apply stays_wrap_err, stays_InsertOne. by apply shield_own. Qed.
Lemma stays_AddChaosHub ctx request : stays R (AddChaosHub ctx request projectID).
Proof. unfold AddChaosHub. stays_auto. by apply stays_CreateChaosHub. Qed.
Lemma stays_AddRemoteChaosHub ctx request : stays R (AddRemoteChaosHub ctx request projectID).
Proof. unfold AddRemoteChaosHub. stays_auto. by apply stays_CreateChaosHub. Qed.
Lemma stays_SaveChaosHub ctx request : stays R (SaveChaosHub ctx request projectID).
Proof. unfold SaveChaosHub. stays_auto. by apply stays_CreateChaosHub. Qed.
Lemma stays_DeleteChaosHub ctx hubID : stays R (DeleteChaosHub ctx hubID projectID).
Proof.
  unfold DeleteChaosHub, GetHubByID, UpdateChaosHubDoc. stays_auto. apply stays_UpdateOne, within_owned; [|done].
  by intros h [_ ?%str_eq_true]%andb_true_iff.
Qed.
End own.

Lemma stays_SyncChaosHub id pid {HW : WritesHub id R} : stays R (SyncChaosHub id pid).
Proof. unfold SyncChaosHub, GetHubByID, GitSyncHandlerForProjects. stays_auto. by apply writes_hub. Qed.
Lemma stays_UpdateChaosHub ctx request pid {HW : WritesHub (uh_ID request) R} : stays R (UpdateChaosHub ctx request pid).
Proof. unfold UpdateChaosHub, GetHubByID. stays_auto. by apply writes_hub. Qed.

Lemma reads_getChaosHubDetails id pid : reads (getChaosHubDetails id pid).
Proof. unfold getChaosHubDetails, GetHubByID. stays_auto. Qed.
Lemma reads_ReadExperimentFile path : reads (ReadExperimentFile path).
Proof. unfold ReadExperimentFile, ReadFile. stays_auto. Qed.
Lemma reads_read_charts path names : reads (read_charts path names).
Proof. induction names; cbn [read_charts]; stays_auto; apply reads_ReadExperimentFile. Qed.
Hint Resolve reads_getChaosHubDetails reads_read_charts : stays.
Lemma reads_ListChaosFaults id pid : reads (ListChaosFaults id pid).
Proof. unfold ListChaosFaults, GetChartsData, ReadDir. stays_auto. Qed.
End hubs.
#[export] Hint Resolve reads_worktree_reference stays_chaosChartSyncHandler stays_SyncRemoteRepo stays_renew_directory reads_ctx_username
  stays_SyncChaosHub stays_UpdateChaosHub stays_AddChaosHub stays_AddRemoteChaosHub stays_SaveChaosHub stays_DeleteChaosHub
  reads_ListChaosFaults : stays.

(** ** The hub of an identifier

    Identifiers are unique, so the hub that was found with the project is the one
    that is updated. *)
Definition owned_hub (projectID id : string) (s : GraphDB) : Prop :=
  ∀ h, h ∈ g_hubs s → hb_ID h = id → hb_ProjectID h = projectID.
Definition hubs_unique (s : GraphDB) : Prop := NoDup (hb_ID <$> g_hubs s).

Lemma found_owned projectID id s h : hubs_unique s → h ∈ g_hubs s → hub_query id projectID h = true → owned_hub projectID id s.
Proof.
  intros HN Hh [Hid Hp]%andb_true_iff. apply str_eq_true in Hid, Hp. intros h' Hh' Hid'.
  by rewrite (NoDup_key_inj hb_ID _ h' h HN Hh' Hh) by congruence.
Qed.

Section identified.
Context {drv : MongoDriver} {laws : MongoLaws drv} {rt : Runtime} {cr : Crypto} {ac : AuthClient}
  {gl : GitLibrary} {gd : GitData} {hl : HubLibrary} {hd : HubDisk} {hcf : HubConfig}.
Context (projectID : string) (ids : list string).

Definition hubbing (id : string) (s s' : GraphDB) : Prop :=
  owned_hub projectID id s → isolated projectID ids s s' ∧ owned_hub projectID id s'.
#[export] Instance hubbing_preorder id : PreOrder (hubbing id).
Proof.
  split; [by intros s ?|]. intros s1 s2 s3 H12 H23 H1. destruct (H12 H1) as [HR1 H2]. destruct (H23 H2) as [HR2 H3].
  split; [by etrans|done].
Qed.
#[export] Instance hubbing_store id : StoreFree (hubbing id).
Proof. split; intros f s Ho; (split; [by split|exact Ho]). Qed.
#[export] Instance hubbing_writes id : WritesHub id (hubbing id).
Proof.
  intros f Hf. unfold UpdateChaosHubDoc. stays_auto. intros w Ho.
  destruct (wp_UpdateOne (live_hub id) f w) as (l' & E & HU%update_one_some). rewrite E.
  assert (owned_hub projectID id (set_docs l' (db w))) as Ho'.
  { intros h' Hh' Hid. apply (updated_some_elem _ _ _ _ _ HU) in Hh' as (h & Hh & [->|[_ ->]]); [by apply Ho|].
    destruct (Hf h) as [Hi Hp]. rewrite Hp. apply Ho; [done|congruence]. }
  split; [|done]. apply shield_kept. eapply keeps_updated; [|done]. intros h Hh [Hq%str_eq_true _]%andb_true_iff. cbn.
  assert (hb_ProjectID h = projectID) by (by apply Ho). destruct (Hf h) as [_ Hp]. split; apply foreign_own; [done|].
  by rewrite <-H, <-Hp.
Qed.

(** Code that first looks the hub up. *)
Lemma wp_hub_found {B} id (k : ChaosHub → GM (res B)) w :
  hubs_unique (db w) → (∀ h, stays (hubbing id) (k h)) →
  wp (let? h := GetHubByID id projectID in k h) (λ _ w', isolated projectID ids (db w) (db w')) w.
Proof.
  intros HN Hk. wp_step. wp_use wp_FindOne. intros [h|e|] w1 [E Hh]; [|by wp_step; rewrite E|by rewrite E].
  destruct Hh as [Hin Hq]. rewrite <-E in *. apply Hk. by eapply found_owned.
Qed.
Lemma wp_SyncChaosHub id w :
  hubs_unique (db w) → wp (SyncChaosHub id projectID) (λ _ w', isolated projectID ids (db w) (db w')) w.
Proof.
  intros HN. apply wp_hub_found; [done|]. intros h. unfold GitSyncHandlerForProjects. stays_auto. by apply writes_hub.
Qed.
Lemma wp_UpdateChaosHub ctx request w :
  hubs_unique (db w) → wp (UpdateChaosHub ctx request projectID) (λ _ w', isolated projectID ids (db w) (db w')) w.
Proof. intros HN. apply wp_hub_found; [done|]. intros h. stays_auto. by apply writes_hub. Qed.
End identified.
