(* ===== verification/ProjectAccess.v ===== *)
(** * ProjectAccess.v: every request about a project is authorized and confined

    The requests of the GraphQL server that name a project, what right each asks
    for, and the lemma that joins the two questions: without that right nothing
    happens, and with it no document outside the project changes, as long as the
    request names its own project's experiment and hub. The authentication
    service is used through its interface [AuthClientLaws], which is then
    discharged with the model of the service itself. *)
From S2P Require Import Prelude World GoStd Float64 AuthEntities AuthRepo AuthService GraphDocs Experiments RunScore RunEvent.
From S2P Require Import Pipelines Authorization Environments Infrastructure InfraListing ImageRegistries.
From S2P Require Import ProbeProperties Manifests Probes ExperimentOps ExperimentService GitRepo GitOps ExperimentHandlers ExperimentListing Isolation ProjectRequests.
From S2P Require Import HubFiles ChaosHubs HubRequests.
Local Open Scope string_scope.
Local Open Scope Z_scope.

(** ** Requests *)
Inductive GraphRequest : Type :=
| RqCreateEnvironment (request : CreateEnvironmentRequest)
| RqUpdateEnvironment (request : UpdateEnvironmentRequest)
| RqDeleteEnvironment (environmentID : string)
| RqGetEnvironment (environmentID : string)
| RqListEnvironments (request : option ListEnvironmentRequest)
| RqRegisterInfra (request : RegisterInfraRequest)
| RqDeleteInfra (infraID : string)
| RqGetInfra (infraID : string)
| RqListInfras (request : option ListInfraRequest)
| RqGetInfraDetails (infraID : string)
| RqGetInfraManifest (infraID : string)
| RqGetInfraStats
| RqCreateImageRegistry (info : ImageRegistryInput)
| RqUpdateImageRegistry (imageRegistryID : string) (info : ImageRegistryInput)
| RqDeleteImageRegistry (imageRegistryID : string)
| RqListImageRegistry
| RqGetImageRegistry
| RqAddProbe (request : ProbeRequest)
| RqUpdateProbe (request : ProbeRequest)
| RqDeleteProbe (probeName : string)
| RqListProbes (infrastructureType : option string) (probeNames : list string) (filter : option ProbeFilterInput)
| RqGetProbe (probeName : string)
| RqGetProbeYaml (probeName mode : string)
| RqGetProbeReference (probeName : string)
| RqGetProbesInExperimentRun (experimentRunID faultName : string)
| RqValidateUniqueProbe (probeName : string)
| RqCreateChaosExperiment (request : ExperimentInput)
| RqSaveChaosExperiment (request : SaveChaosExperimentRequest)
| RqUpdateChaosExperiment (request : ExperimentInput)
| RqDeleteChaosExperiment (experimentID : string) (experimentRunID : option string)
| RqUpdateCronExperimentState (experimentID : string) (disable : bool)
| RqRunChaosExperiment (experimentID : string)
| RqStopExperimentRuns (experimentID : string) (experimentRunID notifyID : option string)
| RqEnableGitOps (config : GitConfigInput)
| RqDisableGitOps
| RqUpdateGitOps (config : GitConfigInput)
| RqGetGitOpsDetails
| RqGetExperiment (experimentID : string)
| RqListExperiment (request : ListExperimentRequest)
| RqGetExperimentStats
| RqGetExperimentRun (experimentRunID notifyID : option string)
| RqListExperimentRun (request : ListExperimentRunRequest)
| RqGetExperimentRunStats
| RqAddChaosHub (request : CreateChaosHubRequest)
| RqAddRemoteChaosHub (request : CreateRemoteChaosHub)
| RqSaveChaosHub (request : CreateChaosHubRequest)
| RqSyncChaosHub (hubID : string)
| RqUpdateChaosHub (request : UpdateChaosHubRequest)
| RqDeleteChaosHub (hubID : string)
| RqListChaosFaults (hubID : string).

(** The rule each resolver asks for. *)
Definition role_of (q : GraphRequest) : RoleQuery :=
  match q with
  | RqCreateEnvironment _ => CreateEnvironmentRole
  | RqUpdateEnvironment _ => UpdateEnvironmentRole
  | RqDeleteEnvironment _ => DeleteEnvironmentRole
  | RqGetEnvironment _ => GetEnvironmentRole
  | RqListEnvironments _ => ListEnvironmentsRole
  | RqRegisterInfra _ => UserInfrastructureReg
  | RqDeleteInfra _ => DeleteInfrastructures
  | RqGetInfra _ => GetInfrastructure
  | RqListInfras _ => ListInfrastructures
  | RqGetInfraDetails _ | RqGetInfraStats => GetInfraDetailsRole
  | RqGetInfraManifest _ => GetManifest
  | RqCreateImageRegistry _ => CreateImageRegistryRole
  | RqUpdateImageRegistry _ _ => UpdateImageRegistryRole
  | RqDeleteImageRegistry _ => DeleteImageRegistryRole
  | RqListImageRegistry => ListImageRegistryRole
  | RqGetImageRegistry => GetImageRegistryRole
  | RqAddProbe _ => AddProbeRole
  | RqUpdateProbe _ => UpdateProbeRole
  | RqDeleteProbe _ => DeleteProbeRole
  | RqListProbes _ _ _ => ListProbesRole
  | RqGetProbe _ | RqGetProbeYaml _ _ | RqGetProbeReference _ | RqGetProbesInExperimentRun _ _ | RqValidateUniqueProbe _ => GetProbeRole
  | RqCreateChaosExperiment _ => CreateEnvironmentRole
  | RqSaveChaosExperiment _ => CreateChaosExperimentRole
  | RqUpdateChaosExperiment _ | RqRunChaosExperiment _ => ReRunChaosExperiment
  | RqDeleteChaosExperiment _ _ => DeleteChaosExperimentRole
  | RqUpdateCronExperimentState _ _ => UpdateChaosExperimentRole
  | RqStopExperimentRuns _ _ _ => StopChaosExperiment
  | RqEnableGitOps _ => EnableGitOps
  | RqDisableGitOps => DisableGitOps
  | RqUpdateGitOps _ => UpdateGitOps
  | RqGetGitOpsDetails => GetGitOpsDetails
  | RqGetExperiment _ | RqListExperiment _ | RqGetExperimentStats => ListExperimentRole
  | RqGetExperimentRun _ _ => GetWorkflowRun
  | RqListExperimentRun _ | RqGetExperimentRunStats => ListWorkflowRuns
  | RqAddChaosHub _ => Authorization.AddChaosHub
  | RqAddRemoteChaosHub _ | RqSaveChaosHub _ => Authorization.SaveChaosHub
  | RqSyncChaosHub _ => UpdateChaosExperimentRole
  | RqUpdateChaosHub _ => Authorization.UpdateChaosHub
  | RqDeleteChaosHub _ => Authorization.DeleteChaosHub
  | RqListChaosFaults _ => ListCharts
  end.

Section access.
Context {drv : MongoDriver} {rt : Runtime} {rx : MongoRegex} {lo : LookupOrder}
  {mo : MapOrder} {cr : Crypto} {ac : AuthClient} {cfg : ServerConfig} {ie : InfraEnv} {sc : SourceCodec}
  {dec : Decoders} {mc : ManifestCodec} {sid : ShortID} {gl : GitLibrary} {gd : GitData} {tx : MongoTxn} {ab : MongoAbort}
  {ps : Positional} {mn : ManifestNamespace} {avg : MongoAvg} {fti : FloatToInt}
  {hl : HubLibrary} {hd : HubDisk} {hcf : HubConfig}.

(** Whether the request was served; the answer itself is left out. *)
Definition served {A} (m : GM (res A)) : GM (res unit) := let? _ := m in mret (Ok tt).

Definition resolve (ctx : Ctx) (projectID : string) (q : GraphRequest) : GM (res unit) :=
  match q with
  | RqCreateEnvironment request => served (mutation_CreateEnvironment ctx projectID request)
  | RqUpdateEnvironment request => served (mutation_UpdateEnvironment ctx projectID request)
  | RqDeleteEnvironment id => served (mutation_DeleteEnvironment ctx projectID id)
  | RqGetEnvironment id => served (query_GetEnvironment ctx projectID id)
  | RqListEnvironments request => served (query_ListEnvironments ctx projectID request)
  | RqRegisterInfra request => served (mutation_RegisterInfra ctx projectID request)
  | RqDeleteInfra id => served (mutation_DeleteInfra ctx projectID id)
  | RqGetInfra id => served (query_GetInfra ctx projectID id)
  | RqListInfras request => served (query_ListInfras ctx projectID request)
  | RqGetInfraDetails id => served (query_GetInfraDetails ctx id projectID)
  | RqGetInfraManifest id => served (query_GetInfraManifest ctx id projectID)
  | RqGetInfraStats => served (query_GetInfraStats ctx projectID)
  | RqCreateImageRegistry info => served (mutation_CreateImageRegistry ctx projectID info)
  | RqUpdateImageRegistry id info => served (mutation_UpdateImageRegistry ctx id projectID info)
  | RqDeleteImageRegistry id => served (mutation_DeleteImageRegistry ctx id projectID)
  | RqListImageRegistry => served (query_ListImageRegistry ctx projectID)
  | RqGetImageRegistry => served (query_GetImageRegistry ctx projectID)
  | RqAddProbe request => served (mutation_AddProbe ctx request projectID)
  | RqUpdateProbe request => served (mutation_UpdateProbe ctx request projectID)
  | RqDeleteProbe name => served (mutation_DeleteProbe ctx name projectID)
  | RqListProbes t names f => served (query_ListProbes ctx projectID t names f)
  | RqGetProbe name => served (query_GetProbe ctx projectID name)
  | RqGetProbeYaml name mode => served (query_GetProbeYaml ctx projectID name mode)
  | RqGetProbeReference name => served (query_GetProbeReference ctx projectID name)
  | RqGetProbesInExperimentRun runID fault => served (query_GetProbesInExperimentRun ctx projectID runID fault)
  | RqValidateUniqueProbe name => served (query_ValidateUniqueProbe ctx projectID name)
  | RqCreateChaosExperiment request => served (mutation_CreateChaosExperiment ctx request projectID)
  | RqSaveChaosExperiment request => served (mutation_SaveChaosExperiment ctx request projectID)
  | RqUpdateChaosExperiment request => served (mutation_UpdateChaosExperiment ctx request projectID)
  | RqDeleteChaosExperiment id runID => served (mutation_DeleteChaosExperiment ctx id runID projectID)
  | RqUpdateCronExperimentState id disable => served (mutation_UpdateCronExperimentState ctx id disable projectID)
  | RqRunChaosExperiment id => served (mutation_RunChaosExperiment ctx id projectID)
  | RqStopExperimentRuns id runID notifyID => served (mutation_StopExperimentRuns ctx projectID id runID notifyID)
  | RqEnableGitOps config => served (mutation_EnableGitOps ctx projectID config)
  | RqDisableGitOps => served (mutation_DisableGitOps ctx projectID)
  | RqUpdateGitOps config => served (mutation_UpdateGitOps ctx projectID config)
  | RqGetGitOpsDetails => served (query_GetGitOpsDetails ctx projectID)
  | RqGetExperiment id => served (query_GetExperiment ctx projectID id)
  | RqListExperiment request => served (query_ListExperiment ctx projectID request)
  | RqGetExperimentStats => served (query_GetExperimentStats ctx projectID)
  | RqGetExperimentRun runID notifyID => served (query_GetExperimentRun ctx projectID runID notifyID)
  | RqListExperimentRun request => served (query_ListExperimentRun ctx projectID request)
  | RqGetExperimentRunStats => served (query_GetExperimentRunStats ctx projectID)
  | RqAddChaosHub request => served (mutation_AddChaosHub ctx projectID request)
  | RqAddRemoteChaosHub request => served (mutation_AddRemoteChaosHub ctx projectID request)
  | RqSaveChaosHub request => served (mutation_SaveChaosHub ctx projectID request)
  | RqSyncChaosHub id => served (mutation_SyncChaosHub ctx id projectID)
  | RqUpdateChaosHub request => served (mutation_UpdateChaosHub ctx projectID request)
  | RqDeleteChaosHub id => served (mutation_DeleteChaosHub ctx projectID id)
  | RqListChaosFaults id => served (query_ListChaosFaults ctx id projectID)
  end.

(** ** What a request may do *)

(** An experiment that is run is named by its identifier alone, and so is a hub
    that is written after it was found in the project: there identifiers have to be
    unique, as their index makes them. *)
Definition in_project (projectID : string) (q : GraphRequest) (s : GraphDB) : Prop :=
  match q with
  | RqRunChaosExperiment id => owned_id projectID id s
  | RqSyncChaosHub _ | RqUpdateChaosHub _ => hubs_unique s
  | _ => True
  end.

(** Either the service accepted the caller, and nothing outside the project
    changed if [C] holds, or nothing changed at all and the request was not
    served. *)
Definition confined (C : Prop) (ctx : Ctx) (projectID : string) (role : RoleQuery) (w : World GraphDB) {A} (r : res A)
    (w' : World GraphDB) : Prop :=
  (accepted ctx projectID (MutationRbacRules role) InvitationAccepted ∧
   (C → isolated projectID (own_ids projectID (db w)) (db w) (db w'))) ∨
  (db w' = db w ∧ is_ok r = false).

Context {laws : MongoLaws drv}.

Lemma wp_served {A} (m : GM (res A)) C ctx projectID role w :
  wp m (confined C ctx projectID role w) w → wp (served m) (confined C ctx projectID role w) w.
Proof.
  intros Hm. unfold served. wp_step. eapply wp_mono; [exact Hm|]. intros [a|e|] w' [?|[? ?]]; cbn in *;
    try done; try wp_step; unfold confined; auto.
Qed.

(** The shape of the resolvers: the question, then the service. *)
Lemma wp_guarded {A} (service : GM (res A)) (C : Prop) ctx projectID role w :
  (∀ w1, db w1 = db w → C → wp service (λ _ w', isolated projectID (own_ids projectID (db w)) (db w) (db w')) w1) →
  wp (let? _ := ValidateRole ctx projectID (MutationRbacRules role) InvitationAccepted in service)
     (confined C ctx projectID role w) w.
Proof.
  intros Hs. wp_step. wp_use wp_ValidateRole. unfold confined.
  intros [[]|e|] w1 [E Ha]; [|wp_step; by right|by right].
  left. split; [auto|]. intros HC. by apply Hs.
Qed.
Lemma wp_guarded_stays {A} (service : GM (res A)) C ctx projectID role w :
  stays (isolated projectID (own_ids projectID (db w))) service →
  wp (let? _ := ValidateRole ctx projectID (MutationRbacRules role) InvitationAccepted in service)
     (confined C ctx projectID role w) w.
Proof. intros Hs. apply wp_guarded. intros w1 E _. specialize (Hs w1). by rewrite E in Hs. Qed.
Lemma wp_guarded_named {A} (service : string → GM (res A)) C ctx projectID role w :
  (∀ u w1, db w1 = db w →
     wp (service u) (λ _ w', isolated projectID (own_ids projectID (db w)) (db w) (db w')) w1) →
  wp (let? _ := ValidateRole ctx projectID (MutationRbacRules role) InvitationAccepted in
      let? username := ctx_username ctx in service username) (confined C ctx projectID role w) w.
Proof.
  intros Hs. apply wp_guarded. intros w1 E1 _. wp_step. wp_use wp_ctx_username.
  intros [u|e|] w2 E; [apply Hs; congruence|wp_step|]; by rewrite E, E1.
Qed.

(** ** Requests that depend on what was read *)
Lemma own_ids_in projectID e s : e ∈ g_experiments s → ex_ProjectID e = projectID → ex_ExperimentID e ∈ own_ids projectID s.
Proof.
  intros He Hp. apply list_elem_of_fmap. exists e. split; [done|]. apply elem_of_filterb. split; [done|].
  by apply str_eq_true.
Qed.

Lemma own_experiment_true id projectID e :
  own_experiment id projectID e = true → ex_ExperimentID e = id ∧ ex_ProjectID e = projectID.
Proof. unfold own_experiment. by rewrite andb_true_iff, !str_eq_true. Qed.

Lemma wp_DeleteChaosExperiment ctx projectID id runID r u w :
  wp (DeleteChaosExperiment ctx projectID id runID r u)
     (λ _ w', isolated projectID (own_ids projectID (db w)) (db w) (db w')) w.
Proof.
  unfold DeleteChaosExperiment. apply wp_found; [intros; apply stays_ret|].
  intros e He [Hid Hp]%own_experiment_true. assert (id ∈ own_ids projectID (db w)) as Hin.
  { rewrite <-Hid. by apply own_ids_in. }
  destruct (au_IsRemoved _); [apply stays_ret|]. destruct runID as [[|c runID]|]; [apply stays_ret|..]; cbv zeta.
  - unfold GetExperimentRun. stays_auto. apply stays_ProcessExperimentRunDelete.
    intros run [Hr _]%andb_true_iff. apply str_eq_true in Hr. by rewrite Hr.
  - stays_auto. apply stays_ProcessExperimentDelete; [|by rewrite Hid]. by intros e' [_ ?]%own_experiment_true.
Qed.

Lemma wp_UpdateCronExperimentState projectID id disable r u w :
  wp (UpdateCronExperimentState id disable projectID r u)
     (λ _ w', isolated projectID (own_ids projectID (db w)) (db w) (db w')) w.
Proof.
  unfold UpdateCronExperimentState. apply wp_found; [intros; apply stays_ret|].
  intros e He [[_ Hp]%own_experiment_true _]%andb_true_iff. rewrite Hp.
  unfold GetInfraDoc, UpdateRuntimeCronWorkflowConfiguration. stays_auto.
Qed.

(** A step in which an experiment of the project is run. *)
Lemma wp_running {A} projectID ids id (m : GM A) w :
  owned_id projectID id (db w) → stays (running (projectID := projectID) (ids := ids) id) m →
  wp m (λ _ w', isolated projectID ids (db w) (db w')) w.
Proof. intros Ho Hm. by apply Hm. Qed.

Lemma wp_run_found projectID ids ctx id q w :
  owned_id projectID id (db w) → (∀ e, q e = true → ex_ExperimentID e = id) →
  wp (let! experiment := GetExperiment q
      or e => mret (Err (ErrNew ("could not get experiment run, error: " +:+ error_text e))) in
      RunChaosWorkFlow ctx projectID experiment true) (λ _ w', isolated projectID ids (db w) (db w')) w.
Proof.
  intros Ho Hq. wp_step. wp_use wp_FindOne. intros [e|e|] w1 [E He]; [|by wp_step; rewrite E|by rewrite E].
  destruct He as [He <-%Hq]. rewrite <-E in *. apply (wp_running _ _ _ _ _ Ho). apply running_RunChaosWorkFlow.
Qed.

Lemma wp_create_and_run projectID ids ctx request u w :
  wp (let! uiResponse := CreateChaosExperiment ctx request projectID u
      or e => mret (Err (ErrNew ("could not create experiment, error: " +:+ error_text e))) in
      if default false (xi_RunExperiment request) then
        let! experiment := GetExperiment (λ e, by_experiment_id (xp_ExperimentID uiResponse) e && negb (au_IsRemoved (ex_Audit e)))
        or e => mret (Err (ErrNew ("could not get experiment run, error: " +:+ error_text e))) in
        if negb (str_eq (ex_CronSyntax experiment) "") then
          let? _ := RunCronExperiment ctx projectID experiment true in
          mret (Ok uiResponse)
        else
          let? _ := RunChaosWorkFlow ctx projectID experiment true in
          mret (Ok uiResponse)
      else mret (Ok uiResponse)) (λ _ w', isolated projectID ids (db w) (db w')) w.
Proof.
  wp_step. eapply wp_mono.
  { apply wp_conj; [apply (stays_wp (isolated projectID ids)), stays_CreateChaosExperiment|apply wp_CreateChaosExperiment]. }
  intros [resp|e|] w1 [Hi Ho]; [|by wp_step|done]. destruct (default _ _); [|by wp_step]. specialize (Ho resp eq_refl).
  wp_step. wp_use wp_FindOne. intros [e|e|] w2 [E He]; [|wp_step; by rewrite E|by rewrite E].
  rewrite <-E in Hi, Ho. destruct He as [_ [He%str_eq_true _]%andb_true_iff].
  eapply wp_mono; [apply (wp_running projectID ids _ _ _ Ho)|intros r w3 ?; by etrans].
  rewrite <-He. destruct (negb _); stays_auto; [apply running_RunCron|apply running_RunChaosWorkFlow].
Qed.

Lemma wp_resolve ctx projectID q w :
  wp (resolve ctx projectID q) (confined (in_project projectID q (db w)) ctx projectID (role_of q) w) w.
Proof.
  destruct q; apply wp_served; cbn [role_of in_project].
  all: try (apply wp_guarded_stays; stays_auto; fail).
  - apply wp_on_err. destruct (referrer_host ctx) as [host|e|]; [apply wp_guarded_stays; unfold GetInfraDoc; stays_auto|..];
      by right.
  - apply wp_guarded_named. intros u w1 <-. apply wp_create_and_run.
  - apply wp_guarded_named. intros u w1 <-. apply wp_DeleteChaosExperiment.
  - apply wp_guarded_named. intros u w1 <-. apply wp_UpdateCronExperimentState.
  - apply wp_guarded. intros w1 E Hq. rewrite <-E in *. eapply wp_run_found; [exact Hq|].
    by intros e [?%str_eq_true _]%andb_true_iff.
  - apply wp_guarded. intros w1 E Hq. rewrite <-E in *. by apply wp_SyncChaosHub.
  - apply wp_guarded. intros w1 E Hq. rewrite <-E in *. by apply wp_UpdateChaosHub.
Qed.
End access.

(** The bodies of the resolvers. *)
Create HintDb resolvers.
#[export] Hint Unfold mutation_CreateEnvironment mutation_UpdateEnvironment mutation_DeleteEnvironment query_GetEnvironment
  query_ListEnvironments mutation_RegisterInfra mutation_DeleteInfra query_GetInfra query_ListInfras query_GetInfraDetails
  query_GetInfraManifest query_GetInfraStats mutation_CreateImageRegistry mutation_UpdateImageRegistry
  mutation_DeleteImageRegistry query_ListImageRegistry query_GetImageRegistry mutation_AddProbe mutation_UpdateProbe
  mutation_DeleteProbe query_ListProbes query_GetProbe query_GetProbeYaml query_GetProbeReference query_GetProbesInExperimentRun
  query_ValidateUniqueProbe mutation_DeleteChaosExperiment mutation_UpdateCronExperimentState
  mutation_RunChaosExperiment mutation_StopExperimentRuns mutation_EnableGitOps mutation_DisableGitOps
  mutation_UpdateGitOps query_GetGitOpsDetails query_GetExperiment query_ListExperiment
  query_GetExperimentStats query_GetExperimentRun query_ListExperimentRun query_GetExperimentRunStats
  mutation_AddChaosHub mutation_AddRemoteChaosHub mutation_SaveChaosHub mutation_SyncChaosHub mutation_UpdateChaosHub
  mutation_DeleteChaosHub query_ListChaosFaults GetInfraDoc GetInfraDetailsDoc GetExperiment : resolvers.
