(* ===== verification/GraphFixtures.v ===== *)
(** * GraphFixtures.v: a concrete environment of the GraphQL server

    Executable instances of the parameters of the GraphQL server, with their
    laws, and a database with two projects: [p1] of [alice] and [p2] of [bobby].
    The authentication service is the one of [Fixtures.v]. *)
From S2P Require Import Prelude World MemMongo GoStd AuthEntities AuthRepo AuthService Fixtures EventTracker.
From S2P Require Import Float64 GraphDocs Experiments RunScore RunEvent Pipelines Authorization AuthBridge.
From S2P Require Import Environments Infrastructure ProbeProperties Manifests Probes ExperimentOps GitRepo GitOps ExperimentListing HubFiles ChaosHubs.
From Stdlib Require Import Ascii SpecFloat.
From stdpp Require Import pretty.
Local Open Scope string_scope.
Local Open Scope Z_scope.

(** ** Services *)
#[export] Instance fix_history : AuthHistory := λ n, mkWorld demo_db (100 * n).
#[export] Instance fix_abort : MongoAbort := λ _, Ok tt.
#[export] Instance fix_map_order : MapOrder := λ _ l, l.
#[export] Instance fix_map_order_laws : MapOrderLaws fix_map_order.
Proof. by intros n l. Qed.
#[export] Instance fix_lookup : LookupOrder := λ D _ l, l.
#[export] Instance fix_lookup_laws : LookupOrderLaws fix_lookup.
Proof. by intros D n l. Qed.
#[export] Instance fix_namespace : ManifestNamespace := λ _, Some "litmus".
#[export] Instance fix_mongo_regex : MongoRegex := λ _ pattern text, Contains text pattern.
#[export] Instance fix_positional : Positional := λ _ cs l, c ← head cs; find_index c l.
#[export] Instance fix_go : GoOrder := λ A _ l, l.
#[export] Instance fix_go_laws : GoOrderLaws fix_go.
Proof. by intros A n l. Qed.
#[export] Instance fix_short : ShortID := λ n, pretty n.
#[export] Instance fix_avg : MongoAvg := λ l, f64_div (foldl (SFadd 53 1024) (S754_zero false) l) (float64 (Z.of_nat (length l))).
#[export] Instance fix_float : FloatToInt := λ _, - 2 ^ 63.

#[export] Instance fix_server : ServerConfig := {|
  Version := "3.20.0"; ChaosGraphQLEndpoint := ""; TlsCertB64 := ""; SubscriberImage := "subscriber";
  EventTrackerImage := "tracker"; ArgoWorkflowControllerImage := "controller"; LitmusChaosOperatorImage := "operator";
  ArgoWorkflowExecutorImage := "executor"; LitmusChaosRunnerImage := "runner"; LitmusChaosExporterImage := "exporter";
  ContainerRuntimeExecutor := "k8sapi"; InfraDeployments := ""; InfraCompatibleVersions := "[]"
|}.
#[export] Instance fix_infra_env : InfraEnv := {|
  sign_infra secret infraID := Ok ("token-of-" +:+ infraID);
  parse_url s := if str_eq s "bad" then Err (ErrNew "invalid URL") else Ok ("http", s);
  dir_names _ _ := Ok ["agent.yaml"];
  read_file _ _ := Ok "id: #{INFRA_ID} key: #{ACCESS_KEY}";
  marshal_selector m := Ok (GoStd.Join ((λ kv, kv.1 +:+ ": " +:+ kv.2) <$> map_to_list m) newline);
  marshal_tolerations l := Ok (pretty (length l));
  decode_versions s := Ok (Split s ",");
  decode_kube s := Ok s;
  stored_version _ := Ok (Some (Some "3.20.0"));
|}.

(** Sources are kept as their text. *)
#[export] Instance fix_source : SourceCodec := {|
  decode_source text := Ok (if str_eq text "null" then None else Some text);
  encode_source s := s;
  read_source text := Some text;
|}.
#[export] Instance fix_decoders : Decoders := {|
  workflow_templates _ := Ok [];
  cron_workflow_templates _ := Ok [];
  chaos_engine _ := Ok (mkEngineMeta "ChaosEngine" ∅);
  probe_annotations _ := Ok [];
  execution_data s := if str_eq s "{}" then Ok no_execution_data else Err (ErrNew "invalid character");
|}.

(** A manifest is its kind and name; workflows carry the label of an
    infrastructure and have no templates. *)
Definition manifest_of (kind name : string) : string := kind +:+ "/" +:+ name.
#[export] Instance fix_manifests : ManifestCodec := {|
  read_object s := match Split s "/" with [kind; name] => Some (name, kind) | _ => None end;
  read_workflow s := match Split s "/" with [_; name] => Ok (mkWorkflow name {["infra_id" := "i"]} [] "") | _ => Err "syntax" end;
  write_workflow k := Ok (manifest_of "Workflow" (wk_Name k));
  yaml_workflow k := Ok (manifest_of "Workflow" (wk_Name k));
  read_cron s := match Split s "/" with [_; name] => Ok (mkCronWorkflow ∅ ∅ "0 0 * * *" false [] name) | _ => Err "syntax" end;
  write_cron k := Ok (manifest_of "CronWorkflow" (cw_Other k));
  yaml_cron k := Ok (manifest_of "CronWorkflow" (cw_Other k));
  read_engine s := Err "syntax";
  write_engine g := Ok (eg_Name g);
  read_standalone s := None;
  write_standalone g := Ok (eg_Name g);
  read_schedule s := None;
  write_schedule g := Ok (eg_Name g);
  annotation_probes s := Ok [];
  marshal_refs l := GoStd.Join (fst <$> l) ",";
  read_tree s := Ok (JString s);
  write_tree v := match v with JString s => Ok s | _ => Err (ErrNew "not a text") end;
  suspended s := Ok s;
  kind_of s := match Split s "/" with kind :: _ => kind | [] => "" end;
  queued_data name id := Ok "{}";
|}.

(** A repository with two commits: [c1], and after it [c2], in which the file of an
    experiment [exp1] came into the directory of [p1] and the file [gone.yaml] was
    removed. A file has the manifest its name says. *)
Definition fix_commits : list (res GitCommitInfo) :=
  [Ok (mkCommitInfo "c2" 1 (Ok []) (Ok tt)
     (Ok [(None, Some "litmus/p1/exp1.yaml"); (Some "litmus/p1/gone.yaml", None); (None, Some "README.md")]));
   Ok (mkCommitInfo "c1" 0 (Ok ["litmus/p1/gone.yaml"]) (Err (ErrNew "no parent")) (Ok []))].
#[export] Instance fix_git : GitLibrary := {|
  os_stat _ path := Ok (negb (HasSuffix path "gone.yaml"));
  os_read _ path := Ok (manifest_of "Workflow" (file_name path));
  os_write _ _ _ := Ok tt;
  os_mkdir_all _ _ := Ok tt;
  os_remove_all _ _ := Ok tt;
  os_rename _ _ _ := Ok tt;
  git_clone _ _ _ _ _ := Ok tt;
  git_open _ _ := Ok tt;
  git_worktree _ _ := Ok tt;
  git_status_clean _ _ := Ok true;
  git_fetch _ _ _ _ := AlreadyUpToDate;
  git_reference _ _ _ _ := Ok "c2";
  git_branch _ _ _ := Ok tt;
  git_reset _ _ _ := Ok tt;
  git_checkout _ _ _ _ := Ok tt;
  git_add _ _ _ := Ok tt;
  git_remove _ _ _ := Ok tt;
  git_commit n _ _ _ := Ok ("commit" +:+ pretty n);
  git_push _ _ _ _ := Transferred;
  git_head _ _ := Ok "c2";
  git_log _ _ from := if str_eq from "c2" then Ok fix_commits else Err (ErrNew "object not found");
  git_log_path _ _ _ := Ok (Ok "c2");
  ssh_public_keys key := if str_eq key "" then Err (ErrNew "ssh: no key found") else Ok tt;
|}.
#[export] Instance fix_git_data : GitData := {|
  decode_info _ := Ok ∅;
  encode_info m := default "" (m !! "revision");
  json_to_yaml data := Ok data;
  yaml_to_json data := Ok data;
  gjson_string data path :=
    if str_eq path "metadata.name" then default "" (last (Split data "/"))
    else if str_eq path "kind" then default "" (head (Split data "/"))
    else if str_eq path "metadata.labels.infra_id" then "i1" else "";
  sjson_set data path value := Ok data;
  GitUsername := "litmus";
|}.

(** Hubs can be cloned at branches. A download is an archive with one chart, and
    one entry that points out of the directory; its length is not announced. *)
#[export] Instance fix_hub_library : HubLibrary := {|
  hub_clone _ _ _ reference _ := if HasPrefix reference "refs/heads/" then Ok tt else Err (ErrNew "reference not found");
  hub_pull _ _ _ _ _ := Transferred;
|}.
#[export] Instance fix_hub_disk : HubDisk := {|
  os_read_dir _ path := Ok (if HasSuffix path "/faults/" then ["icons"; "kubernetes"] else if HasSuffix path "/" then ["exp"] else ["faults"]);
  os_open _ path := Err (ErrNew "no such file or directory");
  os_create _ _ := Ok tt;
  os_remove _ _ := Ok tt;
  yaml_chart data := (mkChart "v1" "Chart" (ch_Metadata no_chart)
    (mkSpec "" "" [] [] "" [] "" [] "" [] [] [mkFaults "pod-delete" "" "" []] "" [] "") (ch_PackageInfo no_chart), None);
  sanitize_url url := url;
  http_get _ _ := Ok (mkDownload 200 "200 OK" "" "application/zip" (Ok "PK"));
  zip_open _ _ := Ok [mkZipFile "hub/faults/" true (Ok (Ok "")); mkZipFile "hub/faults/x.yaml" false (Ok (Ok "x"));
                      mkZipFile "../p2/hub2/evil.yaml" false (Ok (Ok "y"))];
|}.
#[export] Instance fix_hub_config : HubConfig := {|
  RemoteHubMaxSize := "1"; CustomChaosHubPath := "/tmp/"; DefaultChaosHubPath := "/tmp/default/";
  DefaultHubName := "Litmus ChaosHub"; DefaultHubGitURL := "https://hub"; DefaultHubBranchName := "master";
  DefaultHubIsPrivate := false; DefaultHubAuthType := ""; DefaultHubToken := ""; DefaultHubUserName := "";
  DefaultHubPassword := ""; DefaultHubSshPrivateKey := "";
|}.

(** ** Two projects *)
Definition fix_audit : mongodb_Audit := mkGAudit 1 1 (named_user "setup") (named_user "setup") false.
Definition fix_env (id projectID : string) (infras : list string) : Environment :=
  mkEnvironment fix_audit (mkResource ("env " +:+ id) "" []) projectID id "PROD" infras.
Definition fix_infra (id projectID envID key : string) (registered active : bool) : ChaosInfra :=
  mkInfra (mkResource ("infra " +:+ id) "" []) fix_audit projectID id (Some "litmus") "AWS" (Some "litmus") ClusterScope
    (Some false) envID (Some false) key "Kubernetes" registered registered active "" (Some false) None [] "1" "3.20.0".
Definition fix_experiment (id projectID infraID name : string) : ChaosExperimentRequest :=
  mkExperiment name "" [] fix_audit projectID id "" infraID NonCronExperiment
    [mkRevision ("rev-" +:+ id) (manifest_of "Workflow" name) 1 None []] false [] 0.
Definition fix_probe (name projectID : string) : Probe :=
  mkProbe projectID (mkResource name "" []) fix_audit ProbeTypePromProbe InfrastructureTypeKubernetes None None
    (Some (mkPROMProbe "http://prom" (Some "up") None (mkCommonProps "1s" "1s" None None None None None None)
             (mkComparator "int" "1" ">="))) None.
Definition fix_registry (id projectID : string) : ImageRegistry :=
  mkRegistry fix_audit id projectID "docker.io" "litmus" "PUBLIC" None None true None.
Definition fix_hub (id projectID name : string) : ChaosHub :=
  mkChaosHub id projectID (mkResource name "" []) fix_audit "https://git" "main" "" true AuthTypeSSH HubTypeGit None None None
    (Some ("key of " +:+ projectID)) None 1 false.

Definition graph_db : GraphDB :=
  mkGraphDB [fix_experiment "e1" "p1" "i1" "exp1"; fix_experiment "e2" "p2" "i2" "exp2"] []
    [fix_infra "i1" "p1" "env1" "key1" true true; fix_infra "i2" "p2" "env2" "key2" true true]
    [fix_env "env1" "p1" ["i1"]; fix_env "env2" "p2" ["i2"]]
    [fix_probe "probe1" "p1"; fix_probe "probe2" "p2"]
    [fix_registry "reg1" "p1"; fix_registry "reg2" "p2"] []
    [fix_hub "h1" "p1" "hub1"; fix_hub "h2" "p2" "hub2"] []
    (connect_infra "i2" (connect_infra "i1" NewStore)).
Definition graph_world : World GraphDB := mkWorld graph_db 0.

(** The callers: [alice] owns [p1], and [bobby] owns [p2]. *)
Definition bobby_token : string :=
  token_text "secret" (mkClaims (Some "u2") (Some RoleUser) (Some "bobby") (Some 1800000000)).
Definition by_alice : Ctx := mkCtx (Some alice_token) None (Some "chaos.example") None.
Definition by_bobby : Ctx := mkCtx (Some bobby_token) None (Some "chaos.example") None.
