(* ===== verification/GitHistory.v ===== *)
(** * GitHistory.v: which files changed, and whose turn it is

    Two loops of GitOps against what they are for. [GetChanges]
    ([graphql/server/pkg/gitops/gitops.go]) walks the history from its newest
    commit, in the order of the committers' times, and collects the files of the
    project up to the last known commit: every file whose contents differ between
    that commit and the newest one is among them when the history is linear, or
    the known commit is on the line of first parents and older than the commits
    after it on that line. A merge whose second parent is the known commit can
    hide a change. The loop of [GitOpsSyncHandler] ([service.go]) cuts the
    configurations into groups. *)
From S2P Require Import Prelude World GoStd AuthRepo GraphDocs Experiments RunScore RunEvent Authorization.
From S2P Require Import Environments Infrastructure ProbeProperties Manifests Probes ExperimentOps ExperimentService.
From S2P Require Import GitRepo GitOps GraphFixtures.
Local Open Scope string_scope.
Local Open Scope Z_scope.

(** ** The files a walk visits *)

(** The files a commit mentions. *)
Definition sides (fp : option string * option string) : list string := (option_list fp.1 ++ option_list fp.2)%list.
Definition mentions (c : GitCommitInfo) : list string :=
  if bool_decide (ci_NumParents c = 0%nat) then match ci_Files c with Ok files => files | _ => [] end
  else match ci_Patch c with Ok patch => patch ≫= sides | _ => [] end.

Lemma elem_of_sides f fp : f ∈ sides fp ↔ fp.1 = Some f ∨ fp.2 = Some f.
Proof. destruct fp as [[a|] [b|]]; unfold sides; cbn; set_solver. Qed.

(** The commits before the one that is known already. *)
Fixpoint before (prev : string) (l : list (res GitCommitInfo)) : list GitCommitInfo :=
  match l with
  | Ok c :: l => if negb (str_eq prev "") && str_eq (ci_Hash c) prev then [] else c :: before prev l
  | _ => []
  end.

Section walk.
Context (path prev : string).
Implicit Types (visited : gmap string Z) (c : GitCommitInfo).

Definition seen visited (f : string) : Prop := is_Some (visited !! f).

Lemma seen_visit name visited f : seen (visit path name visited) f ↔ (f = name ∧ HasPrefix f path = true) ∨ seen visited f.
Proof.
  unfold seen, visit. destruct (HasPrefix name path) eqn:E; [|naive_solver congruence].
  destruct (decide (f = name)) as [->|Hn]; [rewrite lookup_insert_eq; naive_solver|].
  rewrite lookup_insert_ne by done. naive_solver.
Qed.
Lemma seen_side side visited f :
  seen (visit_side path side visited) f ↔ (side = Some f ∧ HasPrefix f path = true) ∨ seen visited f.
Proof. destruct side; cbn; [rewrite seen_visit|]; naive_solver. Qed.

Lemma seen_files files visited f :
  seen (foldl (λ m name, visit path name m) visited files) f ↔ (f ∈ files ∧ HasPrefix f path = true) ∨ seen visited f.
Proof.
  revert visited. induction files as [|x files IH]; intros visited; cbn; [set_solver|].
  rewrite IH, seen_visit, elem_of_cons. tauto.
Qed.
Lemma seen_patch patch visited f :
  seen (foldl (λ m fp, visit_side path fp.2 (visit_side path fp.1 m)) visited patch) f ↔
  (f ∈ patch ≫= sides ∧ HasPrefix f path = true) ∨ seen visited f.
Proof.
  revert visited. induction patch as [|[a b] patch IH]; intros visited; cbn; [set_solver|].
  rewrite IH, !seen_side, elem_of_app, elem_of_sides. cbn. tauto.
Qed.

(** The walk gives exactly the files of the project that a commit newer than the
    known one mentions. *)
Lemma walk_seen l visited visited' f :
  walk path prev l visited = Ok visited' →
  seen visited' f ↔ (HasPrefix f path = true ∧ ∃ c, c ∈ before prev l ∧ f ∈ mentions c) ∨ seen visited f.
Proof.
  revert visited. induction l as [|r l IH]; intros visited; cbn; [intros [= ->]; set_solver|].
  destruct r as [c|e|]; [|done..]. destruct (negb _ && _); [intros [= ->]; set_solver|].
  assert (∀ m, (seen m f ↔ (f ∈ mentions c ∧ HasPrefix f path = true) ∨ seen visited f) →
    walk path prev l m = Ok visited' →
    seen visited' f ↔ (HasPrefix f path = true ∧ ∃ c', c' ∈ c :: before prev l ∧ f ∈ mentions c') ∨ seen visited f) as Hgo.
  { intros m Hm Hw. rewrite (IH m Hw), Hm. setoid_rewrite elem_of_cons. naive_solver. }
  unfold mentions in Hgo. case_bool_decide.
  - destruct (ci_Files c) as [files|e|]; [|done..]. apply Hgo, seen_files.
  - destruct (ci_Parent c); [|done..]. destruct (ci_Patch c) as [patch|e|]; [|done..]. apply Hgo, seen_patch.
Qed.
End walk.

(** A walk that succeeds could read the files or the patch of every commit. *)
Definition readable (c : GitCommitInfo) : Prop :=
  if bool_decide (ci_NumParents c = 0%nat) then is_ok (ci_Files c) = true else is_ok (ci_Patch c) = true.

(** ** Histories *)

(** The commits of the world by their hashes: parents, the committer's time, and the
    files a commit holds. *)
Class History := {
  parents_of : string → list string;
  committer_time : string → Z;
  tree_at : string → gmap string string
}.
(** No commit is known: the empty tree. *)
Definition known_tree `{History} (prev : string) : gmap string string := if str_eq prev "" then ∅ else tree_at prev.

(** [LogOrderCommitterTime] of [go-git]: the walk starts at a commit and goes on to
    parents, each commit once and always the newest of those that can be
    reached: of the frontier [F], the parents of the commits seen so far [S]. *)
Inductive by_committer_time `{History} : list string → list string → list string → Prop :=
| time_end F S : (∀ h, h ∈ F → h ∈ S) → by_committer_time F S []
| time_next F S h hs : h ∈ F → h ∉ S → (∀ h', h' ∈ F → h' ∉ S → committer_time h' ≤ committer_time h) →
    by_committer_time (parents_of h ++ F) (h :: S) hs → by_committer_time F S (h :: hs).

(** What the library tells about a commit: a first commit has its files, any other
    one a patch with the files in which it differs from its first parent. *)
Record describes_commit `{History} (h : string) (c : GitCommitInfo) : Prop := {
  dc_hash : ci_Hash c = h;
  dc_parents : ci_NumParents c = length (parents_of h);
  dc_files files f : ci_Files c = Ok files → parents_of h = [] → is_Some (tree_at h !! f) → f ∈ files;
  dc_patch patch p ps f : ci_Patch c = Ok patch → parents_of h = p :: ps →
    tree_at h !! f ≠ tree_at p !! f → f ∈ patch ≫= sides
}.
(** The answers of the iterator, which may fail somewhere. *)
Inductive lists `{History} : list string → list (res GitCommitInfo) → Prop :=
| lists_end : lists [] []
| lists_commit h hs c l : describes_commit h c → lists hs l → lists (h :: hs) (Ok c :: l)
| lists_failure hs r l : is_ok r = false → lists hs (r :: l).

Class GitLogLaws `{GitLibrary} `{History} : Prop := {
  log_law n repo from l : git_log n repo from = Ok l → ∃ hs, by_committer_time [from] [] hs ∧ lists hs l;
  acyclic : ∃ depth : string → nat, ∀ h p, p ∈ parents_of h → (depth p < depth h)%nat
}.

(** The line of first parents from a commit down to the known one, or to the first
    commit when none is known. Its commits are newer than the known one. *)
Inductive line `{History} (prev : string) : string → list string → Prop :=
| line_known : prev ≠ "" → line prev prev []
| line_root h : prev = "" → parents_of h = [] → line prev h [h]
| line_step h p ps l : parents_of h = p :: ps → (prev ≠ "" → committer_time prev < committer_time h) →
    line prev p l → line prev h (h :: l).
(** A history without merges down to the known commit, whatever the times. *)
Inductive linear `{History} (prev : string) : string → list string → Prop :=
| linear_known : prev ≠ "" → linear prev prev []
| linear_root h : prev = "" → parents_of h = [] → linear prev h [h]
| linear_step h p l : parents_of h = [p] → h ≠ prev → linear prev p l → linear prev h (h :: l).
Definition leads_to `{History} (prev head : string) : Prop := ∃ l, line prev head l ∨ linear prev head l.

Section history.
Context `{GitLibrary} `{History}.
Implicit Types (h prev : string) (F S l hs : list string).

(** Where a file differs, a commit of the line changed it. *)
Definition changed_in h (f : string) : Prop :=
  match parents_of h with
  | [] => is_Some (tree_at h !! f)
  | p :: _ => tree_at h !! f ≠ tree_at p !! f
  end.
Lemma known_tree_some prev : prev ≠ "" → known_tree prev = tree_at prev.
Proof. intros Hp. unfold known_tree. by rewrite (proj2 (str_eq_false prev "")). Qed.
Lemma root_changed h f : parents_of h = [] → tree_at h !! f ≠ known_tree "" !! f → changed_in h f.
Proof. intros Hr. unfold changed_in, known_tree. rewrite Hr, str_eq_refl, lookup_empty. by destruct (tree_at h !! f). Qed.

Lemma line_difference prev head l f :
  line prev head l → tree_at head !! f ≠ known_tree prev !! f → ∃ h, h ∈ l ∧ changed_in h f.
Proof.
  induction 1 as [Hp|h -> Hr|h p ps l Hh _ _ IH]; intros Hf.
  - by rewrite known_tree_some in Hf.
  - exists h. split; [set_solver|by apply root_changed].
  - destruct (decide (tree_at h !! f = tree_at p !! f)) as [E|Hn].
    + destruct IH as (x & ? & ?); [congruence|]. exists x. set_solver.
    + exists h. split; [set_solver|]. unfold changed_in. by rewrite Hh.
Qed.
Lemma linear_difference prev head l f :
  linear prev head l → tree_at head !! f ≠ known_tree prev !! f → ∃ h, h ∈ l ∧ changed_in h f.
Proof.
  induction 1 as [Hp|h -> Hr|h p l Hh _ _ IH]; intros Hf.
  - by rewrite known_tree_some in Hf.
  - exists h. split; [set_solver|by apply root_changed].
  - destruct (decide (tree_at h !! f = tree_at p !! f)) as [E|Hn].
    + destruct IH as (x & ? & ?); [congruence|]. exists x. set_solver.
    + exists h. split; [set_solver|]. unfold changed_in. by rewrite Hh.
Qed.

(** The hashes before the known one. *)
Fixpoint hashes_before prev hs : list string :=
  match hs with
  | [] => []
  | h :: hs => if negb (str_eq prev "") && str_eq h prev then [] else h :: hashes_before prev hs
  end.
Lemma known_test prev h : (negb (str_eq prev "") && str_eq h prev = true ∧ h = prev ∧ prev ≠ "") ∨
                          (negb (str_eq prev "") && str_eq h prev = false ∧ (prev = "" ∨ h ≠ prev)).
Proof.
  destruct (str_eq prev "") eqn:E; cbn; [apply str_eq_true in E; auto|]. apply str_eq_false in E.
  destruct (str_eq h prev) eqn:E2; [apply str_eq_true in E2|apply str_eq_false in E2]; auto.
Qed.

(** While a commit of the line is missing, one that is missing can be reached. *)
Lemma line_frontier prev h0 l F S :
  line prev h0 l → h0 ∈ F → (∀ h p, h ∈ S → p ∈ parents_of h → p ∈ F) →
  (∀ x, x ∈ l → x ∈ S) ∨ ∃ x, x ∈ l ∧ x ∈ F ∧ x ∉ S.
Proof.
  intros Hl Hin HF. induction Hl as [Hp|h -> Hr|h p ps l Hh _ Hl IH].
  - left. set_solver.
  - destruct (decide (h ∈ S)); [left|right; exists h]; set_solver.
  - destruct (decide (h ∈ S)) as [HS|]; [|right; exists h; set_solver].
    destruct IH as [?|(x & ? & ?)]; [apply (HF h); [done|rewrite Hh; set_solver]|left; set_solver|right; exists x; set_solver].
Qed.
Lemma line_newer prev h0 l x : line prev h0 l → x ∈ l → prev ≠ "" → committer_time prev < committer_time x.
Proof. induction 1 as [Hp|h -> Hr|h p ps l Hh Ht Hl IH]; intros Hx Hp'; [set_solver|done|]. apply elem_of_cons in Hx as [->|?]; auto. Qed.

Lemma line_listed prev h0 l F S hs :
  by_committer_time F S hs → line prev h0 l → h0 ∈ F → (∀ h p, h ∈ S → p ∈ parents_of h → p ∈ F) →
  ∀ x, x ∈ l → x ∈ S ∨ x ∈ hashes_before prev hs.
Proof.
  intros Hb Hl. induction Hb as [F S Hend|F S h hs Hh HS Hmax Hb IH]; intros Hin HF x Hx.
  - destruct (line_frontier _ _ _ _ _ Hl Hin HF) as [?|(y & ? & ? & Hy)]; [auto|]. by destruct Hy; apply Hend.
  - cbn. destruct (known_test prev h) as [(-> & -> & Hp)|(-> & _)].
    + left. destruct (line_frontier _ _ _ _ _ Hl Hin HF) as [?|(y & Hy & HyF & HyS)]; [auto|].
      pose proof (line_newer _ _ _ _ Hl Hy Hp). specialize (Hmax y HyF HyS). lia.
    + destruct (IH ltac:(set_solver)) with (x := x) as [?|?]; [|done|set_solver..].
      intros y p [->|Hy]%elem_of_cons Hpar; [set_solver|]. apply elem_of_app. right. by apply (HF y).
Qed.

Lemma linear_listed (depth : string → nat) prev h0 l F S hs :
  (∀ h p, p ∈ parents_of h → (depth p < depth h)%nat) →
  linear prev h0 l → by_committer_time F S hs → h0 ∈ F → (∀ x, x ∈ F → x ∉ S → x = h0) → (∀ x, x ∈ S → (depth h0 < depth x)%nat) →
  ∀ x, x ∈ l → x ∈ hashes_before prev hs.
Proof.
  intros Hd Hl. revert F S hs. induction Hl as [Hp|h -> Hr|h p l Hh Hne Hl IH]; intros F S hs Hb Hin HF HS x Hx; [set_solver|..].
  all: assert (h ∉ S) as Hn by (intros ?%HS; lia).
  all: destruct Hb as [F S Hend|F S h' hs Hh' HS' _ Hb]; [by destruct Hn; apply Hend|].
  all: assert (h' = h) as -> by auto; cbn.
  - set_solver.
  - destruct (known_test prev h) as [(-> & -> & _)|[-> _]]; [done|].
    apply elem_of_cons in Hx as [->|Hx]; [set_solver|]. apply elem_of_cons. right.
    pose proof (Hd h p ltac:(rewrite Hh; set_solver)) as Hlt. rewrite Hh in Hb.
    apply (IH _ _ _ Hb); [set_solver| | |done].
    + intros y Hy Hny. apply elem_of_app in Hy as [Hy|Hy]; [set_solver|]. assert (y = h) by (apply HF; set_solver). set_solver.
    + intros y [->|Hy]%elem_of_cons; [done|]. specialize (HS y Hy). lia.
Qed.

(** A walk that succeeds visits every commit before the known one. *)
Lemma walk_lists path prev hs (l : list (res GitCommitInfo)) visited visited' :
  lists hs l → walk path prev l visited = Ok visited' →
  ∀ h, h ∈ hashes_before prev hs → ∃ c, c ∈ before prev l ∧ describes_commit h c ∧ readable c.
Proof.
  intros Hl. revert visited. induction Hl as [|h hs c l Hc Hl IH|hs r l Hr]; intros visited Hw x Hx.
  - by apply elem_of_nil in Hx.
  - cbn in Hw, Hx |- *. rewrite (dc_hash _ _ Hc) in Hw |- *. destruct (negb _ && _); [by apply elem_of_nil in Hx|].
    assert (readable c ∧ ∃ m, walk path prev l m = Ok visited') as [Hrd [m Hm]].
    { unfold readable. case_bool_decide; [destruct (ci_Files c)|destruct (ci_Parent c), (ci_Patch c)]; try done; eauto. }
    apply elem_of_cons in Hx as [->|Hx]; [exists c; set_solver|].
    destruct (IH m Hm x Hx) as (c' & ? & ?). exists c'. set_solver.
  - by destruct r.
Qed.
Lemma changed_mentioned h c f : describes_commit h c → readable c → changed_in h f → f ∈ mentions c.
Proof.
  intros [_ Hn Hfiles Hpatch]. unfold readable, changed_in, mentions. rewrite Hn.
  destruct (parents_of h) as [|p ps] eqn:Hp; cbn; intros Hrd Hf.
  - destruct (ci_Files c) as [files|e|]; [|done..]. by eapply Hfiles.
  - destruct (ci_Patch c) as [patch|e|]; [|done..]. by eapply Hpatch.
Qed.
End history.

Section changes.
Context `{gl : GitLibrary} `{hy : History} {laws : GitLogLaws}.

Lemma walk_covers path prev n repo head l visited f :
  git_log n repo head = Ok l → walk path prev l ∅ = Ok visited → leads_to prev head → HasPrefix f path = true →
  tree_at head !! f ≠ known_tree prev !! f → is_Some (visited !! f).
Proof.
  intros Hlog Hw (chain & Hc) Hf Hd. destruct (log_law _ _ _ _ Hlog) as (hs & Hb & Hl). destruct acyclic as [depth Hacyc].
  assert (∃ h, h ∈ hashes_before prev hs ∧ changed_in h f) as (h & Hh & Hch).
  { destruct Hc as [Hc|Hc].
    - destruct (line_difference _ _ _ _ Hc Hd) as (h & Hin & ?). exists h. split; [|done].
      destruct (line_listed prev head chain [head] [] hs Hb Hc) with (x := h) as [[]%not_elem_of_nil|?]; set_solver.
    - destruct (linear_difference _ _ _ _ Hc Hd) as (h & Hin & ?). exists h. split; [|done].
      apply (linear_listed depth prev head chain [head] [] hs); set_solver. }
  destruct (walk_lists _ _ _ _ _ _ Hl Hw h Hh) as (c & Hin & Hdc & Hrd).
  apply (walk_seen _ _ _ _ _ f Hw). left. split; [done|]. exists c. split; [done|]. by eapply changed_mentioned.
Qed.

End changes.

(** ** The groups of a round *)
Section groups.
Context {A : Type} (configs : list A).

Lemma take_group_spec (k m fuel : nat) :
  (k < fuel)%nat → (m + k ≤ length configs)%nat →
  take_group fuel configs (Z.of_nat m + Z.of_nat k - 1) (Z.of_nat m) =
    Some (reverse (take k (drop m configs)), Z.of_nat m - 1).
Proof.
  revert fuel. induction k as [|k IH]; intros fuel Hf Hl; (destruct fuel as [|fuel]; [lia|]); cbn [take_group].
  - rewrite bool_decide_eq_false_2 by lia. rewrite firstn_O. f_equal. f_equal. lia.
  - rewrite bool_decide_eq_true_2 by lia.
    replace (Z.to_nat (Z.of_nat m + Z.of_nat (S k) - 1)) with (m + k)%nat by lia.
    replace (Z.of_nat m + Z.of_nat (S k) - 1 - 1) with (Z.of_nat m + Z.of_nat k - 1) by lia.
    destruct (lookup_lt_is_Some_2 configs (m + k)) as [x Hx]; [lia|]. rewrite Hx. cbn.
    rewrite IH by lia. cbn. f_equal. f_equal.
    rewrite (take_S_r _ k x) by (by rewrite lookup_drop). by rewrite reverse_snoc.
Qed.

Definition group_sizes (groups : list (list A)) : Prop := Forall (λ g, (1 ≤ length g ≤ 10)%nat) groups.

Lemma sync_groups_spec (fuel n : nat) :
  (n < fuel)%nat → (n ≤ length configs)%nat →
  ∃ groups, sync_groups fuel configs (Z.of_nat n - 1) = Some groups ∧
    concat groups = reverse (take n configs) ∧ group_sizes groups.
Proof.
  revert n. induction fuel as [|fuel IH]; intros n Hf Hl; [lia|]. cbn [sync_groups].
  destruct n as [|n]; [exists []; rewrite bool_decide_eq_false_2 by lia; by split_and!; [..|constructor]|].
  rewrite bool_decide_eq_true_2 by lia. unfold syncGroupSize.
  assert (∃ m k, S n = m + k ∧ m = S n - 10)%nat as (m & k & Hn & Hm) by (exists (S n - 10)%nat, (S n - (S n - 10))%nat; lia).
  replace (if bool_decide _ then 0 else _) with (Z.of_nat m) by (case_bool_decide; lia).
  replace (Z.of_nat (S n) - 1) with (Z.of_nat m + Z.of_nat k - 1) by lia. cbv zeta.
  rewrite take_group_spec by lia. destruct (IH m) as (rest & Hr & Hc & Hs); [lia..|]. cbn [mbind option_bind snd].
  rewrite Hr. cbn. eexists. split; [done|]. cbn. split.
  - rewrite Hc, <-reverse_app, take_take_drop. do 2 f_equal. lia.
  - constructor; [|done]. rewrite length_reverse, length_take, length_drop. lia.
Qed.
End groups.

(** C23. The loop of a round of [GitOpsSyncHandler], which counts down over the
    configurations ten at a time, ends and puts every configuration into exactly
    one group, from the last to the first; no group is empty or has more than
    ten. No index is ever out of range. *)
Theorem round_serves_every_project (configs : list GitConfigDB) :
  ∃ groups, sync_groups (S (length configs)) configs (Z.of_nat (length configs) - 1) = Some groups ∧
    concat groups = reverse configs ∧ Forall (λ g, (1 ≤ length g ≤ 10)%nat) groups.
Proof.
  destruct (sync_groups_spec configs (S (length configs)) (length configs)) as (groups & E & Hc & Hs); [lia..|].
  exists groups. split_and!; [done| |done]. by rewrite Hc, firstn_all.
Qed.

(** ** Witnesses and examples *)
#[export] Instance fix_history : History := {|
  parents_of h := if str_eq h "c2" then ["c1"] else [];
  committer_time h := if str_eq h "c2" then 2 else 1;
  tree_at h :=
    if str_eq h "c2" then {["litmus/p1/exp1.yaml" := "new"; "README.md" := "text"]}
    else if str_eq h "c1" then {["litmus/p1/gone.yaml" := "old"]} else ∅
|}.
Definition fix_gitconfig (projectID commit : string) : GitConfigDB :=
  mkGitConfigDB projectID "https://git.example/repo" "main" commit AuthTypeToken None None (Some "token") None.

(** Finite maps that differ somewhere differ at a key of one of them. *)
Lemma differ_at (m1 m2 : gmap string string) f : m1 !! f ≠ m2 !! f → f ∈ (map_to_list m1).*1 ∨ f ∈ (map_to_list m2).*1.
Proof.
  intros Hf. destruct (m1 !! f) as [x|] eqn:E1; [left; apply list_elem_of_fmap; exists (f, x); split; [done|by apply elem_of_map_to_list]|].
  destruct (m2 !! f) as [x|] eqn:E2; [right; apply list_elem_of_fmap; exists (f, x); split; [done|by apply elem_of_map_to_list]|done].
Qed.

(** The next commit of a concrete history is the newest. *)
Ltac newest :=
  let h := fresh "h" in let Hh := fresh "Hh" in let Hn := fresh "Hn" in
  intros h Hh Hn; cbn in Hh;
  repeat (apply elem_of_cons in Hh as [->|Hh]; [first [vm_compute; congruence|set_solver]|]); by apply elem_of_nil in Hh.

#[export] Instance fix_log_laws : GitLogLaws.
Proof.
  split.
  - intros n repo from l. cbn. destruct (str_eq from "c2") eqn:E; [|done]. apply str_eq_true in E as ->. intros [= <-].
    exists ["c2"; "c1"]. split.
    + apply time_next; [set_solver..|newest|]. apply time_next; [set_solver..|newest|apply time_end; set_solver].
    + repeat constructor; cbn; try done.
      * intros patch p ps f [= <-] E. change (["c1"] = p :: ps) in E. injection E as <- <-.
        intros [Hf|Hf]%differ_at; vm_compute in Hf |- *; set_solver.
      * intros files f [= <-] _ [x Hf]. apply lookup_singleton_Some in Hf as [<- _]. set_solver.
  - exists (λ h, if str_eq h "c2" then 1%nat else 0%nat). intros h p. cbn. destruct (str_eq h "c2") eqn:E; [|set_solver].
    intros ->%list_elem_of_singleton. change (0 < 1)%nat. lia.
Qed.

(** A user who has committed the file of an experiment pulls what the server pushed
    since: the pull makes a merge whose first parent is the user's commit and
    whose second parent is the server's, which is the known one and the newer of
    the two. [GetChanges] compares the merge with its first parent only and stops
    at the known commit before it gets to the user's: the user's file is in no
    answer, although it differs. *)
Section merge.
Definition merge_git : GitLibrary := {|
  os_stat := os_stat; os_read := os_read; os_write := os_write; os_mkdir_all := os_mkdir_all; os_remove_all := os_remove_all;
  os_rename := os_rename; git_clone := git_clone; git_open := git_open; git_worktree := git_worktree;
  git_status_clean := git_status_clean; git_fetch := git_fetch; git_reference := git_reference; git_branch := git_branch;
  git_reset := git_reset; git_checkout := git_checkout; git_add := git_add; git_remove := git_remove; git_commit := git_commit;
  git_push := git_push; git_head _ _ := Ok "merge";
  git_log _ _ from := if str_eq from "merge" then Ok
    [Ok (mkCommitInfo "merge" 2 (Ok []) (Ok tt) (Ok [(None, Some "litmus/p1/server.yaml")]));
     Ok (mkCommitInfo "server" 1 (Ok []) (Ok tt) (Ok [(None, Some "litmus/p1/server.yaml")]));
     Ok (mkCommitInfo "user" 1 (Ok []) (Ok tt) (Ok [(None, Some "litmus/p1/user.yaml")]));
     Ok (mkCommitInfo "base" 0 (Ok []) (Ok tt) (Ok []))]
    else Err (ErrNew "object not found");
  git_log_path := git_log_path; ssh_public_keys := ssh_public_keys
|}.
Definition merge_history : History := {|
  parents_of h := if str_eq h "merge" then ["user"; "server"] else if str_in h ["user"; "server"] then ["base"] else [];
  committer_time h := if str_eq h "merge" then 4 else if str_eq h "server" then 3 else if str_eq h "user" then 2 else 1;
  tree_at h :=
    if str_eq h "merge" then {["litmus/p1/server.yaml" := "s"; "litmus/p1/user.yaml" := "u"]}
    else if str_eq h "server" then {["litmus/p1/server.yaml" := "s"]}
    else if str_eq h "user" then {["litmus/p1/user.yaml" := "u"]} else ∅
|}.
#[local] Existing Instances merge_git merge_history.

Lemma merge_log_laws : GitLogLaws (H := merge_git) (H0 := merge_history).
Proof.
  split.
  - intros n repo from l. cbn. destruct (str_eq from "merge") eqn:E; [|done]. apply str_eq_true in E as ->. intros [= <-].
    exists ["merge"; "server"; "user"; "base"]. split.
    + apply time_next; [set_solver..|newest|].
      apply time_next; [set_solver..|newest|].
      apply time_next; [set_solver..|newest|].
      apply time_next; [set_solver..|newest|apply time_end; set_solver].
    + repeat constructor; cbn; try done. all: try (intros patch p ps f [= <-] E).
      * change (["user"; "server"] = p :: ps) in E. injection E as <- <-.
        intros Hf. apply dec_stable. intros Hn. destruct Hf.
        change ((<["litmus/p1/server.yaml" := "s"]> {["litmus/p1/user.yaml" := "u"]} : gmap string string) !! f =
                ({["litmus/p1/user.yaml" := "u"]} : gmap string string) !! f).
        rewrite lookup_insert_ne; [done|]. intros <-. apply Hn. vm_compute. set_solver.
      * change (["base"] = p :: ps) in E. injection E as <- <-. intros [Hf|Hf]%differ_at; vm_compute in Hf |- *; set_solver.
      * change (["base"] = p :: ps) in E. injection E as <- <-. intros [Hf|Hf]%differ_at; vm_compute in Hf |- *; set_solver.
      * intros files f _ _ [x Hf]. change ((∅ : gmap string string) !! f = Some x) in Hf. by rewrite lookup_empty in Hf.
  - exists (λ h, if str_eq h "merge" then 2%nat else if str_in h ["user"; "server"] then 1%nat else 0%nat).
    intros h p. cbn. destruct (str_eq h "merge") eqn:E.
    + intros [->|[->|[]%not_elem_of_nil]%elem_of_cons]%elem_of_cons; change (1 < 2)%nat; lia.
    + destruct (str_in h _); [|set_solver]. intros ->%list_elem_of_singleton. change (0 < 1)%nat. lia.
Qed.

Example merged_change_is_missed :
  GitLogLaws (H := merge_git) (H0 := merge_history) ∧
  wp (GetChanges (H := merge_git) (GetGitOpsConfig (fix_gitconfig "p1" "server"))) (λ r w',
    r = Ok ("merge", {["litmus/p1/server.yaml" := 1]}) ∧
    tree_at "merge" !! "litmus/p1/user.yaml" = Some "u" ∧ tree_at "server" !! "litmus/p1/user.yaml" = None) graph_world.
Proof. split; [exact merge_log_laws|]. split_and!; vm_compute; reflexivity. Qed.
End merge.
