(* ===== verification/ProjectTheorems.v ===== *)
(** * ProjectTheorems.v: the GraphQL server and the authentication service together *)
From S2P Require Import Prelude World GoStd Float64 AuthEntities AuthRepo AuthService AuthAccess AuthSessions Fixtures.
From S2P Require Import GraphDocs Experiments RunScore RunEvent Pipelines Authorization AuthBridge.
From S2P Require Import Environments Infrastructure InfraListing ImageRegistries ProbeProperties Manifests Probes.
From S2P Require Import ExperimentOps ExperimentService GitRepo GitOps ExperimentHandlers ExperimentListing Isolation ProjectRequests ProjectAccess GraphFixtures.
From S2P Require Import HubFiles ChaosHubs HubRequests.
Local Open Scope string_scope.
Local Open Scope Z_scope.

Section theorems.
Context {drv : MongoDriver} {laws : MongoLaws drv} {rt : Runtime} {rx : MongoRegex} {lo : LookupOrder}
  {mo : MapOrder} {cr : Crypto} {crl : CryptoLaws cr} {ah : AuthHistory} {cfg : ServerConfig} {ie : InfraEnv}
  {sc : SourceCodec} {dec : Decoders} {mc : ManifestCodec} {sid : ShortID} {gl : GitLibrary} {gd : GitData} {tx : MongoTxn}
  {ab : MongoAbort} {ps : Positional} {mn : ManifestNamespace} {avg : MongoAvg} {fti : FloatToInt}
  {hl : HubLibrary} {hd : HubDisk} {hcf : HubConfig}.

(** C1. Every request of the GraphQL server about a project that asks for a right,
    whichever calls fail, is either refused without any effect, or its
    caller was at that moment an active user with one of the roles the request
    needs and an accepted invitation in that project, according to the
    authentication service. If it was accepted, no document of another project was
    created, changed or removed, with three exceptions: an experiment that is run
    is named by its identifier alone, and that request is confined when the
    experiment is the project's ([run_crosses_projects] is one that is not); a hub
    that is synchronised or updated is confined when identifiers of hubs are
    unique. Messages to agents are not documents:
    [foreign_infrastructure_is_reachable]. *)
Theorem requests_are_authorized_and_confined ctx projectID q w :
  wp (resolve ctx projectID q) (λ r w',
    ((∃ n jwt, cx_AuthKey ctx = Some jwt ∧
        member_at n jwt projectID (MutationRbacRules (role_of q)) InvitationAccepted) ∧
     (in_project projectID q (db w) → isolated projectID (own_ids projectID (db w)) (db w) (db w'))) ∨
    (db w' = db w ∧ is_ok r = false)) w.
Proof.
  eapply wp_mono; [by apply wp_resolve|]. intros r w' [[(n & jwt & Hj & Ha) Hi]|?]; [left|by right].
  split; [|done]. exists n, jwt. split; [done|]. by eapply rpc_sound.
Qed.
End theorems.

(** ** Witnesses and examples *)
Lemma requests_are_authorized_and_confined_witness :
  wp (resolve by_alice "p1" (RqDeleteChaosExperiment "e1" None)) (λ r w', r = Ok tt ∧
    (((∃ n jwt, cx_AuthKey by_alice = Some jwt ∧
        member_at n jwt "p1" (MutationRbacRules DeleteChaosExperimentRole) InvitationAccepted) ∧
     (True → isolated "p1" (own_ids "p1" graph_db) graph_db (db w'))) ∨
    (db w' = graph_db ∧ is_ok r = false))) graph_world.
Proof.
  apply wp_conj; [vm_compute; reflexivity|].
  apply (requests_are_authorized_and_confined by_alice "p1" (RqDeleteChaosExperiment "e1" None) graph_world).
Defined.

(** [RunChaosExperiment] checks the role in the project the request names but
    loads the experiment by its identifier alone, and nothing after that compares
    the two projects: [alice], who is no member of [p2], runs the experiment of
    [p2] through her own project, and the agent of [p2] is told to execute it. *)
Example run_crosses_projects :
  wp (resolve by_alice "p1" (RqRunChaosExperiment "e2")) (λ r w', r = Ok tt ∧
    (ex_TotalExperimentRuns <$> g_experiments (db w')) = [0; 1] ∧
    ((λ a, (ap_RequestType (ia_Action a), ia_ProjectID a)) <$> default [] (sd_Actions (g_store (db w')) !! 1%nat))
      = [("create", "p1")]) graph_world ∧
  wp (resolve by_alice "p2" (RqRunChaosExperiment "e2")) (λ r w', is_ok r = false) graph_world.
Proof. split; [split_and!|]; vm_compute; reflexivity. Qed.

(** Infrastructures are looked up by their identifier alone where they are
    removed and where their manifest is shown. The owner of one project, naming
    the infrastructure of another, has the agent of the other project told to
    delete its own subscriber (no document changes), and is shown the manifest
    with the access key of the other project's agent. *)
Example foreign_infrastructure_is_reachable :
  wp (resolve by_alice "p1" (RqDeleteInfra "i2")) (λ r w', r = Ok tt ∧ g_infras (db w') = g_infras graph_db ∧
    ((λ a, ap_RequestType (ia_Action a)) <$> default [] (sd_Actions (g_store (db w')) !! 1%nat)) = ["delete"; "delete"])
    graph_world ∧
  wp (query_GetInfraManifest by_alice "i2" "p1") (λ r _, match r with Ok text => Contains text "key2" | _ => false end = true)
    graph_world.
Proof. split; [split_and!|]; vm_compute; reflexivity. Qed.

(** Saving an experiment without an identifier takes the branch of an update, of
    an experiment that does not exist: success is reported and nothing stored. *)
Example saved_without_id_is_lost :
  wp (mutation_SaveChaosExperiment by_alice (mkSaveExperiment "" "exp9" "" (manifest_of "Workflow" "exp9") "i1" []) "p1")
     (λ r w', r = Ok "experiment updated successfully with ID " ∧ g_experiments (db w') = g_experiments graph_db)
     graph_world.
Proof. split; vm_compute; reflexivity. Qed.
