(* ===== verification/ExperimentNames.v ===== *)
(** * ExperimentNames.v: experiments of a project have distinct names

    The database has a unique index on the identifier of an experiment only; that
    two experiments of a project never share a name is the work of the handlers,
    which check before they write ([validateDuplicateExperimentName] and the loop of
    [UpdateChaosExperiment] in [graphql/server/pkg/chaos_experiment/handler/handler.go]). *)
From S2P Require Import Prelude World GoStd Float64 AuthRepo GraphDocs Experiments RunScore RunEvent.
From S2P Require Import Pipelines Authorization Environments Infrastructure InfraListing ImageRegistries.
From S2P Require Import ProbeProperties Manifests Probes ExperimentOps ExperimentService GitRepo GitOps ExperimentHandlers ExperimentListing Isolation.
From S2P Require Import ProjectRequests ProjectAccess Fixtures AuthBridge GraphFixtures.
From S2P Require Import HubFiles ChaosHubs HubRequests.
Local Open Scope string_scope.
Local Open Scope Z_scope.

(** A UUID is written with 36 characters. *)
Class UUIDLaws (rt : Runtime) : Prop := uuid_not_empty : ∀ n, fresh_uuid n ≠ "".

(** ** The invariant *)
Definition named (projectID name : string) (l : list ChaosExperimentRequest) : list ChaosExperimentRequest :=
  List.filter (named_experiment projectID name) l.

Record names_ok (l : list ChaosExperimentRequest) : Prop := mkNamesOk {
  no_ids : NoDup (ex_ExperimentID <$> l);
  no_empty_id : Forall (λ e, ex_ExperimentID e ≠ "") l;
  no_names projectID name : (length (named projectID name l) ≤ 1)%nat;
}.

Lemma named_experiment_true projectID name e :
  named_experiment projectID name e = true ↔
  ex_ProjectID e = projectID ∧ ex_Name e = name ∧ au_IsRemoved (ex_Audit e) = false.
Proof. unfold named_experiment. rewrite !andb_true_iff, !str_eq_true, negb_true_iff; tauto. Qed.

(** *** Updates that keep names and identifiers *)
Definition keeps_name (f : ChaosExperimentRequest → ChaosExperimentRequest) : Prop :=
  ∀ e, ex_ExperimentID (f e) = ex_ExperimentID e ∧
    ∀ projectID name, named_experiment projectID name (f e) = true → named_experiment projectID name e = true.

Lemma names_shrink q f l l' : keeps_name f → updated_some q f l l' → names_ok l → names_ok l'.
Proof.
  intros Hf HU [Hid Hne Hn]. split.
  - erewrite (updated_some_keys ex_ExperimentID); [done|done|]. intros e. apply Hf.
  - eapply updated_some_Forall; [done| |done]. intros e _ He _. by rewrite (proj1 (Hf e)).
  - intros p n. etrans; [|apply (Hn p n)]. clear -HU Hf. unfold named.
    induction HU as [|e e' l l' He ? IH]; cbn; [done|].
    assert (named_experiment p n e' = true → named_experiment p n e = true) as Hi.
    { destruct He as [->|[_ ->]]; [done|apply Hf]. }
    destruct (named_experiment p n e'), (named_experiment p n e); cbn; lia.
Qed.

(** *** A new experiment *)
Lemma names_insert d l l' r :
  ex_ExperimentID d ≠ "" → named (ex_ProjectID d) (ex_Name d) l = [] →
  insert_one_post experiment_key d r l l' → names_ok l → names_ok l'.
Proof.
  intros Hd Hfree HI Hok.
  assert (inserted experiment_key d l l' → names_ok l') as Hins; [|by destruct r as [?|?|]; cbn in HI; naive_solver].
  intros [Hp HF]. destruct Hok as [Hid Hne Hn]. split.
  - rewrite Hp. cbn. apply NoDup_cons. split; [|done]. intros (e & He & Hin)%list_elem_of_fmap.
    rewrite Forall_forall in HF. specialize (HF e Hin). apply str_eq_false in HF. congruence.
  - rewrite Hp. by constructor.
  - intros p n. unfold named in *. rewrite (filterb_perm _ _ _ Hp). cbn.
    destruct (named_experiment p n d) eqn:E; [|apply Hn].
    apply named_experiment_true in E as (<- & <- & _). rewrite Hfree. cbn. lia.
Qed.

(** *** A new name *)
Definition renames (name : string) (f : ChaosExperimentRequest → ChaosExperimentRequest) : Prop :=
  ∀ e, ex_ExperimentID (f e) = ex_ExperimentID e ∧ ex_ProjectID (f e) = ex_ProjectID e ∧ ex_Name (f e) = name.

Lemma named_singleton projectID name e l1 l2 :
  NoDup (ex_ExperimentID <$> (l1 ++ e :: l2)%list) →
  (∀ x, x ∈ (l1 ++ e :: l2)%list → named_experiment projectID name x = true → ex_ExperimentID x = ex_ExperimentID e) →
  named projectID name l1 = [] ∧ named projectID name l2 = [].
Proof.
  intros HN Hx. assert (∀ x, x ∈ (l1 ++ l2)%list → named_experiment projectID name x = false) as Hno.
  { intros x Hin. apply not_true_is_false. intros Hq. specialize (Hx x).
    rewrite <-(Permutation_middle l1 l2 e) in HN. cbn in HN. apply NoDup_cons in HN as [Hni _].
    destruct Hni. apply list_elem_of_fmap. exists x. split; [|done]. symmetry. apply Hx; [set_solver|done]. }
  unfold named. split; apply filterb_none; set_solver.
Qed.

Lemma names_rename q f projectID name id l l' r :
  (∀ e, q e = true → ex_ExperimentID e = id ∧ ex_ProjectID e = projectID) → renames name f →
  (∀ e, e ∈ named projectID name l → ex_ExperimentID e = id) →
  update_one_post q f r l l' → names_ok l → names_ok l'.
Proof.
  intros Hq Hf Hown HU Hok.
  assert (updated_one q f l l' → names_ok l') as Hone; [|by destruct r as [?|?|]; cbn in HU; naive_solver].
  intros Hu. pose proof Hok as [Hid Hne Hn]. split.
  - erewrite (updated_some_keys ex_ExperimentID); [done|by eapply updated_one_some|]. intros e. apply Hf.
  - eapply updated_some_Forall; [by eapply updated_one_some| |done]. intros e _ He _. by rewrite (proj1 (Hf e)).
  - destruct Hu as (l1 & d & l2 & -> & Hd & ->). destruct (Hq d Hd) as [Hdi Hdp]. destruct (Hf d) as (Hfi & Hfp & Hfn).
    intros p n. specialize (Hn p n). unfold named in *. rewrite List.filter_app in Hn |- *. cbn in *.
    destruct (named_experiment p n (f d)) eqn:E.
    + apply named_experiment_true in E as (E1 & E2 & _). rewrite Hfp, Hdp in E1. rewrite Hfn in E2. subst p n.
      destruct (named_singleton projectID name d l1 l2) as [N1 N2]; [done| |unfold named in N1, N2; rewrite N1, N2; cbn; lia].
      intros x Hx Hqx. rewrite Hdi. apply Hown. by apply elem_of_filterb.
    + destruct (named_experiment p n d); rewrite ?length_app in *; cbn in *; lia.
Qed.

(** ** Code that leaves the experiments alone *)
Definition same_experiments (s s' : GraphDB) : Prop :=
  g_experiments s' = g_experiments s ∧ g_gitconfigs s' = g_gitconfigs s.
#[export] Instance same_experiments_preorder : PreOrder same_experiments.
Proof. unfold same_experiments. split; [done|]. intros s1 s2 s3 [] []. split; congruence. Qed.
#[export] Instance same_experiments_store : StoreFree same_experiments.
Proof. by split. Qed.

Section same.
Context (projectID : string).
#[export, refine] Instance same_environments : Shielded projectID same_experiments Environment := {| shield _ := false |}.
Proof. all: [> intros s l' _; by split|done]. Defined.
#[export, refine] Instance same_infras : Shielded projectID same_experiments ChaosInfra := {| shield _ := false |}.
Proof. all: [> intros s l' _; by split|done]. Defined.
#[export, refine] Instance same_probes : Shielded projectID same_experiments Probe := {| shield _ := false |}.
Proof. all: [> intros s l' _; by split|done]. Defined.
#[export, refine] Instance same_registries : Shielded projectID same_experiments ImageRegistry := {| shield _ := false |}.
Proof. all: [> intros s l' _; by split|done]. Defined.
#[export, refine] Instance same_hubs : Shielded projectID same_experiments ChaosHub := {| shield _ := false |}.
Proof. all: [> intros s l' _; by split|done]. Defined.
#[export] Instance same_writes_hub {drv : MongoDriver} {laws : MongoLaws drv} id : WritesHub id same_experiments.
Proof. intros f _. unfold UpdateChaosHubDoc. stays_auto. by apply (stays_UpdateOne (projectID := projectID)). Qed.
#[export, refine] Instance same_runs : Shielded projectID same_experiments ChaosExperimentRun := {| shield _ := false |}.
Proof. all: [> intros s l' _; by split|done]. Defined.
End same.

(** What is kept: the names, and that no project uses GitOps. *)
Record tidy (s : GraphDB) : Prop := mkTidy {
  tidy_names : names_ok (g_experiments s);
  tidy_git : g_gitconfigs s = [];
}.
Lemma tidy_same s s' : same_experiments s s' → tidy s → tidy s'.
Proof. intros [E1 E2] []. split; congruence. Qed.
Lemma tidy_experiments l s : names_ok l → g_gitconfigs s = [] → tidy (set_docs l s).
Proof. by split. Qed.

(** Code that keeps the invariant. *)
Definition naming (s s' : GraphDB) : Prop := tidy s → tidy s'.
#[export] Instance naming_preorder : PreOrder naming.
Proof. split; [by intros s ?|]. intros s1 s2 s3 H12 H23 H1. auto. Qed.

Lemma stays_same_naming {A} (m : GM A) : stays same_experiments m → stays naming m.
Proof. intros Hm w. exact (tidy_same _ _ (Hm w)). Qed.
(** A write that may do anything to another collection. *)
Lemma stays_write_runs {drv : MongoDriver} {laws : MongoLaws drv} q f : stays same_experiments (UpdateMany (D := ChaosExperimentRun) q f).
Proof. apply (stays_UpdateMany (projectID := "")). done. Qed.
Lemma stays_write_run {drv : MongoDriver} {laws : MongoLaws drv} q f : stays same_experiments (UpdateOne (D := ChaosExperimentRun) q f).
Proof. apply (stays_UpdateOne (projectID := "")). done. Qed.
#[export] Hint Resolve stays_write_runs stays_write_run : stays.
#[export] Hint Extern 6 (stays naming _) => apply stays_same_naming : stays.

(** What follows whatever a call gives. *)
Ltac wp_skip := apply wp_on_err, wp_any; intros [?|?|] ?; [|by wp_step|done].

Section names.
Context {drv : MongoDriver} {laws : MongoLaws drv} {rt : Runtime} {ul : UUIDLaws rt} {rx : MongoRegex} {lo : LookupOrder}
  {mo : MapOrder} {cr : Crypto} {ac : AuthClient} {cfg : ServerConfig} {ie : InfraEnv} {sc : SourceCodec}
  {dec : Decoders} {mc : ManifestCodec} {sid : ShortID} {gl : GitLibrary} {gd : GitData} {tx : MongoTxn} {ab : MongoAbort}
  {ps : Positional} {mn : ManifestNamespace} {avg : MongoAvg} {fti : FloatToInt}
  {hl : HubLibrary} {hd : HubDisk} {hcf : HubConfig}.

(** ** Processing a manifest keeps name and identifier *)
Definition same_request (x : ExperimentInput) (r : res ExperimentInput) : Prop :=
  ∀ x', r = Ok x' → xi_ExperimentName x' = xi_ExperimentName x ∧ xi_ExperimentID x' = xi_ExperimentID x.

Lemma wp_processExperimentManifest ctx x id weights revID pid w :
  wp (processExperimentManifest ctx x id weights revID pid) (λ r _, same_request x r) w.
Proof.
  unfold processExperimentManifest. destruct (read_workflow _); [|by wp_step..]. do 2 wp_skip. wp_step. by intros x' [= <-].
Qed.
Lemma wp_processCronManifest ctx x id weights revID pid w :
  wp (processCronExperimentManifest ctx x id weights revID pid) (λ r _, same_request x r) w.
Proof.
  unfold processCronExperimentManifest. destruct (read_cron _); [|by wp_step..]. destruct (str_eq _ _); [by wp_step|].
  cbv zeta. do 2 wp_skip. wp_step. by intros x' [= <-].
Qed.
Lemma wp_process_standalone rd wr what ctx x id weights revID pid w :
  wp (process_standalone rd wr what ctx x id weights revID pid) (λ r _, same_request x r) w.
Proof.
  unfold process_standalone. destruct (rd _) as [meta|]; [|by wp_step].
  destruct (eg_Experiments meta) as [|e ?]; [by wp_step|]. destruct (str_eq _ _); [by wp_step|].
  wp_skip. cbv zeta. do 2 wp_skip. wp_step. by intros x' [= <-].
Qed.

(** The request that is processed has an identifier, its own when it had one. *)
Definition identified (x x' : ExperimentInput) : Prop :=
  xi_ExperimentName x' = xi_ExperimentName x ∧ ∃ id, xi_ExperimentID x' = Some id ∧ id ≠ "" ∧
  ∀ i, xi_ExperimentID x = Some i → i ≠ "" → id = i.

Lemma identified_set x u : u ≠ "" → identified x (set_xi_id (or_default (xi_ExperimentID x) u) x).
Proof.
  intros Hu. split; [done|]. eexists. split; [done|]. unfold or_default, given.
  destruct (xi_ExperimentID x) as [[|c i]|]; cbn; split; try done; by intros ? [= <-].
Qed.
Lemma wp_typed (m : GM (res ExperimentInput)) (t : string) x x0 w :
  identified x0 x → wp m (λ r _, same_request x r) w →
  wp (let? x := m in mret (Ok (x, t))) (λ r _, ∀ x' t', r = Ok (x', t') → identified x0 x') w.
Proof.
  intros [Hn Hid] Hm. wp_step. eapply wp_mono; [exact Hm|]. intros [x1|e|] w1 Hs; [|by wp_step|done].
  wp_step. intros x' t' [= <- _]. destruct (Hs x1 eq_refl) as [En Ei]. split; [congruence|]. by rewrite Ei.
Qed.

Lemma wp_ProcessExperiment ctx x pid revID w :
  wp (ProcessExperiment ctx x pid revID) (λ r w', same_experiments (db w) (db w') ∧
    ∀ x' t, r = Ok (x', t) → identified x x') w.
Proof.
  apply wp_conj; [apply (stays_wp same_experiments), stays_ProcessExperiment|].
  unfold ProcessExperiment. wp_skip. wp_step; [by wp_step|]. wp_step; [by wp_step|]. wp_step.
  match goal with |- wp NewUUID _ ?w => pose proof (uuid_not_empty (tick w)) as Hu end.
  unfold wp at 1. cbn [NewUUID fst snd]. cbv zeta. apply (identified_set x) in Hu.
  destruct (read_object _) as [[name kind]|]; [|by wp_step]. wp_step; [by wp_step|].
  repeat (wp_step; [apply (wp_typed _ _ _ _ _ Hu)|]); [..|by wp_step].
  - apply wp_processExperimentManifest.
  - apply wp_processCronManifest.
  - apply wp_process_standalone.
  - apply wp_process_standalone.
Qed.

(** ** The checks *)

(** No experiment of the project has the name. *)
Lemma wp_validateName pid name w :
  wp (validateDuplicateExperimentName pid name) (λ r w', db w' = db w ∧
    (r = Ok tt → named pid name (g_experiments (db w)) = [])) w.
Proof.
  unfold validateDuplicateExperimentName, CountChaosExperiments, CountDocuments. do 2 wp_step. wp_use wp_Aggregate.
  intros [l|e|] w1 [E Hl]; [|by wp_step|done]. wp_step. destruct Hl as (l' & Hp & ->). cbn.
  destruct (bool_decide _) eqn:Eb; wp_step; (split; [done|]); [done|]. intros _.
  apply bool_decide_eq_false in Eb. unfold named. apply nil_length_inv.
  rewrite (Permutation_length (filterb_perm (named_experiment pid name) _ _ Hp)) in Eb. cbn in *. lia.
Qed.

(** Every experiment of the project with the name has the identifier [id]. *)
Definition name_belongs (pid name id : string) (l : list ChaosExperimentRequest) : Prop :=
  ∀ e, e ∈ named pid name l → ex_ExperimentID e = id.

Lemma free_belongs pid name id l : named pid name l = [] → name_belongs pid name id l.
Proof. intros E e He. rewrite E in He. by apply elem_of_nil in He. Qed.

(** The name of an experiment belongs to it. *)
Lemma own_name_belongs pid e l :
  names_ok l → e ∈ l → live_experiment (ex_ExperimentID e) pid e = true →
  name_belongs pid (ex_Name e) (ex_ExperimentID e) l.
Proof.
  intros [_ _ Hn] He [[_ Hp]%own_experiment_true Hl]%andb_true_iff e' He'.
  assert (e ∈ named pid (ex_Name e) l) as Hin.
  { apply elem_of_filterb. split; [done|]. apply named_experiment_true. by apply negb_true_iff in Hl. }
  specialize (Hn pid (ex_Name e)). destruct (named pid (ex_Name e) l) as [|x [|? ?]]; cbn in Hn; [set_solver| |lia].
  set_solver.
Qed.

(** ** The writes *)
Abbreviation keeps_names := (λ _ w', tidy (db w')).

Lemma wp_naming {A} (m : GM A) w : stays naming m → tidy (db w) → wp m keeps_names w.
Proof. intros Hm. apply Hm. Qed.

(** Messages at the end of an operation leave the database alone. *)
Lemma wp_sent r pid manifest infraID u data type w :
  tidy (db w) →
  wp (send_if r (SendExperimentToSubscriber pid manifest infraID u data type)) keeps_names w.
Proof. intros Hok. apply wp_naming; [|done]. apply stays_same_naming, stays_send_if, stays_SendExperiment. Qed.

Lemma wp_creation_names x id u pid type revID r w :
  id ≠ "" → named pid (xi_ExperimentName x) (g_experiments (db w)) = [] → tidy (db w) →
  wp (ProcessExperimentCreation x id u pid type revID r) keeps_names w.
Proof.
  intros Hid Hfree Hok. unfold ProcessExperimentCreation. wp_step. wp_use wp_now. intros t w1 E1.
  wp_step. wp_use wp_InsertOne. intros r' w2 (l' & E2 & HI). rewrite E1 in E2, HI.
  destruct Hok as [Hok Hg].
  assert (tidy (db w2)) as Hok2 by (rewrite E2; apply tidy_experiments; [eapply names_insert; [..|exact HI|]; done|done]).
  destruct r' as [[]|e|]; [by apply wp_sent|by wp_step|done].
Qed.

Lemma wp_update_names x id u type revID pid r w :
  name_belongs pid (xi_ExperimentName x) id (g_experiments (db w)) → tidy (db w) →
  wp (ProcessExperimentUpdate x id u type revID false pid r) keeps_names w.
Proof.
  intros Hb Hok. unfold ProcessExperimentUpdate, UpdateChaosExperiment. wp_step. wp_use wp_now. intros t w1 E1.
  wp_step. wp_use wp_now. intros t' w2 E2. do 2 wp_step. wp_use wp_UpdateOne.
  intros r' w3 (l' & E3 & HU). rewrite E2, E1 in E3, HU.
  assert (tidy (db w3)) as Hok3.
  { destruct Hok as [Hok Hg]. rewrite E3. apply tidy_experiments; [|done].
    eapply (names_rename _ _ pid (xi_ExperimentName x) id); [| | |exact HU|done]; [by intros e ?%own_experiment_true|done|exact Hb]. }
  destruct r' as [n|e|]; [wp_step|by do 2 wp_step|done]. destruct (read_object _); [by apply wp_sent|by wp_step].
Qed.

Lemma stays_keep_names q f : keeps_name f → stays naming (UpdateChaosExperiment q f).
Proof.
  intros Hf. unfold UpdateChaosExperiment. stays_auto. intros w Hok.
  destruct (wp_UpdateOne q f w) as (l' & E & HU%update_one_some). rewrite E. destruct Hok as [Hok Hg].
  apply tidy_experiments; [by eapply names_shrink|done].
Qed.
Lemma replace_manifest_names revID m u t t' : keeps_name (replace_manifest revID m u t t').
Proof. intros e. unfold replace_manifest. by destruct (find_index _ _). Qed.
Lemma stays_revision_names x id u type revID pid r :
  stays naming (ProcessExperimentUpdate x id u type revID true pid r).
Proof.
  unfold ProcessExperimentUpdate. stays_auto. apply stays_keep_names, replace_manifest_names.
Qed.

(** ** The handlers *)
(** Without GitOps nothing happens. *)
Lemma wp_no_config ctx pid w :
  g_gitconfigs (db w) = [] → wp (synced_config ctx pid) (λ r w', db w' = db w ∧ (r = Ok None ∨ ∃ e, r = Err e)) w.
Proof.
  intros Hg. apply wp_config; [rewrite Hg; by intros ? ? ? ?%elem_of_nil|intros; wp_step; auto|eauto].
Qed.
Lemma wp_upsert_then {B} ctx pid x (k : GM (res B)) w :
  tidy (db w) → (∀ w', db w' = db w → wp k keeps_names w') →
  wp (let? _ := UpsertExperimentToGit ctx pid x in k) keeps_names w.
Proof.
  intros Hok Hk. unfold UpsertExperimentToGit. do 2 wp_step. eapply wp_mono; [by apply wp_no_config, tidy_git|].
  intros r w1 [E [->|[e ->]]]; [by apply Hk|do 2 wp_step; by rewrite E].
Qed.
Lemma wp_checked {B} pid name (k : GM (res B)) w :
  tidy (db w) →
  (∀ w', db w' = db w → named pid name (g_experiments (db w)) = [] → wp k keeps_names w') →
  wp (let? _ := validateDuplicateExperimentName pid name in k) keeps_names w.
Proof.
  intros Hok Hk. wp_step. wp_use wp_validateName. intros [[]|e|] w2 [E2 Hf]; [|wp_step; by rewrite E2|by rewrite E2].
  apply Hk; auto.
Qed.
(** The answer that follows a write. *)
Lemma wp_answered {B} (m : GM (res unit)) (b : B) w :
  wp m keeps_names w → wp (let? _ := m in mret (Ok b)) keeps_names w.
Proof. intros Hm. wp_step. eapply wp_mono; [exact Hm|]. intros [[]|e|] w1 Hok; [by wp_step..|done]. Qed.

(** The processed request with its facts. *)
Lemma wp_processed {B} ctx x pid revID (k : ExperimentInput * string → GM (res B)) w :
  tidy (db w) →
  (∀ x' t w', same_experiments (db w) (db w') → identified x x' → wp (k (x', t)) keeps_names w') →
  wp (let? p := ProcessExperiment ctx x pid revID in k p) keeps_names w.
Proof.
  intros Hok Hk. wp_step. wp_use wp_ProcessExperiment.
  intros [[x' t]|e|] w1 [Es Hx]; [|wp_step; by eapply tidy_same|by eapply tidy_same]. eauto.
Qed.

Lemma wp_save_names ctx request pid u revID d w :
  sx_Name request ≠ "" →
  match d with Some e => e ∈ g_experiments (db w) ∧ live_experiment (sx_ID request) pid e = true | None => True end →
  tidy (db w) → wp (save_experiment ctx request pid u revID d) keeps_names w.
Proof.
  intros Hname Hd Hok. unfold save_experiment. cbv zeta. apply wp_processed; [done|].
  intros x' t w1 Es (En & id & Ei & Hne & Hsame). rewrite Ei. cbn in *.
  apply (tidy_same _ _ Es) in Hok. rewrite <-(proj1 Es) in *.
  destruct (str_eq (default "" (ex_ExperimentID <$> d)) (sx_ID request)) eqn:Eid; [destruct (negb _) eqn:Enn|].
  - apply wp_checked; [done|]. intros w2 E2 Hf. rewrite <-E2 in *. apply wp_upsert_then; [done|]. intros w3 E3. rewrite <-E3 in *.
    apply wp_answered, wp_update_names; [|done]. rewrite En. by apply free_belongs.
  - wp_step. wp_step. apply wp_upsert_then; [done|]. intros w3 E3. rewrite <-E3 in *. apply wp_answered, wp_update_names; [|done].
    apply negb_false_iff, str_eq_true in Enn. apply str_eq_true in Eid. destruct d as [d|]; [|done].
    destruct Hd as [Hd Hl]. cbn in *. rewrite En, <-Enn. rewrite <-Eid in *.
    destruct Hok as [Hok _]. rewrite (Hsame (ex_ExperimentID d)); [by apply own_name_belongs|done|].
    destruct Hok as [_ Hn0 _]. rewrite Forall_forall in Hn0. by apply Hn0.
  - apply wp_checked; [done|]. intros w2 E2 Hf. rewrite <-E2 in *. apply wp_upsert_then; [done|]. intros w3 E3. rewrite <-E3 in *.
    apply wp_answered, wp_creation_names; [done|by rewrite En|done].
Qed.
Lemma wp_SaveChaosExperiment_names ctx request pid u w :
  sx_Name request ≠ "" → tidy (db w) →
  wp (SaveChaosExperiment ctx request pid u) keeps_names w.
Proof.
  intros Hn Hok. unfold SaveChaosExperiment. wp_step. wp_use wp_NewUUID. intros revID w1 E1.
  wp_step. wp_use wp_FindOne. intros [e|e|] w2 [E2 He].
  - rewrite <-E2 in He. rewrite <-E1, <-E2 in Hok. by apply wp_save_names.
  - wp_step; [|wp_step; by rewrite E2, E1]. apply wp_save_names; [done..|by rewrite E2, E1].
  - done.
Qed.

(** The check of [CreateChaosExperiment]: the name is free, or the identifier is
    that of an experiment that exists. *)
Lemma wp_check_new_name x pid w :
  wp (check_new_name x pid) (λ r w', db w' = db w ∧ ∀ x', r = Ok x' → xi_ExperimentName x' = xi_ExperimentName x ∧
    (named pid (xi_ExperimentName x) (g_experiments (db w)) = [] ∨
     ∃ e, e ∈ g_experiments (db w) ∧ xi_ExperimentID x' = Some (ex_ExperimentID e))) w.
Proof.
  unfold check_new_name. destruct (xi_ExperimentID x) as [id|] eqn:Eid.
  - wp_step. wp_use wp_FindOne. intros [e|e|] w1 [E1 He]; [|by wp_step|done].
    destruct He as [He [[Hid _]%own_experiment_true _]%andb_true_iff].
    assert (∃ e, e ∈ g_experiments (db w) ∧ xi_ExperimentID x = Some (ex_ExperimentID e)) by (exists e; by rewrite Eid, Hid).
    wp_step. destruct (negb _).
    + wp_use wp_validateName. intros [[]|?|] w2 [E2 _]; [|wp_step; by rewrite E2|by rewrite E2].
      wp_step. split; [by rewrite E2|]. intros x' [= <-]. auto.
    + do 2 wp_step. split; [done|]. intros x' [= <-]. auto.
  - wp_step. wp_use wp_NewUUID. intros newID w1 E1. wp_step. wp_use wp_validateName.
    rewrite E1. intros [[]|?|] w2 [E2 Hf]; [|by wp_step|done]. wp_step. split; [done|]. intros x' [= <-]. auto.
Qed.

(** An identifier that is taken is refused by the index. *)
Lemma wp_creation_taken x e u pid type revID r w :
  e ∈ g_experiments (db w) → tidy (db w) →
  wp (ProcessExperimentCreation x (ex_ExperimentID e) u pid type revID r) keeps_names w.
Proof.
  intros He Hok. unfold ProcessExperimentCreation. wp_step. wp_use wp_now. intros t w1 E1.
  wp_step. wp_use wp_InsertOne. intros r' w2 (l' & E2 & HI). rewrite E1 in E2, HI.
  assert (¬ inserted experiment_key (new_experiment x (ex_ExperimentID e) u pid type revID t) (g_experiments (db w)) l') as Hno.
  { intros [_ HF]. rewrite Forall_forall in HF. specialize (HF e He). by apply str_eq_false in HF. }
  destruct r' as [[]|er|]; cbn in HI; [done| |done]. wp_step. rewrite E2. destruct Hok.
  apply tidy_experiments; [|done]. destruct HI as (_ & [->|?] & _); done.
Qed.

Lemma wp_CreateChaosExperiment_names ctx request pid u w :
  tidy (db w) → wp (CreateChaosExperiment ctx request pid u) keeps_names w.
Proof.
  intros Hok. unfold CreateChaosExperiment. wp_step. wp_use wp_NewUUID. intros revID w1 E1. rewrite <-E1 in Hok.
  wp_step. wp_use wp_check_new_name. intros [x|e|] w2 [E2 Hx]; [|wp_step; by rewrite E2|by rewrite E2].
  destruct (Hx x eq_refl) as [En Hcase]. rewrite <-E2 in *. apply wp_processed; [done|].
  intros x' t w3 Es (En' & id & Ei & Hne & Hsame). rewrite Ei. cbn.
  apply (tidy_same _ _ Es) in Hok. rewrite <-(proj1 Es) in *.
  apply wp_upsert_then; [done|]. intros w4 E4. rewrite <-E4 in *. apply wp_answered.
  destruct Hcase as [Hfree|(e & He & Hid)]; [apply wp_creation_names; [done|by rewrite En', En|done]|].
  rewrite (Hsame _ Hid); [by apply wp_creation_taken|].
  destruct Hok as [[_ Hn0 _] _]. rewrite Forall_forall in Hn0. by apply Hn0.
Qed.

Lemma other_with_name_false id l : other_with_name id l = Ok false → ∀ e, e ∈ l → id = Some (ex_ExperimentID e).
Proof.
  induction l as [|e l IH]; cbn; intros E x Hx; [by apply elem_of_nil in Hx|].
  destruct id as [i|]; [|done]. destruct (negb _) eqn:En; [done|]. apply negb_false_iff, str_eq_true in En.
  apply elem_of_cons in Hx as [->|Hx]; [by rewrite En|auto].
Qed.
Lemma wp_UpdateHandler_names ctx request pid r u w :
  tidy (db w) → wp (UpdateChaosExperimentHandler ctx request pid r u) keeps_names w.
Proof.
  intros Hok. unfold UpdateChaosExperimentHandler. wp_step. wp_use wp_NewUUID. intros revID w1 E1. rewrite <-E1 in Hok.
  wp_step. wp_use wp_Find. intros [l|e|] w2 [E2 Hl]; [|wp_step; by rewrite E2|by rewrite E2].
  destruct Hl as (l' & Hp & ->). rewrite <-E2 in *. wp_step. wp_step.
  destruct (other_with_name _ _) as [[]|e|] eqn:Eo; [by wp_step| |by wp_step|done].
  apply wp_processed; [done|]. intros x' t w3 Es (En' & id & Ei & Hne & Hsame). rewrite Ei. cbn.
  apply (tidy_same _ _ Es) in Hok. pose proof (proj1 Es) as Ee.
  apply wp_upsert_then; [done|]. intros w4 E4. rewrite <-E4 in *. apply wp_answered, wp_update_names; [|done].
  rewrite En'. intros e He. pose proof (proj1 (elem_of_filterb _ _ _) He) as [Hin Hq].
  assert (xi_ExperimentID request = Some (ex_ExperimentID e)) as Hid.
  { eapply other_with_name_false; [exact Eo|]. apply elem_of_filterb. split; [|done]. rewrite Hp. by rewrite Ee in Hin. }
  symmetry. apply Hsame; [done|]. destruct Hok as [[_ Hn0 _] _]. rewrite Forall_forall in Hn0. by apply Hn0.
Qed.

(** *** Handlers that keep all names *)
Lemma remove_keeps_name t u : keeps_name (remove_experiment t u).
Proof. intros e. split; [done|]. intros p n (_ & _ & Hr)%named_experiment_true. done. Qed.
Lemma stays_DisableCron_names u e pid r : stays naming (DisableCronExperiment u e pid r).
Proof. unfold DisableCronExperiment. stays_auto. apply stays_revision_names. Qed.
Lemma stays_DeleteFromGit_names ctx pid name : stays naming (DeleteExperimentFromGit ctx pid name).
Proof.
  intros w Hok. change (wp (DeleteExperimentFromGit ctx pid name) keeps_names w). unfold DeleteExperimentFromGit.
  wp_step. eapply wp_mono; [by apply wp_no_config, tidy_git|]. intros r w1 [E [->|[e ->]]]; wp_step; by rewrite E.
Qed.
Hint Resolve stays_DeleteFromGit_names : stays.
Lemma stays_Delete_names ctx pid id runID r u : stays naming (DeleteChaosExperiment ctx pid id runID r u).
Proof.
  unfold DeleteChaosExperiment, GetExperiment, GetExperimentRun, ProcessExperimentDelete, ProcessExperimentRunDelete,
    UpdateExperimentRunWithQuery. stays_auto; [apply stays_DisableCron_names|].
  apply stays_transaction. unfold delete_body, UpdateExperimentRunsWithQuery. stays_auto.
  apply stays_keep_names, remove_keeps_name.
Qed.
Lemma stays_UpdateCron_names id disable pid r u : stays naming (UpdateCronExperimentState id disable pid r u).
Proof.
  unfold UpdateCronExperimentState, GetExperiment, GetInfraDoc, UpdateRuntimeCronWorkflowConfiguration. stays_auto.
  apply stays_revision_names.
Qed.
Lemma stays_insert_run run : stays same_experiments (CreateExperimentRun run).
Proof. by apply (stays_InsertOne (projectID := "")). Qed.
Lemma stays_RunCron_names ctx pid e r : stays naming (RunCronExperiment ctx pid e r).
Proof. unfold RunCronExperiment. stays_auto. Qed.
Lemma stays_Run_names ctx pid e r : stays naming (RunChaosWorkFlow ctx pid e r).
Proof.
  unfold RunChaosWorkFlow, run_workflow, GetInfraDoc. stays_auto; [apply stays_RunCron_names|by apply stays_keep_names|].
  apply stays_transaction. unfold queue_run. stays_auto; [by apply stays_keep_names|].
  apply stays_same_naming, stays_insert_run.
Qed.
Lemma stays_positional_names q cs f : stays naming (positional_update q cs f).
Proof.
  refine (stays_at (λ _, _) _). intros w. apply stays_keep_names. intros e. by destruct (positional_choice _ _ _).
Qed.
Lemma stays_stop_runs_names pid id u e r runs : stays naming (stop_runs pid id u e r runs).
Proof.
  induction runs as [|[runID n] runs IH]; cbn [stop_runs]; unfold ProcessExperimentRunStop, UpdateExperimentRunWithQuery;
    stays_auto; apply stays_positional_names.
Qed.
Lemma stays_Stop_names pid id runID notifyID r u : stays naming (StopExperimentRuns pid id runID notifyID r u).
Proof.
  unfold StopExperimentRuns, GetExperiment, runs_to_stop, GetExperimentRuns. stays_auto. apply stays_stop_runs_names.
Qed.
Hint Resolve stays_Delete_names stays_UpdateCron_names stays_RunCron_names stays_Run_names stays_Stop_names : stays.

(** ** All requests *)

(** A saved experiment has a name, as every Kubernetes object. Nobody enables
    GitOps. *)
Definition by_handlers (q : GraphRequest) : Prop :=
  match q with
  | RqSaveChaosExperiment request => sx_Name request ≠ ""
  | RqEnableGitOps _ => False
  | _ => True
  end.

(** Configurations that are not there cannot be changed. *)
Lemma stays_Disable_names pid : stays naming (DisableGitOpsHandler pid).
Proof.
  unfold DisableGitOpsHandler, DeleteGitConfig, RemoveAll. stays_auto; apply stays_wrap_err; stays_auto.
  intros w [Hok Hg]. destruct (wp_DeleteOne (gitconfig_query pid) w) as (l' & E & HD). rewrite E. split; [done|].
  assert (¬ deleted_one (gitconfig_query pid) (g_gitconfigs (db w)) l') as Hno.
  { intros (l1 & d & l2 & El & _). rewrite Hg in El. by destruct l1. }
  destruct (DeleteOne _ w).1 as [c|e|]; cbn in HD; [..|done]; cbn in *; intuition (simplify_eq; congruence).
Qed.
Lemma stays_UpdateGit_names ctx pid config : stays naming (UpdateGitOpsDetailsHandler ctx pid config).
Proof.
  intros w Hok. change (wp (UpdateGitOpsDetailsHandler ctx pid config) keeps_names w).
  apply wp_config; [|intros w1 E _; wp_step; by rewrite E|by intros e w1 ->].
  intros c w1 _ Hc. rewrite (tidy_git _ Hok) in Hc. by apply elem_of_nil in Hc.
Qed.
Hint Resolve stays_Disable_names stays_UpdateGit_names : stays.

Lemma wp_guarded_names {A} (service : string → GM (res A)) ctx pid roles i w :
  tidy (db w) →
  (∀ u w1, tidy (db w1) → wp (service u) keeps_names w1) →
  wp (let? _ := ValidateRole ctx pid roles i in let? username := ctx_username ctx in service username) keeps_names w.
Proof.
  intros Hok Hs. wp_step. wp_use wp_ValidateRole. intros [[]|e|] w1 [E1 _]; [|wp_step; by rewrite E1|by rewrite E1].
  wp_step. wp_use wp_ctx_username. intros [u|e|] w2 E2; [|wp_step; by rewrite E2, E1|by rewrite E2, E1].
  apply Hs. by rewrite E2, E1.
Qed.
Lemma wp_served_names {A} (m : GM (res A)) w : wp m keeps_names w → wp (served m) keeps_names w.
Proof. intros Hm. unfold served. wp_step. eapply wp_mono; [exact Hm|]. intros [a|e|] w1 Hok; [by wp_step..|done]. Qed.

Lemma wp_resolve_names ctx pid q w :
  by_handlers q → tidy (db w) → wp (resolve ctx pid q) keeps_names w.
Proof.
  intros Hq Hok. destruct q; apply wp_served_names.
  all: try (apply wp_naming; [|done]; autounfold with resolvers; stays_auto; fail).
  - apply wp_guarded_names; [done|]. intros u w1 Hok1. wp_step.
    eapply wp_mono; [by apply wp_CreateChaosExperiment_names|]. intros [resp|e|] w2 Hok2; [|by wp_step|done].
    apply wp_naming; [|done]. unfold GetExperiment. stays_auto.
  - apply wp_guarded_names; [done|]. intros u w1 Hok1. by apply wp_SaveChaosExperiment_names.
  - apply wp_guarded_names; [done|]. intros u w1 Hok1. by apply wp_UpdateHandler_names.
  - done.
Qed.

(** Requests one after the other, of any callers and projects. *)
Fixpoint serve_requests (l : list (Ctx * string * GraphRequest)) : GM unit :=
  match l with
  | [] => mret tt
  | (ctx, projectID, q) :: l => _ ← resolve ctx projectID q; serve_requests l
  end.

Lemma wp_serve_names l w : Forall (λ r, by_handlers r.2) l → tidy (db w) → wp (serve_requests l) keeps_names w.
Proof.
  revert w. induction l as [|[[ctx pid] q] l IH]; intros w Hl Hok; cbn [serve_requests]; [done|].
  apply Forall_cons in Hl as [Hq Hl]. wp_step. eapply wp_mono; [by apply wp_resolve_names|]. intros r w1 Hok1. auto.
Qed.

End names.

Lemma graph_names_ok : names_ok (g_experiments graph_db).
Proof.
  split; [repeat constructor; set_solver|by repeat constructor|]. intros p n. unfold named. cbn.
  unfold named_experiment. cbn. unfold str_eq. repeat case_bool_decide; cbn; try lia. all: subst; discriminate.
Qed.
#[export] Instance fix_uuid_laws : UUIDLaws fix_runtime.
Proof. done. Qed.

Definition save_as (id name infraID : string) : SaveChaosExperimentRequest :=
  mkSaveExperiment id name "" (manifest_of "Workflow" name) infraID [].

