(* ===== verification/GitTheorems.v ===== *)
(** * GitTheorems.v: what GitOps promises

    A save that succeeds has been pushed; the background sync stays inside the
    projects that use GitOps; and the places where experiments in git and
    experiments in the database come apart. *)
From S2P Require Import Prelude World GoStd AuthRepo GraphDocs Experiments RunScore RunEvent Pipelines Authorization.
From S2P Require Import Environments Infrastructure InfraListing ImageRegistries ProbeProperties Manifests Probes.
From S2P Require Import ExperimentOps ExperimentService GitRepo GitOps ExperimentHandlers Isolation ProjectRequests.
From S2P Require Import ProjectAccess GraphFixtures GitHistory ExperimentNames Fixtures AuthBridge.
Local Open Scope string_scope.
Local Open Scope Z_scope.

(** ** What was told to git *)
Section published.
Context {drv : MongoDriver} {laws : MongoLaws drv} {rt : Runtime} {mo : MapOrder} {cr : Crypto} {ac : AuthClient}
  {sc : SourceCodec} {dec : Decoders} {mc : ManifestCodec} {sid : ShortID} {gl : GitLibrary} {gd : GitData}
  {tx : MongoTxn} {ab : MongoAbort} {mn : ManifestNamespace}.

(** A call that succeeded is the last one recorded, and nothing else changed. *)
Lemma wp_git_call {A} (f : nat → res A) c w :
  wp (git_call f c) (λ r w', ∀ a, r = Ok a → db w' = add_gitcall (c a) (db w)) w.
Proof. unfold git_call, wp. by destruct (f (tick w)); cbn; intros ? [= <-]. Qed.
Lemma wp_worktree c w : wp (getRepositoryWorktreeReference c) (λ _ w', db w' = db w) w.
Proof. apply wp_reads, reads_worktree. Qed.

Definition add_gitcalls (l : list GitCall) (s : GraphDB) : GraphDB := foldl (λ s c, add_gitcall c s) s l.

(** What a result that is not [Ok] proves nothing about. *)
Definition when_ok {A} (Q : A → World GraphDB → Prop) (r : res A) (w : World GraphDB) : Prop :=
  match r with Ok a => Q a w | _ => True end.
Lemma wp_ok_bind {A B} (m : GM (res A)) (k : A → GM (res B)) P Q w :
  wp m (when_ok P) w → (∀ a w', P a w' → wp (k a) (when_ok Q) w') → wp (let? a := m in k a) (when_ok Q) w.
Proof. intros Hm Hk. wp_step. eapply wp_mono; [exact Hm|]. intros [a|e|] w' Hp; [by apply Hk|by wp_step|done]. Qed.
Lemma wp_ok_wrap {A} msg (m : GM (res A)) P w : wp m (when_ok P) w → wp (wrap_err msg m) (when_ok P) w.
Proof. intros Hm. unfold wrap_err. wp_step. eapply wp_mono; [exact Hm|]. intros [a|e|] w' Hp; by try wp_step. Qed.
Lemma wp_ok_pure {A B} (r : res A) (k : A → GM (res B)) Q w :
  (∀ a, r = Ok a → wp (k a) (when_ok Q) w) → wp (let? a := mret r in k a) (when_ok Q) w.
Proof. intros Hk. wp_step. wp_step. destruct r; [by apply Hk|by wp_step|done]. Qed.
Lemma wp_ok_call {A} (f : nat → res A) c w : wp (git_call f c) (when_ok (λ a w', db w' = add_gitcall (c a) (db w))) w.
Proof. eapply wp_mono; [apply wp_git_call|]. intros [a|e|] w' H; cbn; auto. Qed.
Lemma wp_ok_worktree c w : wp (getRepositoryWorktreeReference c) (when_ok (λ _ w', db w' = db w)) w.
Proof. eapply wp_mono; [apply wp_worktree|]. by intros [] w' H. Qed.

(** The calls of a commit and of a push. *)
Definition commit_calls (c : GitConfig) (user : GitUser) (message : string) (deleteFile : option string) (hash : string) :
    list GitCall :=
  [match deleteFile with
   | None => CallAdd (gc_LocalPath c) ("./litmus/" +:+ gc_ProjectID c +:+ "/")
   | Some file => CallRemove (gc_LocalPath c) file
   end; CallCommit (gc_LocalPath c) message user hash].

Lemma wp_GitCommit c user message file w :
  wp (GitCommit c user message file)
     (when_ok (λ hash w', db w' = add_gitcalls (commit_calls c user message file hash) (db w))) w.
Proof.
  unfold GitCommit. eapply wp_ok_bind; [apply wp_ok_worktree|]. intros ? w1 E1.
  destruct file as [file|]; (eapply wp_ok_bind; [apply wp_ok_call|]); intros ? w2 E2; cbn beta in E1, E2;
    (eapply wp_mono; [apply wp_ok_call|]); intros [hash|e|] w3 E3; cbn in E3 |- *; by rewrite ?E3, ?E2, ?E1.
Qed.
Lemma wp_GitPush c w :
  wp (GitPush c) (when_ok (λ _ w', gc_AuthType c ≠ AuthTypeNone ∧
    ∃ auth, getAuthMethod c = Ok auth ∧ db w' = add_gitcall (CallPush (gc_LocalPath c) (gc_RemoteName c) auth) (db w))) w.
Proof.
  unfold GitPush. destruct (str_eq _ _) eqn:Ea; [by wp_step|]. apply str_eq_false in Ea.
  eapply wp_ok_bind; [apply wp_ok_worktree|]. intros ? w1 E1. apply wp_ok_pure. intros auth Hauth.
  eapply wp_mono; [apply wp_ok_call|]. intros [[]|e|] w2 E2; [|done..]. cbn in *. rewrite E2, E1. eauto.
Qed.

(** A change that is published ends in a commit by the caller, which is pushed
    with the credentials of the project and recorded as known. *)
Definition published (ctx : Ctx) (pid : string) (calls : GitConfig → list GitCall) (message : string)
    (deleteFile : GitConfig → option string) (s s' : GraphDB) : Prop :=
  ∃ c user auth hash before,
    let g := GetGitOpsConfig c in
    c ∈ g_gitconfigs s ∧ gd_ProjectID c = pid ∧ gd_AuthType c ≠ AuthTypeNone ∧
    GitUserFromContext ctx = Ok user ∧ getAuthMethod g = Ok auth ∧
    g_gitcalls s' = (before ++ calls g ++ commit_calls g user message (deleteFile g) hash ++
                     [CallPush (gc_LocalPath g) "origin" auth])%list ∧
    ∃ c', c' ∈ g_gitconfigs s' ∧ gd_ProjectID c' = pid ∧ gd_LatestCommit c' = hash.

Lemma gitcalls_app l s : g_gitcalls (add_gitcalls l s) = (g_gitcalls s ++ l)%list.
Proof.
  unfold add_gitcalls. revert s. induction l as [|c l IH]; intros s; cbn; [by rewrite app_nil_r|]. rewrite IH. cbn. by rewrite <-app_assoc.
Qed.

Lemma wp_publish ctx c pid message what file calls s w :
  c ∈ g_gitconfigs s → gd_ProjectID c = pid → (∃ before, g_gitcalls (db w) = (before ++ calls (GetGitOpsConfig c))%list) →
  wp (publish ctx (GetGitOpsConfig c) message what (file (GetGitOpsConfig c)))
     (when_ok (λ _ w', published ctx pid calls message file s (db w'))) w.
Proof.
  intros Hc Hp [before Hb]. unfold publish. apply wp_ok_pure. intros user Hu.
  eapply wp_ok_bind; [apply wp_ok_wrap, wp_GitCommit|]. intros hash w1 E1. cbn beta in E1.
  eapply wp_ok_bind; [apply wp_ok_wrap, wp_GitPush|]. intros ? w2 (Hn & auth & Ha & E2).
  apply wp_ok_wrap. unfold UpdateGitConfig. wp_step. wp_use wp_UpdateOne.
  intros [n|e|] w3 (l' & E3 & HU); [|by wp_step|done]. case_bool_decide; [by wp_step|]. apply wp_ret. cbn.
  destruct HU as [(-> & _)|(_ & l1 & d & l2 & El & Hd & ->)]; [done|]. apply str_eq_true in Hd.
  exists c, user, auth, hash, before. cbv zeta. split_and!; [done..| |].
  - rewrite E3, E2. cbn. rewrite E1, gitcalls_app, Hb. by rewrite <-!app_assoc.
  - exists (set_latest_commit hash d). rewrite E3. cbn. split_and!; [set_solver| |done]. cbn in *. congruence.
Qed.

(** The sync that comes first leaves a configuration that was there before. *)
Lemma wp_synced ctx pid w :
  wp (synced_config ctx pid) (when_ok (λ r w', match r with
    | None => no_match (gitconfig_query pid) (g_gitconfigs (db w)) ∧ db w' = db w
    | Some g => ∃ c, g = GetGitOpsConfig c ∧ c ∈ g_gitconfigs (db w) ∧ gd_ProjectID c = pid
    end)) w.
Proof.
  apply wp_config; [|intros; by wp_step|done]. intros c w1 ? Hc Hp. cbv zeta. wp_step. apply wp_any.
  intros [[]|e|] w2; [wp_step; cbn; eauto|by wp_step|done].
Qed.

(** C21. When saving an experiment reports that the repository was updated, then
    either the project does not use GitOps, and nothing happened, or the last
    things the server did to its disk and to git were: write the manifest of the
    experiment, as YAML, to the file of that name in the directory of the project,
    add the directory, commit in the name of the caller, and push that commit with
    the credentials of the project, which are not "none"; and the commit is
    recorded as the latest known one. *)
Theorem saved_experiment_is_pushed ctx pid x w :
  wp (UpsertExperimentToGit ctx pid x) (when_ok (λ _ w',
    (no_match (gitconfig_query pid) (g_gitconfigs (db w)) ∧ db w' = db w) ∨
    ∃ data, json_to_yaml (xi_ExperimentManifest x) = Ok data ∧
      published ctx pid
        (λ g, [CallWriteFile (gc_LocalPath g +:+ "/" +:+ experiment_file g (xi_ExperimentName x)) data])
        ("Updated Experiment : " +:+ xi_ExperimentName x) (λ _, None) (db w) (db w'))) w.
Proof.
  unfold UpsertExperimentToGit. eapply wp_ok_bind; [apply wp_synced|].
  intros [g|] w1 Hg; [|wp_step; cbn; by left]. destruct Hg as (c & -> & Hc & Hp). cbv zeta.
  eapply wp_ok_bind; [apply (wp_ok_wrap _ _ (λ data w', json_to_yaml (xi_ExperimentManifest x) = Ok data ∧ db w' = db w1))|].
  { apply wp_ret. by destruct (json_to_yaml _) eqn:E; cbn. }
  intros data w2 [Hd E2]. eapply wp_ok_bind; [apply wp_ok_wrap, wp_ok_call|]. intros ? w3 E3. cbn beta in E3.
  eapply wp_mono; [apply (wp_publish ctx c pid _ _ (λ _, None)
    (λ g, [CallWriteFile (gc_LocalPath g +:+ "/" +:+ experiment_file g (xi_ExperimentName x)) data]) (db w)); [done..|]|].
  { exists (g_gitcalls (db w2)). by rewrite E3. }
  intros [[]|e|] w4 Hpub; [|done..]. cbn in *. right. eauto.
Qed.

(** The file of an experiment that is deleted is removed in the same way, when
    it is there. *)
Theorem deleted_experiment_is_pushed ctx pid name w :
  wp (DeleteExperimentFromGit ctx pid name) (when_ok (λ _ w',
    (no_match (gitconfig_query pid) (g_gitconfigs (db w)) ∧ db w' = db w) ∨
    (∃ n c, c ∈ g_gitconfigs (db w) ∧ gd_ProjectID c = pid ∧
       os_stat n (gc_LocalPath (GetGitOpsConfig c) +:+ "/" +:+ experiment_file (GetGitOpsConfig c) name) = Ok false) ∨
    published ctx pid (λ g, [CallRemoveAll (gc_LocalPath g +:+ "/" +:+ experiment_file g name)])
      ("Deleted Experiment : " +:+ name) (λ g, Some (experiment_file g name)) (db w) (db w'))) w.
Proof.
  unfold DeleteExperimentFromGit. eapply wp_ok_bind; [apply wp_synced|].
  intros [g|] w1 Hg; [|wp_step; cbn; by left]. destruct Hg as (c & -> & Hc & Hp). cbv zeta.
  eapply wp_ok_bind; [apply (wp_ok_wrap _ _ (λ b w', ∃ n, os_stat n (gc_LocalPath (GetGitOpsConfig c) +:+ "/" +:+
    experiment_file (GetGitOpsConfig c) name) = Ok b))|].
  { unfold PathExists, call_out, wp. cbn. destruct (os_stat _ _) eqn:E; cbn; eauto. }
  intros b w2 Hb. cbn beta in Hb. destruct Hb as [n Hn]. destruct b; cbn [negb]; [|wp_step; cbn; right; left; eauto].
  eapply wp_ok_bind; [apply wp_ok_wrap, wp_ok_call|]. intros ? w3 E3. cbn beta in E3.
  eapply wp_mono; [apply (wp_publish ctx c pid _ _ (λ g, Some (experiment_file g name))
    (λ g, [CallRemoveAll (gc_LocalPath g +:+ "/" +:+ experiment_file g name)]) (db w)); [done..|]|].
  { exists (g_gitcalls (db w2)). by rewrite E3. }
  intros [[]|e|] w4 Hpub; [|done..]. cbn in *. auto.
Qed.
End published.

(** ** The background sync stays inside the projects that use it *)
Definition not_of {D} `{Owned D} (ps : list string) (d : D) : bool := negb (str_in (owner d) ps).
Lemma not_of_own {D} `{Owned D} ps p (d : D) : p ∈ ps → owner d = p → not_of ps d = false.
Proof. intros Hp <-. unfold not_of. apply negb_false_iff. by apply str_in_true. Qed.

(** Nothing of a project that is not in the list changed. *)
Record outside (ps : list string) (s s' : GraphDB) : Prop := mkOutside {
  out_experiments : keeps (not_of ps) (g_experiments s) (g_experiments s');
  out_runs : g_runs s' = g_runs s;
  out_infras : g_infras s' = g_infras s;
  out_environments : g_environments s' = g_environments s;
  out_probes : keeps (not_of ps) (g_probes s) (g_probes s');
  out_registries : g_registries s' = g_registries s;
  out_gitconfigs : keeps (not_of ps) (g_gitconfigs s) (g_gitconfigs s');
  out_hubs : g_hubs s' = g_hubs s;
}.
#[export] Instance outside_preorder ps : PreOrder (outside ps).
Proof. split; [by split|]. intros s1 s2 s3 [] []. split; etrans; done. Qed.
#[export] Instance outside_store ps : StoreFree (outside ps).
Proof. split; by split. Qed.

Section outside.
Context {ps : list string} {p : string} (Hp : p ∈ ps).
#[local, refine] Instance outside_experiments : Shielded p (outside ps) ChaosExperimentRequest := {| shield := not_of ps |}.
Proof. all: [> intros s l' Hk; by split|intros d Hd; by eapply not_of_own]. Defined.
#[local, refine] Instance outside_probes : Shielded p (outside ps) Probe := {| shield := not_of ps |}.
Proof. all: [> intros s l' Hk; by split|intros d Hd; by eapply not_of_own]. Defined.
#[local, refine] Instance outside_gitconfigs : Shielded p (outside ps) GitConfigDB := {| shield := not_of ps |}.
Proof. all: [> intros s l' Hk; by split|intros d Hd; by eapply not_of_own]. Defined.

Context {drv : MongoDriver} {laws : MongoLaws drv} {rt : Runtime} {mo : MapOrder} {cr : Crypto} {ac : AuthClient}
  {sc : SourceCodec} {dec : Decoders} {mc : ManifestCodec} {sid : ShortID} {gl : GitLibrary} {gd : GitData}
  {tx : MongoTxn} {ab : MongoAbort} {mn : ManifestNamespace}.
Lemma outside_sync ctx c : gc_ProjectID c = p → stays (outside ps) (SyncDBToGit ctx c).
Proof. apply stays_SyncDBToGit. Qed.
End outside.

Section background.
Context {drv : MongoDriver} {laws : MongoLaws drv} {rt : Runtime} {mo : MapOrder} {cr : Crypto} {ac : AuthClient}
  {sc : SourceCodec} {dec : Decoders} {mc : ManifestCodec} {sid : ShortID} {gl : GitLibrary} {gd : GitData}
  {tx : MongoTxn} {ab : MongoAbort} {mn : ManifestNamespace} {go : GoOrder} {gol : GoOrderLaws go}.

Lemma outside_helper ps config : gd_ProjectID config ∈ ps → stays (outside ps) (gitSyncHelper config).
Proof.
  intros Hp w. change (wp (gitSyncHelper config) (λ _ w', outside ps (db w) (db w')) w).
  unfold gitSyncHelper, logged at 1. do 2 wp_step. wp_use wp_GetGitConfig.
  intros [[c|]|e|] w1 [E Hc]; [| | |done]; do 2 (try wp_step); rewrite <-E; try reflexivity.
  destruct Hc as [_ Hc]. apply (stays_logged (R := outside ps)). apply (outside_sync (p := gd_ProjectID config)); done.
Qed.
Lemma outside_each ps configs :
  Forall (λ c, gd_ProjectID c ∈ ps) configs → stays (outside ps) (sync_each configs).
Proof.
  induction 1 as [|c configs Hc _ IH]; cbn [sync_each]; stays_auto. by apply outside_helper.
Qed.
Lemma outside_all ps groups :
  Forall (λ c, gd_ProjectID c ∈ ps) (concat groups) → stays (outside ps) (sync_all groups).
Proof.
  induction groups as [|g groups IH]; cbn [sync_all concat]; [intros _; apply stays_ret|].
  intros [Hg Hs]%Forall_app. intros w. unfold on_err, call_out, mbind, M_bind. cbn.
  pose proof (outside_each ps (go_order (tick w) g)) as He. rewrite Forall_forall in He.
  specialize (He ltac:(intros c Hc; rewrite (go_order_perm _ (tick w) g) in Hc; rewrite Forall_forall in Hg; auto)).
  specialize (He (bump w)). destruct (sync_each _ (bump w)) as [[[]|e|] w1]; cbn in *; [|done..].
  etrans; [exact He|]. by apply IH.
Qed.

(** All configurations are those of the projects in the list. *)
Definition only_of (ps : list string) (s : GraphDB) : Prop := Forall (λ c, gd_ProjectID c ∈ ps) (g_gitconfigs s).
Lemma only_of_outside ps s s' : only_of ps s → outside ps s s' → only_of ps s'.
Proof.
  intros Ho Hs. pose proof (out_gitconfigs _ _ _ Hs) as Hk. unfold keeps, only_of in *.
  rewrite Forall_forall in Ho |- *. intros c Hc. apply dec_stable. intros Hn.
  assert (c ∈ List.filter (not_of ps) (g_gitconfigs s')) as Hin.
  { apply elem_of_filterb. split; [done|]. apply negb_true_iff. unfold str_in. by apply bool_decide_eq_false. }
  rewrite Hk in Hin. apply elem_of_filterb in Hin as [Hin _]. by apply Hn, Ho.
Qed.

Lemma wp_sync_round ps w : only_of ps (db w) → wp sync_round (λ _ w', outside ps (db w) (db w')) w.
Proof.
  intros Ho. unfold sync_round, logged at 1, GetAllGitConfig. do 2 wp_step. wp_use wp_Find.
  intros [l|e|] w1 [E Hl]; [|wp_step; change (outside ps (db w) (db w1)); by rewrite E|done]. wp_step.
  destruct Hl as (l' & Hp & ->). set (configs := List.filter _ l') in *.
  assert (Forall (λ c, gd_ProjectID c ∈ ps) configs) as Hall.
  { unfold only_of in Ho. rewrite Forall_forall in Ho |- *. intros c [Hc _]%elem_of_filterb. rewrite Hp in Hc. auto. }
  destruct (sync_groups_spec configs (S (length configs)) (length configs)) as (groups & -> & Hc & _); [lia..|].
  rewrite <-E. apply (stays_wp (outside ps)), outside_all. rewrite Hc, firstn_all, Forall_reverse. exact Hall.
Qed.

(** C22. However often the background sync runs, whatever it finds in the
    repositories and whichever calls fail, it creates, changes and removes
    documents only in the projects that have a GitOps configuration: the
    experiments, probes and configurations of all other projects stay as they
    are, and no run, infrastructure, environment, image registry or hub changes
    at all. *)
Theorem background_sync_is_confined rounds ps w :
  only_of ps (db w) → wp (GitOpsSyncHandler rounds) (λ _ w', outside ps (db w) (db w')) w.
Proof.
  revert w. induction rounds as [|rounds IH]; intros w Ho; cbn [GitOpsSyncHandler]; [wp_step; reflexivity|].
  wp_step. eapply wp_mono; [by apply wp_sync_round|]. intros [[]|e|] w1 H1; [|by wp_step|done].
  eapply wp_mono; [apply IH; by eapply only_of_outside|]. intros r w2 H2. by etrans.
Qed.
End background.

(** ** Witnesses and examples *)

(** Project [p1] uses GitOps, and knows the commit [c1]. *)
Definition git_db : GraphDB := set_docs [fix_gitconfig "p1" "c1"] graph_db.
Definition git_world : World GraphDB := mkWorld git_db 0.

Lemma background_sync_is_confined_witness :
  wp (GitOpsSyncHandler 1) (λ r w', (r = Ok tt ∧ length (g_experiments (db w')) = 3%nat) ∧
    outside ["p1"] git_db (db w')) git_world.
Proof.
  apply wp_conj; [vm_compute; done|]. apply (background_sync_is_confined 1 ["p1"] git_world).
  apply Forall_cons. split; [set_solver|constructor].
Defined.

Definition saved_input (name : string) : ExperimentInput :=
  mkExperimentInput (Some "e1") None (manifest_of "Workflow" name) "" name "" [] false "i1" [].
Lemma saved_experiment_is_pushed_witness :
  wp (UpsertExperimentToGit by_alice "p1" (saved_input "exp1")) (λ r w',
    (r = Ok tt ∧ last (g_gitcalls (db w')) = Some (CallPush "/tmp/gitops/p1" "origin" (Some (BasicAuth "litmus" "token")))) ∧
    when_ok (λ _ w',
      (no_match (gitconfig_query "p1") (g_gitconfigs git_db) ∧ db w' = git_db) ∨
      ∃ data, json_to_yaml (manifest_of "Workflow" "exp1") = Ok data ∧
        published by_alice "p1"
          (λ g, [CallWriteFile (gc_LocalPath g +:+ "/" +:+ experiment_file g "exp1") data])
          "Updated Experiment : exp1" (λ _, None) git_db (db w')) r w') git_world.
Proof.
  apply wp_conj; [vm_compute; done|].
  exact (saved_experiment_is_pushed by_alice "p1" (saved_input "exp1") git_world).
Defined.

(** What the sync does to the names of experiments: [createExperiment] inserts
    the experiment of a new file without the check for duplicates that every
    other way of creating one makes. Project [p1] has an experiment [exp1]; after
    a file [exp1.yaml] was pushed to its repository it has two, none of them
    removed. The same push deleted the file [gone.yaml]. *)
Example sync_duplicates_names :
  wp (GitOpsSyncHandler 1) (λ r w', r = Ok tt ∧ length (named "p1" "exp1" (g_experiments (db w'))) = 2%nat) git_world.
Proof. vm_compute. done. Qed.

(** A file that is deleted in git never deletes an experiment: it is looked up by a
    field [experiment_name], which no document has. *)
Theorem git_deletion_is_ignored {drv : MongoDriver} {laws : MongoLaws drv} `{MongoTxn} `{MongoAbort} `{Runtime}
    `{ManifestNamespace} file c w :
  wp (deleteExperiment file c) (λ r w', db w' = db w ∧ is_ok r = false) w.
Proof.
  unfold deleteExperiment, GetExperiment. cbv zeta. wp_step. wp_use wp_FindOne.
  intros [e|e|] w1 [E He]; [|by wp_step|done]. by destruct He as [_ [He%bool_decide_eq_true _]%andb_true_iff].
Qed.

(** The name of an experiment goes into the path of its file unchanged: one that
    climbs out of the directory of the project is written outside the repository. *)
Definition written (c : GitCall) : option string := match c with CallWriteFile path _ => Some path | _ => None end.
Example experiment_name_escapes_the_repository :
  wp (UpsertExperimentToGit by_alice "p1" (saved_input "../../../../../etc/cron"))
     (λ r w', r = Ok tt ∧ last (omap written (g_gitcalls (db w'))) =
                Some "/tmp/gitops/p1/litmus/p1/../../../../../etc/cron.yaml") git_world.
Proof. vm_compute. done. Qed.
