(* ===== verification/InfraTheorems.v ===== *)
(** * InfraTheorems.v: registration of infrastructures

    What the code of [graphql/server/pkg/chaos_infrastructure/service.go]
    guarantees: what registering records, which agents are recognized and how
    confirming a registration replaces the access key, that the manifest of a
    registered infrastructure can be made, and what the statistics count. *)
From S2P Require Import Prelude World MemMongo GoStd AuthEntities AuthRepo AuthSessions Fixtures.
From S2P Require Import GraphDocs Experiments RunScore RunEvent Pipelines Authorization AuthBridge.
From S2P Require Import Environments Infrastructure InfraListing ProbeProperties Manifests Probes GraphFixtures.
From S2P Require Import Isolation ProjectRequests.
Local Open Scope string_scope.
Local Open Scope Z_scope.

Section infra.
Context {drv : MongoDriver} {laws : MongoLaws drv} {rt : Runtime} {cr : Crypto} {ac : AuthClient} {cfg : ServerConfig}
  {ie : InfraEnv}.
Implicit Types w : World GraphDB.

(** ** Recognizing an agent *)
Lemma wp_VerifyInfra identity w :
  wp (VerifyInfra identity) (λ r w', db w' = db w ∧
    match r with
    | Ok i => version_matches (ii_Version identity) = true ∧ i ∈ g_infras (db w) ∧
              in_InfraID i = ii_InfraID identity ∧ in_AccessKey i = ii_AccessKey identity ∧ in_IsRegistered i = true
    | Err _ => True
    | Panic => False
    end) w.
Proof.
  unfold VerifyInfra, GetInfraDoc. wp_step; [by wp_step|]. apply negb_false_iff in Heqb.
  wp_step. wp_use wp_FindOne. intros [i|e|] w1 [E Hi]; [|by wp_step|done]. destruct Hi as [Hi Hid%str_eq_true].
  wp_step; [by wp_step|]. apply negb_false_iff, andb_true_iff in Heqb0 as [Hk%str_eq_true Hr]. by wp_step.
Qed.

(** ** Confirming a registration *)

(** All documents with the identifier have the key and are confirmed. *)
Definition confirmed_with (id key : string) (l : list ChaosInfra) : Prop :=
  (∃ i, i ∈ l ∧ in_InfraID i = id) ∧
  ∀ i, i ∈ l → in_InfraID i = id → in_AccessKey i = key ∧ in_IsRegistered i = true ∧ in_IsInfraConfirmed i = true.

Lemma wp_SendInfraEvent type name description i w :
  wp (SendInfraEvent type name description i) (λ _ w', g_infras (db w') = g_infras (db w)) w.
Proof. done. Qed.

Lemma wp_GenerateAccessKey w : wp GenerateAccessKey (λ _ w', db w' = db w) w.
Proof. unfold GenerateAccessKey, wp, on_err, call_out, mbind, M_bind. cbn. by destruct (random_bytes _ _). Qed.

Lemma wp_Confirm request w :
  wp (ConfirmInfraRegistration request) (λ r w',
    ∀ key id, r = Ok (mkConfirmResponse true (Some key) id) →
      (∃ i, i ∈ g_infras (db w) ∧ in_InfraID i = ii_InfraID request ∧ in_AccessKey i = ii_AccessKey request) ∧
      confirmed_with (ii_InfraID request) key (g_infras (db w'))) w.
Proof.
  unfold ConfirmInfraRegistration, GetInfraDoc. wp_step; [by wp_step|].
  wp_step. wp_use wp_FindOne. intros [i|e|] w1 [E1 Hi]; [|by wp_step|done]. destruct Hi as [Hi Hid%str_eq_true].
  wp_step; [|by wp_step]. apply str_eq_true in Heqb0.
  wp_step. wp_use wp_GenerateAccessKey. intros [b|e|] w0 E0; [|by wp_step|done].
  wp_step. wp_use wp_now. intros t w2 E2. wp_step. wp_use wp_UpdateMany. intros [[]|e|] w3 (l' & E3 & HU); [|by wp_step|done].
  wp_step. wp_use wp_SendInfraEvent. intros [] w4 E4. wp_step. intros key id [= <- _].
  split; [by exists i|]. rewrite E4, E3. cbn in *. rewrite HU, E2, E0, E1. split.
  - exists (confirm_update b t i). split; [|done]. apply list_elem_of_fmap. exists i. split; [|done].
    unfold by_infra_id. by rewrite (proj2 (str_eq_true _ _) Hid).
  - intros x (y & -> & Hy)%list_elem_of_fmap. destruct (by_infra_id _ y) eqn:Eq; [done|].
    intros Hx. unfold by_infra_id in Eq. by apply str_eq_false in Eq.
Qed.

(** An agent of a confirmed infrastructure is recognized exactly by the key. *)
Lemma wp_Verify_exact {Hreads : ReadsSucceed drv} id k key version w :
  confirmed_with id k (g_infras (db w)) →
  wp (VerifyInfra (mkInfraIdentity id key version)) (λ r _, is_ok r = true ↔ key = k ∧ version_matches version = true) w.
Proof.
  intros [(i0 & Hi0 & Hid0) Hall]. unfold VerifyInfra, GetInfraDoc. simpl ii_Version. simpl ii_InfraID. simpl ii_AccessKey.
  destruct (version_matches version) eqn:Ev; simpl negb; cbv iota; [|wp_step; cbn; naive_solver].
  wp_step. eapply wp_mono.
  { apply wp_conj; [apply wp_FindOne|]. instantiate (1 := λ r _, match r with Err e => e = ErrNoDocuments | _ => True end).
    apply find_succeeds. }
  intros [i|e|] w1 [[_ Hf] Hs]; [|subst e|done].
  - destruct Hf as [Hi Hid%str_eq_true]. destruct (Hall i Hi Hid) as (Hk & Hreg & _). rewrite Hreg, andb_true_r, Hk.
    destruct (str_eq k key) eqn:Ek; simpl negb; cbv iota; wp_step; cbn.
    + apply str_eq_true in Ek. naive_solver.
    + apply str_eq_false in Ek. naive_solver.
  - wp_step. destruct Hf as [_ Hn]. specialize (Hn eq_refl). eapply Forall_forall in Hn; [|exact Hi0].
    unfold by_infra_id in Hn. by apply str_eq_false in Hn.
Qed.

(** ** Registering *)

(** A checked selector has the form the manifest parser reads. *)
Lemma checked_selectors l : check_selectors l = Ok tt → ∀ m, ∃ m', selector_map l m = Ok m'.
Proof.
  induction l as [|el l IH]; cbn; [eauto|]. unfold selector_pair.
  destruct (Split el "=") as [|k [|v [|]]]; try done. case_match; [done|]. intros Hl m. by apply IH.
Qed.

(** The environments of the request list the identifier. *)
Definition list_infra (projectID environmentID infraID : string) (e : Environment) : Environment :=
  if str_eq (en_ProjectID e) projectID && str_eq (en_EnvironmentID e) environmentID
  then set_en_infras (en_InfraIDs e ++ [infraID]) e else e.

(** What a registration that succeeds has recorded. *)
Definition registered (projectID : string) (input : RegisterInfraRequest) (resp : RegisterInfraResponse)
    (s s' : GraphDB) : Prop :=
  ∃ i, g_infras s' ≡ₚ i :: g_infras s ∧ Forall (λ j, in_InfraID j ≠ rg_InfraID resp) (g_infras s) ∧
    in_InfraID i = rg_InfraID resp ∧ in_ProjectID i = projectID ∧ in_Token i = rg_Token resp ∧
    in_IsRegistered i = false ∧ in_IsInfraConfirmed i = false ∧ in_IsActive i = false ∧
    (∃ e, e ∈ g_environments s ∧ en_ProjectID e = projectID ∧ en_EnvironmentID e = rq_EnvironmentID input) ∧
    g_environments s' = list_infra projectID (rq_EnvironmentID input) (rg_InfraID resp) <$> g_environments s ∧
    (∀ sel, in_NodeSelector i = Some sel → ∃ m, selector_map (Split sel ",") ∅ = Ok m).

Lemma wp_InfraCreateJWT infraID w : wp (InfraCreateJWT infraID) (λ _ w', db w' = db w) w.
Proof. unfold InfraCreateJWT. wp_step. wp_use wp_auth_call. intros [?|?|] w1 [E _]; by try wp_step. Qed.

Lemma wp_Register ctx projectID input w :
  wp (RegisterInfra ctx projectID input) (λ r w', ∀ resp, r = Ok resp → registered projectID input resp (db w) (db w')) w.
Proof.
  unfold RegisterInfra, GetInfras, GetEnvironmentDetails, InsertInfra, UpdateEnvironmentDocs.
  wp_step. wp_use wp_Find. intros [infras|?|] w1 [E1 _]; [|by wp_step|done]. wp_step; [by wp_step|].
  wp_step. wp_use wp_FindOne. intros [e|?|] w2 [E2 He]; [|by wp_step|done].
  destruct He as [He [Hp%str_eq_true Hi%str_eq_true]%andb_true_iff].
  wp_step; [|by wp_step]. wp_step; [by wp_step|].
  wp_step. wp_use wp_NewUUID. intros infraID w3 E3. wp_step. wp_use wp_now. intros t w4 E4.
  wp_step. wp_use wp_ctx_username. intros [username|?|] w5 E5; [|by wp_step|done].
  wp_step. wp_use wp_InfraCreateJWT. intros [token|?|] w6 E6; [|by wp_step|done].
  wp_step. wp_use wp_GenerateAccessKey. intros [key|?|] w7 E7; [|by wp_step|done].
  wp_step. wp_step. destruct (check_node_selector _) as [[]|?|] eqn:Hc; [|by wp_step|done].
  wp_step; [|by wp_step]. wp_step. wp_use wp_InsertOne. intros [[]|?|] w8 (l8 & E8 & HI); [|by wp_step|done].
  wp_step. wp_use wp_UpdateMany. intros [[]|?|] w9 (l9 & E9 & HU); [|by wp_step|done].
  wp_step. wp_step. destruct (referrer_host ctx) as [host|?|]; [|by wp_step|done].
  wp_step. eapply wp_mono; [apply wp_reads, reads_GetK8sInfraYaml|]. intros [yaml|?|] w10 E10; [|by wp_step|done].
  wp_step. intros resp [= <-]. assert (db w7 = db w) as Ew by congruence.
  destruct HI as [HI Hk]. eexists. rewrite E10, E9, E8, Ew in *. cbn in *. rewrite HU. clear HU.
  split_and!; try done.
  - eapply Forall_impl; [exact Hk|]. intros j. apply str_eq_false.
  - exists e. by rewrite <-E1.
  - intros sel Hsel. unfold check_node_selector in Hc. cbn in Hsel. rewrite Hsel in Hc. by apply checked_selectors.
Qed.

(** No agent is recognized as an infrastructure that is not registered. *)
Lemma wp_Verify_unregistered id key version w :
  Forall (λ i, in_InfraID i = id → in_IsRegistered i = false) (g_infras (db w)) →
  wp (VerifyInfra (mkInfraIdentity id key version)) (λ r _, is_ok r = false) w.
Proof.
  intros Hall. wp_use wp_VerifyInfra. intros [i|?|] w1 [_ H]; [|done..]. destruct H as (_ & Hi & Hid & _ & Hr).
  eapply Forall_forall in Hall; [|exact Hi]. by rewrite Hall in Hr.
Qed.

(** A registration that succeeds adds exactly one infrastructure, of the
    project of the request, under an identifier no other one has; it is listed in
    all environments of the project with the identifier of the request, of which
    there is one; its node selector, if it has one, is one the installation
    manifest can be made with; and no agent is recognized with the new
    identifier, whatever key it presents, before the registration is confirmed. *)
Theorem registration_is_recorded ctx projectID input key version w :
  wp (r1 ← RegisterInfra ctx projectID input;
      r2 ← match r1 with Ok resp => VerifyInfra (mkInfraIdentity (rg_InfraID resp) key version) | _ => mret Panic end;
      mret (r1, r2))
    (λ '(r1, r2) w', ∀ resp, r1 = Ok resp → registered projectID input resp (db w) (db w') ∧ is_ok r2 = false) w.
Proof.
  wp_step. wp_use wp_Register. intros r1 w1 H1. wp_step. destruct r1 as [resp|?|]; [|by do 2 wp_step..].
  specialize (H1 resp eq_refl) as Hreg. eapply wp_mono.
  { apply wp_conj; [apply wp_VerifyInfra|apply wp_Verify_unregistered].
    destruct Hreg as (i & HI & Hk & Hid & _ & _ & Hr & _). rewrite HI. constructor; [done|].
    eapply Forall_impl; [exact Hk|]. by intros j Hj Hj'. }
  intros r2 w2 [[E _] H2]. wp_step. intros resp' [= <-]. by rewrite E.
Qed.

(** C14. Confirming a registration replaces the access key: after a confirmation
    that reports the key [k], an agent with the identifier of the request is
    recognized, if reads succeed, exactly when it presents [k] and a compatible
    version. The key it confirmed with, which it got with the manifest, is
    refused from then on unless the random source repeats it. *)
Theorem confirmation_rotates_the_key {Hreads : ReadsSucceed drv} request key version w :
  wp (r1 ← ConfirmInfraRegistration request;
      r2 ← VerifyInfra (mkInfraIdentity (ii_InfraID request) key version); mret (r1, r2))
    (λ '(r1, r2) _, ∀ k id, r1 = Ok (mkConfirmResponse true (Some k) id) →
       (is_ok r2 = true ↔ key = k ∧ version_matches version = true)) w.
Proof.
  wp_step. wp_use wp_Confirm. intros r1 w1 H1. wp_step.
  destruct r1 as [[[] [k|] id]|e|]; [|by apply wp_any..].
  destruct (H1 k id eq_refl) as [_ Hc]. eapply wp_mono; [by apply wp_Verify_exact|].
  intros r2 w2 H2. wp_step. by intros k' id' [= <- _].
Qed.
(** ** Statistics *)

(** How many documents satisfy a condition. *)
Definition count_if (f : ChaosInfra → bool) (l : list ChaosInfra) : Z := Z.of_nat (length (List.filter f l)).
#[export] Instance count_if_perm f : Proper ((≡ₚ) ==> eq) (count_if f).
Proof. intros l l' Hl. unfold count_if. by rewrite (filterb_perm f _ _ Hl). Qed.

Lemma flag_total_count f l b : flag_total b (count_flag f l) = count_if (if b then f else negb ∘ f) l.
Proof.
  assert (List.filter (if b then f else negb ∘ f) l = List.filter (λ i, Bool.eqb (f i) b) l) as Hf.
  { apply List.filter_ext. intros i. destruct b; cbn; by destruct (f i). }
  unfold flag_total, count_flag, count_if. rewrite Hf. destruct b; repeat case_bool_decide; cbn; lia.
Qed.
Lemma count_if_split f l : count_if f l + count_if (negb ∘ f) l = Z.of_nat (length l).
Proof. unfold count_if. induction l as [|i l IH]; [done|]. cbn. destruct (f i); cbn; lia. Qed.

(** The infrastructures of a project that are not removed. *)
Definition live_infras (projectID : string) (s : GraphDB) : list ChaosInfra :=
  List.filter (λ i, str_eq (in_ProjectID i) projectID && negb (au_IsRemoved (in_Audit i))) (g_infras s).

(** The numbers of an answer are those of the documents, and add up. *)
Definition counts_of (st : GetInfraStatsResponse) (own : list ChaosInfra) : Prop :=
  ist_TotalInfrastructures st = Z.of_nat (length own) ∧
  ist_TotalActiveInfrastructure st = count_if in_IsActive own ∧
  ist_TotalInactiveInfrastructures st = count_if (negb ∘ in_IsActive) own ∧
  ist_TotalConfirmedInfrastructure st = count_if in_IsInfraConfirmed own ∧
  ist_TotalNonConfirmedInfrastructures st = count_if (negb ∘ in_IsInfraConfirmed) own ∧
  ist_TotalActiveInfrastructure st + ist_TotalInactiveInfrastructures st = ist_TotalInfrastructures st.

(** The statistics of a project are those of its infrastructures that are
    not removed, and add up: the total is the number of these documents, active
    and inactive ones together, and confirmed and unconfirmed ones together. An
    empty project has zeros. *)
Theorem infra_stats_are_counts projectID w :
  wp (GetInfraStats projectID) (λ r w', db w' = db w ∧
    match r with
    | Ok (Some st) => counts_of st (live_infras projectID (db w))
    | Err _ => True
    | Ok None | Panic => False
    end) w.
Proof.
  unfold GetInfraStats. wp_step. wp_use wp_Aggregate. intros [x|?|] w1 [E H]; [|by wp_step|done].
  destruct H as (l & Hl & ->). cbn. wp_step. split; [done|]. cbn.
  rewrite !flag_total_count.
  apply (filterb_perm (λ i, str_eq (in_ProjectID i) projectID && negb (au_IsRemoved (in_Audit i)))) in Hl.
  fold (live_infras projectID (db w)) in Hl. unfold counts_of. cbn. rewrite Hl, !count_if_split. done.
Qed.
End infra.

Definition fix_registration : RegisterInfraRequest :=
  mkRegisterInfra "cluster" "env1" "Kubernetes" (Some "") "GCP" (Some "litmus") None "cluster" (Some true) None None
    (Some "disk=ssd,zone=a") [] [].

Lemma registration_is_recorded_witness :
  wp (r1 ← RegisterInfra by_alice "p1" fix_registration;
      r2 ← match r1 with Ok resp => VerifyInfra (mkInfraIdentity (rg_InfraID resp) "k" "3.20.0") | _ => mret Panic end;
      mret (r1, r2))
    (λ x w', is_ok x.1 = true ∧ (let '(r1, r2) := x in ∀ resp, r1 = Ok resp →
       registered "p1" fix_registration resp (db graph_world) (db w') ∧ is_ok r2 = false)) graph_world.
Proof.
  apply wp_conj; [vm_compute; reflexivity|].
  apply (registration_is_recorded by_alice "p1" fix_registration "k" "3.20.0" graph_world).
Defined.

Lemma confirmation_rotates_the_key_witness :
  wp (r1 ← ConfirmInfraRegistration (mkInfraIdentity "i1" "key1" "3.20.0");
      r2 ← VerifyInfra (mkInfraIdentity "i1" "key1" "3.20.0"); mret (r1, r2))
    (λ x _, is_ok x.1 = true ∧ (let '(r1, r2) := x in ∀ k id, r1 = Ok (mkConfirmResponse true (Some k) id) →
       (is_ok r2 = true ↔ "key1" = k ∧ version_matches "3.20.0" = true))) graph_world.
Proof.
  apply wp_conj; [vm_compute; reflexivity|].
  apply (confirmation_rotates_the_key (mkInfraIdentity "i1" "key1" "3.20.0") "key1" "3.20.0" graph_world).
Defined.

Lemma infra_stats_are_counts_witness :
  wp (GetInfraStats "p1") (λ r _, ∃ st, r = Ok (Some st) ∧ ist_TotalInfrastructures st = 1 ∧
    counts_of st (live_infras "p1" graph_db)) graph_world.
Proof.
  pose proof (infra_stats_are_counts "p1" graph_world) as H. unfold wp in *. revert H.
  destruct (GetInfraStats "p1" graph_world) as [r w'] eqn:E. vm_compute in E. injection E as <- <-.
  intros [_ H]. eexists. split_and!; [reflexivity|reflexivity|exact H].
Defined.
