(* ===== verification/ConnectionTheorems.v ===== *)
(** * ConnectionTheorems.v: which agent is connected

    The resolver [InfraConnect] lets a new connection of an agent replace one
    whose end the server has not noticed yet. Against the steps of [Connections.v],
    in any interleaving: the map of connected infrastructures always holds the
    newest connection of an agent as long as that one is open. The flag
    [is_active] of the database follows the map when no connection is made or
    dropped between the two halves of another, and not otherwise. *)
From S2P Require Import Prelude World MemMongo GoStd AuthEntities AuthRepo AuthSessions Fixtures.
From S2P Require Import GraphDocs Experiments RunScore RunEvent Pipelines Authorization AuthBridge.
From S2P Require Import Environments Infrastructure Connections ProbeProperties Manifests Probes GraphFixtures.
From S2P Require Import Isolation InfraTheorems.
From stdpp Require Import relations.
Local Open Scope string_scope.
Local Open Scope Z_scope.

#[export] Instance undisturbed_preorder : PreOrder undisturbed.
Proof. split; [done|]. intros s1 s2 s3 [E1 L1] [E2 L2]. split; [congruence|lia]. Qed.

Section steps.
Context {drv : MongoDriver} {laws : MongoLaws drv} {rt : Runtime} {cfg : ServerConfig}.

(** ** The rest of the server *)
Lemma undisturbed_store (f : StateData → StateData) s :
  ConnectedInfra (f (g_store s)) = ConnectedInfra (g_store s) → (sd_Next (g_store s) ≤ sd_Next (f (g_store s)))%nat →
  undisturbed s (set_store f s).
Proof. by split. Qed.

Lemma offer_events_kept event l r :
  ConnectedInfra (foldl (offer_event event) r l) = ConnectedInfra r ∧ sd_Next (foldl (offer_event event) r l) = sd_Next r.
Proof.
  revert r. induction l as [|x l IH]; intros r; [done|]. cbn. destruct (IH (offer_event event r x)) as [-> ->].
  unfold offer_event. by repeat case_match.
Qed.

Lemma undisturbed_event type name description i : stays undisturbed (SendInfraEvent type name description i).
Proof.
  intros w. apply undisturbed_store; cbn; [by rewrite (proj1 (offer_events_kept _ _ _))|].
  by rewrite (proj2 (offer_events_kept _ _ _)).
Qed.
Lemma undisturbed_update q f : stays undisturbed (UpdateInfraDocs q f).
Proof. by intros w. Qed.
Lemma undisturbed_now : stays undisturbed now.
Proof. by intros w. Qed.
Hint Resolve undisturbed_event undisturbed_update undisturbed_now : stays.

Lemma undisturbed_activate request i : stays undisturbed (activate request i).
Proof. unfold activate. stays_auto. Qed.
Lemma undisturbed_deactivate id i : stays undisturbed (deactivate id i).
Proof. unfold deactivate. stays_auto. Qed.
Lemma undisturbed_browsers id n : stays undisturbed (GetInfraEvents id) ∧ stays undisturbed (CloseInfraEvents id n).
Proof. split; intros w; (split; [done|]); [apply (Nat.le_succ_diag_r (sd_Next (g_store (db w))))|done]. Qed.

(** ** The newest open connection *)

(** A connection, seen from outside: whose it is and whether it is open. *)
Definition seen (c : Connection) : string * bool := (ii_InfraID (cn_Request c), bool_decide (cn_Closer c = Waiting)).
Definition view (cs : gmap nat Connection) : gmap nat (string * bool) := seen <$> cs.

(** [n] is the connection of [id] that was made last, and it is open. *)
Definition newest_open (v : gmap nat (string * bool)) (id : string) (n : nat) : Prop :=
  v !! n = Some (id, true) ∧ ∀ m b, v !! m = Some (id, b) → (m ≤ n)%nat.

Definition map_ok (connected : gmap string nat) (next : nat) (v : gmap nat (string * bool)) : Prop :=
  (∀ m, is_Some (v !! m) → (m < next)%nat) ∧ ∀ id n, connected !! id = Some n ↔ newest_open v id n.

Lemma map_ok_connect connected next v id :
  map_ok connected next v → map_ok (<[id := next]> connected) (S next) (<[next := (id, true)]> v).
Proof.
  intros [Hlt Hok]. split.
  { intros m. rewrite lookup_insert_is_Some'. intros [->|?%Hlt]; lia. }
  intros id' n. unfold newest_open. destruct (decide (id' = id)) as [->|Hid].
  - rewrite lookup_insert_eq. split.
    + intros [= <-]. rewrite lookup_insert_eq. split; [done|]. intros m b [[<- _]|[_ Hm]]%lookup_insert_Some; [done|].
      specialize (Hlt m ltac:(by eexists)). lia.
    + intros [Hn Hmax]. f_equal. specialize (Hmax next true ltac:(by rewrite lookup_insert_eq)).
      apply lookup_insert_Some in Hn as [[]|[? Hn]]; [done|]. specialize (Hlt n ltac:(by eexists)). lia.
  - rewrite lookup_insert_ne, Hok by done. unfold newest_open. split; intros [Hn Hmax].
    + assert (n ≠ next). { specialize (Hlt n ltac:(by eexists)). lia. }
      rewrite lookup_insert_ne by done. split; [done|]. intros m b [[_ ?]|[_ ?]]%lookup_insert_Some; [by simplify_eq|eauto].
    + apply lookup_insert_Some in Hn as [[_ ?]|[_ Hn]]; [by simplify_eq|]. split; [done|]. intros m b Hm.
      apply (Hmax m b). rewrite lookup_insert_ne; [done|]. specialize (Hlt m ltac:(by eexists)). lia.
Qed.

(** Closing [n]: the entry goes exactly if it is the one of [n]. *)
Lemma map_ok_close connected next v id n :
  map_ok connected next v → v !! n = Some (id, true) →
  map_ok (if bool_decide (connected !! id = Some n) then delete id connected else connected) next (<[n := (id, false)]> v).
Proof.
  intros [Hlt Hok] Hv. split.
  { intros m. rewrite lookup_insert_is_Some'. intros [->|?%Hlt]; [apply Hlt; by eexists|done]. }
  intros id' m. assert (newest_open (<[n := (id, false)]> v) id' m ↔ m ≠ n ∧ newest_open v id' m) as ->.
  { unfold newest_open. split.
    - intros [[[_ ?]|[Hne Hm]]%lookup_insert_Some Hmax]; [by simplify_eq|]. split_and!; [done..|].
      intros k b Hk. destruct (decide (k = n)) as [->|]; [|apply (Hmax k b); by rewrite lookup_insert_ne].
      apply (Hmax n false). rewrite lookup_insert_eq. by simplify_eq.
    - intros (Hne & Hm & Hmax). rewrite lookup_insert_ne by done. split; [done|].
      intros k b [[<- ?]|[_ Hk]]%lookup_insert_Some; simplify_eq; eauto. }
  rewrite <-Hok. case_bool_decide as Hc.
  - rewrite lookup_delete_Some. split; [|naive_solver]. intros [Hid Hm]. split; [|done]. intros ->.
    apply Hok in Hm as [Hm _]. by simplify_eq.
  - split; [|by intros []]. intros Hm. split; [|done]. intros ->. pose proof Hm as [Hn _]%Hok. by simplify_eq.
Qed.

Definition consistent (s : Live) : Prop :=
  map_ok (ConnectedInfra (g_store (db (lv_World s)))) (sd_Next (g_store (db (lv_World s)))) (view (lv_Conns s)).

Lemma consistent_undisturbed w w' cs cs' :
  undisturbed (db w) (db w') → view cs' = view cs → consistent (mkLive w cs) → consistent (mkLive w' cs').
Proof.
  unfold consistent. simpl lv_World. simpl lv_Conns. intros [-> Hn] -> [Hlt Hok]. split; [|done]. intros m Hm%Hlt. lia.
Qed.

Lemma view_same cs n c c' : cs !! n = Some c → seen c' = seen c → view (<[n := c']> cs) = view cs.
Proof. intros Hn Hs. unfold view. rewrite fmap_insert, Hs. apply insert_id. by rewrite lookup_fmap, Hn. Qed.

Lemma wp_drop id n w :
  ConnectedInfra (g_store (db (unregister id n w).2)) =
    (if bool_decide (ConnectedInfra (g_store (db w)) !! id = Some n) then delete id (ConnectedInfra (g_store (db w)))
     else ConnectedInfra (g_store (db w))) ∧
  sd_Next (g_store (db (unregister id n w).2)) = sd_Next (g_store (db w)).
Proof.
  unfold unregister, drop_connection. destruct (_ !! id) as [m|] eqn:Hm; cbn.
  - destruct (decide (m = n)) as [->|]; repeat case_bool_decide; simplify_eq; done.
  - split; [|done]. rewrite bool_decide_eq_false_2 by done. by apply delete_id.
Qed.

Lemma consistent_step s s' : cstep s s' → consistent s → consistent s'.
Proof.
  destruct 1 as [w w1 w2 cs request verified n Hv Hr|w w' cs n c r Hc _ Ha|w w' cs n c go Hc Hw Hu|w w' cs n c Hc Hw Hd
    |w w' cs Hu]; intros Hok.
  - pose proof (wp_VerifyInfra request w) as HV. unfold wp in HV. rewrite Hv in HV. destruct HV as [E _]. cbn in E.
    inversion Hr. subst n w2. unfold consistent, view in *. cbn in *.
    rewrite fmap_insert. unfold seen at 1. cbn. rewrite <-E in *. by apply map_ok_connect.
  - eapply consistent_undisturbed, Hok; [|by eapply view_same].
    pose proof (undisturbed_activate (cn_Request c) (cn_Verified c) w) as Hun. by rewrite Ha in Hun.
  - pose proof (wp_drop (ii_InfraID (cn_Request c)) n w) as [E1 E2]. rewrite Hu in E1, E2. cbn in E1, E2.
    unfold consistent, view in *. cbn. rewrite fmap_insert, E1, E2.
    assert (seen (closing (if go then Deactivating else Closed) c) = (ii_InfraID (cn_Request c), false)) as ->
      by by destruct go.
    apply map_ok_close; [done|]. rewrite lookup_fmap, Hc. cbn. unfold seen. by rewrite Hw.
  - eapply consistent_undisturbed, Hok; [|eapply view_same; [done|]; unfold seen; cbn; by rewrite Hw].
    pose proof (undisturbed_deactivate (ii_InfraID (cn_Request c)) (cn_Verified c) w) as Hun. by rewrite Hd in Hun.
  - by eapply consistent_undisturbed.
Qed.

(** The server starts without connections. *)
Definition started (s : Live) : Prop := ConnectedInfra (g_store (db (lv_World s))) = ∅ ∧ lv_Conns s = ∅.
Lemma consistent_started s : started s → consistent s.
Proof.
  unfold started, consistent, view. intros [-> ->]. rewrite fmap_empty. split.
  - intros m. rewrite lookup_empty. by intros [? ?].
  - intros id n. unfold newest_open. by rewrite !lookup_empty; split; [|intros []].
Qed.

(** C7. Whatever the interleaving of connections, disconnections and the rest of
    the server: the map of connected infrastructures holds for an agent the
    connection [n] exactly when [n] is the last one it made and is still open. So
    a connection replaces a stale one, the late end of the stale one does not
    remove its successor, and an agent is never left registered with a connection
    that is closed. *)
Theorem connected_is_newest_open s0 s id n :
  started s0 → rtc cstep s0 s →
  ConnectedInfra (g_store (db (lv_World s))) !! id = Some n ↔ newest_open (view (lv_Conns s)) id n.
Proof.
  intros Hs%consistent_started Hr. assert (consistent s) as [_ H]; [|apply H].
  revert Hs. induction Hr as [|s s1 s2 Hstep _ IH]; eauto using consistent_step.
Qed.

(** ** The flag of the database *)

(** Updates that do not fail. *)
Class UpdatesSucceed : Prop := update_succeeds : ∀ {D} n (q : D → bool) f l, is_ok (mongo_update_many n q f l).1 = true.

Definition connected (s : GraphDB) (id : string) : bool := bool_decide (is_Some (ConnectedInfra (g_store s) !! id)).
Definition flags_ok (s : GraphDB) : Prop := ∀ i, i ∈ g_infras s → in_IsActive i = connected s (in_InfraID i).

(** Connections made and dropped one at a time; an agent whose connection fails
    half-way is not connected. *)
Inductive sstep : Live → Live → Prop :=
| seq_connect w w' cs request n verified :
    InfraConnect request w = (Ok (n, verified), w') →
    sstep (mkLive w cs) (mkLive w' (<[n := mkConn request verified true Waiting]> cs))
| seq_disconnect w w' cs n c :
    cs !! n = Some c → cn_Closer c = Waiting →
    InfraDisconnect (ii_InfraID (cn_Request c)) n (cn_Verified c) w = (tt, w') →
    sstep (mkLive w cs) (mkLive w' (<[n := closing Closed c]> cs))
| seq_other w w' cs :
    undisturbed (db w) (db w') → g_infras (db w') = g_infras (db w) → sstep (mkLive w cs) (mkLive w' cs).

(** Setting the flag of all documents of an infrastructure. *)
Lemma flags_ok_set (b : bool) id f (s s' : GraphDB) :
  flags_ok s → (∀ i, in_InfraID (f i) = in_InfraID i ∧ in_IsActive (f i) = b) →
  g_infras s' = (λ i, if by_infra_id id i then f i else i) <$> g_infras s →
  (∀ id', connected s' id' = if str_eq id' id then b else connected s id') → flags_ok s'.
Proof.
  intros Hok Hf E Hc i. rewrite E, Hc. intros (j & -> & Hj)%list_elem_of_fmap. unfold by_infra_id.
  destruct (str_eq (in_InfraID j) id) eqn:Ej; [destruct (Hf j) as [-> ->]|]; rewrite Ej; [done|by apply Hok].
Qed.

(** The write and the event of [activate] and [deactivate]. *)
Lemma wp_UpdateInfraDocs q f w :
  wp (UpdateInfraDocs q f) (λ r w', g_store (db w') = g_store (db w) ∧
    match r with Ok _ => g_infras (db w') = (λ i, if q i then f i else i) <$> g_infras (db w) | Err _ => True | Panic => False end) w.
Proof. wp_use wp_UpdateMany. intros [[]|?|] w' (l & E & HU); rewrite E; by split. Qed.

Lemma wp_infra_event type name description i w :
  wp (SendInfraEvent type name description i) (λ _ w', g_infras (db w') = g_infras (db w) ∧
    ConnectedInfra (g_store (db w')) = ConnectedInfra (g_store (db w))) w.
Proof. split; [done|]. exact (proj1 (offer_events_kept _ _ _)). Qed.

Lemma wp_register_connection id w :
  wp (register_connection id) (λ n w', n = sd_Next (g_store (db w)) ∧ db w' = set_store (connect_infra id) (db w)) w.
Proof. done. Qed.

Lemma flags_connect request w :
  flags_ok (db w) → wp (InfraConnect request) (λ r w', is_ok r = true → flags_ok (db w')) w.
Proof.
  intros Hok. unfold InfraConnect. wp_step. wp_use wp_VerifyInfra. intros [i|?|] w1 [E1 _]; [|by wp_step|done].
  wp_step. wp_use wp_register_connection. intros n w0 [_ E0]. rewrite E1 in E0. unfold activate.
  wp_step. wp_step. wp_use wp_now. intros t w2 E2. rewrite E0 in E2.
  wp_step. wp_use wp_UpdateInfraDocs. intros [[]|?|] w3 [E3 HU]; [|by do 2 wp_step|done].
  wp_step. wp_use wp_infra_event. intros [] w4 [E4 E5]. do 2 wp_step. intros _.
  rewrite E2 in *. eapply (flags_ok_set true); [exact Hok|..|by rewrite E4, HU|]; [done|].
  intros id. unfold connected. rewrite E5, E3. cbn. destruct (str_eq id _) eqn:Ei.
  - apply str_eq_true in Ei as ->. by rewrite lookup_insert_eq.
  - apply str_eq_false in Ei. by rewrite lookup_insert_ne.
Qed.

Lemma flags_disconnect {Hup : UpdatesSucceed} id n i w :
  flags_ok (db w) → wp (InfraDisconnect id n i) (λ _ w', flags_ok (db w')) w.
Proof.
  intros Hok. unfold InfraDisconnect, deactivate. wp_step. unfold wp at 1, unregister.
  destruct (drop_connection id n (g_store (db w))) as [go r] eqn:Hd. cbn [fst snd].
  destruct go; [|wp_step; unfold drop_connection in Hd; repeat case_match; by simplify_eq].
  wp_step. wp_use wp_infra_event. intros [] w1 [E1 E2]. wp_step. wp_use wp_now. intros t w2 E3.
  wp_step. eapply wp_mono; [apply wp_conj; [apply wp_UpdateInfraDocs|]|].
  { instantiate (1 := λ r _, is_ok r = true). apply update_succeeds. }
  intros [[]|?|] w3 [[E4 HU] Hs]; [|done..]. wp_step. rewrite E3 in *. cbn in *.
  eapply (flags_ok_set false); [exact Hok|..|by rewrite HU, E1|]; [done|].
  intros id'. unfold connected. rewrite E4, E2. cbn.
  assert (r = disconnect_infra id (g_store (db w))) as -> by (unfold drop_connection in Hd; repeat case_match; by simplify_eq).
  cbn. destruct (str_eq id' id) eqn:Ei.
  - apply str_eq_true in Ei as ->. by rewrite lookup_delete_eq.
  - apply str_eq_false in Ei. by rewrite lookup_delete_ne.
Qed.

Lemma rtc_refl_eq {A} (R : relation A) x y : x = y → rtc R x y.
Proof. by intros ->. Qed.

(** A sequential history is one of the histories of the steps. *)
Lemma sstep_csteps s s' : sstep s s' → rtc cstep s s'.
Proof.
  destruct 1 as [w w' cs request n verified Hc|w w' cs n c Hn Hw Hd|]; [..|by apply rtc_once, step_other].
  - unfold InfraConnect, on_err, mbind, M_bind in Hc.
    destruct (VerifyInfra request w) as [[v|?|] w1] eqn:Hv; [|done..].
    cbn [fst snd] in Hc. destruct (register_connection (ii_InfraID request) w1) as [n' w2] eqn:Hreg. cbn [fst snd] in Hc.
    destruct (activate request v w2) as [[[]|?|] w3] eqn:Ha; [|done..].
    cbv beta iota delta [mret M_ret] in Hc. simplify_eq/=.
    eapply rtc_l; [by eapply step_connect|]. eapply rtc_l; [|apply rtc_refl_eq].
    { eapply step_activate; [apply lookup_insert_eq|done|exact Ha]. }
    by rewrite insert_insert_eq.
  - unfold InfraDisconnect, mbind, M_bind in Hd. destruct (unregister (ii_InfraID (cn_Request c)) n w) as [go w1] eqn:Hu.
    cbn [fst snd] in Hd. eapply rtc_l; [by eapply step_close|]. destruct go; [|cbv beta iota delta [mret M_ret] in Hd; simplify_eq; done].
    eapply rtc_l; [|apply rtc_refl_eq].
    { eapply step_deactivate; [apply lookup_insert_eq|done|exact Hd]. }
    by rewrite insert_insert_eq.
Qed.

(** C16. When agents connect and disconnect one at a time and updates of the
    database succeed, the flag [is_active] of every infrastructure says whether
    it is connected, if it did so at the start. *)
Theorem flags_follow_connections {Hup : UpdatesSucceed} s0 s :
  flags_ok (db (lv_World s0)) → rtc sstep s0 s → flags_ok (db (lv_World s)).
Proof.
  intros Hok Hr. revert Hok. induction Hr as [|s1 s2 s3 Hstep _ IH]; [done|]. intros Hok. apply IH.
  destruct Hstep as [w w' cs request n verified Hc|w w' cs n c Hn Hw Hd|w w' cs [E _] Ei]; cbn in *.
  - pose proof (flags_connect request w Hok) as Hf. unfold wp in Hf. rewrite Hc in Hf. by apply Hf.
  - pose proof (flags_disconnect (ii_InfraID (cn_Request c)) n (cn_Verified c) w Hok) as Hf. unfold wp in Hf.
    by rewrite Hd in Hf.
  - intros i. unfold connected. rewrite E, Ei. apply Hok.
Qed.

(** ** Running the steps *)
Inductive Move : Type := MConnect (request : InfraIdentity) | MActivate (n : nat) | MClose (n : nat) | MDeactivate (n : nat).
Definition perform (m : Move) (s : Live) : option Live :=
  let '(mkLive w cs) := s in
  match m with
  | MConnect request =>
      match VerifyInfra request w with
      | (Ok verified, w1) =>
          let '(n, w2) := register_connection (ii_InfraID request) w1 in
          Some (mkLive w2 (<[n := mkConn request verified false Waiting]> cs))
      | _ => None
      end
  | MActivate n =>
      c ← cs !! n;
      if cn_Activated c then None else Some (mkLive (activate (cn_Request c) (cn_Verified c) w).2 (<[n := activated c]> cs))
  | MClose n =>
      c ← cs !! n;
      if bool_decide (cn_Closer c = Waiting) then
        let '(go, w') := unregister (ii_InfraID (cn_Request c)) n w in
        Some (mkLive w' (<[n := closing (if go then Deactivating else Closed) c]> cs))
      else None
  | MDeactivate n =>
      c ← cs !! n;
      if bool_decide (cn_Closer c = Deactivating) then
        Some (mkLive (deactivate (ii_InfraID (cn_Request c)) (cn_Verified c) w).2 (<[n := closing Closed c]> cs))
      else None
  end.
Fixpoint perform_all (ms : list Move) (s : Live) : option Live :=
  match ms with [] => Some s | m :: ms => s' ← perform m s; perform_all ms s' end.

Lemma perform_step m s s' : perform m s = Some s' → cstep s s'.
Proof.
  destruct m as [request|n|n|n], s as [w cs]; cbn [perform].
  - destruct (VerifyInfra request w) as [[verified|?|] w1] eqn:Hv; [|done..].
    destruct (register_connection _ w1) as [n w2] eqn:Hr. intros [= <-]. by eapply step_connect.
  - intros (c & Hc & Ha)%bind_Some. destruct (cn_Activated c) eqn:E; [done|]. injection Ha as <-.
    eapply step_activate; [done..|]. apply surjective_pairing.
  - intros (c & Hc & Ha)%bind_Some. case_bool_decide; [|done].
    destruct (unregister _ n w) as [go w'] eqn:Hu. injection Ha as <-. by eapply step_close.
  - intros (c & Hc & Ha)%bind_Some. case_bool_decide; [|done]. injection Ha as <-.
    eapply step_deactivate; [done..|]. reflexivity.
Qed.
Lemma perform_all_steps ms s s' : perform_all ms s = Some s' → rtc cstep s s'.
Proof.
  revert s. induction ms as [|m ms IH]; intros s; [by intros [= <-]|].
  cbn. intros (s1 & Hm & Hms)%bind_Some. eapply rtc_l; [by eapply perform_step|eauto].
Qed.
End steps.

(** ** A run: the agent reconnects before the server notices that it had left *)
Definition agent_one : InfraIdentity := mkInfraIdentity "i1" "key1" "3.20.0".
Definition idle : Live :=
  mkLive (mkWorld (set_docs (set_in_active false <$> g_infras (db graph_world)) (set_store (λ _, NewStore) (db graph_world))) 0) ∅.
Definition takeover : list Move := [MConnect agent_one; MActivate 0; MConnect agent_one; MActivate 1; MClose 0].

Lemma connected_is_newest_open_witness :
  ∃ s, rtc cstep idle s ∧ ConnectedInfra (g_store (db (lv_World s))) !! "i1" = Some 1%nat ∧
    newest_open (view (lv_Conns s)) "i1" 1%nat.
Proof.
  destruct (perform_all takeover idle) as [s|] eqn:Hs; [|by vm_compute in Hs].
  exists s. assert (rtc cstep idle s) as Hr by by eapply perform_all_steps.
  assert (ConnectedInfra (g_store (db (lv_World s))) !! "i1" = Some 1%nat) as Hc.
  { revert Hs. vm_compute. by intros [= <-]. }
  split_and!; [done..|]. by apply (connected_is_newest_open idle s "i1" 1%nat).
Defined.

#[export] Instance demo_updates : @UpdatesSucceed demo_driver.
Proof. done. Qed.

Lemma flags_follow_connections_witness :
  ∃ s, rtc sstep idle s ∧ g_infras (db (lv_World s)) ≠ [] ∧ flags_ok (db (lv_World s)) ∧
    connected (db (lv_World s)) "i1" = true ∧ connected (db (lv_World s)) "i2" = false.
Proof.
  destruct (InfraConnect agent_one (lv_World idle)) as [[[n v]|?|] w] eqn:Hc; [|by vm_compute in Hc..].
  assert (rtc sstep idle (mkLive w (<[n := mkConn agent_one v true Waiting]> ∅))) as Hr.
  { by apply rtc_once, seq_connect. }
  eexists. split; [exact Hr|]. split_and!.
  - revert Hc. vm_compute. by intros [= <- <- <-].
  - apply (flags_follow_connections idle _); [|exact Hr].
    by intros i [->|[->|[]%not_elem_of_nil]%elem_of_cons]%elem_of_cons.
  - revert Hc. vm_compute. by intros [= <- <- <-].
  - revert Hc. vm_compute. by intros [= <- <- <-].
Defined.

(** The two halves of a connection interleave: the agent of [i1] loses its
    connection and makes a new one, and the late write of the old connection's
    end comes after the new one's. In the end nothing is left to do, the agent is
    connected and receives its actions, and the database says that it is not
    active. *)
Example late_disconnection_hides_agent :
  ∃ s, rtc cstep idle s ∧
    map_Forall (λ _ c, cn_Activated c = true ∧ cn_Closer c ≠ Deactivating) (lv_Conns s) ∧
    connected (db (lv_World s)) "i1" = true ∧
    ∃ i, i ∈ g_infras (db (lv_World s)) ∧ in_InfraID i = "i1" ∧ in_IsActive i = false.
Proof.
  destruct (perform_all [MConnect agent_one; MActivate 0; MClose 0; MConnect agent_one; MActivate 1; MDeactivate 0] idle)
    as [s|] eqn:Hs; [|by vm_compute in Hs].
  exists s. split; [by eapply perform_all_steps|]. revert Hs. vm_compute perform_all. intros [= <-]. split_and!.
  - apply map_Forall_to_list. vm_compute map_to_list. repeat constructor; done.
  - done.
  - eexists. split; [apply list_elem_of_here|done].
Qed.
