(* ===== verification/ChannelTheorems.v ===== *)
(** * ChannelTheorems.v: when the store freezes

    The programs of [Channels.v] under every interleaving: the maps are only used
    under the mutex, and a send under the mutex goes to the connection that is
    registered. The mutex can be lost for ever, exactly when its owner sends to a
    channel that is full and that nobody will read; two runs show that an agent
    that is just connecting, or that has just gone away, is enough. *)
From S2P Require Import Prelude World MemMongo GoStd AuthRepo GraphDocs Experiments RunScore RunEvent Pipelines.
From S2P Require Import Channels Fixtures GraphFixtures.
From stdpp Require Import relations.
Local Open Scope string_scope.

Lemma acts_reachable l s s' : acts l s = Some s' → rtc step s s'.
Proof.
  unfold acts. assert (∀ o, foldl (λ o a, o ≫= act a) o l = Some s' → ∃ s, o = Some s ∧ rtc step s s') as H.
  { induction l as [|a l IH]; intros o Ho; [exists s'; by split; [|constructor]|]. cbn in Ho.
    destruct (IH _ Ho) as (s1 & Hs & Hr). destruct o as [s0|]; [|done]. exists s0. split; [done|].
    by eapply rtc_l; [exists a|]. }
  by intros (s0 & [= ->] & Hr)%H.
Qed.

(** ** Who uses the maps *)

(** A program does not return a channel. *)
Fixpoint quiet (g : Go) : Prop :=
  match g with
  | Halt => True
  | Lock k | Unlock k | SendAction _ _ _ k | OfferEvent _ _ k | Answer _ _ k | Close _ k | Await _ k => quiet k
  | Access _ k => ∀ m, quiet (k m)
  | Make k => ∀ c, quiet (k c)
  | Spawn g k => quiet g ∧ quiet k
  | Serve _ _ => False
  end.
Definition unlocks (g : Go) : bool := match g with Unlock _ => true | _ => false end.
Definition locks (g : Go) : bool := match g with Lock _ | Halt => true | _ => false end.

(** The discipline: maps are used, and the mutex unlocked, only by its owner
    ([held] is then what the maps are); the owner sends only to the connection
    that is registered for the infrastructure, and unlocks right after. *)
Fixpoint safe (held : option Maps) (g : Go) : Prop :=
  match g, held with
  | Halt, None => True
  | Lock k, None => ∀ m, safe (Some m) k
  | Unlock k, Some _ => safe None k
  | Access f k, Some m => safe (Some (f m)) (k m)
  | SendAction c id _ k, Some m => mp_Connected m !! id = Some c ∧ unlocks k = true ∧ safe (Some m) k
  | SendAction _ _ _ k, None | Answer _ _ k, None | Close _ k, None | Await _ k, None => quiet k ∧ safe None k
  | OfferEvent _ _ k, None | Serve _ k, None => safe None k
  | Make k, None => ∀ c, locks (k c) = true ∧ safe None (k c)
  | Spawn g k, None => quiet g ∧ safe None g ∧ safe None k
  | _, _ => False
  end.

Lemma safe_event e k : safe None k → safe None (SendInfraEvent e k).
Proof. intros Hk m. cbn. by induction (default [] _) as [|c l IH]. Qed.
Lemma quiet_event e k : quiet k → quiet (SendInfraEvent e k).
Proof. intros Hk m. cbn. by induction (default [] _) as [|c l IH]. Qed.
Lemma safe_disconnect id c e : quiet (disconnect id c e) ∧ safe None (disconnect id c e).
Proof.
  assert (quiet (disconnect id c e)) as Hq. { intros m. cbn. case_match; [done|]. by apply quiet_event. }
  split; [done|]. split; [done|]. intros m. cbn. case_match; [done|]. by apply safe_event.
Qed.
Lemma safe_GetLogs x reqID id payload resp : quiet (GetLogs x reqID id payload resp) ∧ safe None (GetLogs x reqID id payload resp).
Proof. split; intros m; cbn; case_match; [done| |done|]; intros m'; cbn; by case_match. Qed.

Lemma program_safe r : safe None (program r).
Proof.
  destruct r as [srs|e|id v u e1 e2|p|x reqID id a r|x v reqID r]; cbn -[disconnect GetLogs SendInfraEvent].
  - induction srs as [|sr srs IH]; [done|]. intros m. cbn. by case_match.
  - by apply safe_event.
  - intros c. destruct v; [|done]. split; [done|]. intros m. cbn -[disconnect SendInfraEvent].
    destruct (safe_disconnect id c e2) as [Hq Hs]. split_and!; [done..|]. destruct u; [|done]. by apply safe_event.
  - by intros c.
  - intros c. split; [done|]. intros m. cbn -[GetLogs]. by destruct (safe_GetLogs x reqID id a r).
  - unfold PodLog. destruct v; [|done]. intros n. cbn. by repeat case_match.
Qed.

Definition guarded (s : Sys) (t : nat) (g : Go) : Prop :=
  safe (if bool_decide (sy_Mutex s = Some t) then Some (sy_Maps s) else None) g.
Record disciplined (s : Sys) : Prop := mkDisciplined {
  di_guarded t rec g : sy_Threads s !! t = Some (rec, g) → guarded s t g;
  di_owner t : sy_Mutex s = Some t → is_Some (sy_Threads s !! t);
  di_next t : is_Some (sy_Threads s !! t) → (t < sy_Next s)%nat;
  di_places c : (length (place (sy_Actions s) c) ≤ 1)%nat;
}.

Lemma place_insert {A} (m : gmap nat (list A)) c l c' : place (<[c := l]> m) c' = if bool_decide (c' = c) then l else place m c'.
Proof. unfold place. case_bool_decide as E; [subst; by rewrite lookup_insert_eq|by rewrite lookup_insert_ne]. Qed.
Lemma places_insert {A} (m : gmap nat (list A)) c l :
  (∀ c', length (place m c') ≤ 1)%nat → (length l ≤ 1)%nat → ∀ c', (length (place (<[c := l]> m) c') ≤ 1)%nat.
Proof. intros Hp Hl c'. rewrite place_insert. by case_bool_decide. Qed.

(** A goroutine goes on, and the rest of the state changes in ways that no other
    goroutine depends on. *)
Lemma disciplined_goto t rec rec' g k s s' :
  disciplined s → sy_Threads s !! t = Some (rec, g) →
  sy_Threads s' = <[t := (rec', k)]> (sy_Threads s) → (sy_Next s ≤ sy_Next s')%nat →
  (∀ c, length (place (sy_Actions s') c) ≤ 1)%nat →
  (sy_Mutex s' = sy_Mutex s ∧ (sy_Mutex s = Some t ∨ sy_Maps s' = sy_Maps s) ∨
   sy_Mutex s = None ∧ sy_Mutex s' = Some t ∨ sy_Mutex s = Some t ∧ sy_Mutex s' = None) →
  guarded s' t k → disciplined s'.
Proof.
  intros [Hg Ho Hn Hp] Ht E En Hp' Hm Hk. split.
  - intros t' rec'' g'. rewrite E. intros [[<- [= <- <-]]|[Hne Ht']]%lookup_insert_Some; [done|].
    specialize (Hg _ _ _ Ht'). unfold guarded in *.
    destruct Hm as [[-> [Hm | ->]]|[[Hm ->]|[Hm ->]]]; [|done|..]; rewrite ?Hm in *; repeat case_bool_decide; simplify_eq; done.
  - intros t' Hm'. rewrite E. apply lookup_insert_is_Some'. destruct (decide (t = t')); [by left|right].
    destruct Hm as [[Em _]|[[_ Em]|[_ Em]]]; rewrite Em in Hm'; simplify_eq; eauto.
  - intros t'. rewrite E. rewrite lookup_insert_is_Some'. intros [<-|?%Hn]; [|lia]. specialize (Hn t ltac:(by eexists)). lia.
  - done.
Qed.

(** A new goroutine. *)
Lemma disciplined_new p s : disciplined s → safe None p.2 → disciplined (set_thread (sy_Next s) p (bump s)).
Proof.
  intros [Hg Ho Hn Hp] Hs. split; cbn; [| | |done].
  - intros t rec g [[<- ->]|[_ Ht]]%lookup_insert_Some; [|by apply (Hg _ rec)].
    unfold guarded. cbn. rewrite bool_decide_eq_false_2; [done|]. intros Hm. specialize (Hn _ (Ho _ Hm)). lia.
  - intros t ?%Ho. apply lookup_insert_is_Some'. by right.
  - intros t. rewrite lookup_insert_is_Some'. intros [<-|?%Hn]; lia.
Qed.
(** What neither the goroutines nor the mutex or the maps depend on. *)
Lemma disciplined_rest s s' :
  disciplined s → sy_Threads s' = sy_Threads s → sy_Next s' = sy_Next s → sy_Mutex s' = sy_Mutex s → sy_Maps s' = sy_Maps s →
  (∀ c, length (place (sy_Actions s') c) ≤ 1)%nat → disciplined s'.
Proof. intros [Hg Ho Hn Hp] E1 E2 E3 E4 Hp'. split; unfold guarded; rewrite ?E1, ?E2, ?E3, ?E4; done. Qed.

Lemma disciplined_run t s s' : disciplined s → run t s = Some s' → disciplined s'.
Proof.
  unfold run. intros Hd. destruct (sy_Threads s !! t) as [[rec g]|] eqn:Ht; [|done].
  pose proof (di_guarded _ Hd _ _ _ Ht) as Hg. pose proof (di_places _ Hd) as Hp. unfold guarded in Hg.
  assert (∀ s' rec' k, sy_Threads s' = <[t := (rec', k)]> (sy_Threads s) → (sy_Next s ≤ sy_Next s')%nat →
    (∀ c, length (place (sy_Actions s') c) ≤ 1)%nat → sy_Mutex s' = sy_Mutex s → sy_Maps s' = sy_Maps s →
    safe (if bool_decide (sy_Mutex s = Some t) then Some (sy_Maps s) else None) k → disciplined s') as Hgo.
  { intros s1 rec' k E En Hp' Em Em' Hk. eapply disciplined_goto; [done..|by left; split; [|right]|].
    unfold guarded. by rewrite Em, Em'. }
  assert (∀ b, bool_decide (sy_Mutex s = Some t) = false → disciplined (panic t b s)) as Hpanic.
  { intros [] Hm; [|by eapply disciplined_rest]. by eapply Hgo; [done..|]; rewrite Hm. }
  destruct g as [|k|k|f k|k|c id a k|c e k|c m k|c k|g k|c k|c k].
  - done.
  - destruct (sy_Mutex s) eqn:Hm; [done|]. intros [= <-]. eapply disciplined_goto; [done..|by right; left|].
    unfold guarded. cbn. rewrite bool_decide_eq_true_2 by done. apply Hg.
  - case_bool_decide as Hm; [|done]. rewrite Hm. intros [= <-]. eapply disciplined_goto; [done..|by right; right|done].
  - case_bool_decide as Hm; [|done]. intros [= <-]. eapply disciplined_goto; [done..|by left; split; [|left]|].
    unfold guarded. cbn. by rewrite bool_decide_eq_true_2.
  - case_bool_decide; [done|]. intros [= <-]. eapply Hgo; [done|cbn; lia|done..|]. apply Hg.
  - destruct (place _ c) eqn:Hc; [|done]. intros [= <-]. eapply Hgo; [done..| |done|done|].
    + by apply places_insert.
    + case_bool_decide; apply Hg.
  - case_bool_decide; [done|]. intros [= <-]. by eapply Hgo; [destruct (place _ c)..|].
  - case_bool_decide as Hm; [done|]. case_bool_decide; [intros [= <-]; by apply Hpanic|]. destruct (place _ c); [|done].
    intros [= <-]. eapply Hgo; [done..|]. apply Hg.
  - case_bool_decide as Hm; [done|]. intros [= <-]. case_bool_decide; [by apply Hpanic|]. eapply Hgo; [done..|]. apply Hg.
  - case_bool_decide as Hm; [done|]. intros [= <-]. destruct Hg as (_ & Hg & Hk).
    eapply (disciplined_goto t rec rec (Spawn g k) k (set_thread (sy_Next s) (false, g) (bump s))); [by apply disciplined_new|..].
    + cbn. rewrite lookup_insert_ne; [done|]. intros E. pose proof (di_next _ Hd t ltac:(by eexists)). lia.
    + done.
    + done.
    + done.
    + by left; split; [|right].
    + unfold guarded. cbn. by rewrite bool_decide_eq_false_2.
  - case_bool_decide as Hm; [done|]. case_bool_decide; [|done]. intros [= <-]. eapply Hgo; [done..|]. apply Hg.
  - case_bool_decide as Hm; [done|]. intros [= <-]. eapply Hgo; [done..|]. apply Hg.
Qed.

Lemma disciplined_read c s s' : disciplined s → read c s = Some s' → disciplined s'.
Proof.
  intros Hd. pose proof (di_places _ Hd) as Hp. unfold read. case_bool_decide; [|done].
  destruct (place (sy_Actions s) c) as [|a l] eqn:Ha.
  - destruct (place (sy_Events s) c); [destruct (place (sy_Answers s) c)|]; [done|..]; intros [= <-]; by eapply disciplined_rest.
  - intros [= <-]. eapply disciplined_rest; [done..|]. apply places_insert; [done|].
    specialize (Hp c). rewrite Ha in Hp. cbn in Hp. lia.
Qed.

Lemma disciplined_step s s' : step s s' → disciplined s → disciplined s'.
Proof.
  intros [a Ha] Hd. unfold act in Ha. destruct (sy_Crashed s); [done|]. destruct a as [r|t|c|c|c].
  - injection Ha as <-. apply disciplined_new; [done|]. apply program_safe.
  - by eapply disciplined_run.
  - by eapply disciplined_read.
  - injection Ha as <-. eapply disciplined_rest; [done..|]. apply Hd.
  - destruct (_ && _); [|done]. injection Ha as <-. eapply disciplined_rest; [done..|]. apply Hd.
Qed.
Lemma disciplined_rtc s s' : rtc step s s' → disciplined s → disciplined s'.
Proof. induction 1; eauto using disciplined_step. Qed.
Lemma disciplined_start : disciplined start.
Proof. split; [done..|by intros t [p Hp]|intros c; unfold place; cbn; rewrite lookup_empty; cbn; lia]. Qed.
Lemma reachable_disciplined s : reachable s → disciplined s.
Proof. intros Hr. eapply disciplined_rtc; [exact Hr|]. apply disciplined_start. Qed.

(** A goroutine is about to use the maps, or to unlock the mutex. *)
Definition uses_store (g : Go) : bool := match g with Access _ _ | Unlock _ => true | _ => false end.

(** C31. In every interleaving of requests, agents and browsers the maps of the
    store are used, and its mutex is unlocked, only by the goroutine that holds
    it; and a goroutine that sends an action while it holds the mutex sends it to
    the connection that is then registered for the infrastructure of the request,
    which no other goroutine can replace before the send. *)
Theorem store_is_used_under_the_mutex s t rec g :
  reachable s → sy_Threads s !! t = Some (rec, g) →
  (uses_store g = true → sy_Mutex s = Some t) ∧
  (∀ c infraID a k, g = SendAction c infraID a k → sy_Mutex s = Some t → mp_Connected (sy_Maps s) !! infraID = Some c).
Proof.
  intros Hd%reachable_disciplined Ht. pose proof (di_guarded _ Hd _ _ _ Ht) as Hg. unfold guarded in Hg. split.
  - case_bool_decide; [done|]. by destruct g.
  - intros c id a k -> Hm. rewrite bool_decide_eq_true_2 in Hg by done. apply Hg.
Qed.

(** ** When the store freezes *)

(** [g] returns [n] to the executor without needing the mutex before. *)
Fixpoint pending (n : nat) (g : Go) : bool :=
  match g with
  | Serve c k => (c =? n)%nat || pending n k
  | OfferEvent _ _ k | Spawn _ k => pending n k
  | _ => false
  end.
(** The channel the owner of the mutex is going to send to. *)
Fixpoint target (m : Maps) (g : Go) : option nat :=
  match g with
  | Access f k => target (f m) (k m)
  | SendAction c _ _ _ => Some c
  | _ => None
  end.
(** Nobody reads [n], and nobody is about to. *)
Definition unread (s : Sys) (n : nat) : Prop :=
  sy_Readers s !! n ≠ Some true ∧ map_Forall (λ _ p, pending n p.2 = false) (sy_Threads s).
(** The owner of the mutex sends to a channel whose place is taken and that
    nobody reads. *)
Definition deadlocked (s : Sys) : Prop := ∃ t rec g n,
  sy_Mutex s = Some t ∧ sy_Threads s !! t = Some (rec, g) ∧ target (sy_Maps s) g = Some n ∧
  place (sy_Actions s) n ≠ [] ∧ unread s n.
(** The mutex is never free again. *)
Definition frozen (s : Sys) : Prop := ∀ s', rtc step s s' → sy_Mutex s' ≠ None.

Lemma quiet_pending n g : quiet g → pending n g = false.
Proof. induction g; cbn; naive_solver. Qed.
Lemma locks_pending n g : locks g = true → pending n g = false.
Proof. by destruct g. Qed.
Lemma held_pending n m g : safe (Some m) g → pending n g = false.
Proof. by destruct g. Qed.
Lemma program_pending n r : pending n (program r) = false.
Proof. destruct r as [[]| | | | |x []]; done. Qed.

Lemma unread_goto s s' t p n :
  unread s n → (sy_Readers s' !! n = Some true → sy_Readers s !! n = Some true) →
  sy_Threads s' = <[t := p]> (sy_Threads s) → pending n p.2 = false → unread s' n.
Proof. intros [Hr Hp] Hr' E Hn. split; [by intros ?%Hr'|]. rewrite E. by apply map_Forall_insert_2. Qed.

(** A step of another goroutine does not help. *)
Lemma unread_run t s s' n :
  disciplined s → run t s = Some s' → sy_Mutex s ≠ None → sy_Mutex s ≠ Some t → place (sy_Actions s) n ≠ [] → unread s n →
  unread s' n ∧ place (sy_Actions s') n = place (sy_Actions s) n ∧ sy_Mutex s' = sy_Mutex s ∧ sy_Maps s' = sy_Maps s.
Proof.
  unfold run. intros Hd Hs Hn Hm Hpl Hu. destruct (sy_Threads s !! t) as [[rec g]|] eqn:Ht; [|done].
  pose proof (di_guarded _ Hd _ _ _ Ht) as Hg. unfold guarded in Hg. rewrite bool_decide_eq_false_2 in Hg by done.
  pose proof (proj2 Hu _ _ Ht) as Hp. cbn in Hp.
  assert (∀ b, unread (panic t b s) n ∧ place (sy_Actions (panic t b s)) n = place (sy_Actions s) n ∧
    sy_Mutex (panic t b s) = sy_Mutex s ∧ sy_Maps (panic t b s) = sy_Maps s) as Hpanic.
  { intros []; [|done]. split; [|done]. by eapply unread_goto. }
  destruct g as [|k|k|f k|k|c id a k|c e k|c m k|c k|g k|c k|c k]; cbn in Hp; try done.
  - by destruct (sy_Mutex s).
  - injection Hs as <-. split; [|done]. eapply unread_goto; [done..|]. apply locks_pending, Hg.
  - destruct (place _ c) eqn:Hc; [|done]. injection Hs as <-. split_and!; [|cbn; rewrite place_insert|done..].
    + eapply unread_goto; [done..|]. apply quiet_pending, Hg.
    + case_bool_decide; [by subst|done].
  - injection Hs as <-. split_and!; [|by destruct (place _ c)..]. by eapply unread_goto; [done|destruct (place (sy_Events s) c)..|].
  - case_bool_decide; [by injection Hs as <-|]. destruct (place _ c); [|done]. injection Hs as <-. split; [|done].
    eapply unread_goto; [done..|]. apply quiet_pending, Hg.
  - case_bool_decide; [by injection Hs as <-|]. injection Hs as <-. split; [|done].
    eapply unread_goto; [done..|]. apply quiet_pending, Hg.
  - injection Hs as <-. split; [|done]. eapply (unread_goto (set_thread (sy_Next s) (false, g) (bump s))); [|done..].
    eapply unread_goto; [done..|]. apply quiet_pending, Hg.
  - case_bool_decide; [|done]. injection Hs as <-. split; [|done]. eapply unread_goto; [done..|]. apply quiet_pending, Hg.
  - injection Hs as <-. apply orb_false_iff in Hp as [Hc%Nat.eqb_neq Hp]. split; [|done].
    eapply unread_goto; [done| |done|done]. cbn. by rewrite lookup_insert_ne.
Qed.

(** The other goroutines stay where they are. *)
Lemma run_other t t' s s' :
  disciplined s → run t' s = Some s' → t ≠ t' → is_Some (sy_Threads s !! t) → sy_Threads s' !! t = sy_Threads s !! t.
Proof.
  unfold run. intros Hd Hs Hne Hi. pose proof (di_next _ Hd _ Hi) as Hn. destruct (sy_Threads s !! t') as [[rec g]|]; [|done].
  assert (∀ b, sy_Threads (panic t' b s) !! t = sy_Threads s !! t) as Hp.
  { intros []; [|done]. cbn. by rewrite lookup_insert_ne. }
  destruct g; repeat case_match; simplify_eq; try apply Hp; cbn; rewrite ?lookup_insert_ne by (done || lia); done.
Qed.

Lemma deadlocked_step s s' : disciplined s → step s s' → deadlocked s → deadlocked s'.
Proof.
  intros Hd [a Ha] (t & rec & g & n & Hm & Ht & Hg & Hp & Hu). unfold act in Ha. destruct (sy_Crashed s); [done|].
  assert (is_Some (sy_Threads s !! t)) as Hi by by eexists. destruct a as [r|t'|c|c|c].
  - injection Ha as <-. exists t, rec, g, n. split_and!; try done.
    + cbn. rewrite lookup_insert_ne; [done|]. pose proof (di_next _ Hd t Hi). lia.
    + eapply unread_goto; [done..|]. apply program_pending.
  - destruct (decide (t' = t)) as [->|Hne].
    + unfold run in Ha. rewrite Ht in Ha. destruct g as [| | |f k| |c id x k| | | | | |]; try done; cbn in Hg.
      * injection Ha as <-. exists t, rec, (k (sy_Maps s)), n. split_and!; [done|cbn; by rewrite lookup_insert_eq|done..|].
        eapply unread_goto; [done..|]. pose proof (di_guarded _ Hd _ _ _ Ht) as Hs. unfold guarded in Hs.
        rewrite bool_decide_eq_true_2 in Hs by done. by eapply held_pending.
      * simplify_eq. by destruct (place _ n).
    + destruct (unread_run t' s s' n) as (Hu' & Ep & Em & Emm); try done; [by rewrite Hm|rewrite Hm; congruence|].
      exists t, rec, g, n. rewrite Em, Emm, Ep. split_and!; try done. rewrite <-Ht. by eapply run_other.
  - unfold read in Ha. case_bool_decide as Hr; [|done]. destruct Hu as [Hu Hth]. assert (c ≠ n) by congruence.
    exists t, rec, g, n. repeat case_match; simplify_eq; split_and!; try done.
    cbn. rewrite place_insert. by rewrite bool_decide_eq_false_2.
  - injection Ha as <-. by exists t, rec, g, n.
  - destruct (_ && _); [|done]. injection Ha as <-. exists t, rec, g, n. split_and!; try done. split; [|apply Hu].
    cbn. destruct (decide (c = n)) as [->|]; [by rewrite lookup_insert_eq|rewrite lookup_insert_ne by done; apply Hu].
Qed.
Lemma deadlocked_frozen s : disciplined s → deadlocked s → frozen s.
Proof.
  intros Hd Hs s' Hr. revert Hd Hs. induction Hr as [s|s s1 s2 Hstep _ IH]; intros Hd Hs.
  - by destruct Hs as (t & rec & g & n & -> & _).
  - apply IH; [by eapply disciplined_step|by eapply deadlocked_step].
Qed.

(** What the owner of the mutex does not see of another goroutine. *)
Definition behind (t : nat) (s s' : Sys) : Prop :=
  sy_Crashed s' = false ∧ sy_Actions s' = sy_Actions s ∧ sy_Mutex s' = sy_Mutex s ∧ sy_Maps s' = sy_Maps s ∧
  ∀ t', t' ≠ t → is_Some (sy_Threads s !! t') → sy_Threads s' !! t' = sy_Threads s !! t'.
Lemma behind_trans t s1 s2 s3 : behind t s1 s2 → behind t s2 s3 → behind t s1 s3.
Proof.
  intros (C1 & A1 & M1 & N1 & T1) (C2 & A2 & M2 & N2 & T2). split_and!; [done|congruence..|]. intros t' Hne Hi.
  rewrite T2, T1; [done..|]. by rewrite T1.
Qed.

(** The steps that need neither the mutex nor a place. *)
Definition light (g : Go) : option Go := match g with OfferEvent _ _ k | Spawn _ k | Serve _ k => Some k | _ => None end.
Lemma run_light t rec g k s :
  sy_Crashed s = false → disciplined s → sy_Threads s !! t = Some (rec, g) → light g = Some k →
  ∃ s', run t s = Some s' ∧ behind t s s' ∧ sy_Threads s' !! t = Some (rec, k) ∧
    sy_Readers s' = match g with Serve c _ => <[c := true]> (sy_Readers s) | _ => sy_Readers s end.
Proof.
  intros Hc Hd Ht Hk. pose proof (run_other) as Ho. unfold run. rewrite Ht.
  assert (∀ s', run t s = Some s' → ∀ t', t' ≠ t → is_Some (sy_Threads s !! t') → sy_Threads s' !! t' = sy_Threads s !! t') as Hother.
  { intros s' Hr t' Hne Hi. by eapply run_other. }
  unfold run in Hother. rewrite Ht in Hother.
  destruct g; simplify_eq/=; (eexists; split; [done|]; split; [split_and!; [..|by apply Hother]|]); try case_match;
    cbn; rewrite ?lookup_insert_eq; done.
Qed.

(** A goroutine that is about to return [n] can do so. *)
Lemma serve_path n t rec g s :
  sy_Crashed s = false → disciplined s → sy_Threads s !! t = Some (rec, g) → pending n g = true →
  ∃ s', rtc step s s' ∧ behind t s s' ∧ sy_Readers s' !! n = Some true.
Proof.
  assert (∀ s s1, sy_Crashed s = false → run t s = Some s1 → step s s1) as Hst.
  { intros s0 s1 Hc Hr. exists (Run t). unfold act. by rewrite Hc. }
  revert rec s. induction g as [| | | | | |c e k IH| | |g _ k IH| |c k IH]; intros rec s Hc Hd Ht Hp; cbn in Hp; try done;
    (destruct (run_light t rec _ k s Hc Hd Ht eq_refl) as (s1 & Hr & Hb & Ht1 & Es); pose proof (Hst _ _ Hc Hr) as Hs1).
  3: destruct (c =? n)%nat eqn:Ec.
  3: { apply Nat.eqb_eq in Ec as ->. exists s1. split_and!; [by apply rtc_once|done|]. by rewrite Es, lookup_insert_eq. }
  all: destruct (IH rec s1) as (s2 & Hr2 & Hb2 & Hn); [apply Hb|by eapply disciplined_step|done|done|];
    exists s2; split_and!; [by eapply rtc_l|by eapply behind_trans|done].
Qed.

Lemma not_unread s n : ¬ unread s n → sy_Readers s !! n = Some true ∨ ∃ t rec g, sy_Threads s !! t = Some (rec, g) ∧ pending n g = true.
Proof.
  intros Hu. destruct (decide (sy_Readers s !! n = Some true)) as [|Hr]; [by left|right].
  destruct (decide (map_Exists (λ _ p, pending n p.2 = true) (sy_Threads s))) as [(t & [rec g] & Ht & Hp)|He].
  - by exists t, rec, g.
  - exfalso. apply Hu. split; [done|]. intros t p Ht. apply not_true_is_false. intros Hp. apply He. by exists t, p.
Qed.

(** The place of a channel that is read, or about to be, can become free. *)
Lemma drain_path n t rec g s :
  sy_Crashed s = false → disciplined s → sy_Mutex s = Some t → sy_Threads s !! t = Some (rec, g) → pending n g = false →
  ¬ unread s n → ∃ s', rtc step s s' ∧ sy_Crashed s' = false ∧ sy_Mutex s' = Some t ∧ sy_Maps s' = sy_Maps s ∧
    sy_Threads s' !! t = Some (rec, g) ∧ place (sy_Actions s') n = [].
Proof.
  intros Hc Hd Hm Ht Hg Hu. destruct (place (sy_Actions s) n) as [|a l] eqn:Hp; [by exists s; split_and!; [constructor|..]|].
  assert (l = []) as ->. { pose proof (di_places _ Hd n) as Hl. rewrite Hp in Hl. destruct l; [done|cbn in Hl; lia]. }
  assert (∃ s1, rtc step s s1 ∧ sy_Crashed s1 = false ∧ sy_Actions s1 = sy_Actions s ∧ sy_Mutex s1 = sy_Mutex s ∧
    sy_Maps s1 = sy_Maps s ∧ sy_Threads s1 !! t = sy_Threads s !! t ∧ sy_Readers s1 !! n = Some true)
    as (s1 & Hr1 & C1 & A1 & M1 & N1 & T1 & R1).
  { apply not_unread in Hu as [Hr|(t' & rec' & g' & Ht' & Hp')]; [by exists s; split_and!; [constructor|..]|].
    assert (t ≠ t') by (intros <-; simplify_eq; congruence). destruct (serve_path n t' rec' g' s) as (s1 & Hr1 & (C1 & A1 & M1 & N1 & T1) & R1); [done..|].
    exists s1. split_and!; try done. apply T1; [done|by eexists]. }
  exists (set_actions n [] s1). cbn. rewrite C1, M1, N1, T1, place_insert, bool_decide_eq_true_2 by done. split_and!; try done.
  eapply rtc_r; [done|]. exists (Read n). unfold act, read. by rewrite C1, R1, A1, Hp.
Qed.

(** The owner of the mutex reaches its end. *)
Lemma release_path g : ∀ s t rec,
  sy_Crashed s = false → disciplined s → sy_Mutex s = Some t → sy_Threads s !! t = Some (rec, g) →
  (∀ n, target (sy_Maps s) g = Some n → place (sy_Actions s) n = [] ∨ ¬ unread s n) →
  ∃ s', rtc step s s' ∧ sy_Mutex s' = None.
Proof.
  assert (∀ s s1 t, sy_Crashed s = false → run t s = Some s1 → step s s1) as Hst.
  { intros s0 s1 t Hc Hr. exists (Run t). unfold act. by rewrite Hc. }
  assert (∀ k s t rec, sy_Crashed s = false → sy_Mutex s = Some t → sy_Threads s !! t = Some (rec, Unlock k) →
    ∃ s', rtc step s s' ∧ sy_Mutex s' = None) as Hunlock.
  { intros k s t rec Hc Hm Ht. eexists. split; [apply rtc_once, (Hst _ _ t Hc)|]. { unfold run. by rewrite Ht, Hm. } done. }
  induction g as [| |k _|f k IH| |c id a k _| | | | | |]; intros s t rec Hc Hd Hm Ht Hu; pose proof (di_guarded _ Hd _ _ _ Ht) as Hg;
    unfold guarded in Hg; rewrite bool_decide_eq_true_2 in Hg by done; try done.
  - by eapply Hunlock.
  - set (s1 := set_thread t (rec, k (sy_Maps s)) (set_maps (f (sy_Maps s)) s)).
    assert (step s s1) as H1. { apply (Hst _ _ t Hc). unfold run. by rewrite Ht. }
    destruct (IH (sy_Maps s) s1 t rec) as (s2 & Hr & Hm2); [done|by eapply disciplined_step|done|cbn; by rewrite lookup_insert_eq| |].
    + intros n Hn. destruct (Hu n Hn) as [Hp|Hp]; [by left|right]. intros [Hr Hth]. apply Hp. split; [done|].
      intros t' p Ht'. destruct (decide (t' = t)) as [->|]; [by simplify_eq/=|].
      apply (Hth t'). cbn. by rewrite lookup_insert_ne.
    + exists s2. split; [by eapply rtc_l|done].
  - destruct Hg as (_ & Hk & Hs). destruct k as [| |k| | | | | | | | |]; try done.
    assert (∃ s1, rtc step s s1 ∧ sy_Crashed s1 = false ∧ sy_Mutex s1 = Some t ∧ sy_Threads s1 !! t = Some (rec, SendAction c id a (Unlock k)) ∧
      place (sy_Actions s1) c = []) as (s1 & Hr & Hc1 & Hm1 & Ht1 & Hp).
    { destruct (Hu c eq_refl) as [Hp|Hp]; [by exists s|].
      destruct (drain_path c t rec _ s Hc Hd Hm Ht eq_refl Hp) as (s1 & Hr & ? & ? & _ & ? & ?). by exists s1. }
    set (s2 := set_thread t (rec, Unlock k) (set_actions c [a] s1)).
    destruct (Hunlock k s2 t rec) as (s3 & Hr3 & Hm3); [done..|cbn; by rewrite lookup_insert_eq|].
    exists s3. split; [|done]. etrans; [done|]. eapply rtc_l; [|done]. apply (Hst _ _ t Hc1). unfold run. by rewrite Ht1, Hp.
Qed.

(** C30. In every state that is reachable the mutex of the store is held for ever,
    whatever happens from then on, exactly when its owner is sending an action to
    a channel whose place is taken and that nobody reads nor is about to read
    without needing the mutex first. Otherwise the mutex can become free: its
    owner needs at most the reader of one channel. *)
Theorem store_freezes_exactly s : reachable s → sy_Crashed s = false → frozen s ↔ deadlocked s.
Proof.
  intros Hd%reachable_disciplined Hc. split; [|by apply deadlocked_frozen]. intros Hf.
  assert (sy_Mutex s ≠ None) as Hm by by apply Hf.
  destruct (sy_Mutex s) as [t|] eqn:Em; [|done]. destruct (di_owner _ Hd t Em) as [[rec g] Ht].
  assert (∀ n, Decision (unread s n)) as Hdec by (intros n; unfold unread; apply _).
  destruct (target (sy_Maps s) g) as [n|] eqn:Hn; [destruct (place (sy_Actions s) n) eqn:Hp; [|destruct (decide (unread s n))]|].
  2: { exists t, rec, g, n. by rewrite Hp. }
  all: exfalso; destruct (release_path g s t rec) as (s' & Hr & Hm'); [done..| |by apply (Hf s')];
    intros n' Hn'; rewrite Hn in Hn'; simplify_eq; auto.
Qed.

(** ** Runs *)
Definition deadlockedb (s : Sys) : bool :=
  match sy_Mutex s ≫= λ t, sy_Threads s !! t with
  | Some (_, g) =>
      match target (sy_Maps s) g with
      | Some n => match place (sy_Actions s) n with [] => false | _ => true end &&
          bool_decide (sy_Readers s !! n ≠ Some true) && forallb (λ x, negb (pending n x.2.2)) (map_to_list (sy_Threads s))
      | None => false
      end
  | None => false
  end.
Lemma deadlockedb_true s : deadlockedb s = true → deadlocked s.
Proof.
  unfold deadlockedb. destruct (sy_Mutex s) as [t|] eqn:Hm; [|done]. cbn. destruct (sy_Threads s !! t) as [[rec g]|] eqn:Ht; [|done].
  destruct (target _ g) as [n|] eqn:Hn; [|done]. rewrite !andb_true_iff, bool_decide_eq_true, forallb_forall. intros [[Hp Hr] Hf].
  exists t, rec, g, n. split_and!; try done; [by destruct (place _ n)|]. split; [done|]. intros t' p Ht'.
  apply negb_true_iff, (Hf (t', p)), list_elem_of_In. by apply elem_of_map_to_list.
Qed.
Definition after (l : list Act) : Sys := default start (acts l start).
Lemma reachable_after l : match acts l start with Some _ => true | None => false end = true → reachable (after l).
Proof. intros H. unfold after. destruct (acts l start) as [s|] eqn:E; [|done]. by eapply acts_reachable. Qed.

Definition offline_event : InfraEventResponse := mkInfraEvent "e1" "infra-status" "Infra Offline" "Infra Disconnect" (fix_infra "i1" "p1" "e1" "key" true true).
Definition action (id : string) : SubscriberRequests := mkSubscriberRequest "create" "manifest" None "p1" id "litmus" None.
(** An agent connects (goroutine 0, channel 1, closer 2); before the resolver has
    sent its event two actions arrive (goroutine 3). *)
Definition connecting : list Act :=
  [Start (RConnect "i1" true true offline_event offline_event); Run 0; Run 0; Run 0; Run 0; Run 0;
   Start (RSend [action "i1"; action "i1"]); Run 3; Run 3; Run 3; Run 3; Run 3; Run 3].
(** An agent is connected and read; it goes away, and before its closer has
    removed it two actions arrive. *)
Definition gone : list Act :=
  [Start (RConnect "i1" true true offline_event offline_event); Run 0; Run 0; Run 0; Run 0; Run 0; Run 0; Run 0; Run 0; Run 0;
   End_ 1; Stop 1; Start (RSend [action "i1"; action "i1"]); Run 3; Run 3; Run 3; Run 3; Run 3; Run 3].

Lemma store_freezes_exactly_witness : reachable (after connecting) ∧ sy_Crashed (after connecting) = false ∧ frozen (after connecting).
Proof.
  assert (reachable (after connecting)) as Hr by (apply reachable_after; vm_compute; reflexivity).
  assert (sy_Crashed (after connecting) = false) as Hc by (vm_compute; reflexivity).
  split; [exact Hr|]. split; [exact Hc|]. apply (store_freezes_exactly (after connecting) Hr Hc).
  apply deadlockedb_true. vm_compute. reflexivity.
Defined.
(** An agent that goes away at the wrong moment is enough, too: the goroutine that
    would remove its connection waits for the mutex. *)
Example gone_agent_freezes_the_store : reachable (after gone) ∧ frozen (after gone).
Proof.
  assert (reachable (after gone)) as Hr by (apply reachable_after; vm_compute; reflexivity).
  split; [done|]. apply deadlocked_frozen; [by apply reachable_disciplined|]. apply deadlockedb_true. vm_compute. reflexivity.
Qed.
Lemma store_is_used_under_the_mutex_witness :
  ∃ g, sy_Threads (after connecting) !! 3 = Some (true, g) ∧ sy_Mutex (after connecting) = Some 3 ∧
    mp_Connected (sy_Maps (after connecting)) !! "i1" = Some 1.
Proof.
  eexists. split; [vm_compute; reflexivity|]. split; [vm_compute; reflexivity|].
  eapply (store_is_used_under_the_mutex (after connecting) 3 true); [apply reachable_after; vm_compute; reflexivity|vm_compute; reflexivity|reflexivity|].
  vm_compute. reflexivity.
Defined.
