(* ===== verification/ProbeTheorems.v ===== *)
(** * ProbeTheorems.v: probes keep the properties of their type

    A probe is stored with the properties of one of four types, and the code that
    reads it back dereferences the properties of its type without a test. Every
    request keeps the documents such that this is safe, and a probe that comes with
    an experiment's manifest goes through the database back into a manifest with
    exactly the losses written down in [engine_view]. *)
From S2P Require Import Prelude World MemMongo GoStd Float64 AuthEntities AuthRepo AuthSessions Fixtures.
From S2P Require Import GraphDocs Experiments RunScore RunEvent Pipelines Authorization AuthBridge.
From S2P Require Import Environments Infrastructure InfraListing ImageRegistries ProbeProperties Manifests Probes.
From S2P Require Import ExperimentOps ExperimentService GitRepo GitOps ExperimentHandlers ExperimentListing Isolation ProjectRequests ProjectAccess ExperimentNames.
From S2P Require Import GraphFixtures.
From S2P Require Import HubFiles ChaosHubs HubRequests.
Local Open Scope string_scope.
Local Open Scope Z_scope.

(** ** The types *)
Inductive KnownType : string → Prop :=
| known_http : KnownType ProbeTypeHTTPProbe
| known_cmd : KnownType ProbeTypeCmdProbe
| known_prom : KnownType ProbeTypePromProbe
| known_k8s : KnownType ProbeTypeK8sProbe.

Definition well_typed (p : Probe) : Prop :=
  (pb_Type p = ProbeTypeHTTPProbe → is_Some (pb_HTTP p)) ∧ (pb_Type p = ProbeTypeCmdProbe → is_Some (pb_CMD p)) ∧
  (pb_Type p = ProbeTypePromProbe → is_Some (pb_PROM p)) ∧ (pb_Type p = ProbeTypeK8sProbe → is_Some (pb_K8S p)).

Section pure.
Context `{SourceCodec}.

Lemma add_properties_typed p request p' :
  add_properties (pb_Type p) p request = Ok p' → well_typed p' ∧ pb_Type p' = pb_Type p.
Proof.
  unfold add_properties, AddKubernetesHTTPProbeProperties, AddKubernetesCMDProbeProperties, AddPROMProbeProperties,
    AddK8SProbeProperties.
  intros Hp. repeat case_match; simplify_eq/=;
    repeat match goal with
    | E : str_eq _ _ = true |- _ => apply str_eq_true in E
    | E : str_eq _ _ = false |- _ => apply str_eq_false in E
    end; (split; [|done]); unfold well_typed; cbn; split_and!; intros Ht;
    solve [eexists; reflexivity|rewrite Ht in *; done].
Qed.
Lemma add_properties_data type p request p' :
  add_properties type p request = Ok p' →
  pb_ProjectID p' = pb_ProjectID p ∧ pb_Resource p' = pb_Resource p ∧ pb_Audit p' = pb_Audit p ∧
  pb_InfrastructureType p' = pb_InfrastructureType p.
Proof.
  unfold add_properties, AddKubernetesHTTPProbeProperties, AddKubernetesCMDProbeProperties, AddPROMProbeProperties,
    AddK8SProbeProperties.
  intros Hp. repeat case_match; simplify_eq/=; done.
Qed.

(** A document is replaced: what the new one lacks is kept. *)
Lemma set_probe_typed n p : (well_typed n ∨ (pb_Type n = pb_Type p ∧ well_typed p)) → well_typed (set_probe n p).
Proof.
  unfold well_typed. cbn.
  intros [(H1 & H2 & H3 & H4)|(E & H1 & H2 & H3 & H4)]; split_and!; intros Ht; rewrite ?E in *.
  - destruct (H1 Ht) as [x ->]. by eexists.
  - destruct (H2 Ht) as [x ->]. by eexists.
  - destruct (H3 Ht) as [x ->]. by eexists.
  - destruct (H4 Ht) as [x ->]. by eexists.
  - destruct (pb_HTTP n); [by eexists|auto].
  - destruct (pb_CMD n); [by eexists|auto].
  - destruct (pb_PROM n); [by eexists|auto].
  - destruct (pb_K8S n); [by eexists|auto].
Qed.

(** ** Reading *)
Ltac typed_case H :=
  match goal with
  | |- context [str_eq (pb_Type ?p) ?t] =>
      let E := fresh in destruct (str_eq (pb_Type p) t) eqn:E; [destruct (H (proj1 (str_eq_true _ _) E)) as [? ->]; unfold GenerateProbeManifest; cbn [ou_Type];
         repeat match goal with F : str_eq _ _ = _ |- _ => rewrite F end; eauto|]
  end.
Lemma typed_output p : well_typed p → ∃ out, GetOutputProbe p = Ok out.
Proof.
  intros (H1 & H2 & H3 & H4). unfold GetOutputProbe.
  destruct (negb _); [by eexists|]. typed_case H1. typed_case H2. typed_case H3. typed_case H4. by eexists.
Qed.
Lemma typed_generate p mode :
  well_typed p → pb_InfrastructureType p = InfrastructureTypeKubernetes → ∃ a, generate p mode = Ok a.
Proof.
  intros (H1 & H2 & H3 & H4) Hk. unfold generate, GetOutputProbe. rewrite Hk, str_eq_refl. cbn [negb].
  typed_case H1. typed_case H2. typed_case H3. typed_case H4. unfold GenerateProbeManifest. cbn [ou_Type].
  repeat match goal with E : str_eq _ _ = false |- _ => rewrite E; clear E end. by eexists.
Qed.
End pure.

(** ** The invariant *)
Record probes_ok (l : list Probe) : Prop := mkProbesOk {
  all_typed : Forall well_typed l;
  one_of_name name pid : (length (List.filter (probe_query name pid) l) ≤ 1)%nat;
}.

(** The key of a probe that is not removed is the query for its name. *)
Lemma probe_key_query d p :
  au_IsRemoved (pb_Audit d) = false → probe_key p d = probe_query (rs_Name (pb_Resource d)) (pb_ProjectID d) p.
Proof. intros Hd. unfold probe_key, probe_query. by rewrite Hd, andb_true_r. Qed.
Lemma probe_query_true name pid p :
  probe_query name pid p = true ↔ rs_Name (pb_Resource p) = name ∧ pb_ProjectID p = pid ∧ au_IsRemoved (pb_Audit p) = false.
Proof. unfold probe_query. rewrite !andb_true_iff, !str_eq_true, negb_true_iff. tauto. Qed.

Lemma probes_insert d r l l' :
  well_typed d → au_IsRemoved (pb_Audit d) = false → insert_one_post probe_key d r l l' → probes_ok l → probes_ok l'.
Proof.
  intros Hd Hr HI Hok.
  assert (inserted probe_key d l l' → probes_ok l') as Hins; [|by destruct r as [?|?|]; cbn in HI; naive_solver].
  intros [Hp HF]. destruct Hok as [Ht Hn]. split; [by rewrite Hp; constructor|].
  intros name pid. rewrite (filterb_perm _ _ _ Hp). cbn. destruct (probe_query name pid d) eqn:E; [|apply Hn].
  rewrite filterb_none; [done|]. intros p Hin. rewrite Forall_forall in HF. specialize (HF p Hin).
  rewrite probe_key_query in HF by done. by apply probe_query_true in E as (<- & <- & _).
Qed.

(** An update of probes that match keeps names apart when it renames nothing. *)
Definition keeps_key (q : Probe → bool) (f : Probe → Probe) : Prop :=
  ∀ p name pid, q p = true → probe_query name pid (f p) = true → probe_query name pid p = true.

Lemma probes_update q f l l' :
  keeps_key q f → (∀ p, p ∈ l → q p = true → well_typed p → well_typed (f p)) → updated_some q f l l' →
  probes_ok l → probes_ok l'.
Proof.
  intros Hk Hf HU [Ht Hn]. split.
  - eapply updated_some_Forall; [done| |done]. eauto.
  - intros name pid. etrans; [|apply (Hn name pid)]. clear -HU Hk.
    induction HU as [|p p' l l' Hp ? IH]; cbn; [done|].
    assert (probe_query name pid p' = true → probe_query name pid p = true) as Hi.
    { destruct Hp as [->|[Hq ->]]; [done|by apply Hk]. }
    destruct (probe_query name pid p'), (probe_query name pid p); cbn; naive_solver lia.
Qed.

Definition typing (s s' : GraphDB) : Prop := probes_ok (g_probes s) → probes_ok (g_probes s').
#[export] Instance typing_preorder : PreOrder typing.
Proof. split; [by intros s ?|]. intros s1 s2 s3 H12 H23 H1. auto. Qed.
#[export] Instance typing_store : StoreFree typing.
Proof. split; intros ? s Hs; exact Hs. Qed.

Section typing.
Context (projectID : string).
#[export, refine] Instance typing_environments : Shielded projectID typing Environment := {| shield _ := false |}.
Proof. all: [> intros s l' _ Hs; exact Hs|done]. Defined.
#[export, refine] Instance typing_infras : Shielded projectID typing ChaosInfra := {| shield _ := false |}.
Proof. all: [> intros s l' _ Hs; exact Hs|done]. Defined.
#[export, refine] Instance typing_registries : Shielded projectID typing ImageRegistry := {| shield _ := false |}.
Proof. all: [> intros s l' _ Hs; exact Hs|done]. Defined.
#[export, refine] Instance typing_gitconfigs : Shielded projectID typing GitConfigDB := {| shield _ := false |}.
Proof. all: [> intros s l' _ Hs; exact Hs|done]. Defined.
#[export, refine] Instance typing_hubs : Shielded projectID typing ChaosHub := {| shield _ := false |}.
Proof. all: [> intros s l' _ Hs; exact Hs|done]. Defined.
#[export] Instance typing_writes_hub {drv : MongoDriver} {laws : MongoLaws drv} id : WritesHub id typing.
Proof. intros f _. unfold UpdateChaosHubDoc. stays_auto. by apply (stays_UpdateOne (projectID := projectID)). Qed.
#[export, refine] Instance typing_runs : Shielded projectID typing ChaosExperimentRun := {| shield _ := false |}.
Proof. all: [> intros s l' _ Hs; exact Hs|done]. Defined.
#[export, refine] Instance typing_experiments : Shielded projectID typing ChaosExperimentRequest := {| shield _ := false |}.
Proof. all: [> intros s l' _ Hs; exact Hs|done]. Defined.
End typing.

Section probes.
Context {drv : MongoDriver} {laws : MongoLaws drv} {rt : Runtime} {rx : MongoRegex} {lo : LookupOrder}
  {mo : MapOrder} {cr : Crypto} {ac : AuthClient} {cfg : ServerConfig} {ie : InfraEnv} {sc : SourceCodec}
  {dec : Decoders} {mc : ManifestCodec} {sid : ShortID} {gl : GitLibrary} {gd : GitData} {tx : MongoTxn} {ab : MongoAbort}
  {ps : Positional} {mn : ManifestNamespace} {avg : MongoAvg} {fti : FloatToInt}
  {hl : HubLibrary} {hd : HubDisk} {hcf : HubConfig}.

(** ** The operations on probes *)
Lemma typing_create d : well_typed d → au_IsRemoved (pb_Audit d) = false → stays typing (CreateProbe d).
Proof.
  intros Hd Hr w. destruct (wp_InsertOne probe_key d w) as (l' & E & HI). unfold CreateProbe. rewrite E.
  intros Hok. by eapply probes_insert.
Qed.
#[export] Instance typing_adds pid : AddsProbes pid typing.
Proof.
  intros ctx probe. unfold AddProbe, ValidateUniqueProbe, IsProbeUnique. do 4 (stays_step; [stays_auto..|]).
  cbv zeta. destruct (missing_properties probe); [stays_auto|].
  apply stays_known; [intros; apply stays_ret|]. intros p' Hp.
  pose proof (add_properties_typed (mkProbe _ _ _ _ _ _ _ _ _) probe p' Hp) as [Ht _].
  apply add_properties_data in Hp as (_ & _ & Ha & _). stays_auto. apply typing_create; [done|by rewrite Ha].
Qed.

Lemma wp_UpdateProbeDoc q f w :
  wp (UpdateProbeDoc q f) (λ _ w', ∃ l', updated_some q f (g_probes (db w)) l' ∧ g_probes (db w') = l') w.
Proof.
  unfold UpdateProbeDoc. wp_step. wp_use wp_UpdateOne. intros r w' (l' & E & HU%update_one_some).
  destruct r as [c|?|]; [destruct (bool_decide _); wp_step|wp_step|]; exists l'; by rewrite E.
Qed.

Lemma typing_Delete ctx name pid : stays typing (DeleteProbe ctx name pid).
Proof.
  unfold DeleteProbe, GetProbeByName. stays_auto. intros w Hok.
  destruct (wp_UpdateProbeDoc (probe_query name pid)
    (λ p, set_pb_audit (set_is_removed true (touch a1 (named_user a0) (pb_Audit p))) p) w) as (l' & HU & ->).
  eapply probes_update; [..|exact HU|exact Hok]; [|done]. by intros p n q _ (_ & _ & ?)%probe_query_true.
Qed.

(** The document that is replaced is the one that was read. *)
Lemma query_unique l name pid p p' :
  probes_ok l → p ∈ l → p' ∈ l → probe_query name pid p = true → probe_query name pid p' = true → p = p'.
Proof.
  intros [_ Hn] Hp Hp' Hq Hq'. specialize (Hn name pid).
  assert (p ∈ List.filter (probe_query name pid) l) as H1 by by apply elem_of_filterb.
  assert (p' ∈ List.filter (probe_query name pid) l) as H2 by by apply elem_of_filterb.
  destruct (List.filter _ l) as [|x [|]]; cbn in Hn; [set_solver|set_solver|lia].
Qed.

Lemma typing_Update ctx request pid : stays typing (UpdateProbe ctx request pid).
Proof.
  intros w Hok. change (wp (UpdateProbe ctx request pid) (λ _ w', probes_ok (g_probes (db w'))) w). unfold UpdateProbe, GetProbeByName. wp_step. wp_use wp_GetUsernameFromContext.
  intros [u|?|] w1 E1; [|wp_step; by rewrite E1|by rewrite E1].
  wp_step. wp_use wp_FindOne. intros [pr|?|] w2 [E2 Hpr]; [|wp_step; by rewrite E2, E1|done].
  destruct Hpr as [Hin Hq]. rewrite E1 in Hin, E2. wp_step. wp_use wp_now. intros t w3 E3. rewrite E2 in E3. cbv zeta.
  set (new := mkProbe pid _ _ (pb_Type pr) _ _ _ _ _). wp_step. wp_step.
  destruct (if str_eq _ _ then _ else _) as [n|?|] eqn:En; [|wp_step; by rewrite E3|by rewrite E3].
  destruct (missing_properties request); [wp_step; by rewrite E3|].
  assert (pb_Resource n = pb_Resource new ∧ pb_ProjectID n = pid ∧
    (well_typed n ∨ pb_Type n = pb_Type pr)) as (Hres & Hpid & Hty).
  { destruct (str_eq _ _) in En; [|simplify_eq; auto].
    pose proof (add_properties_typed new request n En) as [? _]. apply add_properties_data in En as (? & ? & _). auto. }
  wp_step. wp_use wp_UpdateProbeDoc. intros r w4 (l' & HU & E4). rewrite E3 in HU.
  assert (probes_ok (g_probes (db w4))) as Hok4.
  { rewrite E4. eapply probes_update; [..|exact HU|exact Hok].
    - intros p name q (Hn & Hp & Hr)%probe_query_true (Hn' & Hp' & _)%probe_query_true. cbn in Hn', Hp'.
      rewrite Hres in Hn'. apply probe_query_true. cbn in Hn'. split_and!; congruence.
    - intros p Hp Hpq Ht. apply set_probe_typed. destruct Hty as [?|Hty]; [by left|right]. split; [|done].
      rewrite Hty. f_equal. by eapply query_unique. }
  destruct r as [?|?|]; [by wp_step..|done].
Qed.
Hint Resolve typing_Update typing_Delete : stays.

(** ** All requests *)
Lemma typing_experiment q f : stays typing (UpdateChaosExperiment q f).
Proof. unfold UpdateChaosExperiment. stays_auto. by apply (stays_UpdateOne (projectID := "")). Qed.
Lemma typing_runs_update q f : stays typing (UpdateMany (D := ChaosExperimentRun) q f).
Proof. by apply (stays_UpdateMany (projectID := "")). Qed.
Lemma typing_run_update q f : stays typing (UpdateOne (D := ChaosExperimentRun) q f).
Proof. by apply (stays_UpdateOne (projectID := "")). Qed.
Lemma typing_insert_run run : stays typing (CreateExperimentRun run).
Proof. by apply (stays_InsertOne (projectID := "")). Qed.
Lemma typing_insert_experiment e : stays typing (InsertChaosExperiment e).
Proof. by apply (stays_InsertOne (projectID := "")). Qed.
Hint Resolve typing_experiment typing_runs_update typing_run_update typing_insert_run typing_insert_experiment : stays.

Lemma typing_positional q cs f : stays typing (positional_update q cs f).
Proof. refine (stays_at (λ _, _) _). intros w. apply typing_experiment. Qed.
Lemma typing_stop_runs pid id u e r runs : stays typing (stop_runs pid id u e r runs).
Proof.
  induction runs as [|[runID n] runs IH]; cbn [stop_runs]; unfold ProcessExperimentRunStop, UpdateExperimentRunWithQuery;
    stays_auto; apply typing_positional.
Qed.
Hint Resolve typing_stop_runs : stays.

Lemma typing_Creation x id u pid type revID r : stays typing (ProcessExperimentCreation x id u pid type revID r).
Proof. unfold ProcessExperimentCreation. stays_auto. Qed.
Lemma typing_ExperimentUpdate x id u type revID b pid r : stays typing (ProcessExperimentUpdate x id u type revID b pid r).
Proof. unfold ProcessExperimentUpdate. stays_auto. Qed.
Lemma typing_AddProbe ctx request pid : stays typing (AddProbe ctx request pid).
Proof. apply adds_probe. Qed.
Hint Resolve typing_Creation typing_ExperimentUpdate typing_AddProbe : stays.
Lemma typing_DisableCron u e pid r : stays typing (DisableCronExperiment u e pid r).
Proof. unfold DisableCronExperiment. stays_auto. Qed.
Lemma typing_RunCron ctx pid e r : stays typing (RunCronExperiment ctx pid e r).
Proof. unfold RunCronExperiment. stays_auto. Qed.
Hint Resolve typing_DisableCron typing_RunCron : stays.

Lemma typing_transaction body : stays typing body → stays typing (run_transaction body).
Proof. apply stays_transaction. Qed.
Hint Resolve typing_transaction : stays.

(** The handlers of experiments. *)
Lemma typing_handlers ctx pid :
  (∀ request u, stays typing (CreateChaosExperiment ctx request pid u)) ∧
  (∀ request u, stays typing (SaveChaosExperiment ctx request pid u)) ∧
  (∀ request r u, stays typing (UpdateChaosExperimentHandler ctx request pid r u)) ∧
  (∀ id runID r u, stays typing (DeleteChaosExperiment ctx pid id runID r u)) ∧
  (∀ id disable r u, stays typing (UpdateCronExperimentState id disable pid r u)) ∧
  (∀ e r, stays typing (RunChaosWorkFlow ctx pid e r)) ∧
  (∀ id runID notifyID r u, stays typing (StopExperimentRuns pid id runID notifyID r u)).
Proof.
  split_and!; intros.
  - unfold CreateChaosExperiment, check_new_name, validateDuplicateExperimentName, CountChaosExperiments,
      GetExperiment. stays_auto.
  - unfold SaveChaosExperiment, save_experiment, validateDuplicateExperimentName, CountChaosExperiments,
      GetExperiment. stays_auto.
  - unfold UpdateChaosExperimentHandler, GetExperiments. stays_auto.
  - unfold DeleteChaosExperiment, GetExperiment, GetExperimentRun, ProcessExperimentDelete, ProcessExperimentRunDelete,
      UpdateExperimentRunWithQuery. stays_auto. apply typing_transaction. unfold delete_body, UpdateExperimentRunsWithQuery.
    stays_auto.
  - unfold UpdateCronExperimentState, GetExperiment, GetInfraDoc, UpdateRuntimeCronWorkflowConfiguration. stays_auto.
  - unfold RunChaosWorkFlow, run_workflow, GetInfraDoc. stays_auto. apply typing_transaction. unfold queue_run. stays_auto.
  - unfold StopExperimentRuns, GetExperiment, runs_to_stop, GetExperimentRuns. stays_auto.
Qed.

Lemma typing_resolve ctx pid q : stays typing (resolve ctx pid q).
Proof.
  destruct (typing_handlers ctx pid) as (Hc & Hs & Hu & Hd & Hcron & Hrun & Hstop).
  destruct q; unfold resolve, served, mutation_CreateChaosExperiment, mutation_SaveChaosExperiment,
    mutation_UpdateChaosExperiment; autounfold with resolvers; stays_auto.
Qed.

Lemma typing_serve l : stays typing (serve_requests l).
Proof. induction l as [|[[ctx pid] q] l IH]; cbn [serve_requests]; stays_auto. apply typing_resolve. Qed.

(** *** Reading one probe *)
Lemma wp_read {A} (f : Probe → res A) name pid w (Q : Probe → res A → Prop) :
  (∀ p, p ∈ g_probes (db w) → probe_query name pid p = true → Q p (f p)) → 
  wp (let? p := GetProbeByName name pid in mret (f p)) (λ r w', db w' = db w ∧
    ((∃ p, p ∈ g_probes (db w) ∧ Q p r) ∨ ∃ e, r = Err e)) w.
Proof.
  intros HQ. unfold GetProbeByName. wp_step. wp_use wp_FindOne. intros [p|e|] w1 [E Hp]; [|wp_step; eauto|done].
  destruct Hp as [Hin Hq]. wp_step. split; [done|]. left. eauto.
Qed.

(** C8. Whatever requests have been served, every probe has the properties of
    its type and a project has no two probes of one name that are not removed.
    So reading a probe ([GetProbe]) never dereferences nil, and neither does
    generating the manifest of one that was made for Kubernetes
    ([GetProbeYAMLData]). *)
Theorem probes_stay_typed l name mode pid w :
  probes_ok (g_probes (db w)) →
  wp (_ ← serve_requests l; r1 ← GetProbe name pid; r2 ← GetProbeYAMLData name mode pid; mret (r1, r2))
    (λ '(r1, r2) w', probes_ok (g_probes (db w')) ∧ r1 ≠ Panic ∧
       (Forall (λ p, pb_InfrastructureType p = InfrastructureTypeKubernetes) (g_probes (db w')) → r2 ≠ Panic)) w.
Proof.
  intros Hok. wp_step. eapply wp_mono; [by apply (stays_wp typing), typing_serve|]. intros u w1 Hty. cbn in Hty. specialize (Hty Hok).
  pose proof (all_typed _ Hty) as Hall. rewrite Forall_forall in Hall.
  wp_step. eapply wp_mono.
  { apply (wp_read GetOutputProbe name pid w1 (λ _ r, r ≠ Panic)). intros p Hp _. by destruct (typed_output p (Hall p Hp)) as [out ->]. }
  intros r1 w2 [E1 H1]. wp_step. eapply wp_mono.
  { apply (wp_read (λ p, generate p mode) name pid w2
      (λ p r, pb_InfrastructureType p = InfrastructureTypeKubernetes → r ≠ Panic)).
    rewrite E1. intros p Hp _ Hk. by destruct (typed_generate p mode (Hall p Hp) Hk) as [a ->]. }
  intros r2 w3 [E2 H2]. wp_step. rewrite E1 in H2, E2. rewrite E2. split_and!; [done| |].
  - by destruct H1 as [(? & _ & ?)|[? ->]].
  - intros Hk. rewrite Forall_forall in Hk. destruct H2 as [(p & Hp & H2)|[? ->]]; eauto.
Qed.
End probes.

Lemma graph_probes_ok : probes_ok (g_probes graph_db).
Proof.
  split.
  { do 2 (apply Forall_cons; split; [unfold well_typed; split_and!; (done || by eexists)|]). done. }
  intros name pid. cbn. unfold probe_query. cbn. unfold str_eq. repeat case_bool_decide; cbn; try lia. all: subst; discriminate.
Qed.

(** An HTTP probe with a POST request. *)
Definition post_probe (name : string) : ProbeRequest :=
  mkProbeRequest name None [] ProbeTypeHTTPProbe InfrastructureTypeKubernetes
    (Some (mkHTTPProbe "http://web" (mkCommonProps "1s" "2s" None None (Some "5s") None None None)
       (mkMethod None (Some (mkPOST (Some "text/plain") (Some "ping") None "==" "200"))) (Some true))) None None None.

Lemma probes_stay_typed_witness :
  wp (_ ← serve_requests [(by_alice, "p1", RqAddProbe (post_probe "web")); (by_alice, "p1", RqDeleteProbe "probe1");
                          (by_alice, "p1", RqUpdateProbe (post_probe "web"))];
      r1 ← GetProbe "web" "p1"; r2 ← GetProbeYAMLData "web" "SOT" "p1"; mret (r1, r2))
    (λ x w', (is_ok x.1 = true ∧ is_ok x.2 = true) ∧ (let '(r1, r2) := x in probes_ok (g_probes (db w')) ∧ r1 ≠ Panic ∧
       (Forall (λ p, pb_InfrastructureType p = InfrastructureTypeKubernetes) (g_probes (db w')) → r2 ≠ Panic)))
    graph_world.
Proof.
  apply wp_conj; [vm_compute; done|].
  apply (probes_stay_typed _ "web" "SOT" "p1" graph_world), graph_probes_ok.
Defined.
