(* ===== verification/ProbeRoundtrip.v ===== *)
(** * ProbeRoundtrip.v: probes from a manifest and back

    A probe that an experiment's manifest defines is turned into a request, stored
    as a document, read and written into the engine of a run. [engine_view] says
    what is left of it at the end; the theorem is about the whole way, through the
    database. *)
From S2P Require Import Prelude World MemMongo GoStd AuthEntities AuthRepo AuthSessions Fixtures.
From S2P Require Import GraphDocs Experiments RunScore RunEvent Pipelines Authorization AuthBridge.
From S2P Require Import Environments Infrastructure InfraListing ImageRegistries ProbeProperties Manifests Probes.
From S2P Require Import ExperimentOps ExperimentHandlers Isolation ProjectRequests ProjectAccess ExperimentNames.
From S2P Require Import GraphFixtures ProbeTheorems.
Local Open Scope string_scope.
Local Open Scope Z_scope.


(** ** From a manifest and back *)
Section roundtrip.
Context `{SourceCodec}.

(** What an engine gets of the properties of a probe that was defined in a
    manifest. The number of seconds of the initial delay is never kept; which of
    the texts are kept depends on the type. *)
Definition run_view (evaluation delay : string) (r : RunProperty) : RunProperty :=
  mkRunProperty (ru_ProbeTimeout r) (ru_Interval r) evaluation (ru_ProbePollingInterval r) delay 0 (ru_Retry r)
    (ru_Attempt r) (ru_StopOnFailure r).

(** HTTP: verification of certificates is on again, and a POST has no content. *)
Definition http_view (h : HTTPProbeInputs) : HTTPProbeInputs :=
  mkHTTPInputs (hi_URL h) false (hi_Get h)
    (match hi_Get h with
     | Some _ => None
     | None => (λ p, mkPostMethod "" "" "" (po_Criteria p) (po_ResponseCode p)) <$> hi_Post h
     end).
(** Commands: the source goes through the codec twice. *)
Definition source_view (o : option string) : option string :=
  match decode_source (match o with Some s => encode_source s | None => "null" end) with
  | Ok x => (λ s, default "" (read_source (encode_source s))) <$> x
  | _ => None
  end.
Definition cmd_view (c : CmdProbeInputs) : CmdProbeInputs :=
  mkCmdInputs (ci_Command c) (ci_Comparator c) (source_view (ci_Source c)).
(** Kubernetes resources: the names are lost. *)
Definition k8s_view (k : K8sProbeInputs) : K8sProbeInputs :=
  mkK8sInputs (ki_Group k) (ki_Version k) (ki_Resource k) "" (ki_Namespace k) (ki_FieldSelector k) (ki_LabelSelector k)
    (ki_Operation k).

Definition engine_view (name mode : string) (a : ProbeAttributes) : ProbeAttributes :=
  let build := mkAttributes name (at_Type a) in
  let r := at_Run a in
  if str_eq (at_Type a) ProbeTypeHTTPProbe then
    build (http_view <$> at_HTTP a) None None None (run_view (ru_EvaluationTimeout r) "" r) mode ""
  else if str_eq (at_Type a) ProbeTypeCmdProbe then
    build None (cmd_view <$> at_Cmd a) None None (run_view "" (ru_InitialDelay r) r) mode ""
  else if str_eq (at_Type a) ProbeTypePromProbe then
    build None None (at_Prom a) None (run_view (ru_EvaluationTimeout r) (ru_InitialDelay r) r) mode ""
  else build None None None (k8s_view <$> at_K8s a) (run_view (ru_EvaluationTimeout r) "" r) mode "".

Lemma non_empty_default s : default "" (non_empty_text s) = s.
Proof. unfold non_empty_text. destruct (str_eq s "") eqn:E; [|done]. by apply str_eq_true in E. Qed.

(** Comparisons of two given types. *)
Ltac eval_types :=
  repeat match goal with
  | H : context [str_eq ?x ?y] |- _ =>
      let b := eval vm_compute in (str_eq x y) in lazymatch b with true => idtac | false => idtac end;
      change (str_eq x y) with b in H
  | |- context [str_eq ?x ?y] =>
      let b := eval vm_compute in (str_eq x y) in lazymatch b with true => idtac | false => idtac end;
      change (str_eq x y) with b
  end; cbn in *.

(** The document made of a probe of a manifest. *)
Lemma converted_view a name mode request pid audit p :
  KnownType (at_Type a) → ProbeInputsToProbeRequestConverter a name = Ok request →
  add_properties (pq_Type request) (mkProbe pid (mkResource (pq_Name request) (default "" (pq_Description request)) (pq_Tags request))
    audit (pq_Type request) (pq_InfrastructureType request) None None None None) request = Ok p →
  generate p mode = Ok (Some (engine_view name mode a)) ∧ rs_Name (pb_Resource p) = name.
Proof.
  intros Hk Hc Hp. unfold ProbeInputsToProbeRequestConverter in Hc. cbv zeta in Hc.
  destruct (str_eq (ru_ProbeTimeout (at_Run a)) "" || _); [done|].
  destruct a as [n type http cmd prom k8s run m data]. unfold engine_view. cbn [at_Type at_Run at_HTTP at_Cmd at_Prom at_K8s] in *.
  unfold generate, GetOutputProbe, GenerateProbeManifest, add_properties in *. destruct Hk; eval_types.
  - destruct (http_request _) as [h|?|] eqn:Hh; [|done..]. injection Hc as <-. unfold http_request in Hh. cbn in Hh.
    destruct http as [[url insecure [g|] [po|]]|]; cbn in Hh; try done; (destruct (str_eq url ""); [done|]);
      injection Hh as <-; eval_types; injection Hp as <-; (split; [|done]); eval_types;
      unfold run_property, run_view; cbn; by rewrite !non_empty_default.
  - destruct (cmd_request _) as [c|?|] eqn:Hh; [|done..]. injection Hc as <-. unfold cmd_request in Hh. cbn in Hh.
    destruct cmd as [c'|]; [|done]. injection Hh as <-. eval_types. unfold AddKubernetesCMDProbeProperties in Hp.
    unfold cmd_view, source_view. cbn in *. destruct (decode_source _) as [[src|]|?|]; try done; by injection Hp as <-.
  - destruct (prom_request _) as [c|?|] eqn:Hh; [|done..]. injection Hc as <-. unfold prom_request in Hh. cbn in Hh.
    destruct prom as [[]|]; [|done]. cbn in Hh. destruct (str_eq _ ""); [done|]. injection Hh as <-. eval_types.
    by injection Hp as <-.
  - destruct (k8s_request _) as [c|?|] eqn:Hh; [|done..]. injection Hc as <-. unfold k8s_request in Hh. cbn in Hh.
    destruct k8s as [[]|]; [|done]. cbn in Hh. destruct (_ || _); [done|]. injection Hh as <-. eval_types.
    by injection Hp as <-.
Qed.
End roundtrip.

Section created.
Context {drv : MongoDriver} {laws : MongoLaws drv} {rt : Runtime} {cr : Crypto} {ac : AuthClient} {sc : SourceCodec}
  {mc : ManifestCodec} {sid : ShortID}.

(** The document a new probe is stored as. *)
Definition new_probe (request : ProbeRequest) (pid username : string) (t : Z) : Probe :=
  mkProbe pid (mkResource (pq_Name request) (default "" (pq_Description request)) (pq_Tags request))
    (mkGAudit t t (named_user username) (named_user username) false) (pq_Type request) (pq_InfrastructureType request)
    None None None None.

Lemma wp_AddProbe ctx request pid w :
  wp (AddProbe ctx request pid) (λ r w', ∀ out, r = Ok out → ∃ u t p l',
    add_properties (pq_Type request) (new_probe request pid u t) request = Ok p ∧ GetOutputProbe p = Ok out ∧
    inserted probe_key p (g_probes (db w)) l' ∧ g_probes (db w') = l') w.
Proof.
  unfold AddProbe. wp_step. eapply wp_mono; [apply (wp_reads (ValidateUniqueProbe _ pid)), reads_ValidateUniqueProbe|].
  intros [b|?|] w1 E1; [|by wp_step|done]. wp_step; [by wp_step|]. wp_step. wp_use wp_now. intros t w2 E2.
  wp_step. wp_use wp_GetUsernameFromContext. intros [u|?|] w3 E3; [|by wp_step|done]. cbv zeta.
  destruct (missing_properties request); [by wp_step|]. wp_step. wp_step.
  destruct (add_properties _ _ request) as [p|?|] eqn:Hp; [|by wp_step|done].
  wp_step. wp_use wp_InsertOne. intros [[]|?|] w4 (l' & E4 & HI); [|by wp_step|done].
  wp_step. intros out Ho. exists u, t, p, l'. split_and!; [done..| |by rewrite E4].
  by rewrite <-E1, <-E2, <-E3.
Qed.

(** The probe just added is the one that is found. *)
Lemma wp_find_added {Hreads : ReadsSucceed drv} {A} (f : Probe → res A) l p name pid w :
  inserted probe_key p l (g_probes (db w)) → probe_query name pid p = true →
  wp (let? x := GetProbeByName name pid in mret (f x)) (λ r _, r = f p) w.
Proof.
  intros [Hp HF] Hq. pose proof Hq as (En & Epid & Er)%probe_query_true.
  unfold GetProbeByName. wp_step. eapply wp_mono.
  { apply wp_conj; [apply wp_FindOne|]. instantiate (1 := λ r _, match r with Err e => e = ErrNoDocuments | _ => True end).
    apply find_succeeds. }
  assert (p ∈ g_probes (db w)) as Hin by (rewrite Hp; apply list_elem_of_here).
  intros [p'|e|] w1 [[_ Hf] Hs]; [|subst e|done].
  - wp_step. destruct Hf as [Hp' Hq']. cbn in Hp'. rewrite Hp in Hp'. apply elem_of_cons in Hp' as [->|Hp']; [done|].
    rewrite Forall_forall in HF. specialize (HF p' Hp'). rewrite probe_key_query, En, Epid in HF by done. congruence.
  - destruct Hf as [_ Hn]. specialize (Hn eq_refl). eapply Forall_forall in Hn; [|exact Hin]. congruence.
Qed.

(** C15. A probe defined in the manifest of an experiment is created in the
    project under a new name; reading it back for an engine gives, if reads
    succeed, exactly [engine_view] of what the manifest said: for a Prometheus
    probe everything but the delay in seconds, for the other types everything but
    the losses named there. *)
Theorem manifest_probe_roundtrip {Hreads : ReadsSucceed drv} ctx pid a w :
  KnownType (at_Type a) →
  wp (r1 ← create_probes ctx pid [a] [];
      match r1 with
      | Ok [(name, mode)] => r2 ← GetProbeYAMLData name mode pid; mret (Some (name, r2))
      | _ => mret None
      end) (λ o _, ∀ name r2, o = Some (name, r2) → r2 = Ok (Some (engine_view name (at_Mode a) a))) w.
Proof.
  intros Hk. cbn [create_probes]. wp_step. wp_step. apply wp_any. intros [id|?|] w1; [|by do 2 wp_step|by wp_step].
  wp_step. wp_step. destruct (ProbeInputsToProbeRequestConverter a _) as [request|?|] eqn:Hc; [|by do 2 wp_step|by wp_step].
  wp_step. wp_use wp_AddProbe. intros [out|?|] w2 HA; [|by do 2 wp_step|by wp_step].
  destruct (HA out eq_refl) as (u & t & p & l' & Hp & Ho & HI & El).
  destruct (converted_view a _ (at_Mode a) request pid _ p Hk Hc Hp) as [Hg Hn].
  apply add_properties_data in Hp as (Epid & _ & Ea & _). cbn in Epid, Ea.
  assert (ou_Name out = rs_Name (pb_Resource p)) as En.
  { unfold GetOutputProbe in Ho. repeat case_match; simplify_eq/=; done. }
  wp_step. cbn [app]. wp_step. eapply wp_mono.
  { apply (wp_find_added (λ x, generate x (at_Mode a)) (g_probes (db w1)) p); [by rewrite El|].
    apply probe_query_true. by rewrite Ea. }
  intros r2 w3 ->. wp_step. intros name r2 [= <- <-]. by rewrite Hg, En, Hn.
Qed.
End created.

(** A POST probe as a manifest defines it. *)
Definition post_attributes : ProbeAttributes :=
  mkAttributes "web" ProbeTypeHTTPProbe
    (Some (mkHTTPInputs "https://web" true None (Some (mkPostMethod "text/plain" "ping" "" "==" "200")))) None None None
    (mkRunProperty "1s" "2s" "" "" "5s" 0 1 1 false) "SOT" "".

Definition created_and_read (a : ProbeAttributes) : GM (option (string * res (option ProbeAttributes))) :=
  r1 ← create_probes by_alice "p1" [a] [];
  match r1 with
  | Ok [(name, mode)] => r2 ← GetProbeYAMLData name mode "p1"; mret (Some (name, r2))
  | _ => mret None
  end.

Lemma manifest_probe_roundtrip_witness :
  wp (created_and_read post_attributes)
    (λ o _, is_Some o ∧ ∀ name r2, o = Some (name, r2) → r2 = Ok (Some (engine_view name "SOT" post_attributes))) graph_world.
Proof.
  apply wp_conj; [vm_compute; by eexists|].
  apply (manifest_probe_roundtrip by_alice "p1" post_attributes graph_world), known_http.
Defined.

(** What the engine gets of it: a POST request without content type and body,
    with certificates verified and without the initial delay. *)
Example post_probe_loses_its_body :
  wp (created_and_read post_attributes) (λ o _, ∃ name b,
    o = Some (name, Ok (Some b)) ∧
    at_HTTP b = Some (mkHTTPInputs "https://web" false None (Some (mkPostMethod "" "" "" "==" "200"))) ∧
    ru_InitialDelay (at_Run b) = "") graph_world.
Proof. vm_compute. by do 2 eexists. Qed.
