(* ===== verification/ListingTheorems.v ===== *)
(** * ListingTheorems.v: what the browser is shown is what is stored

    The listing of experiments against a description of the documents it should
    hold, the lookup of one run, and the statistics of runs and experiments
    against counts of the documents. *)
From S2P Require Import Prelude World MemMongo GoStd Float64 AuthRepo GraphDocs Experiments RunScore RunEvent.
From S2P Require Import Pipelines Authorization Environments Infrastructure ProbeProperties Manifests Probes.
From S2P Require Import ExperimentOps ExperimentService GitRepo GitOps ExperimentHandlers ExperimentListing Isolation ProjectRequests ProjectAccess.
From S2P Require Import AuthService AuthBridge Fixtures GraphFixtures.
From stdpp Require Import sorting.
From Stdlib Require Import SpecFloat.
Local Open Scope string_scope.
Local Open Scope Z_scope.

(** ** Pages *)

(** The part of a list a page shows. *)
Definition cut {D} (p : option PageInput) (l : list D) : list D :=
  match p with
  | Some p => take (Z.to_nat (pa_Limit p)) (drop (Z.to_nat (int64 (pa_Page p * pa_Limit p))) l)
  | None => take 15 l
  end.

Lemma cut_sublist {D} p (l : list D) : cut p l `sublist_of` l.
Proof. destruct p; cbn; [etrans; [apply sublist_take|apply sublist_drop]|apply sublist_take]. Qed.

Class TotalOrder {D} (le : D → D → bool) : Prop := total_order : ∀ x y, le x y = true ∨ le y x = true.
#[export] Instance Zle_total : TotalOrder Zle.
Proof. intros x y. unfold Zle. rewrite !bool_decide_eq_true. lia. Qed.
#[export] Instance string_le_total : TotalOrder String.leb.
Proof. intros x y. apply String.leb_total. Qed.
#[export] Instance name_le_total : TotalOrder name_le.
Proof. intros [x|] [y|]; cbn; auto. apply String.leb_total. Qed.
#[export] Instance ordered_total {D K} (le : K → K → bool) (key : D → K) asc :
  TotalOrder le → TotalOrder (ordered le key asc).
Proof. intros Hle x y. unfold ordered. destruct asc as [[]|]; apply Hle. Qed.
#[export] Instance experiment_sort_total sort : TotalOrder (experiment_sort sort).
Proof. destruct sort as [[[] ?]|]; cbn; apply _. Qed.
#[export] Instance run_sort_total `{LookupOrder} s n sort : TotalOrder (run_sort s n sort).
Proof. destruct sort as [[[] ?]|]; cbn; apply _. Qed.

(** Code that looks at the world it runs in. *)
Lemma wp_here {W A} (m : W → M W A) Q w : wp (m w) Q w → wp (λ w, m w w) Q w.
Proof. done. Qed.

Section pages.
Context {drv : MongoDriver} {laws : MongoLaws drv} {D : Type} `{Collection GraphDB D}.

Lemma wp_page (qs : list (D → bool)) (le : D → D → bool) `{!TotalOrder le} p w :
  wp (AggregatePage (StMatch <$> qs) (paged le p)) (λ r w', db w' = db w ∧
    match r with
    | Ok (n, page) => ∃ l, l ≡ₚ List.filter (all_match qs) (docs (db w)) ∧ Sorted (bool_rel le) l ∧
                           n = Z.of_nat (length l) ∧ page = cut p l
    | Err _ => True
    | Panic => False
    end) w.
Proof.
  eapply wp_mono; [apply wp_AggregatePage|]. intros [[n page]|e|] w' [E Hr]; cbn in *; [|done..]. split; [done|].
  destruct Hr as (l' & Hl & -> & ->). exists (merge_sort (bool_rel le) (run_pipeline (StMatch <$> qs) l')).
  rewrite run_matches. split_and!.
  - rewrite merge_sort_Permutation. by apply filterb_perm.
  - apply Sorted_merge_sort. intros x y. apply total_order.
  - by rewrite merge_sort_Permutation.
  - by destruct p.
Qed.
End pages.

(** ** The listing of experiments *)

(** The bounds a request puts on the time of the last change: the end is the
    present when none is given. *)
Definition range_of (r : option DateRange) (range : option (Z * Z)) : Prop :=
  match r, range with
  | None, None => True
  | Some r, Some (a, b) => Atoi (dr_StartDate r) = Some a ∧ ∀ s, dr_EndDate r = Some s → Atoi s = Some b
  | _, _ => False
  end.

Section experiments.
Context {drv : MongoDriver} {laws : MongoLaws drv} {rt : Runtime} {rx : MongoRegex} {lo : LookupOrder}
  {lol : LookupOrderLaws lo}.

(** A text the request gives restricts the experiments; an empty one, or "All"
    where the browser offers it, does not. *)
Definition asks (o : option string) (P : string → Prop) : Prop := ∀ x, o = Some x → x ≠ "" → P x.

(** What the filter of a request demands of an experiment. No experiment has a
    type of infrastructure, so a filter on it leaves nothing. *)
Record fits (s : GraphDB) (n : nat) (range : option (Z * Z)) (f : ExperimentFilterInput) (e : ChaosExperimentRequest) :
    Prop := {
  fits_name : asks (xf_ExperimentName f) (λ x, regex_find "" x (ex_Name e) = true);
  fits_infra : asks (xf_InfraID f) (λ x, x ≠ "All" → ex_InfraID e = x);
  fits_type : ∀ t, xf_ScheduleType f = Some t → t ≠ ScheduleTypeAll → ex_ExperimentType e = schedule_type t;
  fits_infra_type : xf_InfraTypes f = [];
  fits_time : ∀ a b, range = Some (a, b) → a ≤ au_UpdatedAt (ex_Audit e) ≤ b;
  fits_active : ∀ active, xf_InfraActive f = Some active → infras_of s n (ex_InfraID e) = [] ∨
    ∃ i, i ∈ infras_of s n (ex_InfraID e) ∧ in_IsActive i = active
}.
Record wanted (s : GraphDB) (n : nat) (projectID : string) (request : ListExperimentRequest) (range : option (Z * Z))
    (e : ChaosExperimentRequest) : Prop := {
  wanted_project : ex_ProjectID e = projectID;
  wanted_live : au_IsRemoved (ex_Audit e) = false;
  wanted_id : lx_ExperimentIDs request = [] ∨ Some (ex_ExperimentID e) ∈ lx_ExperimentIDs request;
  wanted_fits : ∀ f, lx_Filter request = Some f → fits s n range f e
}.

Lemma all_match_app {D} (qs qs' : list (D → bool)) d : all_match (qs ++ qs') d = all_match qs d && all_match qs' d.
Proof. apply forallb_app. Qed.
Lemma all_match_cons {D} q (qs : list (D → bool)) d : all_match (q :: qs) d = q d && all_match qs d.
Proof. done. Qed.
Lemma all_match_when {D} b (q : D → bool) d : all_match (when b q) d = true ↔ (b = true → q d = true).
Proof. destruct b; cbn; rewrite ?andb_true_r; naive_solver. Qed.
#[export] Instance asks_proper o : Proper (pointwise_relation _ iff ==> iff) (asks o).
Proof. intros P Q HPQ. unfold asks. by setoid_rewrite HPQ. Qed.
Lemma asks_given o P : asks o P ↔ ∀ x, given o = Some x → P x.
Proof. unfold asks. destruct o as [[|c x]|]; cbn; naive_solver. Qed.
Lemma all_match_given {D} (q : string → D → bool) o d :
  all_match (given_match q o) d = true ↔ asks o (λ x, q x d = true).
Proof. rewrite asks_given. unfold given_match. destruct (given o); cbn; rewrite ?andb_true_r; naive_solver. Qed.
Lemma all_match_chosen {D} (q : string → D → bool) o d :
  all_match (chosen q o) d = true ↔ asks o (λ x, x ≠ "All" → q x d = true).
Proof.
  rewrite asks_given. unfold chosen. destruct (given o); [|cbn; naive_solver].
  rewrite all_match_when, negb_true_iff, str_eq_false. naive_solver.
Qed.

Lemma schedule_match_spec o e :
  all_match (schedule_match o) e = true ↔
  ∀ t, o = Some t → t ≠ ScheduleTypeAll → ex_ExperimentType e = schedule_type t.
Proof.
  destruct o as [t|]; [|cbn; naive_solver]. cbn [schedule_match].
  rewrite all_match_when, negb_true_iff, str_eq_false, str_eq_true. naive_solver.
Qed.
Lemma in_range_spec range t : in_range range t = true ↔ ∀ a b, range = Some (a, b) → a ≤ t ≤ b.
Proof.
  destruct range as [[a b]|]; cbn; [|naive_solver]. rewrite andb_true_iff, !bool_decide_eq_true. naive_solver.
Qed.
Lemma active_match_spec s n o e :
  all_match (active_match s n o) e = true ↔
  ∀ active, o = Some active → infras_of s n (ex_InfraID e) = [] ∨
    ∃ i, i ∈ infras_of s n (ex_InfraID e) ∧ in_IsActive i = active.
Proof.
  destruct o as [active|]; [|cbn; naive_solver]. cbn [active_match]. rewrite all_match_cons, andb_true_r.
  destruct (infras_of s n _) as [|i l]; [naive_solver|]. rewrite existsb_exists.
  setoid_rewrite eqb_true_iff. setoid_rewrite <-list_elem_of_In. naive_solver.
Qed.
Lemma fits_spec s n range f e : all_match (experiment_filter s n range f) e = true ↔ fits s n range f e.
Proof.
  unfold experiment_filter. rewrite !all_match_app, !andb_true_iff, all_match_given, all_match_chosen, all_match_when,
    schedule_match_spec, active_match_spec, all_match_cons, andb_true_r, in_range_spec, negb_true_iff, bool_decide_eq_false.
  setoid_rewrite str_eq_true. split.
  - intros (? & ? & ? & Hi & ? & ?). split; try done. by destruct (decide (xf_InfraTypes f = [])) as [|Hn%Hi].
  - intros []. split_and!; naive_solver.
Qed.

Lemma wanted_spec s n projectID request range e :
  all_match (experiment_matches s n projectID request range) e = true ↔ wanted s n projectID request range e.
Proof.
  unfold experiment_matches. rewrite !all_match_app, !andb_true_iff, all_match_when, !all_match_cons, !andb_true_iff.
  rewrite str_eq_true, !negb_true_iff, bool_decide_eq_false. unfold opt_in. rewrite bool_decide_eq_true.
  assert (Hids : (lx_ExperimentIDs request ≠ [] → Some (ex_ExperimentID e) ∈ lx_ExperimentIDs request) ↔
    lx_ExperimentIDs request = [] ∨ Some (ex_ExperimentID e) ∈ lx_ExperimentIDs request).
  { destruct (lx_ExperimentIDs request); naive_solver. }
  rewrite Hids. destruct (lx_Filter request) as [f|] eqn:Ef.
  - rewrite fits_spec. split; [intros (? & (? & ? & _) & ?); split; naive_solver|intros []; split_and!; naive_solver].
  - split; [intros (? & (? & ? & _) & ?); split; naive_solver|intros []; split_and!; naive_solver].
Qed.

(** What an entry of the listing says about its experiment [e], field by field. The
    manifest is the one of the last revision, and so are the weightages, unless
    those of the first revision are nil; the infrastructure is the one with the
    identifier the experiment has, if it is stored. As the user who created the
    experiment, or a run of it, the last one who changed it is shown. The
    project is left out. *)
Record shows_run (d : ExperimentRunDetail) (r : RecentExperimentRun) : Prop := {
  shows_run_id : rr_ExperimentRunID r = rd_ExperimentRunID d;
  shows_run_phase : rr_Phase r = rd_Phase d;
  shows_run_score : rr_ResiliencyScore r = rd_ResiliencyScore d;
  shows_run_sequence : rr_RunSequence r = rd_RunSequence d;
  shows_run_updated : rr_UpdatedAt r = Itoa (au_UpdatedAt (rd_Audit d));
  shows_run_created : rr_CreatedAt r = Itoa (au_CreatedAt (rd_Audit d));
  shows_run_updater : ur_Username (rr_UpdatedBy r) = ur_Username (au_UpdatedBy (rd_Audit d));
  shows_run_creator : ur_Username (rr_CreatedBy r) = ur_Username (au_UpdatedBy (rd_Audit d))
}.
Definition shows_weightages (revisions : list ExperimentRevision) (ws : list WeightagesInput) : Prop :=
  ∃ first rev, head revisions = Some first ∧ last revisions = Some rev ∧
    match rv_Weightages first with None => ws = [] | Some _ => Some <$> ws = revision_weights rev end.
Record shows (s : GraphDB) (e : ChaosExperimentRequest) (o : ExperimentOutput) : Prop := {
  shows_project : xo_ProjectID o = "";
  shows_id : xo_ExperimentID o = ex_ExperimentID e;
  shows_name : xo_Name o = ex_Name e;
  shows_description : xo_Description o = ex_Description e;
  shows_tags : xo_Tags o = ex_Tags e;
  shows_cron : xo_CronSyntax o = ex_CronSyntax e;
  shows_type : xo_ExperimentType o = Some (ex_ExperimentType e);
  shows_custom : xo_IsCustomExperiment o = ex_IsCustomExperiment e;
  shows_removed : xo_IsRemoved o = au_IsRemoved (ex_Audit e);
  shows_manifest : ∃ rev, last (ex_Revision e) = Some rev ∧ xo_ExperimentManifest o = rv_ExperimentManifest rev;
  shows_weights : shows_weightages (ex_Revision e) (xo_Weightages o);
  shows_updated : xo_UpdatedAt o = Itoa (au_UpdatedAt (ex_Audit e));
  shows_created : xo_CreatedAt o = Itoa (au_CreatedAt (ex_Audit e));
  shows_updater : xo_UpdatedBy o = ur_Username (au_UpdatedBy (ex_Audit e));
  shows_creator : xo_CreatedBy o = ur_Username (au_UpdatedBy (ex_Audit e));
  shows_infra : match xo_Infra o with
                | Some ji => ∃ i, i ∈ g_infras s ∧ in_InfraID i = ex_InfraID e ∧ ji = joined_infra true i
                | None => ∀ i, i ∈ g_infras s → in_InfraID i ≠ ex_InfraID e
                end;
  shows_runs : Forall2 shows_run (ex_RecentExperimentRunDetails e) (xo_Recent o)
}.
(** A document the handler cannot show: without a revision, or with a weightage
    that is null in the last one while those of the first are not nil. *)
Definition unreadable (e : ChaosExperimentRequest) : Prop :=
  ex_Revision e = [] ∨ ∃ first rev, head (ex_Revision e) = Some first ∧ rv_Weightages first ≠ None ∧
    last (ex_Revision e) = Some rev ∧ None ∈ revision_weights rev.

Lemma all_ok_fmap {A B} (f : A → res B) l :
  match all_ok (f <$> l) with
  | Ok r => Forall2 (λ x y, f x = Ok y) l r
  | Err e => ∃ x, x ∈ l ∧ f x = Err e
  | Panic => ∃ x, x ∈ l ∧ f x = Panic
  end.
Proof.
  induction l as [|x l IH]; cbn; [constructor|]. destruct (f x) eqn:E; [|by exists x; split; [left|]..].
  destruct (all_ok _); [by constructor|destruct IH as (y & ? & ?); exists y; split; [by right|done]..].
Qed.
Lemma all_weightages_none l : all_weightages l = None → None ∈ l.
Proof.
  induction l as [|[w|] l IH]; cbn; [done| |by left]. destruct (all_weightages l); cbn; [done|]. intros _. right. by apply IH.
Qed.
Lemma all_weightages_some l ws : all_weightages l = Some ws → Some <$> ws = l.
Proof.
  revert ws. induction l as [|[w|] l IH]; cbn; intros ws; [by intros [= <-]| |done].
  destruct (all_weightages l); cbn; [|done]. intros [= <-]. cbn. by rewrite (IH l0).
Qed.
Lemma infras_of_id s n id i : i ∈ infras_of s n id ↔ i ∈ g_infras s ∧ in_InfraID i = id.
Proof. unfold infras_of. rewrite lookup_order_perm, elem_of_filterb, str_eq_true. done. Qed.

Lemma experiment_output_spec s n e :
  match experiment_output true e (infras_of s n (ex_InfraID e)) with
  | Ok o => shows s e o
  | Err _ => False
  | Panic => unreadable e
  end.
Proof.
  unfold experiment_output, shown_weightages, unreadable. destruct (ex_Revision e) as [|first l] eqn:Er; [by left|].
  destruct (last (first :: l)) as [rev|] eqn:El; [|by apply last_None in El].
  assert (∀ ws, shows_weightages (first :: l) ws → shows s e (mkExperimentOutput "" (ex_ExperimentID e) (Some (ex_ExperimentType e)) (rv_ExperimentManifest rev)
    (ex_CronSyntax e) (ex_Name e) (ex_Description e) ws (ex_IsCustomExperiment e) (Itoa (au_UpdatedAt (ex_Audit e)))
    (Itoa (au_CreatedAt (ex_Audit e))) (joined_infra true <$> head (infras_of s n (ex_InfraID e))) (au_IsRemoved (ex_Audit e))
    (ex_Tags e) (ur_Username (au_UpdatedBy (ex_Audit e))) (ur_Username (au_UpdatedBy (ex_Audit e)))
    (recent_run true <$> ex_RecentExperimentRunDetails e))) as Hs.
  { intros ws Hws. split; cbn; try done; [by rewrite Er; eauto|by rewrite Er| |].
    - destruct (infras_of s n (ex_InfraID e)) as [|i il] eqn:Ei; cbn.
      + intros i Hi Hid. assert (i ∈ infras_of s n (ex_InfraID e)) as Hin by (by apply infras_of_id).
        rewrite Ei in Hin. by apply elem_of_nil in Hin.
      + exists i. assert (i ∈ infras_of s n (ex_InfraID e)) as [? ?]%infras_of_id by (rewrite Ei; by left). done.
    - apply Forall2_fmap_r, Forall_Forall2_diag, Forall_true. by intros d. }
  destruct (rv_Weightages first) as [fw|] eqn:Ef; [|apply Hs; exists first, rev; by rewrite Ef].
  destruct (all_weightages _) eqn:Ew; [apply Hs; exists first, rev; rewrite Ef; split_and!; [done..|by apply all_weightages_some]|].
  right. exists first, rev. rewrite Ef. split_and!; [done..|]. by apply all_weightages_none.
Qed.

Lemma wp_date_range r w :
  wp (date_range r) (λ x w', db w' = db w ∧ match x with Ok range => range_of r range | Err _ => True | Panic => False end) w.
Proof.
  unfold date_range. destruct r as [r|]; [|by wp_step]. wp_step. wp_use wp_now. intros t w1 E. wp_step. wp_step.
  destruct (dr_EndDate r) as [s|] eqn:Ee; [destruct (Atoi s) eqn:Es|]; cbn.
  2: by wp_step.
  all: wp_step; wp_step; destruct (Atoi (dr_StartDate r)) eqn:Ed; wp_step; split; try done; cbn; rewrite ?Ee; naive_solver.
Qed.

(** C24. The listing of experiments is right: it holds those experiments of the
    project that are not removed and that satisfy every condition of the request,
    and only those, in the order the request asks for, cut at the page; the total
    counts them all; and each entry says of its document what [shows] lists, field
    by field, with the last user who changed it as its creator. The request
    panics only when some experiment of the project that is still live has no
    revision, or a weightage that is null. *)
Theorem listing_shows_the_experiments projectID request w :
  wp (ListExperiment projectID request) (λ r w', db w' = db w ∧
    match r with
    | Ok resp => ∃ n range shown l, range_of (lx_Filter request ≫= xf_DateRange) range ∧
        (∀ e, shown e = true ↔ wanted (db w) n projectID request range e) ∧
        l ≡ₚ List.filter shown (g_experiments (db w)) ∧ Sorted (bool_rel (experiment_sort (lx_Sort request))) l ∧
        lxr_TotalNoOfExperiments resp = Z.of_nat (length l) ∧
        Forall2 (shows (db w)) (cut (lx_Pagination request) l) (lxr_Experiments resp)
    | Err _ => True
    | Panic => ∃ e, e ∈ g_experiments (db w) ∧ ex_ProjectID e = projectID ∧ au_IsRemoved (ex_Audit e) = false ∧ unreadable e
    end) w.
Proof.
  unfold ListExperiment. wp_step. wp_use wp_date_range. intros [range|e|] w1 [E1 Hr]; [|by wp_step|done].
  rewrite <-E1. apply (wp_here (λ w, _)). wp_step. wp_use wp_page; [apply _|]. intros [[n page]|e|] w2 [E2 Hp]; [|by wp_step|done].
  destruct Hp as (l & Hl & Hs & -> & ->). do 2 wp_step.
  pose proof (all_ok_fmap (λ e, experiment_output true e (infras_of (db w1) (tick w1) (ex_InfraID e)))
                (cut (lx_Pagination request) l)) as Hok.
  destruct (all_ok _) as [r|e|]; [wp_step|by wp_step|]; cbn; (split; [done|]).
  - exists (tick w1), range, (all_match (experiment_matches (db w1) (tick w1) projectID request range)), l.
    split_and!; try done; [apply wanted_spec|]. eapply Forall2_impl; [exact Hok|]. intros e o He.
    pose proof (experiment_output_spec (db w1) (tick w1) e) as Ho. by rewrite He in Ho.
  - destruct Hok as (e & He & Hpanic). pose proof (experiment_output_spec (db w1) (tick w1) e) as Ho.
    rewrite Hpanic in Ho. apply (sublist_elem l) in He; [|apply cut_sublist]. rewrite Hl in He.
    apply elem_of_filterb in He as [He [Hp Hlive]%wanted_spec]. by exists e.
Qed.
End experiments.

(** ** Statistics of runs *)
Definition phase_count (phase : string) (l : list ChaosExperimentRun) : Z :=
  Z.of_nat (length (List.filter (λ r, str_eq (cr_Phase r) phase) l)).
#[export] Instance phase_count_perm phase : Proper ((≡ₚ) ==> eq) (phase_count phase).
Proof. intros l l' Hl. unfold phase_count. by rewrite (filterb_perm _ _ _ Hl). Qed.

Section counting.
Implicit Types (m acc : gmap string Z) (c : string * Z).

Lemma phase_counts_lookup l acc p :
  default 0 (phase_counts (cr_Phase <$> l) acc !! p) = default 0 (acc !! p) + phase_count p l.
Proof.
  revert acc. induction l as [|r l IH]; intros acc; cbn [fmap list_fmap phase_counts]; [unfold phase_count; cbn; lia|].
  rewrite IH. unfold phase_count. cbn. destruct (str_eq (cr_Phase r) p) eqn:E.
  - apply str_eq_true in E as ->. rewrite lookup_insert_eq. cbn. lia.
  - apply str_eq_false in E. by rewrite lookup_insert_ne.
Qed.

(** The sum of the counts. *)
Definition total m : Z := map_fold (λ _ v t, v + t) 0 m.
Lemma total_insert m p v : total (<[p := default 0 (m !! p) + v]> m) = total m + v.
Proof.
  unfold total. rewrite <-insert_delete_eq, map_fold_insert_L; [|intros; lia|apply lookup_delete_eq].
  destruct (m !! p) as [x|] eqn:E; cbn; [rewrite (map_fold_delete_L _ _ p x m); [|intros; lia|done]|rewrite delete_id by done]; lia.
Qed.
Lemma phase_counts_total l acc : total (phase_counts l acc) = total acc + Z.of_nat (length l).
Proof. revert acc. induction l as [|p l IH]; intros acc; cbn; [lia|]. rewrite IH, total_insert. lia. Qed.
Lemma foldl_total l t : foldl (λ t c, t + c.2) t l = t + foldr (λ c t, c.2 + t) 0 l.
Proof. revert t. induction l as [|c l IH]; intros t; cbn; [lia|]. rewrite IH. lia. Qed.
Lemma total_listed m : foldl (λ t c, t + c.2) 0 (map_to_list m) = total m.
Proof. rewrite foldl_total. unfold total. rewrite map_fold_foldr, Z.add_0_l. by induction (map_to_list m) as [|[k v] l IH]; cbn; [|rewrite IH]. Qed.

Lemma foldl_inserts l acc : NoDup l.*1 → foldl (λ m c, <[c.1 := c.2]> m) acc l = list_to_map l ∪ acc.
Proof.
  revert acc. induction l as [|[k v] l IH]; intros acc HN; cbn; [by rewrite (left_id_L ∅ (∪))|].
  apply NoDup_cons in HN as [Hk HN]. rewrite IH by done. rewrite <-insert_union_r, insert_union_l; [done|].
  by apply not_elem_of_list_to_map.
Qed.
Lemma inserted_back m : foldl (λ m c, <[c.1 := c.2]> m) ∅ (map_to_list m) = m.
Proof. rewrite foldl_inserts by apply NoDup_fst_map_to_list. by rewrite (right_id_L ∅ (∪)), list_to_map_to_list. Qed.
End counting.

Section runs.
Context {drv : MongoDriver} {laws : MongoLaws drv} {rt : Runtime} {rx : MongoRegex} {lo : LookupOrder}
  {lol : LookupOrderLaws lo}.

(** The runs of a project; those that were removed are among them. *)
Definition runs_of (projectID : string) (s : GraphDB) : list ChaosExperimentRun :=
  List.filter (λ r, str_eq (cr_ProjectID r) projectID) (g_runs s).

(** The statistics of runs are counts of the documents: the total is the number
    of runs of the project, and each category the number of runs in its phase. *)
Theorem run_stats_are_counts projectID w :
  wp (GetExperimentRunStats projectID) (λ r w', db w' = db w ∧
    match r with
    | Ok st => rt_Total st = Z.of_nat (length (runs_of projectID (db w))) ∧
        rt_Completed st = phase_count ExperimentRunStatusCompleted (runs_of projectID (db w)) ∧
        rt_Terminated st = phase_count ExperimentRunStatusTerminated (runs_of projectID (db w)) ∧
        rt_Running st = phase_count ExperimentRunStatusRunning (runs_of projectID (db w)) ∧
        rt_Stopped st = phase_count ExperimentRunStatusStopped (runs_of projectID (db w)) ∧
        rt_Errored st = phase_count ExperimentRunStatusError (runs_of projectID (db w))
    | Err _ => True
    | Panic => False
    end) w.
Proof.
  unfold GetExperimentRunStats. wp_step. wp_use wp_Aggregate. intros [x|e|] w1 [E Hx]; [|by wp_step|done].
  destruct Hx as (l & Hl & ->). wp_step. split; [done|]. cbn [rt_Total rt_Completed rt_Terminated rt_Running rt_Stopped rt_Errored].
  rewrite inserted_back, total_listed. unfold run_phases. rewrite phase_counts_total, length_fmap, !phase_counts_lookup, lookup_empty.
  apply (filterb_perm (λ r, str_eq (cr_ProjectID r) projectID)) in Hl.
  fold (runs_of projectID (db w)) in Hl. rewrite Hl. done.
Qed.

(** ** One run *)

(** An identifier that is given and not empty. *)
Definition names (o : option string) : Prop := ∃ x, o = Some x ∧ x ≠ "".

(** The run the answer is about: of the project, not removed, and with every
    identifier the request gives. *)
Record answers (s : GraphDB) (projectID : string) (runID notifyID : option string) (o : ExperimentRunOutput) : Prop := {
  answers_project : ro_ProjectID o = projectID;
  answers_live : ro_IsRemoved o = false;
  answers_run : asks runID (λ x, ro_ExperimentRunID o = x);
  answers_notify : asks notifyID (λ x, ro_NotifyID o = Some x);
  answers_doc : ∃ r, r ∈ g_runs s ∧ cr_ExperimentRunID r = ro_ExperimentRunID o ∧ cr_Phase r = ro_Phase o ∧
    cr_ExecutionData r = ro_ExecutionData o ∧ cr_ResiliencyScore r = ro_ResiliencyScore o
}.

Lemma one_run_spec projectID runID notifyID r :
  all_match (one_run_matches projectID runID notifyID) r = true ↔
  asks runID (λ x, cr_ExperimentRunID r = x ∧ cr_ProjectID r = projectID ∧ au_IsRemoved (cr_Audit r) = false) ∧
  asks notifyID (λ x, cr_NotifyID r = Some x ∧ cr_ProjectID r = projectID ∧ au_IsRemoved (cr_Audit r) = false).
Proof.
  unfold one_run_matches. rewrite all_match_app, andb_true_iff, !all_match_given.
  setoid_rewrite andb_true_iff. setoid_rewrite andb_true_iff. setoid_rewrite str_eq_true.
  setoid_rewrite bool_decide_eq_true. setoid_rewrite negb_true_iff. done.
Qed.

Lemma single_run_answers s n projectID runID notifyID r o :
  names runID ∨ names notifyID → r ∈ g_runs s → all_match (one_run_matches projectID runID notifyID) r = true →
  single_run s n r = Ok o → answers s projectID runID notifyID o.
Proof.
  intros Hn Hr [H1 H2]%one_run_spec. unfold single_run, run_output.
  destruct (experiments_of_run s n r); [done|]. destruct (all_weightages _); [|done]. intros [= <-]. unfold asks, names in *.
  split; cbn; [naive_solver..|]. by exists r.
Qed.

Lemma wp_find_run projectID runID notifyID w :
  names runID ∨ names notifyID →
  wp (find_run projectID runID notifyID)
    (λ r w', db w' = db w ∧ ∀ o, r = Ok o → answers (db w) projectID runID notifyID o) w.
Proof.
  intros Hn. unfold find_run. apply (wp_here (λ w, _)). wp_step. wp_use wp_Aggregate.
  intros [x|e|] w1 [E Hx]; [|by wp_step|done].
  destruct Hx as (l & Hl & Hx). rewrite run_matches in Hx. destruct x as [|first x']; [by wp_step|].
  rewrite Hx. clear Hx. destruct (infras_of _ _ _); [by wp_step|]. do 2 wp_step.
  pose proof (all_ok_fmap (single_run (db w) (tick w)) (List.filter (all_match (one_run_matches projectID runID notifyID)) l)) as Hok.
  destruct (all_ok _) as [all|e|]; [wp_step|by wp_step|done]. split; [done|]. intros o Ho.
  destruct (last all) as [o'|] eqn:El; [|done]. injection Ho as ->.
  apply last_Some_elem_of, list_elem_of_lookup in El as [k Hk].
  destruct (Forall2_lookup_r _ _ _ _ _ Hok Hk) as (r & Hr%list_elem_of_lookup_2 & Hs).
  apply elem_of_filterb in Hr as [Hr Hm]. rewrite Hl in Hr. by eapply single_run_answers.
Qed.

(** C25. Asking for one run, with at least one identifier that is not empty, shows
    a run of the project that was asked for, with those identifiers and not
    removed, as its document is stored, and nothing else. *)
Theorem run_lookup_is_confined projectID runID notifyID w :
  names runID ∨ names notifyID →
  wp (GetExperimentRunHandler projectID runID notifyID)
    (λ r w', db w' = db w ∧ ∀ o, r = Ok o → answers (db w) projectID runID notifyID o) w.
Proof.
  intros Hn. unfold GetExperimentRunHandler. destruct runID, notifyID; try by apply wp_find_run. by wp_step.
Qed.
End runs.

(** ** Statistics of experiments *)
Section stats.
Context {drv : MongoDriver} {laws : MongoLaws drv} {lo : LookupOrder} {lol : LookupOrderLaws lo} {avg : MongoAvg}.

Definition has_completed_run (s : GraphDB) (e : ChaosExperimentRequest) : bool :=
  existsb (λ r, str_eq (cr_ExperimentID r) (ex_ExperimentID e) && cr_Completed r) (g_runs s).
Definition sum_counts (l : list ResilienceScoreCategory) : Z := foldr (λ c t, sg_Count c + t) 0 l.

Lemma existsb_filter {A} (f : A → bool) l : existsb f l = negb (bool_decide (List.filter f l = [])).
Proof. induction l as [|x l IH]; cbn; [done|]. by destruct (f x). Qed.
Lemma averages s n e :
  length (avg_resiliency_score (completed_runs s n (ex_ExperimentID e))) = if has_completed_run s e then 1%nat else 0%nat.
Proof.
  unfold has_completed_run. rewrite existsb_filter. unfold completed_runs.
  set (l := List.filter _ _). assert (lookup_order n l ≡ₚ l) as Hl by apply lookup_order_perm.
  destruct l as [|r l]; [by apply Permutation_nil_r in Hl as ->|]. destruct (lookup_order n _); [|done].
  by apply Permutation_nil_l in Hl.
Qed.
Lemma score_buckets_length s n projectID l :
  length (score_buckets s n projectID l) = length (List.filter (λ e, live_in projectID e && has_completed_run s e) l).
Proof.
  unfold score_buckets. rewrite <-filter_filterb. induction (List.filter _ l) as [|e l' IH]; cbn; [done|].
  rewrite length_app, length_fmap, averages, IH. by destruct (has_completed_run s e).
Qed.
Lemma bucket_of_cases a : bucket_of a ∈ [0; 40; 80; 101].
Proof. unfold bucket_of. repeat case_match; set_solver. Qed.
Lemma score_buckets_cases s n projectID l : Forall (λ b, b ∈ [0; 40; 80; 101]) (score_buckets s n projectID l).
Proof.
  apply Forall_forall. intros b (e & [(a & -> & _)%list_elem_of_fmap _])%list_elem_of_bind. apply bucket_of_cases.
Qed.
Lemma bucket_counts_sum ids : Forall (λ b, b ∈ [0; 40; 80; 101]) ids → sum_counts (bucket_counts ids) = Z.of_nat (length ids).
Proof.
  unfold bucket_counts.
  assert (∀ l, sum_counts (List.filter (λ c, negb (bool_decide (sg_Count c = 0))) l) = sum_counts l) as ->.
  { unfold sum_counts. induction l as [|c l IH]; cbn; [done|]. case_bool_decide; cbn; lia. }
  induction 1 as [|b ids Hb _ IH]; [done|]. cbn in *. assert (b = 0 ∨ b = 40 ∨ b = 80 ∨ b = 101) as Hb' by set_solver.
  repeat case_bool_decide; cbn; lia.
Qed.
Lemma bucket_counts_elem ids c :
  c ∈ bucket_counts ids → 0 < sg_Count c ∧ sg_Count c = Z.of_nat (length (List.filter (λ i, bool_decide (i = sg_ID c)) ids)).
Proof.
  unfold bucket_counts. rewrite elem_of_filterb, negb_true_iff, bool_decide_eq_false.
  intros [(b & -> & _)%list_elem_of_fmap Hc]. cbn in *. split; [lia|done].
Qed.

(** The statistics of experiments add up: the total is the number of
    experiments of the project that are not removed, and the counts by score,
    none of them zero, are together the number of those that have a completed
    run. *)
Theorem experiment_stats_add_up projectID w :
  wp (GetExperimentStats projectID) (λ r w', db w' = db w ∧
    match r with
    | Ok st => xt_TotalExperiments st = Z.of_nat (length (List.filter (live_in projectID) (g_experiments (db w)))) ∧
        Forall (λ c, 0 < sg_Count c ∧ sg_ID c ∈ [0; 40; 80; 101]) (xt_ByScore st) ∧
        sum_counts (xt_ByScore st) = Z.of_nat (length (List.filter
          (λ e, live_in projectID e && has_completed_run (db w) e) (g_experiments (db w))))
    | Err _ => True
    | Panic => False
    end) w.
Proof.
  unfold GetExperimentStats. apply (wp_here (λ w, _)). wp_step. wp_use wp_Aggregate.
  intros [x|e|] w1 [E Hx]; [|by wp_step|done]. destruct Hx as (l & Hl & ->). wp_step. split; [done|].
  cbn [xt_TotalExperiments xt_ByScore]. split_and!.
  - by rewrite (filterb_perm _ _ _ Hl).
  - apply Forall_forall. intros c Hc. split; [by apply (bucket_counts_elem _ _ Hc)|].
    unfold bucket_counts in Hc. apply elem_of_filterb in Hc as [(b & -> & Hb)%list_elem_of_fmap _]. done.
  - rewrite bucket_counts_sum, score_buckets_length by apply score_buckets_cases. by rewrite (filterb_perm _ _ _ Hl).
Qed.
End stats.

(** ** Witnesses and examples *)
Definition fix_run (id projectID experimentID infraID phase : string) (score : option spec_float) : ChaosExperimentRun :=
  mkRun projectID fix_audit infraID id experimentID "" phase [] "{}" ("rev-" +:+ experimentID) (Some ("note-" +:+ id)) score None 1
    (bool_decide (phase = ExperimentRunStatusCompleted)).
(** The two projects after two runs of [p1] and one of [p2]. *)
Definition runs_world : World GraphDB :=
  mkWorld (set_docs [fix_run "r1" "p1" "e1" "i1" ExperimentRunStatusCompleted (Some (float64 75));
                     fix_run "r3" "p1" "e1" "i1" ExperimentRunStatusStopped (Some (float64 50));
                     fix_run "r2" "p2" "e2" "i2" ExperimentRunStatusRunning None] graph_db) 0.

Definition everything : ListExperimentRequest :=
  mkListExperiment [] (Some (mkPage 0 10)) (Some (mkExperimentSort ExperimentSortingFieldName (Some true)))
    (Some (mkExperimentFilter None (Some "All") (Some true) None None [])).

Lemma listing_shows_the_experiments_witness :
  (∃ resp, (ListExperiment "p1" everything runs_world).1 = Ok resp ∧
     (xo_ExperimentID <$> lxr_Experiments resp) = ["e1"]) ∧
  wp (ListExperiment "p1" everything) (λ r w', db w' = db runs_world ∧
    match r with
    | Ok resp => ∃ n range shown l, range_of None range ∧
        (∀ e, shown e = true ↔ wanted (db runs_world) n "p1" everything range e) ∧
        l ≡ₚ List.filter shown (g_experiments (db runs_world)) ∧
        Sorted (bool_rel (experiment_sort (lx_Sort everything))) l ∧
        lxr_TotalNoOfExperiments resp = Z.of_nat (length l) ∧
        Forall2 (shows (db runs_world)) (cut (lx_Pagination everything) l) (lxr_Experiments resp)
    | Err _ => True
    | Panic => ∃ e, e ∈ g_experiments (db runs_world) ∧ ex_ProjectID e = "p1" ∧ au_IsRemoved (ex_Audit e) = false ∧ unreadable e
    end) runs_world.
Proof.
  split; [eexists; split; vm_compute; reflexivity|]. apply (listing_shows_the_experiments "p1" everything runs_world).
Defined.

Lemma run_stats_are_counts_witness :
  (GetExperimentRunStats "p1" runs_world).1 = Ok (mkRunStats 2 1 0 0 1 0) ∧
  wp (GetExperimentRunStats "p1") (λ r w', db w' = db runs_world ∧
    match r with
    | Ok st => rt_Total st = Z.of_nat (length (runs_of "p1" (db runs_world))) ∧
        rt_Completed st = phase_count ExperimentRunStatusCompleted (runs_of "p1" (db runs_world)) ∧
        rt_Terminated st = phase_count ExperimentRunStatusTerminated (runs_of "p1" (db runs_world)) ∧
        rt_Running st = phase_count ExperimentRunStatusRunning (runs_of "p1" (db runs_world)) ∧
        rt_Stopped st = phase_count ExperimentRunStatusStopped (runs_of "p1" (db runs_world)) ∧
        rt_Errored st = phase_count ExperimentRunStatusError (runs_of "p1" (db runs_world))
    | Err _ => True
    | Panic => False
    end) runs_world.
Proof. split; [vm_compute; reflexivity|]. apply (run_stats_are_counts "p1" runs_world). Defined.

Lemma run_lookup_is_confined_witness :
  is_ok (GetExperimentRunHandler "p1" (Some "r1") None runs_world).1 = true ∧
  is_ok (GetExperimentRunHandler "p1" (Some "r2") None runs_world).1 = false ∧
  wp (GetExperimentRunHandler "p1" (Some "r1") None)
    (λ r w', db w' = db runs_world ∧ ∀ o, r = Ok o → answers (db runs_world) "p1" (Some "r1") None o) runs_world.
Proof.
  split; [vm_compute; reflexivity|]. split; [vm_compute; reflexivity|].
  apply (run_lookup_is_confined "p1" (Some "r1") None runs_world). left. by exists "r1".
Defined.

(** [GetExperimentRun] restricts the runs it looks at by an identifier only if
    the identifier is not empty, and by the project only together with an
    identifier. A request with an empty identifier is therefore not restricted at
    all: [alice], who is no member of [p2], is shown a run of [p2]. *)
Example empty_run_id_shows_other_projects :
  wp (query_GetExperimentRun by_alice "p1" (Some "") None)
    (λ r w', ∃ o, r = Ok o ∧ ro_ProjectID o = "p2" ∧ ro_ExperimentRunID o = "r2") runs_world ∧
  wp (query_GetExperimentRun by_alice "p2" (Some "r2") None) (λ r w', is_ok r = false) runs_world.
Proof. split; [eexists; split_and!|]; vm_compute; reflexivity. Qed.

(** One experiment without a revision keeps the listing of its project from being
    answered at all. *)
Definition without_revision : ChaosExperimentRequest :=
  mkExperiment "old" "" [] fix_audit "p1" "e9" "" "i1" NonCronExperiment [] false [] 0.
Example one_experiment_breaks_the_listing :
  (ListExperiment "p1" everything (mkWorld (set_docs (without_revision :: g_experiments graph_db) graph_db) 0)).1 = Panic.
Proof. vm_compute. reflexivity. Qed.
