(* ===== verification/HubTheorems.v ===== *)
(** * HubTheorems.v: hubs and the disk

    Which directories the requests about hubs touch: an archive cannot leave the
    directory of its project, and as long as hubs have names that name a directory
    neither can any request. Concrete runs show what other names, missing checks
    and unchecked announcements do. *)
From S2P Require Import Prelude World MemMongo GoStd Float64 Paths AuthRepo GraphDocs Experiments RunScore RunEvent Pipelines Authorization.
From S2P Require Import Environments Infrastructure GitRepo GitOps HubFiles ChaosHubs.
From S2P Require Import ProbeProperties Manifests Probes ExperimentOps ExperimentService ExperimentHandlers ExperimentListing Isolation ProjectRequests.
From S2P Require Import HubRequests ProjectAccess AuthService AuthBridge Fixtures GraphFixtures.
Local Open Scope string_scope.
Local Open Scope Z_scope.

(** ** What calls touch *)

(** The paths a call changes. *)
Definition touches (c : GitCall) : list string :=
  match c with
  | CallRename from to => [from; to]
  | CallRemoveAll path | CallMkdirAll path | CallWriteFile path _ | CallClone path _ _ _ | CallFetch path _ _
  | CallReset path _ | CallCheckout path _ _ | CallAdd path _ | CallRemove path _ | CallCommit path _ _ _
  | CallPush path _ _ | CallPull path _ _ _ | CallCreate path | CallRemoveFile path => [path]
  end.
(** Since then, calls touched nothing but the directory [root]. *)
Definition calls_inside (root : string) (s s' : GraphDB) : Prop :=
  ∃ l, g_gitcalls s' = (g_gitcalls s ++ l)%list ∧ Forall (λ c, Forall (inside root) (touches c)) l.
#[export] Instance calls_inside_preorder root : PreOrder (calls_inside root).
Proof.
  split; [intros s; exists []; by rewrite app_nil_r|]. intros s1 s2 s3 (l & E & Hl) (l' & E' & Hl').
  exists (l ++ l')%list. rewrite E', E, app_assoc. split; [done|by apply Forall_app].
Qed.

Section archives.
Context {gl : GitLibrary} {gd : GitData} {hl : HubLibrary} {hd : HubDisk} {hcf : HubConfig}.

Lemma stays_call_inside {A} root (f : nat → res A) c :
  (∀ a, Forall (inside root) (touches (c a))) → stays (calls_inside root) (git_call f c).
Proof.
  intros Hc w. unfold git_call. destruct (f (tick w)) as [a|e|]; [|reflexivity..].
  exists [c a]. split; [done|]. by constructor.
Qed.

(** The directory of a project is rooted. *)
Lemma rooted_hub pid x : rooted (HubPath +:+ pid +:+ x) = true.
Proof. apply HasPrefix_app. by eexists. Qed.
Lemma clean_rooted_not_empty path : rooted path = true → Clean path ≠ "".
Proof. intros Hr. unfold Clean. by rewrite Hr. Qed.

Lemma stays_CopyZip_inside file pid name :
  stays (calls_inside (Clean (HubPath +:+ pid))) (CopyZipItems file (HubPath +:+ pid) name).
Proof.
  unfold CopyZipItems. assert (PathJoin (HubPath +:+ pid) name = Clean (HubPath +:+ pid +:+ "/" +:+ name)) as ->.
  { unfold PathJoin. by rewrite (assoc String.append HubPath). }
  destruct (HasPrefix _ _) eqn:Hp; [|apply stays_ret]. cbv zeta. cbn [negb].
  assert (Clean (HubPath +:+ pid) ≠ "") as Hne by by apply clean_rooted_not_empty.
  apply clean_below in Hp; [|apply rooted_hub|done].
  stays_auto; unfold WriteFile; apply stays_call_inside; intros _; (constructor; [|constructor]).
  - by apply PathDir_inside; [apply rooted_hub|..].
  - by right.
  - by right.
Qed.
Lemma stays_copy_inside files pid :
  stays (calls_inside (Clean (HubPath +:+ pid))) (copy_items files (HubPath +:+ pid)).
Proof. induction files; cbn [copy_items]; stays_auto; apply stays_CopyZip_inside. Qed.

(** C26. Whatever an archive contains, and whichever calls fail, unpacking it
    creates files and directories only in the directory of the project: an entry
    whose name leads out of it is refused before anything is created for it. *)
Theorem archive_stays_inside zipPath projectID w :
  wp (UnzipRemoteHub zipPath projectID) (λ _ w',
    ∃ l, g_gitcalls (db w') = (g_gitcalls (db w) ++ l)%list ∧
      Forall (λ c, Forall (inside (Clean (HubPath +:+ projectID))) (touches c)) l) w.
Proof.
  apply (stays_wp (calls_inside (Clean (HubPath +:+ projectID)))). unfold UnzipRemoteHub. stays_auto.
  apply stays_copy_inside.
Qed.
End archives.

(** ** Requests *)

(** The names of the hubs of a project name directories. *)
Definition plain_hubs (projectID : string) (s : GraphDB) : Prop :=
  ∀ h, h ∈ g_hubs s → hb_ProjectID h = projectID → proper (hb_Name h).

(** The documents of hubs are left alone. *)
Definition same_hubs (s s' : GraphDB) : Prop := g_hubs s' = g_hubs s.
#[export] Instance same_hubs_preorder : PreOrder same_hubs.
Proof. split; [done|]. unfold same_hubs. intros ? ? ? ? ?. congruence. Qed.
#[export] Instance same_hubs_store : StoreFree same_hubs.
Proof. by split. Qed.

Section requests.
Context {drv : MongoDriver} {laws : MongoLaws drv} {rt : Runtime} {rx : MongoRegex} {cr : Crypto} {ac : AuthClient}
  {gl : GitLibrary} {gd : GitData} {hl : HubLibrary} {hd : HubDisk} {hcf : HubConfig}.
Context (projectID : string) (Hpid : proper projectID).
Abbreviation root := (HubPath +:+ projectID).

(** Names stay plain and calls stay inside. *)
Definition in_place (s s' : GraphDB) : Prop :=
  plain_hubs projectID s → calls_inside root s s' ∧ plain_hubs projectID s'.
#[export] Instance in_place_preorder : PreOrder in_place.
Proof.
  split; [by intros s ?|]. intros s1 s2 s3 H12 H23 H1. destruct (H12 H1) as [? H2]. destruct (H23 H2) as [? H3].
  split; [by etrans|done].
Qed.

Lemma clean_root : Clean root = root.
Proof. apply (clean_proper ["tmp"; projectID]); [done|]. constructor; [by apply (bool_decide_unpack _)|by apply Forall_singleton]. Qed.
Lemma inside_hub name : proper name → inside root (HubPath +:+ projectID +:+ "/" +:+ name).
Proof.
  intros Hn. right. exists name. rewrite (assoc String.append HubPath). split; [done|].
  rewrite Split_plain by apply Hn. by apply Forall_singleton.
Qed.
Lemma proper_zip name : proper name → proper (name +:+ ".zip").
Proof.
  intros (H1 & H2 & H3 & H4). unfold proper, no_slash. rewrite chars_app.
  assert (slash ∉ chars ".zip") by (by apply (bool_decide_unpack _)).
  split_and!; [by destruct name|..|set_solver]; intros E; apply (f_equal (length ∘ chars)) in E; cbn in E;
    rewrite chars_app, length_app in E; cbn in E; lia.
Qed.

Lemma stays_inside {A} (m : GM A) :
  (∀ w, g_hubs (db (m w).2) = g_hubs (db w)) → stays (calls_inside root) m → stays in_place m.
Proof. intros Hm Hs w Hp. split; [apply Hs|]. intros h. rewrite Hm. apply Hp. Qed.
Lemma stays_call {A} (f : nat → res A) c :
  (∀ a, Forall (inside root) (touches (c a))) → stays in_place (git_call f c).
Proof.
  intros Hc. apply stays_inside; [|by apply stays_call_inside]. intros w. unfold git_call. by destruct (f (tick w)).
Qed.
Lemma stays_one {A} (f : nat → res A) c path :
  (∀ a, touches (c a) = [path]) → inside root path → stays in_place (git_call f c).
Proof. intros Hc Hi. apply stays_call. intros a. rewrite Hc. by constructor. Qed.

(** *** Repositories *)
Definition ours (c : ChaosHubConfig) : Prop := hc_ProjectID c = projectID ∧ hc_IsDefault c = false ∧ proper (hc_HubName c).
Lemma ours_inside c : ours c → inside root (GetClonePath c).
Proof. intros (Hp & Hd & Hn). unfold GetClonePath. rewrite Hd, Hp. by apply inside_hub. Qed.
Lemma in_place_RemoveAll path : inside root path → stays in_place (RemoveAll path).
Proof. intros Hp. by eapply stays_one. Qed.
Lemma in_place_clone c auth : ours c → stays in_place (clone_at c auth).
Proof. intros Hc%ours_inside. unfold clone_at. stays_auto; by eapply stays_one. Qed.
Lemma ours_construct input : cl_IsDefault input = false → proper (cl_Name input) → ours (GitConfigConstruct input projectID).
Proof. by intros. Qed.
Lemma in_place_GitClone input :
  cl_IsDefault input = false → proper (cl_Name input) → stays in_place (HubGitClone input projectID).
Proof.
  intros Hd Hn. pose proof (ours_construct input Hd Hn) as Hc. pose proof (ours_inside _ Hc) as Hi.
  unfold HubGitClone, getPrivateChaosChartRepo, getChaosChartRepo.
  stays_auto; apply stays_wrap_err; stays_auto; by apply in_place_RemoveAll || by apply in_place_clone.
Qed.
Lemma in_place_pull c auth : ours c → stays in_place (pull_with c auth).
Proof. intros Hc%ours_inside. unfold pull_with, transfer. by eapply stays_one. Qed.
Lemma in_place_sync input :
  cl_IsDefault input = false → proper (cl_Name input) → stays in_place (GitSyncHandlerForProjects input projectID).
Proof.
  intros Hd Hn. pose proof (ours_construct input Hd Hn) as Hc.
  unfold GitSyncHandlerForProjects, chaosChartSyncHandler, isRepositoryExists, PathExists, HubGitPull, gitPullPrivateRepo.
  stays_auto; by apply in_place_GitClone || by apply in_place_pull.
Qed.

(** *** Archives *)
Lemma in_place_unzip zipPath : stays in_place (UnzipRemoteHub zipPath projectID).
Proof.
  unfold UnzipRemoteHub. stays_auto. apply stays_inside; [|rewrite <-clean_root at 1; apply stays_copy_inside].
  intros w. apply (stays_copy_items (R := same_hubs)).
Qed.
Lemma in_place_Download hub : proper (rh_Name hub) → stays in_place (DownloadRemoteHub hub projectID).
Proof.
  intros Hn%proper_zip. unfold DownloadRemoteHub, WriteFile.
  assert (inside root (root +:+ "/" +:+ rh_Name hub +:+ ".zip")) as Hz.
  { rewrite <-(assoc String.append HubPath). by apply inside_hub. }
  stays_auto; first [by apply in_place_unzip|by eapply stays_one|eapply stays_one; [done|by left]].
Qed.
Lemma in_place_SyncRemote input : proper (cl_Name input) → stays in_place (SyncRemoteRepo input projectID).
Proof.
  intros Hn. unfold SyncRemoteRepo. stays_auto; [by apply in_place_RemoveAll, inside_hub|by apply in_place_Download].
Qed.
Lemma in_place_renew prev h :
  proper (hb_Name prev) → hb_ProjectID prev = projectID → proper (uh_Name h) → stays in_place (renew_directory prev h projectID).
Proof.
  intros Hn Hp Hh. unfold renew_directory. rewrite Hp.
  stays_auto; first [by apply in_place_RemoveAll, inside_hub|by apply in_place_Download|by apply in_place_GitClone|
    by apply in_place_sync].
Qed.

(** *** Documents *)
Lemma in_place_set l s : (∀ h, h ∈ l → hb_ProjectID h = projectID → h ∈ g_hubs s ∨ proper (hb_Name h)) → in_place s (set_docs l s).
Proof.
  intros Hl Hp. split; [exists []; split; [by rewrite app_nil_r|constructor]|].
  intros h Hh Hpr. destruct (Hl h Hh Hpr) as [Hs|]; [by apply Hp|done].
Qed.
Lemma in_place_create h : proper (hb_Name h) → stays in_place (CreateChaosHub h).
Proof.
  intros Hn. unfold CreateChaosHub. apply stays_wrap_err. intros w.
  destruct (wp_InsertOne hub_key h w) as (l' & E & HI). rewrite E. apply in_place_set. intros h' Hh' _.
  apply (insert_one_elem _ _ _ _ _ _ HI) in Hh' as [?| ->]; auto.
Qed.
Lemma in_place_update q f :
  (∀ h, hb_ProjectID (f h) = hb_ProjectID h) → (∀ h, proper (hb_Name h) → proper (hb_Name (f h))) →
  stays in_place (UpdateChaosHubDoc q f).
Proof.
  intros Hf Hn. unfold UpdateChaosHubDoc. stays_auto. intros w Hp.
  destruct (wp_UpdateOne q f w) as (l' & E & HU%update_one_some). rewrite E. apply in_place_set; [|done].
  intros h' Hh' Hpr. apply (updated_some_elem _ _ _ _ _ HU) in Hh' as (h & Hh & [->|[_ ->]]); [by left|right].
  apply Hn, Hp; [done|]. by rewrite <-Hf.
Qed.

Lemma wp_hub_named {B} id (k : ChaosHub → GM (res B)) w :
  plain_hubs projectID (db w) → (∀ h, proper (hb_Name h) → hb_ProjectID h = projectID → stays in_place (k h)) →
  wp (let? h := GetHubByID id projectID in k h) (λ _ w', in_place (db w) (db w')) w.
Proof.
  intros Hp Hk. apply wp_found; [intros; apply stays_ret|]. intros h Hh [_ Hpr%str_eq_true]%andb_true_iff. auto.
Qed.

(** *** Services *)
Lemma in_place_check name : stays in_place (check_hub_name name projectID).
Proof. unfold check_hub_name, IsChaosHubAvailable, GetChaosHubByProjectID. stays_auto. Qed.
Hint Resolve in_place_check : stays.
Lemma in_place_Add ctx request : proper (ch_Name request) → stays in_place (AddChaosHub ctx request projectID).
Proof.
  intros Hn. unfold AddChaosHub. stays_auto; [by apply in_place_create|]. by apply stays_logged, in_place_GitClone.
Qed.
Lemma in_place_AddRemote ctx request : proper (rh_Name request) → stays in_place (AddRemoteChaosHub ctx request projectID).
Proof.
  intros Hn. unfold AddRemoteChaosHub. stays_auto; [by apply in_place_create|]. by apply stays_wrap_err, in_place_Download.
Qed.
Lemma in_place_Save ctx request : proper (ch_Name request) → stays in_place (SaveChaosHub ctx request projectID).
Proof. intros Hn. unfold SaveChaosHub. stays_auto. by apply in_place_create. Qed.
Lemma wp_Sync_place id w :
  plain_hubs projectID (db w) → wp (SyncChaosHub id projectID) (λ _ w', in_place (db w) (db w')) w.
Proof.
  intros Hp. apply wp_hub_named; [done|]. intros h Hn _.
  stays_auto; first [by apply in_place_SyncRemote|by apply in_place_sync|by apply in_place_update].
Qed.
Lemma wp_Update_place ctx request w :
  plain_hubs projectID (db w) → proper (uh_Name request) →
  wp (UpdateChaosHub ctx request projectID) (λ _ w', in_place (db w) (db w')) w.
Proof.
  intros Hp Hn. apply wp_hub_named; [done|]. intros h Hh Hpr.
  stays_auto; [by apply in_place_renew|by apply in_place_update].
Qed.
Lemma wp_Delete_place ctx id w :
  plain_hubs projectID (db w) → wp (DeleteChaosHub ctx id projectID) (λ _ w', in_place (db w) (db w')) w.
Proof.
  intros Hp. unfold DeleteChaosHub. wp_step. wp_use wp_ctx_username.
  intros [u|e|] w1 E; rewrite <-E in *; [|by wp_step|done]. apply wp_hub_named; [done|]. intros h Hh Hpr.
  stays_auto; [by apply in_place_update|by apply in_place_RemoveAll, inside_hub].
Qed.

(** A request about hubs, with a name that names a directory. *)
Definition plain_request (q : GraphRequest) : Prop :=
  match q with
  | RqAddChaosHub request | RqSaveChaosHub request => proper (ch_Name request)
  | RqAddRemoteChaosHub request => proper (rh_Name request)
  | RqUpdateChaosHub request => proper (uh_Name request)
  | RqSyncChaosHub _ | RqDeleteChaosHub _ | RqListChaosFaults _ => True
  | _ => False
  end.
End requests.

Section theorems.
Context {drv : MongoDriver} {laws : MongoLaws drv} {rt : Runtime} {rx : MongoRegex} {lo : LookupOrder}
  {mo : MapOrder} {cr : Crypto} {ac : AuthClient} {cfg : ServerConfig} {ie : InfraEnv} {sc : SourceCodec}
  {dec : Decoders} {mc : ManifestCodec} {sid : ShortID} {gl : GitLibrary} {gd : GitData} {tx : MongoTxn} {ab : MongoAbort}
  {ps : Positional} {mn : ManifestNamespace} {avg : MongoAvg} {fti : FloatToInt}
  {hl : HubLibrary} {hd : HubDisk} {hcf : HubConfig}.

Lemma wp_served_place {A} (m : GM (res A)) pid w :
  wp m (λ _ w', in_place pid (db w) (db w')) w → wp (served m) (λ _ w', in_place pid (db w) (db w')) w.
Proof. intros Hm. unfold served. wp_step. eapply wp_mono; [exact Hm|]. intros [a|e|] w1 Hw; [by wp_step..|done]. Qed.
Lemma wp_asked {A} ctx pid roles (service : GM (res A)) w :
  (∀ w1, db w1 = db w → wp service (λ _ w', in_place pid (db w1) (db w')) w1) →
  wp (let? _ := ValidateRole ctx pid roles InvitationAccepted in service) (λ _ w', in_place pid (db w) (db w')) w.
Proof.
  intros Hs. wp_step. wp_use wp_ValidateRole. intros [[]|e|] w1 [E _]; [|wp_step|]; rewrite <-E; [by apply Hs|done..].
Qed.

(** C27. As long as hubs have names that name a directory, requests about the hubs
    of a project touch nothing on the disk but the directory of the project,
    whatever the repositories and archives contain and whichever calls fail; and
    a request with such a name keeps it so. *)
Theorem hub_requests_keep_to_the_project ctx projectID q w :
  proper projectID → plain_request q → plain_hubs projectID (db w) →
  wp (resolve ctx projectID q) (λ _ w', plain_hubs projectID (db w') ∧
    ∃ l, g_gitcalls (db w') = (g_gitcalls (db w) ++ l)%list ∧
      Forall (λ c, Forall (inside (HubPath +:+ projectID)) (touches c)) l) w.
Proof.
  intros Hpid Hq Hp. eapply (wp_mono _ (λ _ w', in_place projectID (db w) (db w'))).
  2: { intros _ w' Hi. destruct (Hi Hp) as [Hc Hp']. by split. }
  destruct q; try done; apply wp_served_place, wp_asked; intros w1 E; rewrite <-E in *; cbn in Hq.
  - by apply stays_wp, in_place_Add.
  - by apply stays_wp, in_place_AddRemote.
  - by apply stays_wp, in_place_Save.
  - by apply wp_Sync_place.
  - by apply wp_Update_place.
  - by apply wp_Delete_place.
  - apply stays_wp. stays_auto.
Qed.
End theorems.

(** ** Witnesses and examples *)
Definition remote_request (name : string) : CreateRemoteChaosHub := mkCreateRemote name [] None "https://hub.zip" "".
Lemma graph_hubs_plain : plain_hubs "p1" graph_db.
Proof. intros h Hh _. cbn in Hh. rewrite !elem_of_cons in Hh. destruct Hh as [->|[->|[]%not_elem_of_nil]]; by apply (bool_decide_unpack _). Qed.
Lemma hub_requests_keep_to_the_project_witness :
  wp (resolve by_alice "p1" (RqAddRemoteChaosHub (remote_request "rh"))) (λ r w',
    length (g_gitcalls (db w')) = 7%nat ∧
    (plain_hubs "p1" (db w') ∧ ∃ l, g_gitcalls (db w') = (g_gitcalls graph_db ++ l)%list ∧
      Forall (λ c, Forall (inside "/tmp/p1") (touches c)) l)) graph_world.
Proof.
  apply wp_conj; [vm_compute; reflexivity|].
  apply (hub_requests_keep_to_the_project by_alice "p1" (RqAddRemoteChaosHub (remote_request "rh")) graph_world).
  - by apply (bool_decide_unpack _).
  - by apply (bool_decide_unpack _).
  - apply graph_hubs_plain.
Defined.

(** The name of a hub goes into the path of its directory as it is. The owner of
    one project adds a hub whose name leads to the directory of a hub of another
    project; removing it removes that directory. *)
Definition escaping_hub : ChaosHub := fix_hub "h9" "p1" "../p2/hub2".
Example hub_name_escapes_the_project :
  wp (resolve by_alice "p1" (RqDeleteChaosHub "h9"))
    (λ r w', r = Ok tt ∧ g_gitcalls (db w') = [CallRemoveAll "/tmp/p1/../p2/hub2"])
    (mkWorld (set_docs (escaping_hub :: g_hubs graph_db) graph_db) 0) ∧
  Clean "/tmp/p1/../p2/hub2" = "/tmp/p2/hub2".
Proof. split; [split|]; vm_compute; reflexivity. Qed.

(** The listing of hubs is open to any valid token, it asks for no role in the
    project, and it shows the private keys: a user who is no member of a project
    is shown the key of its repository. *)
Example hub_keys_are_shown_to_every_user :
  wp (Authorized by_bobby (query_ListChaosHub by_bobby "p1" None)) (λ r w', ∃ l, r = Ok l ∧
    ((λ s, (hs_ID s, hs_SSHPrivateKey s)) <$> l) = [(DefaultHubID, None); ("h1", Some "key of p1")]) graph_world ∧
  wp (ValidateRole by_bobby "p1" (Authorization.MutationRbacRules ListCharts) Authorization.InvitationAccepted) (λ r _, is_ok r = false) graph_world.
Proof. split; [eexists; split|]; vm_compute; reflexivity. Qed.

(** A download that announces no length passes the limit, here one byte, whatever
    its size; the archive is left behind when it is refused, and so is the hub. *)
Example limit_of_downloads_is_announced :
  wp (resolve by_alice "p1" (RqAddRemoteChaosHub (remote_request "rh"))) (λ r w',
    is_ok r = false ∧ (hb_Name <$> g_hubs (db w')) = ["hub1"; "hub2"; "rh"] ∧
    g_gitcalls (db w') =
      [CallMkdirAll "/tmp/p1"; CallCreate "/tmp/p1/rh.zip"; CallWriteFile "/tmp/p1/rh.zip" "PK"; CallMkdirAll "/tmp/p1/hub";
       CallMkdirAll "/tmp/p1/hub/faults"; CallCreate "/tmp/p1/hub/faults/x.yaml"; CallWriteFile "/tmp/p1/hub/faults/x.yaml" "x"])
    graph_world.
Proof. split_and!; vm_compute; reflexivity. Qed.

(** A private hub whose key cannot be used is reported as synced, and the time of
    the sync is recorded, though nothing was pulled. *)
Definition keyless_hub : ChaosHub :=
  mkChaosHub "h8" "p1" (mkResource "hub8" "" []) fix_audit "https://git" "main" "" true AuthTypeSSH HubTypeGit None None None
    (Some "") None 1 false.
Example unusable_key_counts_as_synced :
  wp (resolve by_alice "p1" (RqSyncChaosHub "h8")) (λ r w', r = Ok tt ∧ g_gitcalls (db w') = [] ∧
    forallb (λ h, bool_decide (1 < hb_LastSyncedAt h)) (g_hubs (db w')) = true)
    (mkWorld (set_docs [keyless_hub] graph_db) 0).
Proof. split_and!; vm_compute; reflexivity. Qed.

(** Adding a hub refuses a name that is taken, updating one does not: two hubs of
    a project come to share a directory. *)
Example renaming_shares_a_directory :
  wp (resolve by_alice "p1" (RqUpdateChaosHub (mkUpdateHub "h8" "hub1" None [] "https://git" "main" "" false AuthTypeNone
        None None None None None))) (λ r w', r = Ok tt ∧
    ((λ h, (hb_ID h, hb_Name h)) <$> List.filter (project_hub "p1") (g_hubs (db w'))) = [("h8", "hub1"); ("h1", "hub1")])
    (mkWorld (set_docs (keyless_hub :: g_hubs graph_db) graph_db) 0).
Proof. split_and!; vm_compute; reflexivity. Qed.
