(* ===== verification/ServerTheorems.v ===== *)
(** * ServerTheorems.v: the routes next to GraphQL and new projects

    Which manifests the route [/file] can show, what a new project gets, the
    version that is recorded at the first start, and the indexes a server that
    started has. *)
From S2P Require Import Prelude World MemMongo GoStd AuthEntities AuthRepo GraphDocs Experiments RunScore RunEvent Pipelines Authorization.
From S2P Require Import Environments Infrastructure ImageRegistries GitRepo GitOps ServerRoutes Fixtures GraphFixtures.
From Stdlib Require Import Ascii.
Local Open Scope string_scope.
Local Open Scope Z_scope.

(** ** Texts *)
Lemma TrimSuffix_app s suffix : TrimSuffix (s +:+ suffix) suffix = s.
Proof.
  unfold TrimSuffix. rewrite chars_app, rev_app_distr. rewrite (proj2 (strip_prefix_app _ _ (rev (chars s))) eq_refl).
  by rewrite rev_involutive, of_chars_chars.
Qed.

Section theorems.
Context {drv : MongoDriver} {laws : MongoLaws drv} {rt : Runtime} {cr : Crypto} {ac : AuthClient} {cfg : ServerConfig}
  {ie : InfraEnv} {se : ServerEdge}.

(** ** Manifests *)
Lemma wp_InfraValidateJWT token w :
  wp (InfraValidateJWT token) (λ r w', db w' = db w ∧ ∀ id, r = Ok id →
    ∃ secret, db_GetAuthConfig (tick w) = Ok secret ∧ parse_infra secret token = Ok id) w.
Proof.
  unfold InfraValidateJWT. wp_step. wp_use wp_auth_call. intros [secret|e|] w1 [E Hs]; [|by wp_step|by split].
  wp_step. split; [done|]. intros id Hid. by exists secret.
Qed.

(** Whatever the header: a manifest is shown only for a token of the server, and
    it is that of an infrastructure with the identifier of the token. *)
Theorem manifest_needs_a_token key reqHeader w :
  wp (FileHandler key reqHeader) (λ r _, ∀ text, r = Ok (HText 200 text) → ∃ n secret infra,
    db_GetAuthConfig n = Ok secret ∧ infra ∈ g_infras (db w) ∧
    parse_infra secret (TrimSuffix key ".yaml") = Ok (in_InfraID infra)) w.
Proof.
  unfold FileHandler. wp_step. wp_use wp_InfraValidateJWT. intros [id|e|] w1 [E Hid]; [|by wp_step|done].
  destruct (Hid id eq_refl) as (secret & Hs & Hp). wp_step. wp_use wp_FindOne.
  intros [infra|e|] w2 [E2 Hf]; [|by wp_step|done]. cbn in Hf. destruct Hf as [Hin Hq%str_eq_true].
  assert (∃ n secret infra, db_GetAuthConfig n = Ok secret ∧ infra ∈ g_infras (db w) ∧
    parse_infra secret (TrimSuffix key ".yaml") = Ok (in_InfraID infra)) as Hgoal.
  { exists (tick w), secret, infra. rewrite <-E. by rewrite Hq. }
  unfold wp. by intros text _.
Qed.

(** The route of the manifests never shows one: its context has no header, so
    that a request with a valid token is answered with an error, like any other. *)
Theorem manifest_route_is_dead key w :
  wp (file_route key) (λ r _, ∀ h, r = Ok h → http_code h = 500) w.
Proof.
  unfold file_route, FileHandler. wp_step. wp_use wp_InfraValidateJWT. intros [id|e|] w1 _; [|by wp_step; intros ? [= <-]|done].
  wp_step. wp_use wp_FindOne. intros [infra|e|] w2 _; [by wp_step; intros ? [= <-]..|done].
Qed.

(** The token of a registration, under any header, is not refused as a token. *)
Theorem registered_token_is_accepted secret infraID token w :
  InfraTokenLaws → (∀ n, db_GetAuthConfig n = Ok secret) → sign_infra secret infraID = Ok token →
  wp (InfraValidateJWT (TrimSuffix (token +:+ ".yaml") ".yaml")) (λ r _, r = Ok infraID) w.
Proof.
  intros Hl Hs Ht. rewrite TrimSuffix_app. unfold InfraValidateJWT. wp_step. wp_use wp_auth_call.
  intros r w1 [E ->]. rewrite Hs. wp_step. by apply infra_token_roundtrip.
Qed.

(** ** New projects *)
Definition default_registry (p : Project) (r : ImageRegistry) : Prop :=
  ir_ProjectID r = pr_ID p ∧ ir_ImageRegistryName r = "docker.io" ∧ ir_ImageRepoName r = "litmuschaos" ∧
  ir_ImageRegistryType r = "public" ∧ ir_IsDefault r = true ∧ ir_EnableRegistry r = Some true ∧
  au_IsRemoved (ir_Audit r) = false ∧ au_CreatedBy (ir_Audit r) = pr_CreatedBy p.
Definition without_registries (s : GraphDB) : GraphDB := set_docs ([] : list ImageRegistry) s.

Lemma wp_ProjectInitializer p role w :
  wp (ProjectInitializer p role) (λ r w', without_registries (db w') = without_registries (db w) ∧
    (g_registries (db w') = g_registries (db w) ∨
     ∃ reg, default_registry p reg ∧ g_registries (db w') ≡ₚ reg :: g_registries (db w) ∧
       Forall (λ x, ir_ProjectID x ≠ pr_ID p) (g_registries (db w))) ∧
    r ≠ Panic ∧ (r = Ok tt → ∃ reg, default_registry p reg ∧ reg ∈ g_registries (db w'))) w.
Proof.
  unfold ProjectInitializer. wp_step. wp_use wp_now. intros t w1 <-. wp_step. wp_use wp_NewUUID. intros id w2 <-.
  set (reg := mkRegistry _ _ _ _ _ _ _ _ _ _). assert (default_registry p reg) as Hd by done.
  assert (∀ l l', inserted registry_key reg l l' → l' ≡ₚ reg :: l ∧ Forall (λ x, ir_ProjectID x ≠ pr_ID p) l) as Hins.
  { intros l l' [Hp Hk]. split; [done|]. eapply Forall_impl; [exact Hk|]. cbn. unfold registry_key. cbn.
    intros x Hx Hx'. by rewrite Hx', str_eq_refl in Hx. }
  unfold InsertImageRegistry. wp_use wp_InsertOne. intros r w' (l' & E & Hr). rewrite E. split; [done|]. cbn.
  destruct r as [[]|e|]; cbn in Hr; [|destruct Hr as (_ & Hr & _)|done].
  - destruct (Hins _ _ Hr) as [Hp Hf]. split; [by right; exists reg|]. split; [done|]. intros _. exists reg. split; [done|]. rewrite Hp. by left.
  - split; [|done]. destruct Hr as [->|[Hp Hf]%Hins]; [by left|]. by right; exists reg.
Qed.

(** C29. The event of a new project, whatever fails on the way, changes nothing but
    the image registries, and those only by the public default registry of the
    project, when the project has none; no hub is created. The server ends exactly
    when the request to the authentication service for the creator fails. *)
Theorem new_project_gets_its_registry event w :
  wp (project_event event) (λ r w', without_registries (db w') = without_registries (db w) ∧
    (g_registries (db w') = g_registries (db w) ∨
     pe_OperationType event = "insert" ∧ ∃ reg, default_registry (pe_FullDocument event) reg ∧
       g_registries (db w') ≡ₚ reg :: g_registries (db w) ∧
       Forall (λ x, ir_ProjectID x ≠ pr_ID (pe_FullDocument event)) (g_registries (db w))) ∧
    (r = Panic ↔ pe_OperationType event = "insert" ∧
       is_ok (rpc_GetUserById (tick w) (ur_UserID (pr_CreatedBy (pe_FullDocument event)))) = false)) w.
Proof.
  unfold project_event. destruct (str_eq _ "insert") eqn:Hop.
  2: { wp_step. split_and!; [done|by left|]. split; [done|]. intros [Hi _]. by rewrite Hi in Hop. }
  apply str_eq_true in Hop. wp_step. wp_use wp_auth_call. intros r w1 [E ->].
  destruct (rpc_GetUserById _ _) as [role|e|] eqn:Hu.
  2,3: wp_step; rewrite E; split_and!; [done|by left|done].
  unfold logged. wp_step. wp_use wp_ProjectInitializer. intros r w2 (Ho & Hr & Hnp & _). rewrite E in *.
  destruct r as [u|e|]; [wp_step|wp_step|done]; (split; [done|]; split; [naive_solver|]; split; [done|by intros [_ ?]]).
Qed.

(** ** The version *)

(** The start of the server adds the current version when there is none, and
    leaves a version that is stored as it is; after a start that succeeds there is
    one. *)
Theorem version_is_recorded version w :
  wp (validateVersion version) (λ r w',
    (db w' = db w ∨ db w' ≡ₚ mkConfigDoc "version" version :: db w ∧ Forall (λ c, sc_Key c ≠ "version") (db w)) ∧
    (r = Ok tt → ∃ c, c ∈ db w' ∧ sc_Key c = "version")) w.
Proof.
  unfold validateVersion, GetConfig. wp_step. wp_step. wp_use wp_FindOne. intros [c|e|] w1 [E Hf]; cbn in Hf; [|..|done].
  - destruct Hf as [Hin Hk%str_eq_true]. wp_step. wp_step. rewrite E. split; [by left|]. intros _. by exists c.
  - wp_step. case_bool_decide; [|wp_step; by rewrite E; split; [left|]].
    unfold CreateConfig. wp_step. wp_use wp_InsertOne. intros r w2 (l' & E2 & Hr). cbn in E2, Hr. unfold id in Hr.
    assert (inserted config_key (mkConfigDoc "version" version) (db w1) l' →
      l' ≡ₚ mkConfigDoc "version" version :: db w1 ∧ Forall (λ c, sc_Key c ≠ "version") (db w1)) as Hins.
    { intros [Hp Hk]. split; [done|]. eapply Forall_impl; [exact Hk|]. cbn. unfold config_key. cbn.
      intros x Hx Hx'. by rewrite Hx' in Hx. }
    rewrite E in *. destruct r as [[]|e'|]; cbn in Hr; [|destruct Hr as (_ & Hr & _)|done]; wp_step; rewrite E2.
    + destruct (Hins Hr) as [Hp Hf']. split; [by right|]. intros _. exists (mkConfigDoc "version" version).
      split; [rewrite Hp; by left|done].
    + split; [|done]. destruct Hr as [->|?%Hins]; [by left|by right].
Qed.

(** ** Collections and indexes *)
Section start.
Context {C : Type} {cat : Catalog C} {catlaws : CatalogLaws}.
Implicit Types c : C.

(** A step of the set-up loses no index and does not panic, unless it is fatal. *)
Lemma wp_init_collection t c : wp (init_collection t) (λ _ c', keeps_indexes c c') c.
Proof. unfold init_collection. wp_step. eapply wp_mono; [apply create_collection_keeps|]. by intros r c' [_ H]. Qed.
Lemma wp_log_step t c : wp (log_step t) (λ r c', r = Ok tt ∧ keeps_indexes c c') c.
Proof.
  unfold log_step, indexes_or_log. wp_step. eapply wp_mono; [apply create_indexes_law|].
  intros [u|e|] c' (Hp & Hk & _); [by wp_step..|done].
Qed.
Lemma wp_fatal_step t c :
  wp (fatal_step t) (λ r c', keeps_indexes c c' ∧ (r = Ok tt ∧ index_models t ⊆ indexes_of c' (Collections t) ∨ r = Panic)) c.
Proof.
  unfold fatal_step, indexes_or_fatal. wp_step. eapply wp_mono; [apply create_indexes_law|].
  intros [[]|e|] c' (Hp & Hk & Hi); [wp_step..|done]; (split; [done|]); [left|by right]. by split; [|apply Hi].
Qed.

(** The collections whose indexes the server cannot do without. *)
Definition ensured : list CollectionType :=
  [ChaosExperimentRunsCollection; ChaosHubCollection; GitOpsCollection; ImageRegistryCollection; ServerConfigCollection;
   EnvironmentCollection].
Definition has_indexes c (t : CollectionType) : Prop := index_models t ⊆ indexes_of c (Collections t).
Lemma keeps_has_indexes c c' t : keeps_indexes c c' → has_indexes c t → has_indexes c' t.
Proof. intros Hk Hi. unfold has_indexes in *. specialize (Hk (Collections t)). set_solver. Qed.

(** What holds of the catalog after a part of the set-up: nothing is lost, and the
    collections [l] are ensured. *)
Definition established (l : list CollectionType) c c' : Prop := keeps_indexes c c' ∧ Forall (has_indexes c') l.
Lemma established_nil c : established [] c c.
Proof. by split. Qed.
Lemma established_keeps l c c1 c2 : established l c c1 → keeps_indexes c1 c2 → established l c c2.
Proof.
  intros [Hk Hf] H12. split; [by etrans|]. eapply Forall_impl; [exact Hf|]. intros t. by apply keeps_has_indexes.
Qed.
Lemma established_cons t l c c1 c2 :
  established l c c1 → keeps_indexes c1 c2 → has_indexes c2 t → established (t :: l) c c2.
Proof. intros He Hk Ht. destruct (established_keeps _ _ _ _ He Hk) as [? ?]. split; [done|]. by constructor. Qed.

Lemma wp_then_init {A} t l c c1 (k : unit → M C A) Q :
  established l c c1 → (∀ c2, established l c c2 → wp (k tt) Q c2) → wp (init_collection t ≫= k) Q c1.
Proof.
  intros He Hk. wp_step. eapply wp_mono; [apply wp_init_collection|]. intros [] c2 H2.
  apply Hk. by eapply established_keeps.
Qed.
Lemma wp_then_log {A} t l c c1 (k : M C (res A)) Q :
  established l c c1 → (∀ c2, established l c c2 → wp k Q c2) → wp (let? _ := log_step t in k) Q c1.
Proof.
  intros He Hk. wp_step. eapply wp_mono; [apply wp_log_step|]. intros r c2 [-> H2].
  apply Hk. by eapply established_keeps.
Qed.
Lemma wp_then_fatal {A} t l c c1 (k : M C (res A)) (Q : res A → C → Prop) :
  established l c c1 → (∀ c2, established l c c2 → Q Panic c2) → (∀ c2, established (t :: l) c c2 → wp k Q c2) →
  wp (let? _ := fatal_step t in k) Q c1.
Proof.
  intros He Hp Hk. wp_step. eapply wp_mono; [apply wp_fatal_step|]. intros r c2 [H2 [[-> Ht]| ->]].
  - apply Hk. by eapply established_cons.
  - apply Hp. by eapply established_keeps.
Qed.

Lemma wp_initAllCollection c :
  wp initAllCollection (λ r c', keeps_indexes c c' ∧ (r = Ok tt → Forall (has_indexes c') ensured) ∧ ∀ e, r ≠ Err e) c.
Proof.
  assert (∀ l c1, established l c c1 →
    keeps_indexes c c1 ∧ (@Panic error unit = Ok tt → Forall (has_indexes c1) ensured) ∧ ∀ e, @Panic error unit ≠ Err e) as Hpanic
    by (intros l c1 [? _]; by split_and!).
  unfold initAllCollection.
  eapply wp_then_init; [apply established_nil|]. intros c1 H1. eapply wp_then_log; [exact H1|]. clear c1 H1. intros c1 H1.
  eapply wp_then_init; [exact H1|]. clear c1 H1. intros c1 H1. eapply wp_then_log; [exact H1|]. clear c1 H1. intros c1 H1.
  eapply wp_then_init; [exact H1|]. clear c1 H1. intros c1 H1. eapply wp_then_fatal; [exact H1|apply Hpanic|]. clear c1 H1. intros c1 H1.
  eapply wp_then_init; [exact H1|]. clear c1 H1. intros c1 H1.
  do 5 (eapply wp_then_fatal; [exact H1|apply Hpanic|]; clear c1 H1; intros c1 H1).
  eapply wp_then_init; [exact H1|]. clear c1 H1. intros c1 H1.
  eapply wp_mono; [apply wp_log_step|]. intros r c2 [-> H2]. destruct (established_keeps _ _ _ _ H1 H2) as [Hk Hf].
  split_and!; [done| |done]. intros _. exact (Forall_rev Hf).
Qed.
Lemma wp_MongoConnection url user password c :
  wp (MongoConnection url user password) (λ r c', keeps_indexes c c' ∧ (r = Ok tt → url ≠ "" ∧ user ≠ "" ∧ password ≠ "")) c.
Proof.
  unfold MongoConnection. destruct (str_eq url "") eqn:E1; [by wp_step|]. destruct (str_eq user "") eqn:E2; [by wp_step|].
  destruct (str_eq password "") eqn:E3; [by wp_step|]. cbn. apply str_eq_false in E1, E2, E3.
  wp_step. eapply wp_mono; [apply connect_keeps|]. intros [u|e|] c1 [_ H1]; [|by split..].
  eapply wp_mono; [apply ping_keeps|]. intros r c2 [_ H2]. split; [by etrans|done].
Qed.

(** A server that gets to serve requests was given a database with its account,
    and the indexes of six collections are there, so that hubs, environments,
    image registries and configurations are identified by their keys, and a
    version is recorded. Of infrastructures, experiments and probes nothing is
    ensured ([starts_without_unique_index]). *)
Theorem started_server_is_set_up url user password version s :
  wp (start url user password version) (λ r s', keeps_indexes s.1 s'.1 ∧ (r = Ok tt →
    url ≠ "" ∧ user ≠ "" ∧ password ≠ "" ∧ Forall (has_indexes s'.1) ensured ∧
    ∃ doc, doc ∈ db s'.2 ∧ sc_Key doc = "version")) s.
Proof.
  destruct s as [c w]. pose proof (wp_MongoConnection url user password c) as Hc. unfold wp, start in *. cbn [fst snd].
  destruct (MongoConnection url user password c) as [[[]|e|] c1]; cbn in *; [|by destruct Hc..]. destruct Hc as [Hk1 (?&?&?)]; [done|].
  pose proof (wp_initAllCollection c1) as Hi. unfold wp in Hi. destruct (initAllCollection c1) as [[[]|e|] c2]; cbn in *.
  2,3: by destruct Hi as [Hk2 _]; split; [etrans|].
  destruct Hi as (Hk2 & Hf & _). pose proof (version_is_recorded version w) as Hv. unfold wp in Hv.
  destruct (validateVersion version w) as [[[]|e|] w2]; cbn in *; (split; [by etrans|]); [|done..].
  intros _. destruct Hv as [_ Hv]. split_and!; auto.
Qed.
End start.
End theorems.

(** ** Examples *)
#[local] Instance fix_edge : ServerEdge := {|
  parse_infra secret token := match strip_prefix (chars "token-of-") (chars token) with
                              | Some id => Ok (of_chars id)
                              | None => Err (ErrNew "invalid token")
                              end;
  list_databases _ := Ok ["admin"; "litmus"];
  regexp_match p s := Ok (str_eq p s);
  rpc_GetUserById _ id := if str_eq id "u1" then Ok "admin" else Err (ErrNew "no user")
|}.
#[local] Instance fix_token_laws : InfraTokenLaws.
Proof.
  split. intros secret infraID token [= <-]. cbn -[chars]. rewrite chars_app.
  by rewrite (proj2 (strip_prefix_app _ _ (chars infraID)) eq_refl), of_chars_chars.
Qed.
Definition creation (projectID userID : string) : ProjectCreationEvent :=
  mkCreation "insert" (mkProject projectID (mkUserResponse userID "" "") (mkUserResponse userID "" "")).
Example registry_of_new_project :
  wp (project_event (creation "p9" "u1")) (λ r w', r = Ok tt ∧
    ((λ x, (ir_ImageRegistryName x, ir_ImageRepoName x)) <$> List.filter (λ x, str_eq (ir_ProjectID x) "p9") (g_registries (db w')))
      = [("docker.io", "litmuschaos")]) graph_world.
Proof. split; vm_compute; reflexivity. Qed.
Example unknown_creator_ends_the_server : wp (project_event (creation "p9" "u9")) (λ r _, r = Panic) graph_world.
Proof. reflexivity. Qed.
Lemma new_project_gets_its_registry_witness :
  without_registries (db (project_event (creation "p9" "u1") graph_world).2) = without_registries (db graph_world).
Proof. destruct (new_project_gets_its_registry (creation "p9" "u1") graph_world) as [H _]. exact H. Defined.

(** A catalog in memory; the creation of indexes fails for the collections
    listed, as that of a unique index does when keys occur twice. *)
Definition MemCatalog : Type := gmap string (list IndexModel) * list string.
#[local] Instance mem_catalog : Catalog MemCatalog := {|
  mongo_connect _ _ _ := mret (Ok tt);
  mongo_ping := mret (Ok tt);
  create_collection name := λ c,
    match c.1 !! name with
    | Some _ => (Err (ErrNew ("Collection " +:+ name +:+ " already exists.")), c)
    | None => (Ok tt, (<[name := []]> c.1, c.2))
    end;
  create_indexes name indexes := λ c,
    if str_in name c.2 then (Err (ErrDriver 11000), c)
    else (Ok tt, (<[name := (indexes ++ default [] (c.1 !! name))%list]> c.1, c.2));
  indexes_of c name := default [] (c.1 !! name)
|}.
#[local] Instance mem_catalog_laws : CatalogLaws.
Proof.
  split; unfold wp, keeps_indexes; cbn.
  - done.
  - done.
  - intros name [m bad]. cbn. destruct (m !! name) eqn:E; [done|]. split; [done|]. intros name'. cbn.
    destruct (decide (name = name')) as [<-|?]; [rewrite E; set_solver|by rewrite lookup_insert_ne].
  - intros name indexes [m bad]. cbn. destruct (str_in name bad); [by split_and!|]. cbn. split_and!; [done| |].
    + intros name'. destruct (decide (name = name')) as [<-|?]; [rewrite lookup_insert_eq; set_solver|by rewrite lookup_insert_ne].
    + intros _. rewrite lookup_insert_eq. set_solver.
Qed.
Definition first_start (bad : list string) : (res unit * (MemCatalog * World (list ServerConfigDoc))) :=
  start "mongodb://mongo" "root" "1234" "3.10.0" ((∅, bad), mkWorld [] 0).
Example first_start_sets_up :
  (first_start []).1 = Ok tt ∧ indexes_of (first_start []).2.1 "chaosInfrastructures" = index_models ChaosInfraCollection.
Proof. split; vm_compute; reflexivity. Qed.
(** With infrastructures that share an identifier the server starts without the
    index, with hubs that do it does not. *)
Example starts_without_unique_index :
  (first_start ["chaosInfrastructures"]).1 = Ok tt ∧
  indexes_of (first_start ["chaosInfrastructures"]).2.1 "chaosInfrastructures" = [] ∧
  (first_start ["chaosHubs"]).1 = Panic.
Proof. split_and!; vm_compute; reflexivity. Qed.
