(* ===== verification/Cluster.v ===== *)
(** * Cluster.v: the agent in its cluster

    The [subscriber] runs in the target cluster. It sees Kubernetes and Argo
    through their clients and the GraphQL server through HTTP; both are
    parameters here, with the objects of theirs that the code reads. Its own
    state is the map of the last events it has sent ([eventMap]). *)
From S2P Require Import Prelude World GoStd GraphDocs Experiments RunScore RunEvent Authorization.
Local Open Scope string_scope.
Local Open Scope Z_scope.

(** ** Objects of the cluster

    Times are milliseconds since the epoch; the zero time of Go is before it. *)
Definition Unix (t : Z) : Z := t / 1000.
Definition zero_time : Z := -62135596800000.

(** [v1alpha1.NodeStatus] of Argo. [ns_Inputs] is [None] for nil; an artifact is
    its raw data, if it has any. *)
Record NodeStatus : Type := mkNodeStatus {
  ns_ID : string; ns_DisplayName : string; ns_Type : string; ns_Phase : string; ns_Message : string;
  ns_StartedAt : Z; ns_FinishedAt : Z; ns_Children : list string; ns_Inputs : option (list (option string))
}.
(** [v1alpha1.Workflow] of Argo. A parameter has the value [GetValue] gives;
    [wf_Shutdown] is [Spec.Shutdown.Enabled()]. *)
Record Workflow : Type := mkWorkflow {
  wf_Name : string; wf_Namespace : string; wf_UID : string; wf_Labels : gmap string string; wf_Created : Z;
  wf_Parameters : list (string * string); wf_Shutdown : bool; wf_Phase : string; wf_Message : string;
  wf_StartedAt : Z; wf_FinishedAt : Z; wf_Nodes : gmap string NodeStatus
}.
(** [ChaosEngine] and [ChaosResult] of the chaos operator. *)
Record ExperimentStatuses : Type := mkExperimentStatuses {
  es_Name : string; es_Runner : string; es_ExpPod : string; es_Verdict : string; es_LastUpdateTime : Z
}.
Record ChaosEngine : Type := mkChaosEngine {
  ce_Name : string; ce_Namespace : string; ce_UID : string; ce_Labels : gmap string string; ce_Created : Z;
  ce_EngineStatus : string; ce_Experiments : list ExperimentStatuses
}.
Record ChaosResult : Type := mkChaosResult {
  xr_Name : string; xr_Annotations : gmap string string; xr_ProbeSuccessPercentage : string; xr_Phase : string;
  xr_ErrorOutput : option (string * string); xr_ProbeStatuses : list ProbeStatus
}.
(** What the code reads of a decoded manifest ([unstructured.Unstructured]);
    labels are [None] for nil. *)
Record Unstructured : Type := mkUnstructured {
  us_Kind : string; us_Name : string; us_GenerateName : string; us_Namespace : string;
  us_Labels : option (gmap string string); us_ResourceVersion : string; us_Rest : string
}.
Record Pod : Type := mkPod { pod_Phase : string; pod_Ready : list bool }.
Record NamespaceList : Type := mkNamespaceList { nl_Items : list string; nl_Continue : string }.
(** [StringData] of a secret is written only: the server merges it into [Data]. *)
Record Secret : Type := mkSecret { sc_Data : gmap string string; sc_StringData : gmap string string }.
Record ClusterObject : Type := mkObject {
  ko_Name : string; ko_UID : string; ko_Namespace : string; ko_APIVersion : string; ko_Created : Z;
  ko_Grace : option Z; ko_Labels : gmap string string
}.

(** ** The data the agent sends: [pkg/types] *)
Record ChaosData : Type := mkChaosData {
  xd_EngineUID : string; xd_EngineContext : string; xd_EngineName : string; xd_Namespace : string;
  xd_ExperimentName : string; xd_ExperimentStatus : string; xd_LastUpdatedAt : string;
  xd_ExperimentVerdict : string; xd_ExperimentPod : string; xd_RunnerPod : string;
  xd_ProbeSuccessPercentage : string; xd_FailStep : string; xd_ChaosResult : option ChaosResult
}.
Record Node : Type := mkNode {
  no_Name : string; no_Phase : string; no_Message : string; no_StartedAt : string; no_FinishedAt : string;
  no_Children : list string; no_Type : string; no_ChaosExp : option ChaosData
}.
Record WorkflowEvent : Type := mkEvent {
  we_WorkflowType : string; we_RevisionID : string; we_NotifyID : option string; we_WorkflowID : string;
  we_EventType : string; we_UID : string; we_Namespace : string; we_Name : string; we_CreationTimestamp : string;
  we_Phase : string; we_Message : string; we_StartedAt : string; we_FinishedAt : string;
  we_Nodes : gmap string Node; we_UpdatedBy : string
}.
(** Labels of an object are listed as [key=value]; containers and volumes are
    never set. *)
Record ObjectData : Type := mkObjectData {
  od_Name : string; od_UID : string; od_Namespace : string; od_APIVersion : string; od_Created : Z; od_Grace : option Z;
  od_Labels : list string
}.
Record KubeObject : Type := mkKubeObjects { kb_Namespace : string; kb_Data : list ObjectData }.
Record KubeGVRRequest : Type := mkGVR { gv_Group : string; gv_Version : string; gv_Resource : string }.
Record KubeObjRequest : Type := mkObjRequest {
  kq_RequestID : string; kq_InfraID : string; kq_Namespace : string; kq_ObjectType : string; kq_GVR : KubeGVRRequest
}.
Record KubeNamespaceRequest : Type := mkNamespaceRequest { nq_RequestID : string; nq_InfraID : string }.
Record PodLogRequest : Type := mkLogRequest {
  lq_RequestID : string; lq_InfraID : string; lq_ExperimentRunID : string; lq_PodName : string; lq_PodNamespace : string;
  lq_PodType : string; lq_ExpPod : option string; lq_RunnerPod : option string; lq_ChaosNamespace : option string
}.
Record PodLog : Type := mkPodLog { pl_MainPod : string; pl_ChaosPod : option (gmap string string) }.
(** [types.Action], the action of a message of the server. *)
Record Action : Type := mkAgentAction {
  ac_RequestID : string; ac_K8SManifest : string; ac_ExternalData : string; ac_RequestType : string;
  ac_Username : string; ac_Namespace : string
}.
Record InfraConfirm : Type := mkConfirm {
  cf_IsInfraConfirmed : bool; cf_NewAccessKey : string; cf_InfraID : string
}.
Definition FaultCompletedWithProbeFailure : string := "Completed_With_Probe_Failure".
Definition FaultError : string := "Error".

Definition no_node : Node := mkNode "" "" "" "" "" [] "" None.
Definition no_event : WorkflowEvent := mkEvent "" "" None "" "" "" "" "" "" "" "" "" "" ∅ "".

(** ** Clients

    [K] is the state of the cluster. Each call may fail and, as time passes, find
    the cluster changed. [kc_KubeConfig] and the like build clients. A resource of
    the dynamic client is a text that names it with its namespace.
    [kc_CallBudget] is how many calls fit in the thirty seconds of a context. *)
Class Cluster (K : Type) := {
  kc_KubeConfig : M K (res unit);
  kc_Clientset : M K (res unit);
  kc_ChaosClient : M K (res unit);
  kc_ArgoClient : M K (res unit);
  kc_DynamicClient : M K (res unit);
  kc_Sleep : M K unit;
  kc_Pods (namespace selector : string) : M K (res (list Pod));
  kc_Namespaces (limit : Z) (continue : string) : M K (res NamespaceList);
  kc_CallBudget : nat;
  kc_ConfigMap (namespace name : string) : M K (res (gmap string string));
  kc_UpdateConfigMap (namespace name : string) (data : gmap string string) : M K (res unit);
  kc_Secret (namespace name : string) : M K (res Secret);
  kc_UpdateSecret (namespace name : string) (secret : Secret) : M K (res unit);
  kc_PodLogs (podName namespace container : string) : M K (res string);
  kc_Engine (namespace name : string) : M K (res ChaosEngine);
  kc_Result (namespace name : string) : M K (res ChaosResult);
  kc_Engines (namespace selector : string) : M K (res (list string));
  kc_PatchEngine (namespace name patch : string) : M K (res unit);
  kc_Workflows (namespace selector : string) : M K (res (list Workflow));
  kc_PatchWorkflow (namespace name patch : string) : M K (res unit);
  kc_DeleteWorkflow (namespace name : string) : M K (res unit);
  kc_Mapping (obj : Unstructured) : M K (res (bool * string));
  kc_Resource (resource : string) (namespace : option string) : string;
  kc_Create (resource : string) (obj : Unstructured) : M K (res Unstructured);
  kc_Get (resource name : string) : M K (res Unstructured);
  kc_Update (resource : string) (obj : Unstructured) : M K (res Unstructured);
  kc_Delete (resource name : string) : M K (res unit);
  kc_DeleteCollection (resource : string) (labels : gmap string string) : M K (res unit);
  kc_Objects (group version resource namespace : string) : M K (res (list ClusterObject));
  is_not_found : error → bool;
  is_already_exists : error → bool;
}.

(** The server behind [SendRequest]: its address and the body of the request. *)
Class Endpoint (S : Type) := http_post (addr payload : string) : M S (res string).

(** Encodings of types of other projects, JSON and YAML. Unmarshalling a request
    starts from a struct that has the identifier of the action. *)
Class AgentCodec := {
  decode_manifest : string → res Unstructured;
  json_to_yaml : string → res string;
  unmarshal_components : string → res (list string);
  marshal_event : WorkflowEvent → res string;
  marshal_namespaces : list string → res string;
  marshal_objects : KubeObject → res string;
  reencode_objects : KubeObject → res KubeObject;
  marshal_log : PodLog → res string;
  unmarshal_kube_request (requestID text : string) : res KubeObjRequest;
  unmarshal_namespace_request (requestID text : string) : res KubeNamespaceRequest;
  unmarshal_log_request (requestID text : string) : res PodLogRequest;
  unmarshal_confirm : string → res InfraConfirm;
}.

(** The environment of the process. *)
Class AgentEnv := { InfraNamespace : string; InfraScope : string }.

(** Constants of Argo, of the chaos operator and of Kubernetes. *)
Class VendorConstants := {
  WorkflowRunning : string; WorkflowSucceeded : string; WorkflowFailed : string; WorkflowPending : string;
  WorkflowError : string;
  EngineStatusInitialized : string; EngineStatusCompleted : string; EngineStatusStopped : string;
  PodRunning : string;
}.

(** ** The agent *)
Record Agent (K S : Type) : Type := mkAgent {
  ag_cluster : K; ag_server : S; ag_events : gmap string WorkflowEvent; ag_tick : nat
}.
Arguments mkAgent {K S} _ _ _ _.
Arguments ag_cluster {K S} _.
Arguments ag_server {K S} _.
Arguments ag_events {K S} _.
Arguments ag_tick {K S} _.

Section calls.
Context {K S : Type}.

Definition cluster {A} (m : M K A) : M (Agent K S) A := λ w,
  let o := m (ag_cluster w) in (o.1, mkAgent o.2 (ag_server w) (ag_events w) (ag_tick w)).
Definition server {A} (m : M S A) : M (Agent K S) A := λ w,
  let o := m (ag_server w) in (o.1, mkAgent (ag_cluster w) o.2 (ag_events w) (ag_tick w)).
Definition agent_bump (w : Agent K S) : Agent K S :=
  mkAgent (ag_cluster w) (ag_server w) (ag_events w) (Datatypes.S (ag_tick w)).
(** [time.Now()] in milliseconds. *)
Definition agent_now `{Runtime} : M (Agent K S) Z := λ w, (clock (ag_tick w), agent_bump w).
(** [for key := range m]: the keys in any order. *)
Definition agent_range `{MapOrder} {A} (m : gmap string A) : M (Agent K S) (list string) := λ w,
  (map_order (ag_tick w) (map_to_list m).*1, agent_bump w).
Definition get_events : M (Agent K S) (gmap string WorkflowEvent) := λ w, (ag_events w, w).
Definition set_events (f : gmap string WorkflowEvent → gmap string WorkflowEvent) : M (Agent K S) unit := λ w,
  (tt, mkAgent (ag_cluster w) (ag_server w) (f (ag_events w)) (ag_tick w)).
End calls.

(** A label, or an entry of any map of texts: absent entries read as empty. *)
Definition entry (m : gmap string string) (key : string) : string := default "" (m !! key).

(** The quote, which the texts here cannot contain literally. *)
Definition dq : string := String (char 34) EmptyString.
(** An escaped quote, as in the payloads. *)
Definition bq : string := "\" +:+ dq.
