(* ===== verification/Tracker.v ===== *)
(** * Tracker.v: the programs of the event tracker

    The handlers of the informers ([event-tracker/pkg/utils/informers.go]),
    [PolicyAuditor], [getInfraData] and [SendRequest] ([utils.go]) and [Reconcile]
    ([controllers/eventtrackerpolicy_controller.go]). They run in goroutines that
    share nothing but the objects of the API server, so each is a program that
    stops at its calls and goes on with the answers: [Prog]. *)
From S2P Require Import Prelude World GoStd Authorization EventTracker Cluster.
Local Open Scope string_scope.

(** ** Objects *)

(** [ObjectMeta] as far as it is used, with the version that an update compares. *)
Record EventTrackerPolicy : Type := mkPolicy {
  et_Name : string; et_ResourceVersion : nat; et_Spec : EventTrackerPolicySpec; et_Statuses : list Status
}.
Definition set_statuses (ss : list Status) (etp : EventTrackerPolicy) : EventTrackerPolicy :=
  mkPolicy (et_Name etp) (et_ResourceVersion etp) (et_Spec etp) ss.

(** The three types of workloads that are watched. [wl_Rest] stands for what the
    code does not look at. *)
Inductive WorkloadKind : Type := KDeployment | KStatefulSet | KDaemonSet.
#[export] Instance WorkloadKind_eq_dec : EqDecision WorkloadKind.
Proof. solve_decision. Defined.
Record Workload : Type := mkWorkload {
  wl_Kind : WorkloadKind; wl_Name : string; wl_ResourceVersion : string; wl_Annotations : gmap string string;
  wl_Rest : string
}.

(** Errors of the API server that the code tells apart. *)
Inductive ApiError : Type := NotFound (msg : string) | Conflict (msg : string) | OtherError (msg : string).
Definition api_text (e : ApiError) : string := match e with NotFound m | Conflict m | OtherError m => m end.
Definition IsNotFound (e : ApiError) : bool := match e with NotFound _ => true | _ => false end.
Definition IsConflict (e : ApiError) : bool := match e with Conflict _ => true | _ => false end.

(** ** Programs *)
Inductive Prog (A : Type) : Type :=
| Return (a : A)
| KubeClient (k : res unit → Prog A)
| ListPolicies (k : result ApiError (list string) → Prog A)
| GetPolicy (name : string) (k : result ApiError EventTrackerPolicy → Prog A)
| UpdatePolicy (etp : EventTrackerPolicy) (k : result ApiError unit → Prog A)
| GetConfigMap (name : string) (k : result ApiError (gmap string string) → Prog A)
| GetSecret (name : string) (k : result ApiError (gmap string string) → Prog A)
| TimeNow (k : string → Prog A)
| Post (addr payload : string) (k : res (Z * res string) → Prog A).
Arguments Return {A} _.
Arguments KubeClient {A} _.
Arguments ListPolicies {A} _.
Arguments GetPolicy {A} _ _.
Arguments UpdatePolicy {A} _ _.
Arguments GetConfigMap {A} _ _.
Arguments GetSecret {A} _ _.
Arguments TimeNow {A} _.
Arguments Post {A} _ _ _.

#[export] Instance Prog_ret : MRet Prog := λ _, Return.
#[export] Instance Prog_bind : MBind Prog := λ A B f,
  fix bind (m : Prog A) : Prog B :=
    match m with
    | Return a => f a
    | KubeClient k => KubeClient (λ r, bind (k r))
    | ListPolicies k => ListPolicies (λ r, bind (k r))
    | GetPolicy name k => GetPolicy name (λ r, bind (k r))
    | UpdatePolicy etp k => UpdatePolicy etp (λ r, bind (k r))
    | GetConfigMap name k => GetConfigMap name (λ r, bind (k r))
    | GetSecret name k => GetSecret name (λ r, bind (k r))
    | TimeNow k => TimeNow (λ r, bind (k r))
    | Post addr payload k => Post addr payload (λ r, bind (k r))
    end.

(** The error of a call is returned, with a text before it. *)
Definition failing {E A B} (text : E → string) (m : Prog (result E A)) (k : A → Prog (res B)) : Prog (res B) :=
  r ← m;
  match r with
  | Ok a => k a
  | Err e => mret (Err (ErrNew (text e)))
  | Panic => mret Panic
  end.

(** ** What the tracker uses of other packages

    The JSON of a workload, [reflect.DeepEqual], the URL of a request, and the
    decoding of an answer into [apiResponse], of which only
    [Data.GitopsNotifer] is read. *)
Class TrackerCodec := {
  workload_json : Workload → res JValue;
  deep_equal : Workload → Workload → bool;
  new_request : string → res unit;
  decode_response : string → res string;
}.
Class TrackerEnv := { TrackerVersion : string }.

(** ** Policies: [PolicyAuditor] *)
Definition StateFulSet : string := "statefulset".
Definition Deployment : string := "deployment".
Definition DaemonSet : string := "daemonset".

Section code.
Context `{JMESPath} `{Sprint} `{TrackerCodec} `{TrackerEnv}.

(** A workload as an object of the expected type, in JSON. *)
Definition workload_data (kind : WorkloadKind) (obj : Workload) : res JValue :=
  if bool_decide (wl_Kind obj = kind) then workload_json obj else Panic.
Definition workload_kind (resourceType : string) : option WorkloadKind :=
  let expr := ToLower resourceType in
  if str_eq expr Deployment then Some KDeployment
  else if str_eq expr StateFulSet then Some KStatefulSet
  else if str_eq expr DaemonSet then Some KDaemonSet
  else None.

(** One round of the loop over the policies. *)
Definition audit_policy (resourceType : string) (newObj oldObj : Workload) (experimentId name : string) : Prog (res unit) :=
  failing api_text (GetPolicy name mret) (λ etp,
    match workload_kind resourceType with
    | None => mret (Err (ErrNew "resource not supported"))
    | Some kind =>
        failing error_text (mret (workload_data kind newObj)) (λ newData,
          failing error_text (mret (workload_data kind oldObj)) (λ oldData,
            failing error_text (mret (conditionChecker (et_Spec etp) newData oldData)) (λ check,
              if check : bool then
                time ← TimeNow mret;
                failing api_text
                  (UpdatePolicy (set_statuses
                     (et_Statuses etp ++ [new_status time resourceType (wl_Name newObj) experimentId]) etp) mret)
                  (λ _, mret (Ok tt))
              else mret (Ok tt))))
    end).
Fixpoint audit_policies (resourceType : string) (newObj oldObj : Workload) (experimentId : string) (names : list string) :
    Prog (res unit) :=
  match names with
  | [] => mret (Ok tt)
  | name :: names =>
      r ← audit_policy resourceType newObj oldObj experimentId name;
      match r with
      | Ok _ => audit_policies resourceType newObj oldObj experimentId names
      | _ => mret r
      end
  end.
Definition PolicyAuditor (resourceType : string) (newObj oldObj : Workload) (experimentId : string) : Prog (res unit) :=
  failing error_text (KubeClient mret) (λ _,
    failing api_text (ListPolicies mret) (λ items,
      audit_policies resourceType newObj oldObj experimentId items)).

(** ** Informers *)
Definition annotationKey : string := "litmuschaos.io/experimentId".
Definition annotation (obj : Workload) (key : string) : string := default "" (wl_Annotations obj !! key).
(** Whether a change concerns the tracker. *)
Definition is_event (oldObj newObj : Workload) : bool :=
  negb (str_eq (wl_ResourceVersion newObj) (wl_ResourceVersion oldObj)) &&
  negb (deep_equal newObj oldObj) &&
  str_eq (annotation newObj "litmuschaos.io/gitops") "true" &&
  negb (str_eq (annotation newObj annotationKey) "").
(** The update handlers of the three informers; an error is logged. *)
Definition on_update (resourceType : string) (kind : WorkloadKind) (oldObj newObj : Workload) : Prog (res unit) :=
  if negb (bool_decide (wl_Kind newObj = kind) && bool_decide (wl_Kind oldObj = kind)) then mret Panic
  else if is_event oldObj newObj then
    r ← PolicyAuditor resourceType newObj oldObj (annotation newObj annotationKey);
    mret (match r with Panic => Panic | _ => Ok tt end)
  else mret (Ok tt).
Definition RunDeploymentInformer : Workload → Workload → Prog (res unit) := on_update "Deployment" KDeployment.
Definition RunStsInformer : Workload → Workload → Prog (res unit) := on_update "StatefulSet" KStatefulSet.
Definition RunDSInformer : Workload → Workload → Prog (res unit) := on_update "DaemonSet" KDaemonSet.

(** ** Requests *)
Definition AgentConfigName : string := "subscriber-config".
Definition AgentSecretName : string := "subscriber-secret".

(** Access key, identifier and address of the server. *)
Definition getInfraData : Prog (res (string * string * string)) :=
  failing (λ e, "failed to get Kubernetes clientset: " +:+ error_text e) (KubeClient mret) (λ _,
    failing (λ e, "failed to get ConfigMap: " +:+ api_text e) (GetConfigMap AgentConfigName mret) (λ getCM,
      if negb (str_eq (entry getCM "IS_INFRA_CONFIRMED") "true")
      then mret (Err (ErrNew "infrastructure not confirmed"))
      else
        failing (λ e, "failed to get Secret: " +:+ api_text e) (GetSecret AgentSecretName mret) (λ getSecret,
          mret (Ok (entry getSecret "ACCESS_KEY", entry getSecret "INFRA_ID", entry getCM "SERVER_ADDR"))))).

Definition notify_payload (clusterID accessKey experimentId : string) : string :=
  "{" +:+ dq +:+ "query" +:+ dq +:+ ": " +:+ dq +:+ "mutation { gitopsNotifier(clusterInfo: { infraID: " +:+ bq +:+ clusterID +:+
  bq +:+ ", version: " +:+ bq +:+ TrackerVersion +:+ bq +:+ ", accessKey: " +:+ bq +:+ accessKey +:+ bq +:+
  "}, experimentID: " +:+ bq +:+ experimentId +:+ bq +:+ ")\n}" +:+ dq +:+ "}".

(** An answer other than 200 is a text, not an error. *)
Definition SendRequest (experimentId : string) : Prog (res string) :=
  failing (λ e, "failed to get infra data: " +:+ error_text e) getInfraData (λ '(accessKey, clusterID, serverAddr),
    failing (λ e, "failed to create request: " +:+ error_text e) (mret (new_request serverAddr)) (λ _,
      failing (λ e, "failed to send request: " +:+ error_text e)
        (Post serverAddr (notify_payload clusterID accessKey experimentId) mret) (λ '(statusCode, respBody),
          if negb (bool_decide (statusCode = 200%Z)) then mret (Ok "URL is not reachable or Bad request")
          else failing (λ e, "failed to read response body: " +:+ error_text e) (mret respBody) (λ body, mret (Ok body))))).

(** ** [Reconcile] *)

(** [retry.RetryOnConflict]: after [n] more attempts the conflict is returned. *)
Fixpoint RetryOnConflict {A} (n : nat) (fn : Prog (result ApiError A)) : Prog (res A) :=
  r ← fn;
  match r with
  | Ok a => mret (Ok a)
  | Panic => mret Panic
  | Err e =>
      if IsConflict e then
        match n with
        | O => mret (Err (ErrNew (api_text e)))
        | S n => RetryOnConflict n fn
        end
      else mret (Err (ErrNew (api_text e)))
  end.
(** [retry.DefaultBackoff] makes four attempts. *)
Definition retries : nat := 3.

(** Phase 1: the experiments that were claimed. *)
Definition claim (name : string) : Prog (result ApiError (list string)) :=
  r ← GetPolicy name mret;
  match r with
  | Ok etp =>
      let claimed := claimed_ids (et_Statuses etp) in
      if bool_decide (claimed = []) then mret (Ok [])
      else
        u ← UpdatePolicy (set_statuses (claim_statuses (et_Statuses etp)) etp) mret;
        mret (match u with Ok _ => Ok claimed | Err e => Err e | Panic => Panic end)
  | Err e => mret (if IsNotFound e then Ok [] else Err e)
  | Panic => mret Panic
  end.

(** Phase 2: what to revert, and the last error. *)
Definition dispatch_one (experimentID : string) : Prog (result error bool) :=
  response ← SendRequest experimentID;
  mret (match response with
        | Ok text =>
            match decode_response text with
            | Ok notifer => Ok (str_eq notifer "Gitops Disabled")
            | Err e => Err e
            | Panic => Panic
            end
        | Err e => Err e
        | Panic => Panic
        end).
Fixpoint dispatch (claimed toRevert : list string) (dispatchErr : option error) :
    Prog (result error (list string * option error)) :=
  match claimed with
  | [] => mret (Ok (toRevert, dispatchErr))
  | experimentID :: claimed =>
      r ← dispatch_one experimentID;
      match r with
      | Ok disabled =>
          dispatch claimed (if disabled : bool then toRevert ++ [experimentID] else toRevert) dispatchErr
      | Err e => dispatch claimed (toRevert ++ [experimentID]) (Some e)
      | Panic => mret Panic
      end
  end.

Definition release (name : string) (toRevert : list string) : Prog (result ApiError unit) :=
  r ← GetPolicy name mret;
  match r with
  | Ok etp =>
      if existsb (is_reverted toRevert) (et_Statuses etp)
      then UpdatePolicy (set_statuses (revert_statuses toRevert (et_Statuses etp)) etp) mret
      else mret (Ok tt)
  | Err e => mret (if IsNotFound e then Ok tt else Err e)
  | Panic => mret Panic
  end.

Definition Reconcile (name : string) : Prog (res unit) :=
  failing error_text (RetryOnConflict retries (claim name)) (λ claimed,
    failing error_text (dispatch claimed [] None) (λ '(toRevert, dispatchErr),
      failing error_text
        (if bool_decide (toRevert = []) then mret (Ok tt) else RetryOnConflict retries (release name toRevert))
        (λ _, mret (match dispatchErr with Some e => Err e | None => Ok tt end)))).
End code.
