(* ===== verification/TrackerTheorems.v ===== *)
(** * TrackerTheorems.v: requests of the event tracker are backed by triggers

    Any number of handlers and reconcilers interleave at their calls to the API
    server, whose reads may be stale and whose calls may fail; users change and
    remove policies. A request is made at most once for every time a trigger
    became pending. Without interference [Reconcile] serves every pending trigger,
    if the data of the agent can be had. *)
From S2P Require Import Prelude World GoStd Authorization EventTracker Cluster Tracker.
From stdpp Require Import gmultiset.
Local Open Scope string_scope.

(** ** The API server *)

(** The experiments of the pending triggers of a policy. *)
Definition pend (etp : EventTrackerPolicy) : gmultiset string := list_to_set_disj (claimed_ids (et_Statuses etp)).
#[local] Arguments pend : simpl never.
#[local] Arguments gmultiset_disj_union : simpl never.
#[local] Arguments gmultiset_difference : simpl never.
#[local] Arguments claimed_ids : simpl never.
Definition pend_at (o : option EventTrackerPolicy) : gmultiset string := from_option pend ∅ o.

(** All versions that were ever stored are kept, for stale reads. [as_armed]
    counts the triggers that became pending, by experiment, and [as_sent] has the
    requests that were made: neither is read by the code. *)
Record ApiState : Type := mkApi {
  as_policies : gmap string EventTrackerPolicy; as_history : list EventTrackerPolicy; as_clock : nat;
  as_sent : list string; as_armed : gmultiset string
}.
Definition set_resource_version (v : nat) (etp : EventTrackerPolicy) : EventTrackerPolicy :=
  mkPolicy (et_Name etp) v (et_Spec etp) (et_Statuses etp).
Definition store (etp : EventTrackerPolicy) (s : ApiState) : ApiState :=
  let stored := set_resource_version (S (as_clock s)) etp in
  mkApi (<[et_Name etp := stored]> (as_policies s)) (stored :: as_history s) (S (as_clock s)) (as_sent s)
    (as_armed s ⊎ (pend etp ∖ pend_at (as_policies s !! et_Name etp))).
Definition add_sent (payload : string) (s : ApiState) : ApiState :=
  mkApi (as_policies s) (as_history s) (as_clock s) (as_sent s ++ [payload])%list (as_armed s).
Definition remove_policy (name : string) (s : ApiState) : ApiState :=
  mkApi (delete name (as_policies s)) (as_history s) (as_clock s) (as_sent s) (as_armed s).
Definition no_policies : ApiState := mkApi ∅ [] 0 [] ∅.

(** The next call of a program: any call may fail, a write or a request that
    reports an error may have taken place, a read may be stale. *)
Inductive calls {A} : ApiState → Prog A → ApiState → Prog A → Prop :=
| call_client s k r : calls s (KubeClient k) s (k r)
| call_list s k r : calls s (ListPolicies k) s (k r)
| call_get s name k etp :
    etp ∈ as_history s → et_Name etp = name → calls s (GetPolicy name k) s (k (Ok etp))
| call_get_error s name k e : calls s (GetPolicy name k) s (k (Err e))
| call_update s etp k cur :
    as_policies s !! et_Name etp = Some cur → et_ResourceVersion cur = et_ResourceVersion etp →
    calls s (UpdatePolicy etp k) (store etp s) (k (Ok tt))
| call_update_lost s etp k cur e :
    as_policies s !! et_Name etp = Some cur → et_ResourceVersion cur = et_ResourceVersion etp →
    calls s (UpdatePolicy etp k) (store etp s) (k (Err e))
| call_update_error s etp k e : calls s (UpdatePolicy etp k) s (k (Err e))
| call_config s name k r : calls s (GetConfigMap name k) s (k r)
| call_secret s name k r : calls s (GetSecret name k) s (k r)
| call_time s k t : calls s (TimeNow k) s (k t)
| call_post s addr payload k r : calls s (Post addr payload k) (add_sent payload s) (k r)
| call_post_unsent s addr payload k e : calls s (Post addr payload k) s (k (Err e)).

(** ** Accounts *)
(** All pending triggers. *)
Definition total (m : gmap string EventTrackerPolicy) : gmultiset string := map_fold (λ _ etp acc, pend etp ⊎ acc) ∅ m.
Lemma pool_insert m name etp : total (<[name := etp]> m) = pend etp ⊎ total (delete name m).
Proof.
  unfold total. rewrite <-insert_delete_eq. rewrite map_fold_insert_L; [done| |apply lookup_delete_eq].
  intros. multiset_solver.
Qed.
Lemma total_lookup m name : total m = pend_at (m !! name) ⊎ total (delete name m).
Proof.
  destruct (m !! name) as [etp|] eqn:E; cbn [pend_at from_option].
  - rewrite <-pool_insert. by rewrite insert_id.
  - rewrite delete_id by done. by rewrite (left_id_L ∅ (⊎)).
Qed.

(** What a program has read, and its credits. *)
Abbreviation Holding := (list EventTrackerPolicy * gmultiset string)%type.
Fixpoint credits (hs : list Holding) : gmultiset string := match hs with [] => ∅ | h :: hs => h.2 ⊎ credits hs end.
Lemma credits_insert hs i h h' : hs !! i = Some h → credits (<[i := h']> hs) ⊎ h.2 = credits hs ⊎ h'.2.
Proof.
  revert i. induction hs as [|x hs IH]; intros [|i] Hi; [done..| |]; cbn in Hi.
  - simplify_eq. change (h'.2 ⊎ credits hs ⊎ h.2 = h.2 ⊎ credits hs ⊎ h'.2). multiset_solver.
  - change (x.2 ⊎ credits (<[i := h']> hs) ⊎ h.2 = x.2 ⊎ credits hs ⊎ h'.2). specialize (IH i Hi). multiset_solver.
Qed.
Lemma credits_app hs hs' : credits (hs ++ hs') = credits hs ⊎ credits hs'.
Proof. induction hs as [|h hs IH]; cbn; [multiset_solver|]. rewrite IH. multiset_solver. Qed.

(** Versions name what was stored; what is stored is in the history. *)
Record versioned (s : ApiState) : Prop := {
  ver_bound : ∀ etp, etp ∈ as_history s → (et_ResourceVersion etp ≤ as_clock s)%nat;
  ver_unique : ∀ a b, a ∈ as_history s → b ∈ as_history s → et_ResourceVersion a = et_ResourceVersion b → a = b;
  ver_stored : ∀ name cur, as_policies s !! name = Some cur → cur ∈ as_history s
}.
Lemma versioned_store etp s : versioned s → versioned (store etp s).
Proof.
  intros [Hb Hu Hs]. split; cbn.
  - intros x [->|Hx]%elem_of_cons; [done|]. specialize (Hb x Hx). lia.
  - intros a b [->|Ha]%elem_of_cons [->|Hb']%elem_of_cons E; cbn in E; [done|..|by apply Hu].
    + specialize (Hb b Hb'). lia.
    + specialize (Hb a Ha). lia.
  - intros name cur. rewrite lookup_insert_Some. intros [[_ <-]|[_ Hc%Hs]]; [by left|by right].
Qed.
Lemma versioned_sent payload s : versioned s → versioned (add_sent payload s).
Proof. by intros []. Qed.
Lemma versioned_remove name s : versioned s → versioned (remove_policy name s).
Proof. intros [Hb Hu Hs]. split; [done..|]. cbn. intros n cur [_ Hc%Hs]%lookup_delete_Some. done. Qed.

Section accounts.
Context `{TrackerEnv}.
Definition request_for (payload id : string) : Prop := ∃ clusterID accessKey, payload = notify_payload clusterID accessKey id.
Definition accounted (s : ApiState) (hs : list Holding) : Prop :=
  ∃ ids, Forall2 request_for (as_sent s) ids ∧
    list_to_set_disj ids ⊎ credits hs ⊎ total (as_policies s) ⊆ as_armed s.

(** A write moves triggers between the policies, the credits of its program and
    the count. *)
Lemma accounted_store s hs etp :
  accounted s hs → accounted (store etp s) hs.
Proof.
  intros (ids & Hids & Hle). exists ids. split; [done|]. cbn. rewrite pool_insert.
  rewrite (total_lookup _ (et_Name etp)) in Hle. change (pend (set_resource_version _ etp)) with (pend etp). multiset_solver.
Qed.
Lemma accounted_earn s hs i K C etp cur :
  hs !! i = Some (K, C) → as_policies s !! et_Name etp = Some cur →
  accounted s hs → accounted (store etp s) (<[i := (K, C ⊎ (pend cur ∖ pend etp))]> hs).
Proof.
  intros Hi Hcur (ids & Hids & Hle). exists ids. split; [done|]. cbn. rewrite pool_insert, Hcur. cbn.
  rewrite (total_lookup _ (et_Name etp)), Hcur in Hle. cbn in Hle.
  change (pend (set_resource_version _ etp)) with (pend etp).
  pose proof (credits_insert hs i _ (K, C ⊎ (pend cur ∖ pend etp)) Hi) as Hc. cbn in Hc. multiset_solver.
Qed.
Lemma accounted_credits s hs i K C K' C' :
  hs !! i = Some (K, C) → C' ⊆ C → accounted s hs → accounted s (<[i := (K', C')]> hs).
Proof.
  intros Hi HC (ids & Hids & Hle). exists ids. split; [done|].
  pose proof (credits_insert hs i _ (K', C') Hi) as Hc. cbn in Hc. multiset_solver.
Qed.
Lemma accounted_spend s hs i K C id payload :
  hs !! i = Some (K, C) → id ∈ C → request_for payload id →
  accounted s hs → accounted (add_sent payload s) (<[i := (K, C ∖ {[+ id +]})]> hs).
Proof.
  intros Hi Hid Hp (ids & Hids & Hle). exists (ids ++ [id])%list. split; [by apply Forall2_app; [|repeat constructor]|]. cbn.
  pose proof (credits_insert hs i _ (K, C ∖ {[+ id +]}) Hi) as Hc. cbn in Hc.
  rewrite list_to_set_disj_app. cbn. multiset_solver.
Qed.
End accounts.

Section tracker.
Context `{JMESPath} `{Sprint} `{TrackerCodec} `{TrackerEnv}.

(** The programs the tracker starts. *)
Inductive starts : Prog (res unit) → Prop :=
| starts_reconcile name : starts (Reconcile name)
| starts_deployment oldObj newObj : starts (RunDeploymentInformer oldObj newObj)
| starts_statefulset oldObj newObj : starts (RunStsInformer oldObj newObj)
| starts_daemonset oldObj newObj : starts (RunDSInformer oldObj newObj).

Inductive tracker_step : ApiState * list (Prog (res unit)) → ApiState * list (Prog (res unit)) → Prop :=
| program_acts s ps i p s' p' :
    ps !! i = Some p → calls s p s' p' → tracker_step (s, ps) (s', <[i := p']> ps)
| program_starts s ps p : starts p → tracker_step (s, ps) (s, (ps ++ [p])%list)
| user_writes s ps etp : tracker_step (s, ps) (store etp s, ps)
| user_removes s ps name : tracker_step (s, ps) (remove_policy name s, ps).

(** ** A logic of credits

    [K] are versions of policies the program has read, [C] the requests it may
    still make. An update that is accepted earns the triggers it takes from the
    version it was made from. *)
Fixpoint backed {A} (Q : list EventTrackerPolicy → gmultiset string → A → Prop) (K : list EventTrackerPolicy)
    (C : gmultiset string) (p : Prog A) : Prop :=
  match p with
  | Return a => Q K C a
  | KubeClient k => ∀ r, backed Q K C (k r)
  | ListPolicies k => ∀ r, backed Q K C (k r)
  | GetPolicy name k =>
      (∀ etp, et_Name etp = name → backed Q (etp :: K) C (k (Ok etp))) ∧ ∀ e, backed Q K C (k (Err e))
  | UpdatePolicy etp k =>
      ∃ old, old ∈ K ∧ et_Name old = et_Name etp ∧ et_ResourceVersion old = et_ResourceVersion etp ∧
        backed Q K (C ⊎ (pend old ∖ pend etp)) (k (Ok tt)) ∧ ∀ e, backed Q K C (k (Err e))
  | GetConfigMap _ k => ∀ r, backed Q K C (k r)
  | GetSecret _ k => ∀ r, backed Q K C (k r)
  | TimeNow k => ∀ t, backed Q K C (k t)
  | Post _ payload k => ∃ id, id ∈ C ∧ request_for payload id ∧ ∀ r, backed Q K (C ∖ {[+ id +]}) (k r)
  end.

Lemma backed_mono {A} (Q Q' : list EventTrackerPolicy → gmultiset string → A → Prop) K C p :
  (∀ K' C' a, Q K' C' a → Q' K' C' a) → backed Q K C p → backed Q' K C p.
Proof. intros HQ. revert K C. induction p; cbn; intros; try (by eauto); naive_solver eauto. Qed.
Lemma backed_bind {A B} (f : A → Prog B) Q K C m :
  backed (λ K' C' a, backed Q K' C' (f a)) K C m → backed Q K C (m ≫= f).
Proof. revert K C. induction m; cbn; intros; try (by eauto); naive_solver eauto. Qed.
Lemma backed_failing {E A B} text (m : Prog (result E A)) (k : A → Prog (res B)) (P : list EventTrackerPolicy → gmultiset string → A → Prop) K C :
  backed (λ K' C' r, match r with Ok a => P K' C' a | _ => True end) K C m →
  (∀ K' C' a, P K' C' a → backed (λ _ _ _, True) K' C' (k a)) →
  backed (λ _ _ _, True) K C (failing text m k).
Proof.
  intros Hm Hk. apply backed_bind. eapply backed_mono; [|exact Hm]. by intros K' C' [a|e|]; cbn; [apply Hk|..].
Qed.
Lemma backed_any {A} K C (p : Prog A) Q : backed Q K C p → backed (λ _ _ _, True) K C p.
Proof. by apply backed_mono. Qed.
Lemma backed_retry {A} (fn : Prog (result ApiError A)) (P : gmultiset string → A → Prop) n K C :
  (∀ K C, backed (λ _ C' r, match r with Ok a => P C' a | _ => True end) K C fn) →
  backed (λ _ C' r, match r with Ok a => P C' a | _ => True end) K C (RetryOnConflict n fn).
Proof.
  intros Hfn. revert K C. induction n as [|n IH]; intros K C; cbn; apply backed_bind; (eapply backed_mono; [|apply Hfn]);
    intros K' C' [a|e|]; cbn; try done; destruct (IsConflict e); cbn; auto.
Qed.

(** ** The programs make no request without credit *)
Lemma claimed_claim ss : claimed_ids (claim_statuses ss) = [].
Proof.
  unfold claimed_ids, claim_statuses. induction ss as [|s ss IH]; cbn; [done|].
  destruct (is_pending s) eqn:E; [|by rewrite E].
  unfold is_pending at 1. cbn. by rewrite andb_false_r.
Qed.
Lemma pend_claim etp : pend (set_statuses (claim_statuses (et_Statuses etp)) etp) = ∅.
Proof. unfold pend, set_statuses; cbn [et_Statuses]. by rewrite claimed_claim. Qed.
Lemma backed_claim name K C :
  backed (λ _ C' r, match r with Ok l => list_to_set_disj l ⊆ C' | _ => True end) K C (claim name).
Proof.
  split; [|intros []; cbn; try done; multiset_solver]. intros etp <-. cbn.
  case_bool_decide; cbn; [multiset_solver|]. exists etp. split_and!; [by left|done..| |done].
  rewrite pend_claim. unfold pend. multiset_solver.
Qed.

Lemma backed_infra Q K C : (∀ r, Q K C r) → backed Q K C getInfraData.
Proof.
  intros HQ [u|e|]; cbn; [|by auto..]. intros [cm|e|]; cbn; [|by auto..].
  destruct (negb _); cbn; [by auto|]. by intros [sec|e|]; cbn; auto.
Qed.
Lemma backed_SendRequest id K C :
  id ∈ C → backed (λ K' C' _, K' = K ∧ C ∖ {[+ id +]} ⊆ C') K C (SendRequest id).
Proof.
  intros Hid. apply backed_bind, backed_infra. intros [[[accessKey clusterID] serverAddr]|e|]; cbn; [|by split; [|multiset_solver]..].
  destruct (new_request serverAddr); cbn; [|by split; [|multiset_solver]..].
  exists id. split_and!; [done|by eexists _, _|]. intros [[statusCode respBody]|e|]; cbn; [|done..].
  destruct (negb _); cbn; [done|]. by destruct respBody.
Qed.
Lemma backed_dispatch claimed toRevert err K C :
  list_to_set_disj claimed ⊆ C → backed (λ _ _ _, True) K C (dispatch claimed toRevert err).
Proof.
  revert toRevert err K C. induction claimed as [|id claimed IH]; intros toRevert err K C HC; cbn [dispatch]; [done|].
  apply backed_bind. unfold dispatch_one. apply backed_bind. eapply backed_mono; [|apply (backed_SendRequest id); multiset_solver].
  intros ? C' r [-> HC']. assert (list_to_set_disj claimed ⊆ C') by multiset_solver. cbn.
  destruct r as [text|e|]; cbn; [|by apply IH|done]. by destruct (decode_response text); cbn; [apply IH|apply IH|].
Qed.
Lemma backed_release name toRevert K C : backed (λ _ _ _, True) K C (release name toRevert).
Proof.
  split; [|by intros []]. intros etp <-. cbn. destruct (existsb _ _); cbn; [|done].
  exists etp. by split_and!; [left|..].
Qed.
Lemma backed_Reconcile name K C : backed (λ _ _ _, True) K C (Reconcile name).
Proof.
  eapply (backed_failing _ _ _ (λ _ C' l, list_to_set_disj l ⊆ C')).
  { eapply backed_retry. intros. apply backed_claim. }
  intros K1 C1 claimed HC. eapply (backed_failing _ _ _ (λ _ _ _, True)).
  { eapply backed_mono; [|by apply backed_dispatch]. by intros ? ? [|?|]. }
  intros K2 C2 [toRevert err] _. eapply (backed_failing _ _ _ (λ _ _ _, True)); [|done].
  case_bool_decide; [done|]. apply (backed_retry _ (λ _ _, True)). intros.
  eapply backed_mono; [|apply backed_release]. by intros ? ? [].
Qed.

Lemma backed_audit resourceType newObj oldObj id name K C : backed (λ _ _ _, True) K C (audit_policy resourceType newObj oldObj id name).
Proof.
  split; [|done]. intros etp <-. cbn. destruct (workload_kind _) as [kind|]; cbn; [|done].
  destruct (workload_data kind newObj); cbn; [|done..]. destruct (workload_data kind oldObj); cbn; [|done..].
  destruct (conditionChecker _ _ _) as [[]| |]; cbn; [|done..]. intros t. exists etp. by split_and!; [left|..].
Qed.
Lemma backed_audits resourceType newObj oldObj id names K C : backed (λ _ _ _, True) K C (audit_policies resourceType newObj oldObj id names).
Proof.
  revert K C. induction names as [|name names IH]; intros K C; cbn -[audit_policy]; [done|]. apply backed_bind.
  eapply backed_mono; [|apply backed_audit]. by intros K' C' [u|e|] _.
Qed.
Lemma backed_update resourceType kind oldObj newObj K C : backed (λ _ _ _, True) K C (on_update resourceType kind oldObj newObj).
Proof.
  unfold on_update. destruct (negb _); [done|]. destruct (is_event _ _); [|done]. apply backed_bind.
  intros [u|e|]; cbn; [|done..]. intros [names|e|]; cbn; [|done..]. apply backed_audits.
Qed.
Lemma backed_starts p : starts p → backed (λ _ _ _, True) [] ∅ p.
Proof. destruct 1; [apply backed_Reconcile|apply backed_update..]. Qed.

(** ** The pool of programs *)

Definition holds (s : ApiState) (p : Prog (res unit)) (h : Holding) : Prop :=
  Forall (.∈ as_history s) h.1 ∧ backed (λ _ _ _, True) h.1 h.2 p.
Definition in_order (st : ApiState * list (Prog (res unit))) : Prop :=
  versioned st.1 ∧ ∃ hs, Forall2 (holds st.1) st.2 hs ∧ accounted st.1 hs.

Lemma holds_mono s s' p h : as_history s ⊆ as_history s' → holds s p h → holds s' p h.
Proof. intros Hh [HK Hp]. split; [|done]. eapply Forall_impl; [|exact HK]. cbn. set_solver. Qed.
Lemma others_hold s s' ps hs : as_history s ⊆ as_history s' → Forall2 (holds s) ps hs → Forall2 (holds s') ps hs.
Proof. intros Hh. apply Forall2_impl. intros p h. by apply holds_mono. Qed.

(** A call of the program at [i]: what it holds afterwards. *)
Lemma calls_in_order s ps hs i p h s' p' :
  versioned s → Forall2 (holds s) ps hs → accounted s hs → ps !! i = Some p → hs !! i = Some h → calls s p s' p' →
  versioned s' ∧ as_history s ⊆ as_history s' ∧ ∃ h', holds s' p' h' ∧ accounted s' (<[i := h']> hs).
Proof.
  intros Hv Hps Ha Hi Hh Hc. destruct h as [K C].
  destruct (Forall2_lookup_lr _ _ _ _ _ _ Hps Hi Hh) as [HK Hp]. cbn in HK, Hp.
  destruct Hc; cbn in Hp;
    try (split_and!; [done|done|]; exists (K, C); split; [by split|]; by eapply accounted_credits).
  - split_and!; [done|done|]. exists (etp :: K, C). split; [|by eapply accounted_credits].
    split; [by constructor|by apply Hp].
  - split_and!; [done|done|]. exists (K, C). split; [split; [done|by apply Hp]|by eapply accounted_credits].
  - destruct Hp as (old & Hold & Hn & Hr & Hok & _). split_and!; [by apply versioned_store|cbn; set_solver|].
    assert (old = cur) as ->.
    { eapply (ver_unique s Hv); [by apply (proj1 (Forall_forall _ _) HK), list_elem_of_In|by eapply (ver_stored s Hv)|congruence]. }
    eexists. split; [|by eapply accounted_earn]. split; [|done]. eapply Forall_impl; [|exact HK]. cbn. set_solver.
  - destruct Hp as (old & Hold & Hn & Hr & _ & He). split_and!; [by apply versioned_store|cbn; set_solver|].
    exists (K, C). split; [split; [|done]|].
    + eapply Forall_impl; [|exact HK]. cbn. set_solver.
    + eapply accounted_credits; [exact Hh|reflexivity|]. by apply accounted_store.
  - destruct Hp as (old & _ & _ & _ & _ & He). split_and!; [done|done|]. exists (K, C).
    split; [by split|]. by eapply accounted_credits.
  - destruct Hp as (id & Hid & Hreq & Hk). split_and!; [by apply versioned_sent|done|]. eexists. split; [|by eapply accounted_spend]. by split.
  - destruct Hp as (id & Hid & Hreq & Hk). split_and!; [done|done|]. exists (K, C ∖ {[+ id +]}).
    split; [by split|]. eapply accounted_credits; [done| |done]. multiset_solver.
Qed.

Lemma tracker_step_in_order st st' : in_order st → tracker_step st st' → in_order st'.
Proof.
  intros (Hv & hs & Hps & Ha) Hst. destruct Hst as [s ps i p s' p' Hi Hc|s ps p Hp|s ps etp|s ps name]; cbn in *.
  - destruct (Forall2_lookup_l _ _ _ _ _ Hps Hi) as (h & Hh & _).
    destruct (calls_in_order s ps hs i p h s' p' Hv Hps Ha Hi Hh Hc) as (Hv' & Hsub & h' & Hh' & Ha').
    split; [done|]. exists (<[i := h']> hs). split; [|done]. by apply Forall2_insert; [eapply others_hold|].
  - split; [done|]. exists (hs ++ [([], ∅)])%list. split.
    + apply Forall2_app; [done|]. constructor; [|done]. split; [done|]. by apply backed_starts.
    + destruct Ha as (ids & Hids & Hle). exists ids. split; [done|]. rewrite credits_app. cbn [credits snd].
      clear -Hle. multiset_solver.
  - split; [by apply versioned_store|]. exists hs. split; [|by apply accounted_store].
    eapply others_hold; [|done]. cbn. set_solver.
  - split; [by apply versioned_remove|]. exists hs. split; [done|].
    destruct Ha as (ids & Hids & Hle). exists ids. split; [done|]. cbn. rewrite (total_lookup _ name) in Hle.
    clear -Hle. multiset_solver.
Qed.

(** C39. Every request is backed by a trigger: under every interleaving of
    handlers, reconcilers and users, with stale reads, conflicts and calls that
    fail, every request names an experiment, and for each experiment there are at
    most as many requests as a trigger of it became pending. *)
Theorem requests_are_backed st :
  rtc tracker_step (no_policies, []) st →
  ∃ ids, Forall2 request_for (as_sent st.1) ids ∧ list_to_set_disj ids ⊆ as_armed st.1.
Proof.
  intros Hr. assert (in_order st) as (_ & hs & _ & ids & Hids & Hle).
  { assert (in_order (no_policies, [])) as Hi; [|induction Hr; eauto using tracker_step_in_order].
    split; [split; cbn; set_solver|]. exists []. split; [done|]. exists []. split; [done|]. done. }
  exists ids. split; [done|]. clear -Hle. multiset_solver.
Qed.


(** ** Runs without interference *)

(** An API server that answers the calls about policies, and the rest of the world:
    whether there is a client, the data of the agent, the time, and the answers
    of the server. *)
Record Host : Type := mkHost {
  ho_Kube : res unit; ho_ConfigMap : result ApiError (gmap string string); ho_Secret : result ApiError (gmap string string);
  ho_Time : string; ho_Post : string → string → res (Z * res string)
}.
Definition read_policy (name : string) (s : ApiState) : result ApiError EventTrackerPolicy :=
  match as_policies s !! name with Some etp => Ok etp | None => Err (NotFound name) end.
Definition write_policy (etp : EventTrackerPolicy) (s : ApiState) : result ApiError unit * ApiState :=
  match as_policies s !! et_Name etp with
  | None => (Err (NotFound (et_Name etp)), s)
  | Some cur =>
      if bool_decide (et_ResourceVersion cur = et_ResourceVersion etp) then (Ok tt, store etp s)
      else (Err (Conflict (et_Name etp)), s)
  end.
Fixpoint run {A} (h : Host) (p : Prog A) (s : ApiState) : A * ApiState :=
  match p with
  | Return a => (a, s)
  | KubeClient k => run h (k (ho_Kube h)) s
  | ListPolicies k => run h (k (Ok (map_to_list (as_policies s)).*1)) s
  | GetPolicy name k => run h (k (read_policy name s)) s
  | UpdatePolicy etp k => run h (k (write_policy etp s).1) (write_policy etp s).2
  | GetConfigMap _ k => run h (k (ho_ConfigMap h)) s
  | GetSecret _ k => run h (k (ho_Secret h)) s
  | TimeNow k => run h (k (ho_Time h)) s
  | Post addr payload k => run h (k (ho_Post h addr payload)) (add_sent payload s)
  end.
Lemma run_bind {A B} h (m : Prog A) (f : A → Prog B) s : run h (m ≫= f) s = run h (f (run h m s).1) (run h m s).2.
Proof. revert s. induction m; cbn; intros; auto. Qed.

(** Such a run is one of the interleavings: that of a program that runs alone. *)
Definition acts {A} (x y : ApiState * Prog A) : Prop := calls x.1 x.2 y.1 y.2.
Lemma acts_l {A} s (p : Prog A) s' p' z : calls s p s' p' → rtc acts (s', p') z → rtc acts (s, p) z.
Proof. intros Hc. by apply rtc_l. Qed.
Lemma run_calls {A} h (p : Prog A) s :
  versioned s → (∀ name cur, as_policies s !! name = Some cur → et_Name cur = name) →
  rtc acts (s, p) ((run h p s).2, Return (run h p s).1).
Proof.
  revert s. induction p as [a|k IH|k IH|name k IH|etp k IH|name k IH|name k IH|k IH|addr payload k IH]; cbn; intros s Hv Hn;
    [done|..]; try (eapply acts_l; [by constructor|by eauto]; fail).
  - eapply acts_l; [|by eauto]. unfold read_policy. destruct (_ !! name) as [etp|] eqn:E; constructor; [|by apply Hn].
    by eapply (ver_stored s Hv).
  - unfold write_policy. destruct (_ !! et_Name etp) as [cur|] eqn:E; cbn; [|eapply acts_l; [by constructor|by eauto]].
    case_bool_decide; cbn; [|eapply acts_l; [by constructor|by eauto]].
    eapply acts_l; [by econstructor|]. apply IH; [by apply versioned_store|]. intros name cur'. cbn.
    rewrite lookup_insert_Some. intros [[<- <-]|[_ ?]]; [done|by apply Hn].
  - eapply acts_l; [by constructor|]. apply IH; [by apply versioned_sent|done].
Qed.

Lemma acts_in_pool (x y : ApiState * Prog (res unit)) : rtc acts x y → rtc tracker_step (x.1, [x.2]) (y.1, [y.2]).
Proof.
  induction 1 as [|[s p] [s' p'] z Hc _ IH]; [done|]. eapply rtc_l; [|exact IH].
  by apply (program_acts s [p] 0 p s' p').
Qed.

Section host.
Context (h : Host).

(** The data of the agent: access key, identifier, and the address of the server, if
    there is a client, the configuration and the secret can be read, the
    infrastructure is confirmed and the address is one. *)
Definition agent_data : res (string * string * string) :=
  match ho_Kube h, ho_ConfigMap h, ho_Secret h with
  | Ok _, Ok config, Ok secret =>
      if str_eq (entry config "IS_INFRA_CONFIRMED") "true" then
        match new_request (entry config "SERVER_ADDR") with
        | Ok _ => Ok (entry secret "ACCESS_KEY", entry secret "INFRA_ID", entry config "SERVER_ADDR")
        | Err e => Err (ErrNew ("failed to create request: " +:+ error_text e))
        | Panic => Panic
        end
      else Err (ErrNew "failed to get infra data: infrastructure not confirmed")
  | Panic, _, _ => Panic
  | Err e, _, _ => Err (ErrNew ("failed to get infra data: failed to get Kubernetes clientset: " +:+ error_text e))
  | _, Panic, _ => Panic
  | _, Err e, _ => Err (ErrNew ("failed to get infra data: failed to get ConfigMap: " +:+ api_text e))
  | _, Ok config, r =>
      if str_eq (entry config "IS_INFRA_CONFIRMED") "true" then
        match r with
        | Err e => Err (ErrNew ("failed to get infra data: failed to get Secret: " +:+ api_text e))
        | _ => Panic
        end
      else Err (ErrNew "failed to get infra data: infrastructure not confirmed")
  end.
(** The requests made for an experiment: one, or none without the data. *)
Definition requests (id : string) : list string :=
  match agent_data with Ok (accessKey, clusterID, _) => [notify_payload clusterID accessKey id] | _ => [] end.
(** What a request for an experiment brings: an error, or whether the claim has to be
    released. *)
Definition response (id : string) : res string :=
  match agent_data with
  | Ok (accessKey, clusterID, serverAddr) =>
      match ho_Post h serverAddr (notify_payload clusterID accessKey id) with
      | Ok (statusCode, body) =>
          if negb (bool_decide (statusCode = 200%Z)) then Ok "URL is not reachable or Bad request"
          else match body with Err e => Err (ErrNew ("failed to read response body: " +:+ error_text e)) | r => r end
      | Err e => Err (ErrNew ("failed to send request: " +:+ error_text e))
      | Panic => Panic
      end
  | Err e => Err e
  | Panic => Panic
  end.
Definition outcome (id : string) : result error bool :=
  match response id with
  | Ok text =>
      match decode_response text with Ok n => Ok (str_eq n "Gitops Disabled") | Err e => Err e | Panic => Panic end
  | Err e => Err e
  | Panic => Panic
  end.
Definition refused (id : string) : bool := match outcome id with Ok disabled => disabled | _ => true end.
Definition last_error (err : option error) (ids : list string) : option error :=
  foldl (λ err id, match outcome id with Err e => Some e | _ => err end) err ids.

Definition sends (ids : list string) (s : ApiState) : ApiState := foldl (λ s payload, add_sent payload s) s (ids ≫= requests).
Lemma run_SendRequest id s : run h (SendRequest id) s = (response id, sends [id] s).
Proof.
  unfold SendRequest, getInfraData, response, sends, requests, agent_data, failing. cbn -[entry notify_payload bool_decide].
  destruct (ho_Kube h) as [u|e|]; cbn -[entry notify_payload bool_decide]; [|done..].
  destruct (ho_ConfigMap h) as [config|e|]; cbn -[entry notify_payload bool_decide]; [|done..].
  destruct (str_eq _ "true"); cbn -[entry notify_payload bool_decide]; [|by destruct (ho_Secret h)].
  destruct (ho_Secret h) as [secret|e|]; cbn -[entry notify_payload bool_decide]; [|done..].
  destruct (new_request _) as [u'|e|]; cbn -[entry notify_payload bool_decide]; [|done..].
  destruct (ho_Post _ _ _) as [[code body]|e|]; cbn -[bool_decide]; [|done..]. destruct (negb _); [done|]. by destruct body.
Qed.
Lemma run_dispatch_one id s : run h (dispatch_one id) s = (outcome id, sends [id] s).
Proof. unfold dispatch_one, outcome. by rewrite run_bind, run_SendRequest. Qed.
Lemma sends_cons id ids s : sends (id :: ids) s = sends ids (sends [id] s).
Proof. unfold sends. cbn. by rewrite app_nil_r, foldl_app. Qed.
Lemma run_dispatch ids toRevert err s :
  Forall (λ id, outcome id ≠ Panic) ids →
  run h (dispatch ids toRevert err) s =
    (Ok (toRevert ++ List.filter refused ids, last_error err ids)%list, sends ids s).
Proof.
  intros Hids. revert toRevert err s. induction Hids as [|id ids Hid _ IH]; intros toRevert err s; cbn [dispatch].
  { cbn. by rewrite app_nil_r. }
  rewrite run_bind, run_dispatch_one. cbn [fst snd]. cbn [List.filter last_error foldl]. unfold refused at 1.
  destruct (outcome id) as [[]|e|]; [..|done]; rewrite IH, <-sends_cons; by rewrite <-?(assoc_L (++)).
Qed.
Lemma sends_sent ids s :
  sends ids s = mkApi (as_policies s) (as_history s) (as_clock s) (as_sent s ++ (ids ≫= requests))%list (as_armed s).
Proof.
  unfold sends. generalize (ids ≫= requests). intros l. revert s.
  induction l as [|payload l IH]; intros s; cbn; [rewrite app_nil_r; by destruct s|]. rewrite IH. cbn.
  by rewrite <-(assoc_L (++)).
Qed.

Lemma run_retry {A} n (fn : Prog (result ApiError A)) s a s' :
  run h fn s = (Ok a, s') → run h (RetryOnConflict n fn) s = (Ok a, s').
Proof. intros E. by destruct n; cbn [RetryOnConflict]; rewrite run_bind, E. Qed.

Lemma claim_none ss : claimed_ids ss = [] → claim_statuses ss = ss.
Proof.
  unfold claimed_ids, claim_statuses. induction ss as [|s ss IH]; [done|]. cbn.
  destruct (is_pending s) eqn:E; [done|]. intros Hss. by rewrite IH.
Qed.
Lemma revert_none R ss : existsb (is_reverted R) ss = false → revert_statuses R ss = ss.
Proof.
  unfold revert_statuses. induction ss as [|s ss IH]; [done|]. cbn. destruct (is_reverted R s); [done|].
  cbn. intros Hss. by rewrite IH.
Qed.

(** The triggers of the policy [name]. *)
Definition statuses_at (name : string) (s : ApiState) : option (list Status) := et_Statuses <$> as_policies s !! name.
Lemma run_claim name etp s :
  as_policies s !! name = Some etp → et_Name etp = name →
  ∃ s', run h (claim name) s = (Ok (claimed_ids (et_Statuses etp)), s') ∧
    (∃ etp', as_policies s' !! name = Some etp' ∧ et_Name etp' = name ∧ et_Statuses etp' = claim_statuses (et_Statuses etp)) ∧
    as_sent s' = as_sent s ∧ delete name (as_policies s') = delete name (as_policies s).
Proof.
  intros Hs Hn. unfold claim. cbn. unfold read_policy. rewrite Hs. case_bool_decide as Hc; cbn.
  { exists s. rewrite Hc. split; [done|]. split; [|done]. exists etp. by rewrite claim_none. }
  unfold write_policy. cbn. rewrite Hn, Hs, bool_decide_true by done. eexists. split; [done|]. cbn. rewrite Hn.
  split; [|by rewrite delete_insert_eq]. eexists. by rewrite lookup_insert_eq.
Qed.
Lemma run_release name R etp s :
  as_policies s !! name = Some etp → et_Name etp = name →
  ∃ s', run h (release name R) s = (Ok tt, s') ∧
    statuses_at name s' = Some (revert_statuses R (et_Statuses etp)) ∧
    as_sent s' = as_sent s ∧ delete name (as_policies s') = delete name (as_policies s).
Proof.
  intros Hs Hn. unfold release. cbn. unfold read_policy. rewrite Hs. destruct (existsb _ _) eqn:Hc; cbn.
  2: { exists s. unfold statuses_at. rewrite Hs. cbn. by rewrite revert_none. }
  unfold write_policy. cbn. rewrite Hn, Hs, bool_decide_true by done. eexists. split; [done|]. cbn. rewrite Hn.
  unfold statuses_at. cbn. rewrite Hn, lookup_insert_eq, delete_insert_eq. done.
Qed.
Lemma revert_nil ss : revert_statuses [] ss = ss.
Proof. apply revert_none. by induction ss. Qed.

(** C28. Alone, with the calls about its policy answered, [Reconcile] makes exactly
    one request for every pending trigger of its policy, in their order, with the
    identity of the agent, if the data of the agent can be read, its
    infrastructure is confirmed and the address of the server is one, and none
    otherwise. Afterwards every trigger is served but those of experiments whose
    request could not be made, failed or was refused, which are pending again; no
    other policy is touched; and the error is that of the last request that could
    not be made or failed. *)
Theorem reconcile_serves_the_triggers name etp s :
  as_policies s !! name = Some etp → et_Name etp = name →
  Forall (λ id, outcome id ≠ Panic) (claimed_ids (et_Statuses etp)) →
  let ids := claimed_ids (et_Statuses etp) in
  let o := run h (Reconcile name) s in
  o.1 = match last_error None ids with Some e => Err e | None => Ok tt end ∧
  as_sent o.2 = (as_sent s ++ (ids ≫= requests))%list ∧
  statuses_at name o.2 = Some (revert_statuses (List.filter refused ids) (claim_statuses (et_Statuses etp))) ∧
  delete name (as_policies o.2) = delete name (as_policies s).
Proof.
  intros Hs Hn Hids. cbv zeta. destruct (run_claim name etp s Hs Hn) as (s1 & E1 & (etp1 & Hs1 & Hn1 & Hss) & Hsent & Hdel).
  unfold Reconcile, failing. rewrite run_bind, (run_retry _ _ _ _ _ E1). cbn [fst snd].
  rewrite run_bind, run_dispatch by done. cbn [fst snd app]. rewrite run_bind, sends_sent.
  set (s2 := mkApi _ _ _ _ _). set (R := List.filter refused _). set (err := last_error _ _).
  case_bool_decide as HR.
  - cbn [run fst snd]. rewrite HR, revert_nil. unfold statuses_at. cbn. rewrite Hs1, Hsent, Hdel. cbn. by rewrite Hss.
  - destruct (run_release name R etp1 s2 Hs1 Hn1) as (s3 & E3 & Hst & Hsent3 & Hdel3).
    rewrite (run_retry _ _ _ _ _ E3). cbn [run fst snd mret Prog_ret]. rewrite Hst, Hsent3, Hdel3, Hss. cbn. by rewrite Hsent, Hdel.
Qed.

(** *** Handlers *)
Section change.
Context (resourceType : string) (kind : WorkloadKind) (oldObj newObj : Workload) (newData oldData : JValue).
Context (Hkind : workload_kind resourceType = Some kind) (Hnew : workload_data kind newObj = Ok newData)
  (Hold : workload_data kind oldObj = Ok oldData).
(** The trigger that the change adds to a policy. *)
Definition arms (id : string) (etp : EventTrackerPolicy) : list Status :=
  match conditionChecker (et_Spec etp) newData oldData with
  | Ok true => [new_status (ho_Time h) resourceType (wl_Name newObj) id]
  | _ => []
  end.
Definition readable (name : string) (etp : EventTrackerPolicy) : Prop :=
  et_Name etp = name ∧ is_ok (conditionChecker (et_Spec etp) newData oldData) = true.

Lemma run_audit id name etp s :
  as_policies s !! name = Some etp → readable name etp →
  ∃ s', run h (audit_policy resourceType newObj oldObj id name) s = (Ok tt, s') ∧ as_sent s' = as_sent s ∧
    statuses_at name s' = Some (et_Statuses etp ++ arms id etp)%list ∧ delete name (as_policies s') = delete name (as_policies s).
Proof.
  intros Hs [Hn Hc]. unfold audit_policy, failing. cbn. unfold read_policy. rewrite Hs. cbn. rewrite Hkind, Hnew. cbn.
  rewrite Hold. cbn. unfold arms, statuses_at. destruct (conditionChecker _ _ _) as [[]| |]; cbn; [|by exists s; rewrite Hs, app_nil_r|done..].
  unfold write_policy. cbn. rewrite Hn, Hs, bool_decide_true by done. cbn. eexists. split; [done|]. cbn.
  by rewrite Hn, lookup_insert_eq, delete_insert_eq.
Qed.
Lemma same_elsewhere (m m' : gmap string EventTrackerPolicy) name name' :
  delete name m' = delete name m → name' ≠ name → m' !! name' = m !! name'.
Proof. intros E Hne. rewrite <-(lookup_delete_ne m' name) by done. rewrite E. by apply lookup_delete_ne. Qed.
Lemma run_audits id names s :
  NoDup names → (∀ name, name ∈ names → ∃ etp, as_policies s !! name = Some etp ∧ readable name etp) →
  ∃ s', run h (audit_policies resourceType newObj oldObj id names) s = (Ok tt, s') ∧ as_sent s' = as_sent s ∧
    (∀ name, name ∉ names → as_policies s' !! name = as_policies s !! name) ∧
    ∀ name etp, name ∈ names → as_policies s !! name = Some etp →
      statuses_at name s' = Some (et_Statuses etp ++ arms id etp)%list.
Proof.
  intros Hnd. revert s. induction Hnd as [|name names Hni _ IH]; intros s Hs; cbn [audit_policies].
  { exists s. split_and!; [done..|]. set_solver. }
  destruct (Hs name) as (etp & Hetp & Hr); [set_solver|].
  destruct (run_audit id name etp s Hetp Hr) as (s1 & E1 & Hsent1 & Hst1 & Hdel1).
  assert (∀ n, n ≠ name → as_policies s1 !! n = as_policies s !! n) as Hne by (intros; by eapply same_elsewhere).
  destruct (IH s1) as (s2 & E2 & Hsent2 & Hout & Hin).
  { intros n Hn. rewrite Hne by set_solver. apply Hs. set_solver. }
  exists s2. rewrite run_bind, E1. cbn [fst snd]. split_and!; [done|congruence|..].
  - intros n Hn. rewrite Hout by set_solver. apply Hne. set_solver.
  - intros n e [->|Hn]%elem_of_cons He.
    + unfold statuses_at in *. rewrite Hout by done. by simplify_eq.
    + apply Hin; [done|]. rewrite Hne; [done|set_solver].
Qed.

(** Alone, with a client, the handler of a change that concerns the tracker adds one pending
    trigger, for the experiment of the workload, to every policy whose conditions
    the change meets, and does nothing else. *)
Theorem change_arms_the_policies s :
  ho_Kube h = Ok tt → is_event oldObj newObj = true → wl_Kind newObj = kind → wl_Kind oldObj = kind →
  map_Forall readable (as_policies s) →
  let o := run h (on_update resourceType kind oldObj newObj) s in
  o.1 = Ok tt ∧ as_sent o.2 = as_sent s ∧
  ∀ name, statuses_at name o.2 =
    (λ etp, et_Statuses etp ++ arms (annotation newObj annotationKey) etp)%list <$> as_policies s !! name.
Proof.
  intros Hkube Hev Hkn Hko Hs. unfold on_update. rewrite Hkn, Hko, !bool_decide_true by done. cbn [negb andb]. rewrite Hev.
  cbv zeta. rewrite run_bind. unfold PolicyAuditor, failing. cbn [run mbind Prog_bind mret Prog_ret]. rewrite Hkube.
  cbn [run mbind Prog_bind mret Prog_ret]. set (names := (map_to_list (as_policies s)).*1).
  destruct (run_audits (annotation newObj annotationKey) names s) as (s' & E & Hsent & Hout & Hin).
  { apply NoDup_fst_map_to_list. }
  { intros name ([n etp] & -> & Hp%elem_of_map_to_list)%list_elem_of_fmap. exists etp. split; [done|]. by apply (Hs n). }
  rewrite E. cbn. split_and!; [done..|]. intros name. destruct (as_policies s !! name) as [etp|] eqn:Hp; cbn.
  - apply Hin; [|done]. apply list_elem_of_fmap. exists (name, etp). by rewrite elem_of_map_to_list.
  - unfold statuses_at. rewrite Hout, Hp; [done|]. intros ([n etp] & -> & Hq%elem_of_map_to_list)%list_elem_of_fmap.
    cbn in Hp. congruence.
Qed.
End change.
End host.
End tracker.

(** ** Witnesses and examples *)

(** An answer is JSON when it begins with a brace; the field of [apiResponse] is
    looked up by its name. *)
#[local] Instance fix_tracker_codec : TrackerCodec := {|
  workload_json := λ w, Ok (JMap [("image", JString (wl_Rest w))]);
  deep_equal := λ a b, str_eq (wl_Rest a) (wl_Rest b);
  new_request := λ _, Ok tt;
  decode_response := λ text,
    if Contains text "gitopsNotifer" && Contains text "Gitops Disabled" then Ok "Gitops Disabled"
    else if HasPrefix text "{" then Ok "" else Err (ErrNew "invalid character")
|}.
#[local] Instance fix_tracker_env : TrackerEnv := {| TrackerVersion := "3.0.0" |}.
#[local] Instance fix_search : JMESPath := λ k v,
  match v with
  | JMap l => Ok (default JNil (snd <$> List.find (λ e, str_eq (fst e) k) l))
  | _ => Err (ErrNew "not found")
  end.
#[local] Instance fix_sprint : Sprint := λ v, match v with JString s => s | _ => "" end.

(** A host whose server answers every request with the same text. *)
Definition host_of (confirmed : string) (statusCode : Z) (text : string) : Host :=
  mkHost (Ok tt) (Ok (<["IS_INFRA_CONFIRMED" := confirmed]> (<["SERVER_ADDR" := "http://server/query"]> ∅)))
    (Ok (<["ACCESS_KEY" := "key"]> (<["INFRA_ID" := "infra"]> ∅))) "now" (λ _ _, Ok (statusCode, Ok text)).
Definition fix_host : Z → string → Host := host_of "true".
Definition fix_request : string := notify_payload "infra" "key" "exp-1".
Definition fix_policy : EventTrackerPolicy :=
  mkPolicy "policy" 0 (mkPolicySpec "and" [mkCondition "image" (Some "v2") "EqualTo"]) [new_status "" "Deployment" "web" "exp-1"].
Definition fix_workload (version image : string) : Workload :=
  mkWorkload KDeployment "web" version (<["litmuschaos.io/gitops" := "true"]> (<[annotationKey := "exp-1"]> ∅)) image.

Lemma requests_are_backed_witness :
  let o := run (fix_host 200 "{}") (Reconcile "policy") (store fix_policy no_policies) in
  rtc tracker_step (no_policies, []) (o.2, [Return o.1]) ∧
  length (as_sent o.2) = 1%nat ∧
  ∃ ids, Forall2 request_for (as_sent o.2) ids ∧ list_to_set_disj ids ⊆ as_armed o.2.
Proof.
  cbv zeta. set (o := run _ _ _).
  assert (rtc tracker_step (no_policies, []) (o.2, [Return o.1])) as Hr.
  { eapply rtc_l; [apply (user_writes no_policies [] fix_policy)|].
    eapply rtc_l; [apply (program_starts _ [] (Reconcile "policy")); constructor|].
    refine (acts_in_pool (store fix_policy no_policies, Reconcile "policy") (o.2, Return o.1) (run_calls _ _ _ _ _)).
    - apply versioned_store. split; set_solver.
    - intros name cur. cbn. rewrite lookup_insert_Some. by intros [[<- <-]|[_ ?]]. }
  split; [exact Hr|]. split; [vm_compute; reflexivity|]. apply (requests_are_backed (o.2, [Return o.1]) Hr).
Defined.

Lemma reconcile_serves_the_triggers_witness :
  let h := fix_host 200 "{}" in let s := store fix_policy no_policies in
  let o := run h (Reconcile "policy") s in
  o.1 = Ok tt ∧ as_sent o.2 = [fix_request] ∧
  statuses_at "policy" o.2 = Some [mkStatus "" "Deployment" "web" ConditionPassed "exp-1" "true"] ∧
  delete "policy" (as_policies o.2) = ∅.
Proof.
  refine (reconcile_serves_the_triggers (fix_host 200 "{}") "policy" (set_resource_version 1 fix_policy)
           (store fix_policy no_policies) _ _ _); [reflexivity..|].
  repeat constructor. vm_compute. discriminate.
Defined.

(** Before the infrastructure is confirmed no request is made, and the trigger stays
    pending. *)
Example unconfirmed_agent_waits :
  let o := run (host_of "false" 200 "{}") (Reconcile "policy") (store fix_policy no_policies) in
  o.1 = Err (ErrNew "failed to get infra data: infrastructure not confirmed") ∧ as_sent o.2 = [] ∧
  statuses_at "policy" o.2 = Some (et_Statuses fix_policy).
Proof. split_and!; vm_compute; reflexivity. Qed.

(** A change of an annotated workload arms the policy, and the reconciliation that
    follows makes the request. *)
Example change_reaches_the_server :
  let h := fix_host 200 "{}" in
  let s := store (set_statuses [] fix_policy) no_policies in
  let s1 := (run h (RunDeploymentInformer (fix_workload "1" "v1") (fix_workload "2" "v2")) s).2 in
  statuses_at "policy" s1 = Some [new_status "now" "Deployment" "web" "exp-1"] ∧
  as_sent (run h (Reconcile "policy") s1).2 = [fix_request].
Proof. split; vm_compute; reflexivity. Qed.

(** The field of the answer is [gitopsNotifier], the field that is decoded is
    [gitopsNotifer]: where GitOps is disabled, and as well where the server
    answers with an error of GraphQL, the trigger counts as served. *)
Definition disabled_answer : string := "{" +:+ dq +:+ "data" +:+ dq +:+ ":{" +:+ dq +:+ "gitopsNotifier" +:+ dq +:+ ":" +:+ dq +:+ "Gitops Disabled" +:+ dq +:+ "}}".
Definition error_answer : string := "{" +:+ dq +:+ "errors" +:+ dq +:+ ":[]," +:+ dq +:+ "data" +:+ dq +:+ ":null}".
Example refused_trigger_counts_as_served :
  let served text :=
    let o := run (fix_host 200 text) (Reconcile "policy") (store fix_policy no_policies) in
    (o.1, fmap (M := option) (fmap (M := list) st_IsTriggered) (statuses_at "policy" o.2)) in
  served disabled_answer = (Ok tt, Some ["true"]) ∧ served error_answer = (Ok tt, Some ["true"]).
Proof. split; vm_compute; reflexivity. Qed.
