(* ===== verification/AgentEvents.v ===== *)
(** * AgentEvents.v: what the agent reports about runs

    [subscriber/pkg/events]: workflows and engines of the cluster become events
    ([WorkflowEventHandler], [chaosEventHandler]), which are completed with what
    was known before and sent to the server ([SendWorkflowUpdates]). *)
From S2P Require Import Prelude World GoStd GraphDocs Experiments RunScore RunEvent Authorization Cluster.
From Stdlib Require Import Ascii.
Local Open Scope string_scope.
Local Open Scope Z_scope.

(** ** Texts *)

(** [StrConvTime] *)
Definition StrConvTime (time : Z) : string := if bool_decide (time < 0) then "" else Itoa time.

Definition resolveEngineNamespace (manifestNS fallbackNS : string) : string :=
  let engineNS := TrimSpace manifestNS in
  if str_eq engineNS "" || Contains engineNS "{{" then fallbackNS else engineNS.

Fixpoint getAdminModeNamespace (parameters : list (string * string)) (fallbackNS : string) : string :=
  match parameters with
  | [] => fallbackNS
  | (name, value) :: parameters =>
      if str_eq name "adminModeNamespace" then
        let val := TrimSpace value in
        if negb (str_eq val "") && negb (Contains val "{{") then val else fallbackNS
      else getAdminModeNamespace parameters fallbackNS
  end.

(** The first match of [ChaosEngine Name : ([\w-]+)]: the longest run of word
    characters after the leftmost occurrence that one follows. *)
Definition is_word (c : ascii) : bool := is_alnum c || bool_decide (c = "_"%char) || bool_decide (c = "-"%char).
Fixpoint word_prefix (l : list ascii) : list ascii :=
  match l with
  | c :: l => if is_word c then c :: word_prefix l else []
  | [] => []
  end.
Fixpoint find_name (l : list ascii) : list ascii :=
  match l with
  | [] => []
  | _ :: l' =>
      match strip_prefix (chars "ChaosEngine Name : ") l with
      | Some rest => match word_prefix rest with [] => find_name l' | name => name end
      | None => find_name l'
      end
  end.
Definition getNameFromLog (log : string) : string := of_chars (find_name (chars log)).

Section events.
Context {K S : Type} `{Cluster K} `{Endpoint S} `{Runtime} `{MapOrder} `{AgentCodec} `{VendorConstants}.
Local Abbreviation AM := (M (Agent K S)).

(** ** Chaos data *)

(** [GetLogs] of [pkg/k8s/log.go] *)
Definition GetLogs (podName namespace container : string) : AM (res string) :=
  let? _ := cluster kc_KubeConfig in
  let? _ := cluster kc_Clientset in
  cluster (kc_PodLogs podName namespace container).

Definition is_stopped (status : string) : bool := lower_eq status "stopped".
Definition failed_verdict (status verdict : string) : bool :=
  is_stopped status || (lower_eq status "completed" && negb (lower_eq verdict "pass")).

Definition engine_data (engineName engineNS : string) (crd : ChaosEngine) : ChaosData :=
  let stopped := is_stopped (ce_EngineStatus crd) in
  mkChaosData (ce_UID crd) (entry (ce_Labels crd) "context") engineName engineNS "" (if stopped then ce_EngineStatus crd else "")
    "" (if stopped then "Fail" else "") "" "" "0" "" None.

Definition experiment_data (crd : ChaosEngine) (exp : ExperimentStatuses) (cd : ChaosData) : ChaosData :=
  mkChaosData (xd_EngineUID cd) (xd_EngineContext cd) (xd_EngineName cd) (xd_Namespace cd) (es_Name exp)
    (ce_EngineStatus crd) (Itoa (Unix (es_LastUpdateTime exp)))
    (if failed_verdict (ce_EngineStatus crd) (es_Verdict exp) then "Fail" else es_Verdict exp)
    (es_ExpPod exp) (es_Runner exp) (xd_ProbeSuccessPercentage cd) (xd_FailStep cd) (xd_ChaosResult cd).

Definition result_data (expRes : ChaosResult) (cd : ChaosData) : ChaosData :=
  mkChaosData (xd_EngineUID cd) (xd_EngineContext cd) (xd_EngineName cd) (xd_Namespace cd) (xd_ExperimentName cd)
    (xr_Phase expRes) (xd_LastUpdatedAt cd) (xd_ExperimentVerdict cd) (xd_ExperimentPod cd) (xd_RunnerPod cd)
    (xr_ProbeSuccessPercentage expRes)
    (match xr_ErrorOutput expRes with Some (code, reason) => code +:+ " : " +:+ reason | None => xd_FailStep cd end)
    (Some (mkChaosResult (xr_Name expRes) ∅ (xr_ProbeSuccessPercentage expRes) (xr_Phase expRes) (xr_ErrorOutput expRes)
             (xr_ProbeStatuses expRes))).

(** Data and an error can come together: the engine was read, its result not. *)
Definition getChaosData (startedAt : Z) (engineName engineNS : string) : AM (res (option ChaosData * option error)) :=
  let! crd := cluster (kc_Engine engineNS engineName) or e => mret (Ok (None, Some e)) in
  if bool_decide (Unix startedAt > Unix (ce_Created crd)) then mret (Ok (None, None))
  else
    let cd := engine_data engineName engineNS crd in
    match ce_Experiments crd with
    | [] => mret (Ok (Some cd, None))
    | exp :: others =>
        let cd := experiment_data crd exp cd in
        match others with
        | [] =>
            let! expRes := cluster (kc_Result engineNS (ce_Name crd +:+ "-" +:+ es_Name exp)) or e =>
              mret (Ok (Some cd, Some e)) in
            mret (Ok (Some (result_data expRes cd), None))
        | _ => mret (Ok (Some cd, None))
        end
    end.

(** Type of the node, chaos data and error. *)
Definition CheckChaosData (nodeStatus : NodeStatus) (workflowNS chaosEngineNS : string) :
    AM (res (string * option ChaosData * option error)) :=
  match ns_Inputs nodeStatus with
  | Some (Some data :: _) =>
      match decode_manifest data with
      | Ok obj =>
          if str_eq (us_Kind obj) "ChaosEngine" then
            if negb (str_eq (ns_Phase nodeStatus) "Pending") then
              r ← (if negb (str_eq (us_GenerateName obj) "") then
                     let? log := GetLogs (ns_ID nodeStatus) workflowNS "main" in
                     let name := getNameFromLog log in
                     mret (if str_eq name "" then Err (ErrNew "Chaos-Engine Generated Name couldn't be retrieved")
                           else Ok name)
                   else mret (Ok (us_Name obj)));
              match r with
              | Ok name =>
                  let? cd := getChaosData (ns_StartedAt nodeStatus) name
                               (resolveEngineNamespace (us_Namespace obj) chaosEngineNS) in
                  mret (Ok ("ChaosEngine", cd.1, cd.2))
              | Err e => mret (Ok ("ChaosEngine", None, Some e))
              | Panic => mret Panic
              end
            else mret (Ok ("ChaosEngine", None, None))
          else mret (Ok (ns_Type nodeStatus, None, None))
      | Err _ => mret (Ok (ns_Type nodeStatus, None, None))
      | Panic => mret Panic
      end
  | _ => mret Panic
  end.

(** ** Workflows *)

(** Chaos events have one artifact, with the manifest as raw data. *)
Definition has_manifest (nodeStatus : NodeStatus) : bool :=
  str_eq (ns_Type nodeStatus) "Pod" &&
  match ns_Inputs nodeStatus with Some [Some _] => true | _ => false end.

Definition node_phase (oldObj : option Workflow) (i : string) (nodeStatus : NodeStatus) (cd : ChaosData) : string :=
  match oldObj ≫= (λ o, wf_Nodes o !! i) with
  | Some old => if str_eq (ns_Phase old) "Pending" && str_eq (ns_Phase nodeStatus) "Running" then "Running"
                else xd_ExperimentStatus cd
  | None => xd_ExperimentStatus cd
  end.

Definition node_details (oldObj : option Workflow) (i : string) (nodeStatus : NodeStatus) (nodeType : string)
    (cd : option ChaosData) : Node :=
  mkNode (ns_DisplayName nodeStatus)
    (match cd with
     | Some c => if str_eq nodeType "ChaosEngine" then node_phase oldObj i nodeStatus c else ns_Phase nodeStatus
     | None => ns_Phase nodeStatus
     end)
    (ns_Message nodeStatus) (StrConvTime (Unix (ns_StartedAt nodeStatus))) (StrConvTime (Unix (ns_FinishedAt nodeStatus)))
    (ns_Children nodeStatus) nodeType cd.

Fixpoint handle_nodes (oldObj : option Workflow) (workflowObj : Workflow) (adminModeNS : string) (keys : list string)
    (nodes : gmap string Node) : AM (res (gmap string Node)) :=
  match keys with
  | [] => mret (Ok nodes)
  | i :: keys =>
      match wf_Nodes workflowObj !! i with
      | None => handle_nodes oldObj workflowObj adminModeNS keys nodes
      | Some nodeStatus =>
          let? checked := (if has_manifest nodeStatus
                           then CheckChaosData nodeStatus (wf_Namespace workflowObj) adminModeNS
                           else mret (Ok (ns_Type nodeStatus, None, None))) in
          let '(nodeType, cd, _) := checked in
          handle_nodes oldObj workflowObj adminModeNS keys
            (<[ns_ID nodeStatus := node_details oldObj i nodeStatus nodeType cd]> nodes)
      end
  end.

Definition updateWorkflowStatus (status : string) : string :=
  if str_eq status WorkflowRunning then "Running"
  else if str_eq status WorkflowSucceeded then "Completed"
  else if str_eq status WorkflowFailed then "Completed"
  else if str_eq status WorkflowPending then "Pending"
  else if str_eq status WorkflowError then "Error"
  else "Pending".

(** The node of the workflow itself when it is shut down. *)
Definition stopped_node (workflowObj : Workflow) (finishedTime : string) (nodes : gmap string Node) : Node :=
  let old := default no_node (nodes !! wf_Name workflowObj) in
  mkNode (wf_Name workflowObj) "Stopped" "" (StrConvTime (Unix (wf_Created workflowObj))) finishedTime
    (no_Children old) (no_Type old) None.

Definition workflow_event (workflowObj : Workflow) (eventType status finishedTime : string) (nodes : gmap string Node) :
    WorkflowEvent :=
  mkEvent "events" (entry (wf_Labels workflowObj) "revision_id") (wf_Labels workflowObj !! "notify_id")
    (entry (wf_Labels workflowObj) "workflow_id") eventType (wf_UID workflowObj) (wf_Namespace workflowObj)
    (wf_Name workflowObj) (StrConvTime (Unix (wf_Created workflowObj))) status (wf_Message workflowObj)
    (StrConvTime (Unix (wf_StartedAt workflowObj))) finishedTime nodes (entry (wf_Labels workflowObj) "updated_by").

(** A run without the label is ignored: its event is the empty one. *)
Definition WorkflowEventHandler (oldObj : option Workflow) (workflowObj : Workflow) (eventType : string) (startTime : Z) :
    AM (res WorkflowEvent) :=
  if str_eq (entry (wf_Labels workflowObj) "workflow_id") "" then mret (Ok no_event)
  else if bool_decide (wf_Created workflowObj < startTime)
  then mret (Err (ErrNew "startTime of subscriber is greater than experiment creation timestamp"))
  else
    let! _ := cluster kc_KubeConfig or e => mret Panic in
    let! _ := cluster kc_ChaosClient or e => mret (Err (ErrNew ("could not get Chaos ClientSet: " +:+ error_text e))) in
    let adminModeNS := getAdminModeNamespace (wf_Parameters workflowObj) (wf_Namespace workflowObj) in
    keys ← agent_range (wf_Nodes workflowObj);
    let? nodes := handle_nodes oldObj workflowObj adminModeNS keys ∅ in
    let status := updateWorkflowStatus (wf_Phase workflowObj) in
    if wf_Shutdown workflowObj then
      t ← agent_now;
      let finishedTime := StrConvTime (Unix t) in
      mret (Ok (workflow_event workflowObj eventType "Stopped" finishedTime
                  (<[wf_Name workflowObj := stopped_node workflowObj finishedTime nodes]> nodes)))
    else
      mret (Ok (workflow_event workflowObj eventType status (StrConvTime (Unix (wf_FinishedAt workflowObj))) nodes)).
(** [startWatchWorkflow]: whatever the handler returns is streamed, also the
    empty event of a run that is ignored or refused. *)
Definition stream_workflow (oldObj : option Workflow) (workflowObj : Workflow) (eventType : string) (startTime : Z) :
    AM (res WorkflowEvent) :=
  let! event := WorkflowEventHandler oldObj workflowObj eventType startTime or _ => mret (Ok no_event) in
  mret (Ok event).

(** ** Standalone engines *)
Definition mapStatus (status : string) : string :=
  if str_eq status EngineStatusInitialized then "Running"
  else if str_eq status EngineStatusCompleted then "Succeeded"
  else if str_eq status EngineStatusStopped then "Stopped"
  else "Running".

Definition engine_finished (engine : ChaosEngine) : Z :=
  if str_eq (ce_EngineStatus engine) EngineStatusCompleted || str_eq (ce_EngineStatus engine) EngineStatusStopped then
    match ce_Experiments engine with exp :: _ => Unix (es_LastUpdateTime exp) | [] => -1 end
  else -1.

Definition engine_event (engine : ChaosEngine) (eventType : string) (cd : option ChaosData) : WorkflowEvent :=
  let started := StrConvTime (Unix (ce_Created engine)) in
  let finished := StrConvTime (engine_finished engine) in
  let details := mkNode (ce_Name engine) (mapStatus (ce_EngineStatus engine)) (ce_EngineStatus engine) started finished []
                   "ChaosEngine" cd in
  let steps := mkNode (ce_Name engine) "Succeeded" "" started finished [ce_Name engine +:+ "-engine"] "Steps" None in
  mkEvent "chaosengine" "" None (entry (ce_Labels engine) "workflow_id") eventType (ce_UID engine) (ce_Namespace engine)
    (ce_Name engine) started (no_Phase details) (no_Message details) (no_StartedAt details) (no_FinishedAt details)
    (<[ce_Name engine +:+ "-engine" := details]> (<[ce_Name engine := steps]> ∅)) "".

(** The event that is streamed, if any. *)
Definition chaosEventHandler (engine : ChaosEngine) (eventType : string) (startTime : Z) : AM (res (option WorkflowEvent)) :=
  if str_eq (entry (ce_Labels engine) "workflow_id") "" then mret (Ok None)
  else if bool_decide (ce_Created engine < startTime) then mret (Ok None)
  else
    let! _ := cluster kc_KubeConfig or e => mret Panic in
    let! _ := cluster kc_ChaosClient or e => mret Panic in
    let? data := getChaosData (ce_Created engine) (ce_Name engine) (ce_Namespace engine) in
    mret (Ok (Some (engine_event engine eventType data.1))).

(** ** Sending *)
Definition with_nodes (nodes : gmap string Node) (e : WorkflowEvent) : WorkflowEvent :=
  mkEvent (we_WorkflowType e) (we_RevisionID e) (we_NotifyID e) (we_WorkflowID e) (we_EventType e) (we_UID e)
    (we_Namespace e) (we_Name e) (we_CreationTimestamp e) (we_Phase e) (we_Message e) (we_StartedAt e) (we_FinishedAt e)
    nodes (we_UpdatedBy e).
Definition with_phase (phase : string) (e : WorkflowEvent) : WorkflowEvent :=
  mkEvent (we_WorkflowType e) (we_RevisionID e) (we_NotifyID e) (we_WorkflowID e) (we_EventType e) (we_UID e)
    (we_Namespace e) (we_Name e) (we_CreationTimestamp e) phase (we_Message e) (we_StartedAt e) (we_FinishedAt e)
    (we_Nodes e) (we_UpdatedBy e).

Definition is_none {A} (o : option A) : bool := match o with None => true | Some _ => false end.

(** What is kept of the node of the event before. *)
Definition recall (node cur : Node) : Node :=
  mkNode (no_Name cur) (no_Phase node) (no_Message node) (no_StartedAt cur) (no_FinishedAt cur) (no_Children cur)
    (no_Type cur) (no_ChaosExp node).
Definition halt (cur : Node) : Node :=
  mkNode (no_Name cur) "Stopped" (no_Message cur) (no_StartedAt cur) (no_FinishedAt cur) (no_Children cur) (no_Type cur)
    (no_ChaosExp cur).

(** One round of the loop over the nodes of the event before. The assignment of
    the time of the end, made after the node is stored, has no effect. *)
Definition merge_key (phase : string) (prev : gmap string Node) (nodes : gmap string Node) (key : string) :
    gmap string Node :=
  match prev !! key with
  | None => nodes
  | Some node =>
      let nodes :=
        let cur := default no_node (nodes !! key) in
        if str_eq (no_Type node) "ChaosEngine" && negb (is_none (no_ChaosExp node)) && is_none (no_ChaosExp cur)
        then <[key := recall node cur]> nodes else nodes in
      let cur := default no_node (nodes !! key) in
      if str_eq phase "Stopped" && (str_eq (no_Phase cur) "Running" || str_eq (no_Phase cur) "Pending")
      then <[key := halt cur]> nodes else nodes
  end.

(** The counters of failing nodes; the order of the nodes does not matter. *)
Definition count_node (_ : string) (node : Node) (acc : Z * Z) : Z * Z :=
  if str_eq (no_Type node) "ChaosEngine" && is_none (no_ChaosExp node) then (acc.1 + 1, acc.2)
  else if str_eq (no_Phase node) FaultCompletedWithProbeFailure then (acc.1, acc.2 + 1)
  else if str_eq (no_Phase node) FaultError then (acc.1 + 1, acc.2)
  else acc.

Definition getExperimentStatus (experiment : WorkflowEvent) : res string :=
  let status := we_Phase experiment in
  if str_eq status "" then Err (ErrNew "status is invalid")
  else if str_eq status "Stopped" || str_eq (we_FinishedAt experiment) "" then Ok status
  else
    let '(errorCount, probeFailureCount) := map_fold count_node (0, 0) (we_Nodes experiment) in
    if bool_decide (errorCount > 0) then Ok FaultError
    else if bool_decide (probeFailureCount > 0) then Ok FaultCompletedWithProbeFailure
    else Ok status.

(** Quotes are removed from the messages of the nodes. *)
Definition strip_message (n : Node) : Node :=
  mkNode (no_Name n) (no_Phase n) (ReplaceAll (no_Message n) dq "") (no_StartedAt n) (no_FinishedAt n) (no_Children n)
    (no_Type n) (no_ChaosExp n).
Definition strip_messages (e : WorkflowEvent) : WorkflowEvent := with_nodes (strip_message <$> we_Nodes e) e.

Definition identity_text (cid accessKey version : string) : string :=
  "{infraID: " +:+ bq +:+ cid +:+ bq +:+ ", version: " +:+ bq +:+ version +:+ bq +:+ ", accessKey: " +:+ bq +:+
  accessKey +:+ bq +:+ "}".
Definition query_text (text : string) : string := "{" +:+ dq +:+ "query" +:+ dq +:+ ":" +:+ dq +:+ text +:+ dq +:+ "}".

(** The event is one whose messages are stripped: the map of the nodes is that
    of the caller, and of the entry in [eventMap]. *)
Definition GenerateWorkflowPayload (cid accessKey version completed : string) (wfEvent : WorkflowEvent) : res string :=
  match marshal_event wfEvent with
  | Ok data =>
      let notify := match we_NotifyID wfEvent with
                    | Some id => ", notifyID:" +:+ bq +:+ id +:+ bq
                    | None => ""
                    end in
      let mutation :=
        "{ experimentID: " +:+ bq +:+ we_WorkflowID wfEvent +:+ bq +:+ ", experimentRunID: " +:+ bq +:+ we_UID wfEvent +:+
        bq +:+ ", revisionID:" +:+ bq +:+ we_RevisionID wfEvent +:+ bq +:+ notify +:+ ", completed: " +:+ completed +:+
        ", experimentName:" +:+ bq +:+ we_Name wfEvent +:+ bq +:+ ", infraID: " +:+ identity_text cid accessKey version +:+
        ", updatedBy:" +:+ bq +:+ we_UpdatedBy wfEvent +:+ bq +:+ ", executionData:" +:+ bq +:+ std_encode data +:+ bq +:+
        "}" in
      Ok (query_text ("mutation { chaosExperimentRun(request:" +:+ mutation +:+ " )}"))
  | Err e => Err e
  | Panic => Panic
  end.

(** The event with what was known before, its status and its messages. *)
Definition complete_event (event : WorkflowEvent) (prev : gmap string Node) (keys : list string) : WorkflowEvent :=
  let event := with_nodes (foldl (merge_key (we_Phase event) prev) (we_Nodes event) keys) event in
  let status := match getExperimentStatus event with Ok status => status | _ => "" end in
  strip_messages (with_phase status event).

Definition SendWorkflowUpdates (infraData : gmap string string) (event : WorkflowEvent) : AM (res string) :=
  eventMap ← get_events;
  event ← match eventMap !! we_UID event with
          | Some wfEvent =>
              keys ← agent_range (we_Nodes wfEvent);
              mret (complete_event event (we_Nodes wfEvent) keys)
          | None => mret (complete_event event ∅ [])
          end;
  _ ← set_events (<[we_UID event := event]>);
  let generate completed :=
    GenerateWorkflowPayload (entry infraData "INFRA_ID") (entry infraData "ACCESS_KEY") (entry infraData "VERSION")
      completed event in
  let! payload := mret (generate "false") or e =>
    mret (Err (ErrNew ("Error while generating graphql payload from the workflow event" +:+ error_text e))) in
  payload ← (if negb (str_eq (we_FinishedAt event) "") then
               _ ← set_events (delete (we_UID event));
               mret (match generate "true" with Ok p => p | _ => "" end)
             else mret payload);
  server (http_post (entry infraData "SERVER_ADDR") payload).

(** ** The watchers *)

(** An informer: the namespace it is limited to, its label selector, and the time
    of the start of the agent in milliseconds. *)
Record Informer : Type := mkInformer { if_Namespace : option string; if_LabelSelector : string; if_StartTime : Z }.
Definition watched_namespace `{AgentEnv} : option string :=
  if str_eq InfraScope "namespace" then Some InfraNamespace else None.
Definition WorkflowEventWatcher `{AgentEnv} (infraID : string) (infraData : gmap string string) : AM (res Informer) :=
  match Atoi (entry infraData "START_TIME") with
  | None => mret Panic
  | Some startTime =>
      let! _ := cluster kc_KubeConfig or e => mret Panic in
      let! _ := cluster kc_ArgoClient or e => mret Panic in
      mret (Ok (mkInformer watched_namespace
        ("infra_id=" +:+ infraID +:+ ",workflows.argoproj.io/controller-instanceid=" +:+ infraID) startTime))
  end.
Definition ChaosEventWatcher `{AgentEnv} (infraID : string) (infraData : gmap string string) : AM (res Informer) :=
  match Atoi (entry infraData "START_TIME") with
  | None => mret Panic
  | Some startTime =>
      let! _ := cluster kc_KubeConfig or e => mret Panic in
      let! _ := cluster kc_ChaosClient or e => mret Panic in
      mret (Ok (mkInformer watched_namespace ("infra_id=" +:+ infraID +:+ ",type=standalone_workflow") startTime))
  end.

(** What the informers call: [AddFunc] and [UpdateFunc] of [startWatchWorkflow] and
    of [startWatchEngine]. *)
Inductive Notification : Type :=
| WorkflowAdded (obj : Workflow)
| WorkflowUpdated (oldState newState : Workflow)
| EngineAdded (obj : ChaosEngine)
| EngineUpdated (obj : ChaosEngine).
Definition startWatchWorkflow (startTime : Z) (oldObj : option Workflow) (obj : Workflow) : AM (res (option WorkflowEvent)) :=
  let? event := stream_workflow oldObj obj (match oldObj with Some _ => "UPDATE" | None => "ADD" end) startTime in
  mret (Ok (Some event)).
Definition on_notification (startTime : Z) (n : Notification) : AM (res (option WorkflowEvent)) :=
  match n with
  | WorkflowAdded obj => startWatchWorkflow startTime None obj
  | WorkflowUpdated oldState newState => startWatchWorkflow startTime (Some oldState) newState
  | EngineAdded obj => chaosEventHandler obj "ADD" startTime
  | EngineUpdated obj => chaosEventHandler obj "UPDATE" startTime
  end.

(** [WorkflowUpdates]: the events of the channel, one after the other. *)
Fixpoint WorkflowUpdates (infraData : gmap string string) (events : list WorkflowEvent) : AM unit :=
  match events with
  | [] => mret tt
  | eventData :: events => _ ← SendWorkflowUpdates infraData eventData; WorkflowUpdates infraData events
  end.
End events.
