(* ===== verification/AgentOps.v ===== *)
(** * AgentOps.v: what the agent does in its cluster

    [subscriber/pkg/k8s]: the health of its components, its registration, the
    operations on objects the server asks for, namespaces, objects and logs. *)
From S2P Require Import Prelude World GoStd GraphDocs Experiments RunScore RunEvent Authorization Cluster AgentEvents.
From Stdlib Require Import Ascii.
Local Open Scope string_scope.
Local Open Scope Z_scope.

(** ** [strconv.Quote]

    The text is read as UTF-8. Which characters outside ASCII are printable is
    in the tables of the standard library. *)
Class UnicodePrint := is_print_rune : Z → bool.

Definition cont (lo hi : Z) (c : ascii) : bool := in_range lo hi c.
Definition any_cont : ascii → bool := cont 128 191.
Definition rune_tail (acc : Z) (c : ascii) : Z := acc * 64 + (code c - 128).
(** The first rune and its width; [None] for a byte that starts none. *)
Definition decode_rune (l : list ascii) : option (Z * nat) :=
  match l with
  | a :: b :: c :: d :: _ =>
      let z := code a in
      if bool_decide (z < 128) then Some (z, 1%nat)
      else if in_range 194 223 a && any_cont b then Some (rune_tail (z - 192) b, 2%nat)
      else if (bool_decide (z = 224) && cont 160 191 b || bool_decide (z = 237) && cont 128 159 b ||
               (in_range 225 239 a && negb (bool_decide (z = 237))) && any_cont b) && any_cont c
      then Some (rune_tail (rune_tail (z - 224) b) c, 3%nat)
      else if (bool_decide (z = 240) && cont 144 191 b || in_range 241 243 a && any_cont b ||
               bool_decide (z = 244) && cont 128 143 b) && any_cont c && any_cont d
      then Some (rune_tail (rune_tail (rune_tail (z - 240) b) c) d, 4%nat)
      else None
  | _ => None
  end.
(** A text shorter than four bytes is padded with bytes that continue nothing. *)
Definition first_rune (l : list ascii) : option (Z * nat) :=
  match l with [] => None | _ => decode_rune (l ++ replicate 3 (char 0)) end.

Definition hex_digit (z : Z) : ascii := if bool_decide (z < 10) then char (48 + z) else char (87 + z).
Fixpoint hex (digits : nat) (z : Z) : list ascii :=
  match digits with O => [] | S n => hex_digit (z / 16 ^ Z.of_nat n mod 16) :: hex n z end.

(** A rune that is not printable, after quote and backslash. *)
Definition escape_rune (z : Z) : list ascii :=
  let letter c := ["\"%char; c] in
  if bool_decide (z = 7) then letter "a"%char else if bool_decide (z = 8) then letter "b"%char
  else if bool_decide (z = 12) then letter "f"%char else if bool_decide (z = 10) then letter "n"%char
  else if bool_decide (z = 13) then letter "r"%char else if bool_decide (z = 9) then letter "t"%char
  else if bool_decide (z = 11) then letter "v"%char
  else if bool_decide (z < 32) || bool_decide (z = 127) then letter "x"%char ++ hex 2 z
  else if bool_decide (z < 65536) then letter "u"%char ++ hex 4 z
  else letter "U"%char ++ hex 8 z.

Section quote.
Context `{UnicodePrint}.

Fixpoint quote_go (skip : nat) (l : list ascii) : list ascii :=
  match l with
  | [] => []
  | a :: l' =>
      match skip with
      | S n => quote_go n l'
      | O =>
          match first_rune l with
          | None => ["\"%char; "x"%char] ++ hex 2 (code a) ++ quote_go 0 l'
          | Some (z, width) =>
              (if bool_decide (z = 34) || bool_decide (z = 92) then ["\"%char; a]
               else if (if bool_decide (z < 128) then bool_decide (32 ≤ z) && bool_decide (z < 127) else is_print_rune z)
               then firstn width l
               else escape_rune z) ++ quote_go (width - 1) l'
          end
      end
  end.
Definition Quote (s : string) : string := dq +:+ of_chars (quote_go 0 (chars s)) +:+ dq.
End quote.

(** [s[1 : len(s)-1]], which panics for a text shorter than two bytes. *)
Definition inner (s : string) : res string :=
  if bool_decide (String.length s < 2)%nat then Panic
  else Ok (of_chars (firstn (String.length s - 2) (skipn 1 (chars s)))).

Definition LiveCheckMaxTries : nat := 6.
Definition InfraConfigName : string := "subscriber-config".
Definition InfraSecretName : string := "subscriber-secret".

Section k8s.
Context {K S : Type} `{Cluster K} `{Endpoint S} `{Runtime} `{MapOrder} `{AgentCodec} `{VendorConstants} `{AgentEnv}
  `{UnicodePrint}.
Local Abbreviation AM := (M (Agent K S)).

(** ** Health of the components *)
Definition pod_healthy (pod : Pod) : bool := str_eq (pod_Phase pod) PodRunning && forallb id (pod_Ready pod).
Definition deploymentHealthy (namespace labelSelector : string) : AM (res bool) :=
  let! pods := cluster (kc_Pods namespace labelSelector) or _ => mret (Ok false) in
  mret (Ok (negb (bool_decide (pods = [])) && forallb pod_healthy pods)).

(** One goroutine per selector, in any order; the failures are counted. *)
Fixpoint count_failed (namespace : string) (selectors : list string) (failed : Z) : AM (res Z) :=
  match selectors with
  | [] => mret (Ok failed)
  | selector :: selectors =>
      let? healthy := deploymentHealthy namespace selector in
      count_failed namespace selectors (if (healthy : bool) then failed else failed + 1)
  end.
Definition any_order (l : list string) : AM (list string) := λ w, (map_order (ag_tick w) l, agent_bump w).
Definition allDeploymentsHealthy (namespace : string) (selectors : list string) : AM (res bool) :=
  match selectors with
  | [] => mret (Ok true)
  | _ =>
      selectors ← any_order selectors;
      let? failed := count_failed namespace selectors 0 in
      mret (Ok (bool_decide (failed = 0)))
  end.

(** The rounds that are left: a pause after each but the last. *)
Fixpoint live_check (tries : nat) (deployments : list string) : AM (res unit) :=
  match tries with
  | O => mret (Err (ErrNew "all components failed to startup"))
  | Datatypes.S rest =>
      let? healthy := allDeploymentsHealthy InfraNamespace deployments in
      if (healthy : bool) then mret (Ok tt)
      else
        _ ← (match rest with O => mret tt | _ => cluster kc_Sleep end);
        live_check rest deployments
  end.
Definition CheckComponentStatus (componentEnv : string) : AM (res unit) :=
  if str_eq componentEnv "" then mret (Err (ErrNew "components not found in infra config"))
  else
    let? _ := cluster kc_Clientset in
    let? deployments := mret (unmarshal_components (TrimSpace componentEnv)) in
    live_check LiveCheckMaxTries deployments.

(** ** Registration *)
Definition IsAgentConfirmed : AM (res (bool * string)) :=
  let? _ := cluster kc_Clientset in
  let! getCM := cluster (kc_ConfigMap InfraNamespace InfraConfigName) or e =>
    mret (Err (if is_not_found e then ErrNew (InfraConfigName +:+ " configmap not found") else e)) in
  if str_eq (entry getCM "IS_INFRA_CONFIRMED") "true" then
    let! getSecret := cluster (kc_Secret InfraNamespace InfraSecretName) or e =>
      mret (Err (ErrNew ("failed to get " +:+ InfraSecretName +:+ " secret: " +:+ error_text e))) in
    mret (Ok (true, entry (sc_Data getSecret) "ACCESS_KEY"))
  else mret (Ok (false, "")).

(** The config map has data: the flag is written into it. *)
Definition AgentRegister (accessKey : string) : AM (res bool) :=
  let? _ := cluster kc_Clientset in
  let? getCM := cluster (kc_ConfigMap InfraNamespace InfraConfigName) in
  let? getSecret := cluster (kc_Secret InfraNamespace InfraSecretName) in
  let? _ := cluster (kc_UpdateConfigMap InfraNamespace InfraConfigName (<["IS_INFRA_CONFIRMED" := "true"]> getCM)) in
  let? _ := cluster (kc_UpdateSecret InfraNamespace InfraSecretName
                       (mkSecret (sc_Data getSecret) (<["ACCESS_KEY" := accessKey]> ∅))) in
  mret (Ok true).

Definition confirm_payload (infraData : gmap string string) : string :=
  query_text ("mutation{ confirmInfraRegistration(request: " +:+
    identity_text (entry infraData "INFRA_ID") (entry infraData "ACCESS_KEY") (entry infraData "VERSION") +:+
    "){isInfraConfirmed newAccessKey infraID}}").
Definition AgentConfirm (infraData : gmap string string) : AM (res string) :=
  server (http_post (entry infraData "SERVER_ADDR") (confirm_payload infraData)).

(** ** Objects *)

(** [dr] is the resource, which [AgentOperations] has just set. A response that
    is nil stands for an object that exists already or no longer. *)
Definition apply_create (dr : string) (obj : Unstructured) : AM (res (option Unstructured)) :=
  let! response := cluster (kc_Create dr obj) or e =>
    mret (if is_already_exists e then Ok None else Err e) in
  mret (Ok (Some response)).

Definition set_version (version : string) (obj : Unstructured) : Unstructured :=
  mkUnstructured (us_Kind obj) (us_Name obj) (us_GenerateName obj) (us_Namespace obj) (us_Labels obj) version (us_Rest obj).
Definition apply_update (dr : string) (obj : Unstructured) : AM (res (option Unstructured)) :=
  let! getObj := cluster (kc_Get dr (us_Name obj)) or e => mret (if is_not_found e then Ok None else Err e) in
  let? response := cluster (kc_Update dr (set_version (us_ResourceVersion getObj) obj)) in
  mret (Ok (Some response)).

Definition empty_object : Unstructured := mkUnstructured "" "" "" "" None "" "".
(** By name, else by labels; an object with neither deletes nothing. *)
Definition apply_delete (dr : string) (obj : Unstructured) : AM (res (option Unstructured)) :=
  let! _ := (if negb (str_eq (us_Name obj) "") then cluster (kc_Delete dr (us_Name obj))
             else match us_Labels obj with
                  | Some labels => cluster (kc_DeleteCollection dr (delete "updated_by" labels))
                  | None => mret (Ok tt)
                  end) or e =>
    mret (if is_not_found e then Ok None else Err e) in
  mret (Ok (Some empty_object)).

Definition apply_get (dr : string) (obj : Unstructured) : AM (res (option Unstructured)) :=
  let! response := cluster (kc_Get dr (us_Name obj)) or e => mret (if is_not_found e then Ok None else Err e) in
  mret (Ok (Some response)).

Definition applyRequest (dr requestType : string) (obj : Unstructured) : AM (res (option Unstructured)) :=
  if str_eq requestType "create" then apply_create dr obj
  else if str_eq requestType "update" then apply_update dr obj
  else if str_eq requestType "delete" then apply_delete dr obj
  else if str_eq requestType "get" then apply_get dr obj
  else mret (Err (ErrNew ("err: Invalid Request" +:+ String (char 10) EmptyString))).

Definition addCustomLabels (customLabels : gmap string string) (obj : Unstructured) : Unstructured :=
  mkUnstructured (us_Kind obj) (us_Name obj) (us_GenerateName obj) (us_Namespace obj)
    (Some (customLabels ∪ default ∅ (us_Labels obj))) (us_ResourceVersion obj) (us_Rest obj).

Definition AgentOperations (infraAction : Action) : AM (res (option Unstructured)) :=
  let? yamlStr := mret (json_to_yaml (ac_K8SManifest infraAction)) in
  let? _ := cluster kc_DynamicClient in
  let? obj := mret (decode_manifest yamlStr) in
  let obj := if negb (str_eq (ac_RequestType infraAction) "delete")
             then addCustomLabels {["updated_by" := raw_url_encode (ac_Username infraAction)]} obj else obj in
  let? mapping := cluster (kc_Mapping obj) in
  let '(namespaced, resource) := mapping in
  let dr := kc_Resource resource (if (namespaced : bool) then Some (ac_Namespace infraAction) else None) in
  applyRequest dr (ac_RequestType infraAction) obj.

(** ** Namespaces

    The loop follows the continue token of the server until it is empty; a call
    after the deadline of the context is an error. *)
Definition deadline_exceeded : error := ErrNew "context deadline exceeded".
Fixpoint list_namespaces (calls : nat) (continue : string) (namespaceData : list string) : AM (res (list string)) :=
  match calls with
  | O => mret (Err deadline_exceeded)
  | Datatypes.S calls =>
      let? namespaceList := cluster (kc_Namespaces 500 continue) in
      let namespaceData := (namespaceData ++ nl_Items namespaceList)%list in
      if str_eq (nl_Continue namespaceList) "" then mret (Ok namespaceData)
      else list_namespaces calls (nl_Continue namespaceList) namespaceData
  end.
Definition GetKubernetesNamespaces : AM (res (list string)) :=
  if lower_eq InfraScope "namespace" then mret (Ok [InfraNamespace])
  else
    let? _ := cluster kc_Clientset in
    let? namespaceData := list_namespaces kc_CallBudget "" [] in
    if bool_decide (namespaceData = []) then mret (Err (ErrNew "No namespace available")) else mret (Ok namespaceData).

(** ** Objects of a type *)
Definition updateLabels (labels : gmap string string) : AM (list string) :=
  keys ← agent_range labels;
  mret ((λ k, k +:+ "=" +:+ entry labels k) <$> keys).
Fixpoint object_data (l : list ClusterObject) : AM (list ObjectData) :=
  match l with
  | [] => mret []
  | o :: l =>
      labels ← updateLabels (ko_Labels o);
      rest ← object_data l;
      mret (mkObjectData (ko_Name o) (ko_UID o) (ko_Namespace o) (ko_APIVersion o) (ko_Created o) (ko_Grace o) labels :: rest)
  end.
(** An error of the list is an empty answer. *)
Definition GetObjectDataByNamespace (namespace : string) (gvr : KubeGVRRequest) : AM (res (list ObjectData)) :=
  let! objects := cluster (kc_Objects (gv_Group gvr) (gv_Version gvr) (gv_Resource gvr) namespace) or _ => mret (Ok []) in
  data ← object_data objects;
  mret (Ok data).
Definition GetKubernetesObjects (request : KubeObjRequest) : AM (res KubeObject) :=
  let? _ := cluster kc_DynamicClient in
  let? dataList := GetObjectDataByNamespace (kq_Namespace request) (kq_GVR request) in
  mret (reencode_objects (mkKubeObjects InfraNamespace dataList)).

(** ** Answers *)

(** [MarshalGQLData] on the JSON text of its argument. *)
Definition MarshalGQLData (data : res string) : res string :=
  match data with
  | Ok data => Ok (ReplaceAll (Quote data) bq ("\" +:+ dq))
  | Err e => Err e
  | Panic => Panic
  end.
Definition infra_identity (infraData : gmap string string) : string :=
  identity_text (entry infraData "INFRA_ID") (entry infraData "ACCESS_KEY") (entry infraData "VERSION").

Definition GenerateKubeNamespace (infraData : gmap string string) (request : KubeNamespaceRequest) : AM (res string) :=
  let? kubeObj := GetKubernetesNamespaces in
  let? processed := mret (MarshalGQLData (marshal_namespaces kubeObj)) in
  let? text := mret (inner processed) in
  let mutation := "{ infraID: " +:+ infra_identity infraData +:+ ", requestID:" +:+ bq +:+ nq_RequestID request +:+ bq +:+
    ", kubeNamespace:" +:+ bq +:+ text +:+ bq +:+ "}" in
  mret (Ok (query_text ("mutation { kubeNamespace(request:" +:+ mutation +:+ " )}"))).
Definition GenerateKubeObject (infraData : gmap string string) (request : KubeObjRequest) : AM (res string) :=
  let? kubeObj := GetKubernetesObjects request in
  let? processed := mret (MarshalGQLData (marshal_objects kubeObj)) in
  let? text := mret (inner processed) in
  let mutation := "{ infraID: " +:+ infra_identity infraData +:+ ", requestID:" +:+ bq +:+ kq_RequestID request +:+ bq +:+
    ", kubeObj:" +:+ bq +:+ text +:+ bq +:+ "}" in
  mret (Ok (query_text ("mutation { kubeObj(request:" +:+ mutation +:+ " )}"))).

Definition send (infraData : gmap string string) (payload : string) : AM (res string) :=
  server (http_post (entry infraData "SERVER_ADDR") payload).
Definition SendKubeNamespaces (infraData : gmap string string) (request : KubeNamespaceRequest) : AM (res unit) :=
  let? payload := GenerateKubeNamespace infraData request in
  let? _ := send infraData payload in
  mret (Ok tt).
Definition SendKubeObjects (infraData : gmap string string) (request : KubeObjRequest) : AM (res unit) :=
  let? payload := GenerateKubeObject infraData request in
  let? _ := send infraData payload in
  mret (Ok tt).

(** ** Logs *)
Definition quoted_log (log : string) : res string := inner (Quote (ReplaceAll log dq "'")).
(** The log of one pod is added, if it can be read. *)
Definition add_pod_log (pod : option string) (namespace : string) (chaosLog : gmap string string) :
    AM (res (gmap string string)) :=
  match pod with
  | None => mret (Ok chaosLog)
  | Some pod =>
      let! log := GetLogs pod namespace "" or _ => mret (Ok chaosLog) in
      let? text := mret (quoted_log log) in
      mret (Ok (<[pod := text]> chaosLog))
  end.
Definition CreatePodLog (podLog : PodLogRequest) : AM (res PodLog) :=
  r ← GetLogs (lq_PodName podLog) (lq_PodNamespace podLog) "main";
  let? mainPod := mret (match r with
                        | Ok mainLog => quoted_log mainLog
                        | Err _ => Ok "Failed to get argo pod logs"
                        | Panic => Panic
                        end) in
  match lq_ChaosNamespace podLog with
  | Some chaosNamespace =>
      if lower_eq (lq_PodType podLog) "chaosengine" then
        let? chaosLog := add_pod_log (lq_ExpPod podLog) chaosNamespace ∅ in
        let? chaosLog := add_pod_log (lq_RunnerPod podLog) chaosNamespace chaosLog in
        mret (Ok (mkPodLog mainPod (match lq_ExpPod podLog, lq_RunnerPod podLog with
                                    | None, None => None
                                    | _, _ => Some chaosLog
                                    end)))
      else mret (Ok (mkPodLog mainPod None))
  | None => mret (Ok (mkPodLog mainPod None))
  end.
Definition GenerateLogPayload (infraData : gmap string string) (podLog : PodLogRequest) : AM (res string) :=
  r ← CreatePodLog podLog;
  let? processed := mret (match r with
                          | Ok logDetails =>
                              match MarshalGQLData (marshal_log logDetails) with
                              | Ok text => Ok text
                              | Err _ => Ok " Could not get logs "
                              | Panic => Panic
                              end
                          | Err _ => Ok " Could not get logs "
                          | Panic => Panic
                          end) in
  let? text := mret (inner processed) in
  let mutation := "{ infraID: " +:+ infra_identity infraData +:+ ", requestID:" +:+ bq +:+ lq_RequestID podLog +:+ bq +:+
    ", experimentRunID: " +:+ bq +:+ lq_ExperimentRunID podLog +:+ bq +:+ ", podName: " +:+ bq +:+ lq_PodName podLog +:+ bq +:+
    ", podType: " +:+ bq +:+ lq_PodType podLog +:+ bq +:+ ", log:" +:+ bq +:+ text +:+ bq +:+ "}" in
  mret (Ok (query_text ("mutation { podLog(request:" +:+ mutation +:+ " )}"))).
(** Errors are only logged. *)
Definition SendPodLogs (infraData : gmap string string) (podLog : PodLogRequest) : AM (res unit) :=
  let? payload := (let! payload := GenerateLogPayload infraData podLog or _ => mret (Ok "") in mret (Ok payload)) in
  let! _ := send infraData payload or _ => mret (Ok tt) in
  mret (Ok tt).
End k8s.
