(* ===== verification/AgentRequests.v ===== *)
(** * AgentRequests.v: what the server asks the agent to do

    [subscriber/pkg/requests/webhook.go] ([RequestProcessor]) and
    [subscriber/pkg/utils/workflow.go] ([WorkflowRequest]) on the operations of
    [AgentOps.v], the start of the process ([init] of [subscriber/subscriber.go]),
    and the connection to the server ([AgentConnect] of [webhook.go]): the
    subscription over a websocket, and the loop that reads messages and hands the
    actions in them to [RequestProcessor]. *)
From S2P Require Import Prelude World GoStd GraphDocs Experiments RunScore RunEvent Authorization Cluster AgentEvents AgentOps.
Local Open Scope string_scope.
Local Open Scope Z_scope.

Section requests.
Context {K S : Type} `{Cluster K} `{Endpoint S} `{Runtime} `{MapOrder} `{AgentCodec} `{VendorConstants} `{AgentEnv}
  `{UnicodePrint}.
Local Abbreviation AM := (M (Agent K S)).

(** ** Workflows: [pkg/events/util.go], [chaosengine.go] *)

(** [NewForConfigOrDie] panics where the client cannot be made. *)
Definition argo_client : AM (res unit) :=
  let? _ := cluster kc_KubeConfig in
  let! _ := cluster kc_ArgoClient or _ => mret Panic in
  mret (Ok tt).
Definition GetWorkflowObj (uid : string) : AM (res (option Workflow)) :=
  let? _ := argo_client in
  let? listWf := cluster (kc_Workflows InfraNamespace "") in
  mret (Ok (List.find (λ wf, str_eq (wf_UID wf) uid) listWf)).
Definition ListWorkflowObject (wfid : string) : AM (res (list Workflow)) :=
  let? _ := argo_client in
  cluster (kc_Workflows InfraNamespace ("workflow_id=" +:+ wfid)).

Definition stop_engine_patch : string :=
  "{" +:+ dq +:+ "spec" +:+ dq +:+ ":{" +:+ dq +:+ "engineState" +:+ dq +:+ ":" +:+ dq +:+ "stop" +:+ dq +:+ "}}".
Definition stop_workflow_patch : string :=
  "{" +:+ dq +:+ "spec" +:+ dq +:+ ":{" +:+ dq +:+ "shutdown" +:+ dq +:+ ":" +:+ dq +:+ "Stop" +:+ dq +:+ "}}".

(** The first patch that fails ends the loop. *)
Fixpoint patch_engines (namespace : string) (names : list string) : AM (res unit) :=
  match names with
  | [] => mret (Ok tt)
  | name :: names =>
      let! _ := cluster (kc_PatchEngine namespace name stop_engine_patch) or e =>
        mret (Err (ErrNew ("failed to patch chaosengines: " +:+ error_text e))) in
      patch_engines namespace names
  end.
Definition StopChaosEngineState (namespace : string) (workflowRunID : option string) : AM (res unit) :=
  let! _ := cluster kc_DynamicClient or e => mret (Err (ErrNew ("failed to get dynamic client, error: " +:+ error_text e))) in
  let selector := match workflowRunID with Some id => "workflow_run_id=" +:+ id | None => "" end in
  let! chaosEngines := cluster (kc_Engines namespace selector) or e =>
    mret (Err (ErrNew ("failed to list chaosengines: " +:+ error_text e))) in
  patch_engines namespace chaosEngines.

(** The error of the configuration is dropped: the client is made of nil. *)
Definition StopWorkflow (wfName namespace : string) : AM (res unit) :=
  let! _ := cluster kc_KubeConfig or _ => mret Panic in
  let! _ := cluster kc_ArgoClient or _ => mret Panic in
  let! _ := cluster (kc_PatchWorkflow namespace wfName stop_workflow_patch) or e =>
    mret (Err (ErrNew ("error in patching workflow: " +:+ error_text e))) in
  mret (Ok tt).

(** ** [WorkflowRequest] *)
Definition DeleteWorkflow (wfname : string) (agentData : gmap string string) : AM (res unit) :=
  let? _ := argo_client in
  cluster (kc_DeleteWorkflow (entry agentData "INFRA_NAMESPACE") wfname).

(** Errors are logged and the loop goes on; a panic ends it. *)
Fixpoint delete_workflows (agentData : gmap string string) (l : list Workflow) : AM (res unit) :=
  match l with
  | [] => mret (Ok tt)
  | wfs :: l =>
      let? _ := (let! _ := StopChaosEngineState (entry agentData "AGENT_NAMESPACE") (Some (wf_UID wfs)) or _ => mret (Ok tt)
                 in mret (Ok tt)) in
      let? _ := (let! _ := DeleteWorkflow (wf_Name wfs) agentData or _ => mret (Ok tt) in mret (Ok tt)) in
      delete_workflows agentData l
  end.

(** A workflow that is not found is nil, and its name is read all the same: in
    [workflow_run_stop] only after the engines were stopped. *)
Definition WorkflowRequest (agentData : gmap string string) (requestType externalData : string) : AM (res unit) :=
  if str_eq requestType "workflow_delete" then
    let? wfOb := ListWorkflowObject externalData in
    delete_workflows agentData wfOb
  else if str_eq requestType "workflow_run_delete" then
    let? wfOb := GetWorkflowObj externalData in
    match wfOb with
    | None => mret Panic
    | Some wf => DeleteWorkflow (wf_Name wf) agentData
    end
  else if str_eq requestType "workflow_run_stop" then
    let? wfOb := GetWorkflowObj externalData in
    r ← StopChaosEngineState (entry agentData "INFRA_NAMESPACE") (Some externalData);
    match r, wfOb with
    | Panic, _ | _, None => mret Panic
    | _, Some wf =>
        let! _ := StopWorkflow (wf_Name wf) (wf_Namespace wf) or _ => mret (Ok tt) in
        mret (Ok tt)
    end
  else mret (Ok tt).

(** ** [RequestProcessor] *)

(** [strings.Index(s, strings.ToLower(t)) >= 0] for an ASCII text [s]. *)
Definition among (s t : string) : bool := Contains s (of_chars (to_lower (chars t))).
Definition failing (what : string) {A} (m : AM (res A)) : AM (res unit) :=
  let! _ := m or e => mret (Err (ErrNew (what +:+ error_text e))) in
  mret (Ok tt).

Definition process_objects (infraData : gmap string string) (action : Action) : AM (res unit) :=
  if among "kubeobject kubeobjects" (ac_RequestType action) then
    let! request := mret (unmarshal_kube_request (ac_RequestID action) (ac_ExternalData action)) or e =>
      mret (Err (ErrNew ("failed to json unmarshal: " +:+ error_text e))) in
    failing "error getting kubernetes object data: " (SendKubeObjects infraData request)
  else mret (Ok tt).
Definition process_namespaces (infraData : gmap string string) (action : Action) : AM (res unit) :=
  if among "kubenamespace kubenamespaces" (ac_RequestType action) then
    let! request := mret (unmarshal_namespace_request (ac_RequestID action) (ac_ExternalData action)) or e =>
      mret (Err (ErrNew ("failed to json unmarshal: " +:+ error_text e))) in
    failing "error getting kubernetes namespace data: " (SendKubeNamespaces infraData request)
  else mret (Ok tt).
Definition process_rest (infraData : gmap string string) (action : Action) : AM (res unit) :=
  if lower_eq (ac_RequestType action) "logs" then
    let! podRequest := mret (unmarshal_log_request (ac_RequestID action) (ac_ExternalData action)) or e =>
      mret (Err (ErrNew ("error reading infra-action request [external-data]: " +:+ error_text e))) in
    SendPodLogs infraData podRequest
  else if among "create update delete get" (ac_RequestType action) then
    failing "error performing infra operation: " (AgentOperations action)
  else if among "workflow_delete workflow_run_delete workflow_run_stop " (ac_RequestType action) then
    failing "error performing events operation: "
      (WorkflowRequest infraData (ac_RequestType action) (ac_ExternalData action))
  else mret (Ok tt).

(** The tests are made one after the other: an action may pass several. *)
Definition RequestProcessor (infraData : gmap string string) (action : Action) : AM (res unit) :=
  let? _ := process_objects infraData action in
  let? _ := process_namespaces infraData action in
  process_rest infraData action.

(** ** The start of the process

    [init] of [subscriber.go] after the settings of TLS: the data with the access
    key to use. [logrus.Fatal] ends the process. *)
Definition confirm_agent (infraData : gmap string string) : AM (res (gmap string string)) :=
  let! bytes := AgentConfirm infraData or _ => mret Panic in
  let! confirm := mret (unmarshal_confirm bytes) or _ => mret Panic in
  if cf_IsInfraConfirmed confirm then
    let infraData := <["IS_INFRA_CONFIRMED" := "true"]> (<["ACCESS_KEY" := cf_NewAccessKey confirm]> infraData) in
    let! _ := AgentRegister (entry infraData "ACCESS_KEY") or _ => mret Panic in
    mret (Ok infraData)
  else mret (Ok infraData).

Definition start_up (infraData : gmap string string) : AM (res (gmap string string)) :=
  let! _ := CheckComponentStatus (entry infraData "COMPONENTS") or _ => mret Panic in
  let! confirmed := IsAgentConfirmed or _ => mret Panic in
  let '(isConfirmed, newKey) := confirmed in
  if (isConfirmed : bool) then mret (Ok (<["ACCESS_KEY" := newKey]> infraData))
  else confirm_agent infraData.
End requests.

(** ** The connection to the server *)

(** [types.RawData], as far as it is read: whether the payload has errors, and the
    action. *)
Record RawData : Type := mkRawData { rd_Type : string; rd_Errors : bool; rd_Action : Action }.
Record OperationMessage : Type := mkOperation { om_Payload : option string; om_Type : string }.

(** [net/url], the dialer, a message of the connection that is written, and the
    decoding of one that is read. *)
Class Websocket := {
  url_parts : string → res (string * string * string);
  url_text (scheme host path : string) : string;
  ws_dial : string → res unit;
  ws_write : OperationMessage → res unit;
  unmarshal_raw : string → res RawData;
}.

Section connect.
Context {K S : Type} `{Cluster K} `{Endpoint S} `{Runtime} `{MapOrder} `{AgentCodec} `{VendorConstants} `{AgentEnv}
  `{UnicodePrint} `{Websocket}.
Local Abbreviation AM := (M (Agent K S)).

(** ** The subscription *)
Definition connect_query (infraData : gmap string string) : string :=
  "{" +:+ dq +:+ "query" +:+ dq +:+ ":" +:+ dq +:+ "subscription {\n    infraConnect(request: {infraID: " +:+ bq +:+
  entry infraData "INFRA_ID" +:+ bq +:+ ", version: " +:+ bq +:+ entry infraData "VERSION" +:+ bq +:+ ", accessKey: " +:+ bq +:+
  entry infraData "ACCESS_KEY" +:+ bq +:+
  "}) {\n     action{\n      k8sManifest,\n      externalData,\n      requestID\n requestType\n     username\n     namespace\n     }\n  }\n}\n" +:+
  dq +:+ "}".
Definition websocket_url (addr : string) : res string :=
  match url_parts addr with
  | Ok (scheme, host, path) => Ok (url_text (if str_eq scheme "https" then "wss" else "ws") host path)
  | Err e => Err e
  | Panic => Panic
  end.
(** The messages the goroutine writes; an error ends the process. *)
Definition subscribe (infraData : gmap string string) : res unit :=
  match ws_write (mkOperation None "connection_init") with
  | Ok _ =>
      match ws_write (mkOperation (Some (connect_query infraData)) "start") with
      | Ok _ => Ok tt
      | _ => Panic
      end
  | _ => Panic
  end.

(** ** Messages *)
Definition panicWhen (errorMessage message : string) : res unit := if Contains message errorMessage then Panic else Ok tt.

(** What a message that was read means: [None] when the loop goes on to the next,
    else an action, or the end of the process. *)
Definition message_action (message : string) : res (option Action) :=
  match unmarshal_raw message with
  | Ok r =>
      if negb (str_eq (rd_Type r) "data") then Ok None
      else if rd_Errors r then
        match panicWhen "ALREADY CONNECTED" message with Ok _ => Ok None | _ => Panic end
      else Ok (Some (rd_Action r))
  | Err _ => Ok None
  | Panic => Panic
  end.
(** The loop, on what is read from the connection, one after the other: an error
    of a read ends the process, an error of a request is logged. When nothing is
    left the loop waits. *)
Fixpoint connect_loop (infraData : gmap string string) (reads : list (res string)) : AM (res unit) :=
  match reads with
  | [] => mret (Ok tt)
  | Ok message :: reads =>
      match message_action message with
      | Ok None => connect_loop infraData reads
      | Ok (Some action) =>
          let! _ := RequestProcessor infraData action or _ => connect_loop infraData reads in
          connect_loop infraData reads
      | _ => mret Panic
      end
  | _ :: _ => mret Panic
  end.
(** The goroutine writes while the loop already reads; the server sends actions
    only once the subscription has arrived. *)
Definition AgentConnect (infraData : gmap string string) (reads : list (res string)) : AM (res unit) :=
  match websocket_url (entry infraData "SERVER_ADDR") with
  | Ok u =>
      match ws_dial u, subscribe infraData with
      | Ok _, Ok _ => connect_loop infraData reads
      | _, _ => mret Panic
      end
  | _ => mret Panic
  end.

(** ** Every action is processed, in order *)

(** The actions of the messages, when none of them ends the process. *)
Fixpoint actions_of (messages : list string) : option (list Action) :=
  match messages with
  | [] => Some []
  | m :: messages =>
      match message_action m with
      | Ok None => actions_of messages
      | Ok (Some a) => (a ::.) <$> actions_of messages
      | _ => None
      end
  end.
Fixpoint process_all (infraData : gmap string string) (actions : list Action) : AM (res unit) :=
  match actions with
  | [] => mret (Ok tt)
  | a :: actions =>
      r ← RequestProcessor infraData a;
      match r with Panic => mret Panic | _ => process_all infraData actions end
  end.

(** As long as no message ends the process, the agent processes exactly the
    actions it was sent, each once and in their order; one that fails does not
    keep the next from being processed. *)
Theorem actions_are_processed_in_order infraData messages actions w :
  actions_of messages = Some actions →
  connect_loop infraData (Ok <$> messages) w = process_all infraData actions w.
Proof.
  revert actions w. induction messages as [|m messages IH]; cbn -[RequestProcessor]; intros actions w Ha; [by simplify_eq|].
  destruct (message_action m) as [[a|]|e|]; [|by apply IH|done..].
  destruct (actions_of messages) as [l|]; [|done]. cbn in Ha. simplify_eq. cbn -[RequestProcessor].
  unfold on_err, mbind, M_bind. destruct (RequestProcessor infraData a w) as [[u|e|] w1]; cbn; [by apply IH..|done].
Qed.
(** Whatever follows, the first read that fails ends the process after the actions
    before it. *)
Theorem lost_connection_ends_the_agent infraData messages actions e rest w :
  actions_of messages = Some actions →
  connect_loop infraData ((Ok <$> messages) ++ Err e :: rest)%list w = (Panic, (process_all infraData actions w).2).
Proof.
  revert actions w. induction messages as [|m messages IH]; cbn -[RequestProcessor]; intros actions w Ha; [by simplify_eq|].
  destruct (message_action m) as [[a|]|e'|]; [|by apply IH|done..].
  destruct (actions_of messages) as [l|]; [|done]. cbn in Ha. simplify_eq. cbn -[RequestProcessor].
  unfold on_err, mbind, M_bind. destruct (RequestProcessor infraData a w) as [[u|e'|] w1]; cbn; [by apply IH..|done].
Qed.
End connect.
