(* ===== verification/AgentFixtures.v ===== *)
(** * AgentFixtures.v: a concrete cluster, and the server behind the agent

    Executable instances of the parameters of the agent: a small cluster in
    memory, whose writes of the secret can be made to fail, and the endpoint that
    serves the confirmation of an agent with the model of the GraphQL server. *)
From S2P Require Import Prelude World MemMongo GoStd AuthEntities AuthRepo Fixtures GraphDocs Experiments RunScore RunEvent.
From S2P Require Import Pipelines Authorization AuthBridge Environments Infrastructure GraphFixtures.
From S2P Require Import Cluster AgentEvents AgentOps AgentRequests.
From Stdlib Require Import Ascii.
Local Open Scope string_scope.
Local Open Scope Z_scope.

(** ** The cluster *)
Record MemCluster : Type := mkMem {
  mc_config : gmap string string; mc_secret : gmap string string; mc_secret_fails : bool; mc_namespaces : list string;
  mc_engines : list ChaosEngine; mc_results : list ChaosResult; mc_workflows : list Workflow; mc_shutdown : list string
}.

Definition not_found : error := ErrNew "not found".
Definition read {A} (f : MemCluster → A) : M MemCluster (res A) := λ k, (Ok (f k), k).
Definition find_one {A} (f : MemCluster → list A) (q : A → bool) : M MemCluster (res A) := λ k,
  (match List.find q (f k) with Some x => Ok x | None => Err not_found end, k).

(** The page after a continue token, which is a position; pages have two items. *)
Definition namespace_page (names : list string) (continue : string) : NamespaceList :=
  let pos := Z.to_nat (Atoi_value continue) in
  mkNamespaceList (take 2 (drop pos names))
    (if bool_decide (length names ≤ pos + 2)%nat then "" else Itoa (Z.of_nat (pos + 2))).

#[export] Instance mem_cluster : Cluster MemCluster := {|
  kc_KubeConfig := mret (Ok tt); kc_Clientset := mret (Ok tt); kc_ChaosClient := mret (Ok tt);
  kc_ArgoClient := mret (Ok tt); kc_DynamicClient := mret (Ok tt);
  kc_Sleep := mret tt;
  kc_Pods _ _ := mret (Ok [mkPod "Running" [true]]);
  kc_Namespaces _ continue := λ k, (Ok (namespace_page (mc_namespaces k) continue), k);
  kc_CallBudget := 10;
  kc_ConfigMap _ _ := read mc_config;
  kc_UpdateConfigMap _ _ data := λ k,
    (Ok tt, mkMem data (mc_secret k) (mc_secret_fails k) (mc_namespaces k) (mc_engines k) (mc_results k) (mc_workflows k)
              (mc_shutdown k));
  kc_Secret _ _ := λ k, (Ok (mkSecret (mc_secret k) ∅), k);
  kc_UpdateSecret _ _ s := λ k,
    if mc_secret_fails k then (Err (ErrNew "connection refused"), k)
    else (Ok tt, mkMem (mc_config k) (sc_StringData s ∪ sc_Data s) false (mc_namespaces k) (mc_engines k) (mc_results k)
                   (mc_workflows k) (mc_shutdown k));
  kc_PodLogs _ _ _ := mret (Ok "");
  kc_Engine namespace name := find_one mc_engines (λ e, str_eq (ce_Namespace e) namespace && str_eq (ce_Name e) name);
  kc_Result _ name := find_one mc_results (λ r, str_eq (xr_Name r) name);
  kc_Engines namespace _ := λ k, (Ok (ce_Name <$> List.filter (λ e, str_eq (ce_Namespace e) namespace) (mc_engines k)), k);
  kc_PatchEngine _ _ _ := mret (Ok tt);
  kc_Workflows _ _ := read mc_workflows;
  kc_PatchWorkflow _ name _ := λ k,
    (Ok tt, mkMem (mc_config k) (mc_secret k) (mc_secret_fails k) (mc_namespaces k) (mc_engines k) (mc_results k)
              (mc_workflows k) (name :: mc_shutdown k));
  kc_DeleteWorkflow _ _ := mret (Ok tt);
  kc_Mapping obj := mret (Ok (true, us_Kind obj));
  kc_Resource resource namespace := resource;
  kc_Create _ obj := mret (Ok obj);
  kc_Get _ _ := mret (Err not_found);
  kc_Update _ obj := mret (Ok obj);
  kc_Delete _ _ := mret (Err not_found);
  kc_DeleteCollection _ _ := mret (Ok tt);
  kc_Objects _ _ _ _ := mret (Ok []);
  is_not_found e := bool_decide (e = not_found);
  is_already_exists _ := false;
|}.

#[export] Instance fix_vendor : VendorConstants := {|
  WorkflowRunning := "Running"; WorkflowSucceeded := "Succeeded"; WorkflowFailed := "Failed"; WorkflowPending := "Pending";
  WorkflowError := "Error"; EngineStatusInitialized := "initialized"; EngineStatusCompleted := "completed";
  EngineStatusStopped := "stopped"; PodRunning := "Running"
|}.
#[export] Instance fix_agent_env : AgentEnv := {| InfraNamespace := "litmus"; InfraScope := "cluster" |}.
#[export] Instance fix_print : UnicodePrint := λ _, true.

(** A manifest of an engine is its name; a confirmation is its key after a mark. *)
#[export] Instance fix_agent_codec : AgentCodec := {|
  decode_manifest s := Ok (mkUnstructured "ChaosEngine" s "" "litmus" None "" "");
  json_to_yaml s := Ok s;
  unmarshal_components s := Ok (Split s ",");
  marshal_event e := Ok (we_UID e);
  marshal_namespaces l := Ok (GoStd.Join l ",");
  marshal_objects o := Ok (kb_Namespace o);
  reencode_objects o := Ok o;
  marshal_log l := Ok (pl_MainPod l);
  unmarshal_kube_request id text := Ok (mkObjRequest id "" text "" (mkGVR "" "" ""));
  unmarshal_namespace_request id text := Ok (mkNamespaceRequest id text);
  unmarshal_log_request id text := Ok (mkLogRequest id "" "" text "litmus" "" None None None);
  unmarshal_confirm s := match s with
                         | String "T" key => Ok (mkConfirm true key "")
                         | String "F" _ => Ok (mkConfirm false "" "")
                         | _ => Err (ErrNew "invalid character")
                         end;
|}.

(** ** The server *)

(** The texts between escaped quotes. *)
Definition confirm_answer (r : res ConfirmInfraRegistrationResponse) : string :=
  match r with
  | Ok (mkConfirmResponse true (Some key) _) => "T" +:+ key
  | _ => "F"
  end.
#[export] Instance fix_endpoint : Endpoint (World GraphDB) := λ addr payload s,
  match Split payload bq with
  | [_; id; _; version; _; key; _] =>
      let o := ConfirmInfraRegistration (mkInfraIdentity id key version) s in (Ok (confirm_answer o.1), o.2)
  | _ => (Ok "", s)
  end.

(** ** An agent that has not been confirmed, and one whose writes fail *)
Definition fix_cluster (fails : bool) : MemCluster :=
  mkMem {["IS_INFRA_CONFIRMED" := "false"]} {["ACCESS_KEY" := "key1"]} fails ["default"; "kube-system"; "litmus"; "shop"; "web"]
    [mkChaosEngine "engine" "litmus" "uid-engine" ∅ 2000 "initialized" [mkExperimentStatuses "pod-delete" "runner" "pod" "Awaited" 3000]]
    [mkChaosResult "engine-pod-delete" ∅ "100" "Running" None []] [] [].
Definition fix_infra_data : gmap string string :=
  {["INFRA_ID" := "i1"; "ACCESS_KEY" := "key1"; "VERSION" := "3.20.0"; "COMPONENTS" := "app=subscriber";
    "INFRA_NAMESPACE" := "litmus"; "SERVER_ADDR" := "http://server/query"]}.
Definition fix_agent (fails : bool) : Agent MemCluster (World GraphDB) := mkAgent (fix_cluster fails) graph_world ∅ 0.
