(* ===== verification/AgentReports.v ===== *)
(** * AgentReports.v: theorems about the events of the agent

    What a report contains ([SendWorkflowUpdates]) in terms of all events of its
    run, what the agent remembers between reports, and what an event says about
    the workflow it was made from ([WorkflowEventHandler]). *)
From S2P Require Import Prelude World GoStd GraphDocs Experiments RunScore RunEvent Authorization Cluster AgentEvents.
Local Open Scope string_scope.
Local Open Scope Z_scope.

(** ** Merging, key by key *)

(** The node under a key after the loop, from the one before and the new one. *)
Definition recalled (node : Node) (cur : option Node) : option Node :=
  if str_eq (no_Type node) "ChaosEngine" && negb (is_none (no_ChaosExp node)) &&
     is_none (no_ChaosExp (default no_node cur)) then Some (recall node (default no_node cur)) else cur.
Definition halted (phase : string) (cur : option Node) : option Node :=
  if str_eq phase "Stopped" &&
     (str_eq (no_Phase (default no_node cur)) "Running" || str_eq (no_Phase (default no_node cur)) "Pending")
  then Some (halt (default no_node cur)) else cur.
Definition merged (phase : string) (node cur : option Node) : option Node :=
  match node with
  | None => cur
  | Some n => halted phase (recalled n cur)
  end.

Lemma merge_key_ne phase prev nodes key k : k ≠ key → merge_key phase prev nodes key !! k = nodes !! k.
Proof.
  intros Hk. unfold merge_key. destruct (prev !! key); [|done]. cbv zeta.
  by repeat (destruct (_ && _); rewrite ?lookup_insert_ne by done).
Qed.

Lemma merge_key_eq phase prev nodes key : merge_key phase prev nodes key !! key = merged phase (prev !! key) (nodes !! key).
Proof.
  unfold merged, merge_key, halted, recalled. destruct (prev !! key) as [node|]; [|done]. cbv zeta.
  destruct (str_eq (no_Type node) _ && _ && _).
  - rewrite lookup_insert_eq. cbn [from_option]. destruct (_ && _); by rewrite lookup_insert_eq.
  - destruct (_ && _); by rewrite ?lookup_insert_eq.
Qed.

Lemma merge_loop phase prev keys nodes k : NoDup keys →
  foldl (merge_key phase prev) nodes keys !! k = if bool_decide (k ∈ keys) then merged phase (prev !! k) (nodes !! k) else nodes !! k.
Proof.
  revert nodes. induction keys as [|key keys IH]; intros nodes HN; [done|].
  apply NoDup_cons in HN as [Hnin HN]. cbn. rewrite IH by done.
  destruct (decide (k = key)) as [->|Hk].
  - rewrite bool_decide_eq_false_2 by done. by rewrite bool_decide_eq_true_2, merge_key_eq by set_solver.
  - rewrite merge_key_ne by done. destruct (decide (k ∈ keys)).
    + by rewrite !bool_decide_eq_true_2 by set_solver.
    + by rewrite !bool_decide_eq_false_2 by set_solver.
Qed.

(** The result does not depend on the order in which the map is visited. *)
Lemma merge_order phase (prev nodes : gmap string Node) keys k : keys ≡ₚ (map_to_list prev).*1 →
  foldl (merge_key phase prev) nodes keys !! k = merged phase (prev !! k) (nodes !! k).
Proof.
  intros Hk. rewrite merge_loop by (rewrite Hk; apply NoDup_fst_map_to_list). case_bool_decide as Hin; [done|].
  destruct (prev !! k) as [n|] eqn:E; [|done]. destruct Hin. rewrite Hk, list_elem_of_fmap.
  exists (k, n). split; [done|]. by apply elem_of_map_to_list.
Qed.

(** ** Reports *)

(** [json.Marshal] has no reason to fail on structs of texts. *)
Class MarshalLaws (codec : AgentCodec) : Prop := marshal_ok : ∀ e, is_ok (marshal_event e) = true.

Section reports.
Context {K S : Type} {kube : Cluster K} {endpoint : Endpoint S} {rt : Runtime} {mo : MapOrder} {codec : AgentCodec}
  {vc : VendorConstants} {Hmo : MapOrderLaws mo} {Hmarshal : MarshalLaws codec}.
Local Abbreviation AM := (M (Agent K S)).
Implicit Types (infraData : gmap string string) (event e : WorkflowEvent) (w : Agent K S).

(** The text of a report: an event is reported as completed when it has an end. *)
Definition report_text infraData e : string :=
  match GenerateWorkflowPayload (entry infraData "INFRA_ID") (entry infraData "ACCESS_KEY") (entry infraData "VERSION")
          (if str_eq (we_FinishedAt e) "" then "false" else "true") e with Ok p => p | _ => "" end.
Definition report infraData e : AM (res string) :=
  server (http_post (entry infraData "SERVER_ADDR") (report_text infraData e)).

(** What the agent remembers after a report: runs that have not ended. *)
Definition remember e (m : gmap string WorkflowEvent) : gmap string WorkflowEvent :=
  if str_eq (we_FinishedAt e) "" then <[we_UID e := e]> m else delete (we_UID e) m.

(** The nodes known of a run. *)
Definition known (m : gmap string WorkflowEvent) (uid : string) : gmap string Node := default ∅ (we_Nodes <$> m !! uid).

(** The reported event [e] is [event] with what was known. *)
Definition completes (m : gmap string WorkflowEvent) event e : Prop :=
  ∃ keys, keys ≡ₚ (map_to_list (known m (we_UID event))).*1 ∧
          e = complete_event event (known m (we_UID event)) keys.

Lemma completes_fields m event e : completes m event e → we_UID e = we_UID event ∧ we_FinishedAt e = we_FinishedAt event.
Proof. by intros (keys & _ & ->). Qed.

Lemma completes_nodes m event e k : completes m event e →
  we_Nodes e !! k = strip_message <$> merged (we_Phase event) (known m (we_UID event) !! k) (we_Nodes event !! k).
Proof.
  intros (keys & Hk & ->). unfold complete_event, strip_messages. cbn. by rewrite lookup_fmap, merge_order.
Qed.

(** Sending is: complete the event, remember it, report it. *)
Lemma send_reports infraData event w :
  ∃ e n, completes (ag_events w) event e ∧
    SendWorkflowUpdates infraData event w =
    report infraData e (mkAgent (ag_cluster w) (ag_server w) (remember e (ag_events w)) n).
Proof.
  assert (∀ e w1, (let generate completed := GenerateWorkflowPayload (entry infraData "INFRA_ID") (entry infraData "ACCESS_KEY")
                     (entry infraData "VERSION") completed e in
                   _ ← set_events (<[we_UID e := e]>);
                   let! payload := mret (generate "false") or er =>
                     mret (Err (ErrNew ("Error while generating graphql payload from the workflow event" +:+ error_text er))) in
                   payload ← (if negb (str_eq (we_FinishedAt e) "") then
                                _ ← set_events (delete (we_UID e));
                                mret (match generate "true" with Ok p => p | _ => "" end)
                              else mret payload);
                   server (http_post (entry infraData "SERVER_ADDR") payload)) w1
     = report infraData e (mkAgent (ag_cluster w1) (ag_server w1) (remember e (ag_events w1)) (ag_tick w1))) as Hrest.
  { intros e [k s m t]. cbn. unfold on_err, report, report_text, remember, mbind, M_bind, mret, M_ret, set_events. cbn.
    pose proof (marshal_ok e) as Hok. unfold GenerateWorkflowPayload. destruct (marshal_event e); try done. cbn.
    destruct (str_eq (we_FinishedAt e) ""); cbn; [done|]. by rewrite delete_insert_eq. }
  unfold SendWorkflowUpdates, get_events. unfold mbind, M_bind at 1. cbn.
  destruct (ag_events w !! we_UID event) as [wfEvent|] eqn:E.
  - exists (complete_event event (we_Nodes wfEvent) (map_order (ag_tick w) (map_to_list (we_Nodes wfEvent)).*1)), (Datatypes.S (ag_tick w)).
    split; [|apply Hrest]. eexists. unfold known. rewrite E. split; [apply map_order_perm|done].
  - exists (complete_event event ∅ []), (ag_tick w). split; [|apply Hrest].
    exists []. unfold known. rewrite E. split; [by cbn; rewrite map_to_list_empty|done].
Qed.

(** The chaos data an event has for a node. *)
Definition node_data (n : option Node) : option ChaosData := n ≫= no_ChaosExp.
Definition data_at (key : string) e : option ChaosData := node_data (we_Nodes e !! key).

(** The events of a run, in order, and the last chaos data they had for a node. *)
Definition run_of (uid : string) (l : list WorkflowEvent) : list WorkflowEvent := List.filter (λ e, str_eq (we_UID e) uid) l.
Definition newer (key : string) (old : option ChaosData) e : option ChaosData :=
  match data_at key e with Some cd => Some cd | None => old end.
Definition latest (key : string) (l : list WorkflowEvent) : option ChaosData := foldl (newer key) None l.

Definition engine_node (n : option Node) : Prop := ∀ x, n = Some x → no_Type x = "ChaosEngine".

Lemma merged_data phase node cur : engine_node node →
  node_data (strip_message <$> merged phase node cur) =
  match node_data cur with Some cd => Some cd | None => node_data node end.
Proof.
  intros Ht. destruct node as [n|]; [|by destruct cur as [c|]; cbn; [destruct (no_ChaosExp c)|]].
  assert (∀ o, node_data (strip_message <$> halted phase o) = node_data o) as Hh.
  { intros [c|]; unfold halted; [by destruct (_ && _)|]. by destruct (str_eq phase "Stopped"). }
  cbn [merged]. rewrite Hh. unfold recalled. rewrite (Ht n eq_refl), str_eq_refl. cbn.
  destruct (no_ChaosExp n) as [cd|] eqn:En; cbn.
  - destruct cur as [c|]; cbn; [|done]. by destruct (no_ChaosExp c) eqn:Ec; cbn; rewrite ?Ec.
  - by destruct cur as [c|]; cbn; [destruct (no_ChaosExp c)|].
Qed.

Lemma merged_type phase node c : ∃ x, merged phase node (Some c) = Some x ∧ no_Type x = no_Type c.
Proof.
  destruct node as [n|]; cbn; [|by eexists]. unfold halted, recalled. repeat destruct (_ && _); by eexists.
Qed.

Lemma wp_send infraData event w :
  wp (SendWorkflowUpdates infraData event)
    (λ _ w', ∃ e, completes (ag_events w) event e ∧ ag_events w' = remember e (ag_events w)) w.
Proof.
  destruct (send_reports infraData event w) as (e & n & He & Hs). unfold wp. rewrite Hs. by exists e.
Qed.

Lemma known_other e m uid : we_UID e ≠ uid → remember e m !! uid = m !! uid.
Proof. intros Hu. unfold remember. destruct (str_eq _ _); by rewrite ?lookup_insert_ne, ?lookup_delete_ne. Qed.
Lemma known_open e m : we_FinishedAt e = "" → known (remember e m) (we_UID e) = we_Nodes e.
Proof. intros Hf. unfold known, remember. by rewrite Hf, str_eq_refl, lookup_insert_eq. Qed.

(** What is known of a node of a run follows its events. *)
Definition follows uid key (acc : option ChaosData) w : Prop :=
  engine_node (known (ag_events w) uid !! key) ∧ node_data (known (ag_events w) uid !! key) = acc.

Lemma wp_follow infraData uid key acc event w :
  (we_UID event = uid → we_FinishedAt event = "" ∧ is_Some (we_Nodes event !! key) ∧ engine_node (we_Nodes event !! key)) →
  follows uid key acc w →
  wp (SendWorkflowUpdates infraData event)
    (λ _ w', follows uid key (if str_eq (we_UID event) uid then newer key acc event else acc) w') w.
Proof.
  intros Hev [Ht Hd]. eapply wp_mono; [apply wp_send|]. intros _ w' (e & He & Hm).
  pose proof (completes_fields _ _ _ He) as [Eu Ef]. unfold follows, known. rewrite Hm.
  destruct (str_eq (we_UID event) uid) eqn:E.
  - apply str_eq_true in E. destruct (Hev E) as (Hf & [c Hc] & Hce). subst uid. rewrite <- Eu at 1 2.
    fold (known (remember e (ag_events w)) (we_UID e)). rewrite known_open by congruence.
    rewrite (completes_nodes _ _ _ _ He). split.
    + rewrite Hc. destruct (merged_type (we_Phase event) (known (ag_events w) (we_UID event) !! key) c) as (x & -> & Hx).
      intros y [= <-]. cbn. rewrite Hx. by apply Hce.
    + rewrite merged_data by done. unfold newer, data_at. by rewrite Hd.
  - apply str_eq_false in E. rewrite known_other by congruence. done.
Qed.

Lemma wp_absent infraData uid key event w :
  (we_UID event = uid → we_FinishedAt event = "" ∧ we_Nodes event !! key = None) →
  known (ag_events w) uid !! key = None →
  wp (SendWorkflowUpdates infraData event) (λ _ w', known (ag_events w') uid !! key = None) w.
Proof.
  intros Hev Hd. eapply wp_mono; [apply wp_send|]. intros _ w' (e & He & Hm).
  pose proof (completes_fields _ _ _ He) as [Eu Ef]. rewrite Hm. destruct (decide (we_UID event = uid)) as [<-|E].
  - destruct (Hev eq_refl) as [Hf Hc]. rewrite <- Eu, known_open by congruence.
    by rewrite (completes_nodes _ _ _ _ He), Hd, Hc.
  - unfold known. rewrite known_other by congruence. done.
Qed.

Lemma updates_snoc infraData l event w :
  (WorkflowUpdates infraData (l ++ [event]) w).2 = (SendWorkflowUpdates infraData event (WorkflowUpdates infraData l w).2).2.
Proof. revert w. induction l as [|e l IH]; intros w; cbn; [done|]. unfold mbind, M_bind. apply IH. Qed.

(** The events of a run since the last one that had an end, with which the agent
    forgets the run. *)
Definition since_end (l : list WorkflowEvent) : list WorkflowEvent :=
  foldl (λ acc e, if str_eq (we_FinishedAt e) "" then (acc ++ [e])%list else []) [] l.

(** What is known of the node of a run whose events, since its last end, have the
    node as that of an engine from some event on. *)
Lemma updates_follow infraData uid key l a b w :
  ag_events w !! uid = None → since_end (run_of uid l) = (a ++ b)%list →
  Forall (λ e, we_Nodes e !! key = None) a →
  Forall (λ e, is_Some (we_Nodes e !! key) ∧ engine_node (we_Nodes e !! key)) b →
  (b = [] → known (ag_events (WorkflowUpdates infraData l w).2) uid !! key = None) ∧
  follows uid key (latest key b) (WorkflowUpdates infraData l w).2.
Proof.
  intros Hnew. revert a b. induction l as [|event l IH] using rev_ind; intros a b Hs Ha Hb.
  { symmetry in Hs. apply app_nil in Hs as [-> ->]. cbn. unfold follows, known. by rewrite Hnew. }
  unfold run_of in Hs. rewrite List.filter_app in Hs. cbn in Hs. rewrite updates_snoc.
  set (w1 := (WorkflowUpdates infraData l w).2) in *.
  destruct (wp_send infraData event w1) as (e & He & Hm). pose proof (completes_fields _ _ _ He) as [Eu Ef].
  destruct (str_eq (we_UID event) uid) eqn:E; cycle 1.
  { rewrite app_nil_r in Hs. apply str_eq_false in E. unfold follows, known. rewrite Hm, known_other by congruence.
    by apply (IH a b). }
  apply str_eq_true in E. fold (run_of uid l) in Hs. unfold since_end in Hs. rewrite foldl_app in Hs. cbn in Hs.
  fold (since_end (run_of uid l)) in Hs. destruct (str_eq (we_FinishedAt event) "") eqn:Efin; cycle 1.
  { symmetry in Hs. apply app_nil in Hs as [-> ->]. unfold follows, known, remember in *. rewrite Hm, Ef, Efin, Eu, E.
    by rewrite lookup_delete_eq. }
  apply str_eq_true in Efin. destruct b as [|x b _] using rev_ind.
  - rewrite app_nil_r in Hs. subst a. apply Forall_app in Ha as [Ha [Hx _]%Forall_cons].
    destruct (IH (since_end (run_of uid l)) []) as [Hk _]; [by rewrite app_nil_r|done|done|].
    assert (known (ag_events (SendWorkflowUpdates infraData event w1).2) uid !! key = None) as Hn.
    { by apply (wp_absent infraData uid key event w1); [|apply Hk]. }
    unfold follows. by rewrite Hn.
  - rewrite app_assoc in Hs. apply app_inj_tail in Hs as [Hs <-]. apply Forall_app in Hb as [Hb [[Hx Hxe] _]%Forall_cons].
    destruct (IH a b Hs Ha Hb) as [_ Hf]. split; [by destruct b|].
    pose proof (wp_follow infraData uid key (latest key b) event w1 (λ _, conj Efin (conj Hx Hxe)) Hf) as H. unfold wp in H.
    rewrite E, str_eq_refl in H. unfold latest. by rewrite foldl_app.
Qed.

Lemma latest_absent key l acc : Forall (λ e, we_Nodes e !! key = None) l → foldl (newer key) acc l = acc.
Proof. induction 1 as [|e l He _ IH] in acc |- *; cbn; [done|]. unfold newer at 2, data_at. by rewrite He. Qed.

(** C18. Chaos data once seen is not lost while the run goes on. After any events of
    this and of other runs, whichever reports fail, take the events of a run
    since the last one that had an end, or since the agent started. If the node
    of an engine appears in one of them and stays, its chaos data may be missing
    in later ones, because the engine was removed or could not be read: the next
    report of the run, that of its end included, carries for that node the last
    data any of these events had. With an event that has an end the agent
    forgets the run, and each event of a workflow that is being shut down is one. *)
Theorem reports_carry_latest_data infraData uid key l a b event w :
  ag_events w !! uid = None → since_end (run_of uid l) = (a ++ b)%list →
  Forall (λ e, we_Nodes e !! key = None) a →
  Forall (λ e, is_Some (we_Nodes e !! key) ∧ engine_node (we_Nodes e !! key)) b →
  we_UID event = uid → is_Some (we_Nodes event !! key) →
  wp (WorkflowUpdates infraData l) (λ _ w1, ∃ e n,
    SendWorkflowUpdates infraData event w1 =
      report infraData e (mkAgent (ag_cluster w1) (ag_server w1) (remember e (ag_events w1)) n) ∧
    we_UID e = uid ∧ we_FinishedAt e = we_FinishedAt event ∧
    data_at key e = latest key (since_end (run_of uid l) ++ [event])) w.
Proof.
  intros Hnew Hs Ha Hb Hu Hin. unfold wp. destruct (updates_follow infraData uid key l a b w Hnew Hs Ha Hb) as [_ [Ht Hd]].
  set (w1 := (WorkflowUpdates infraData l w).2) in *.
  destruct (send_reports infraData event w1) as (e & n & He & Hsend). exists e, n.
  pose proof (completes_fields _ _ _ He) as [Eu Ef]. split_and!; [done|congruence|done|].
  unfold data_at. rewrite (completes_nodes _ _ _ _ He), Hu, merged_data, Hd by done.
  unfold latest. rewrite Hs, !foldl_app, (latest_absent key a) by done. done.
Qed.

(** The agent remembers exactly the runs that have not ended: after any
    events, it has an entry for a run if and only if the last event of the run
    had no end. So a run that ends is forgotten, whether or not its report got
    through, and one that goes on is not. *)
Theorem only_open_runs_are_remembered infraData uid l w :
  wp (WorkflowUpdates infraData l) (λ _ w',
    is_Some (ag_events w' !! uid) ↔
    match last (run_of uid l) with Some e => we_FinishedAt e = "" | None => is_Some (ag_events w !! uid) end) w.
Proof.
  revert w. induction l as [|event l IH]; intros w; cbn; [done|].
  wp_step. eapply wp_mono; [apply wp_send|]. intros _ w1 (e & He & Hm).
  pose proof (completes_fields _ _ _ He) as [Eu Ef].
  eapply wp_mono; [apply IH|]. cbn beta. intros _ w2 ->. rewrite Hm. unfold run_of.
  destruct (str_eq (we_UID event) uid) eqn:E; cbn; fold (run_of uid l).
  - rewrite last_cons. destruct (last (run_of uid l)); [done|]. apply str_eq_true in E. unfold remember.
    rewrite Eu, Ef, E. destruct (str_eq (we_FinishedAt event) "") eqn:Ee.
    + apply str_eq_true in Ee. rewrite lookup_insert_eq. naive_solver.
    + apply str_eq_false in Ee. rewrite lookup_delete_eq. split; [by intros [? [=]]|done].
  - apply str_eq_false in E. destruct (last (run_of uid l)); [done|]. by rewrite known_other by congruence.
Qed.
End reports.

(** ** The status of a run *)

(** An engine without data, or a phase of error. *)
Definition dataless (n : Node) : bool := str_eq (no_Type n) "ChaosEngine" && is_none (no_ChaosExp n).
Definition errored (n : Node) : bool := dataless n || str_eq (no_Phase n) FaultError.
Definition probe_failed (n : Node) : bool := negb (dataless n) && str_eq (no_Phase n) FaultCompletedWithProbeFailure.
Definition some_node (f : Node → bool) (nodes : gmap string Node) : Prop := ∃ k n, nodes !! k = Some n ∧ f n = true.

Lemma some_node_insert f k n (nodes : gmap string Node) :
  nodes !! k = None → some_node f (<[k := n]> nodes) ↔ f n = true ∨ some_node f nodes.
Proof.
  intros Hk. split.
  - intros (k' & n' & Hl & Hf). destruct (decide (k = k')) as [<-|Hne].
    + rewrite lookup_insert_eq in Hl. injection Hl as <-. by left.
    + rewrite lookup_insert_ne in Hl by done. right. by exists k', n'.
  - intros [Hf|(k' & n' & Hl & Hf)]; [exists k, n; by rewrite lookup_insert_eq|].
    exists k', n'. rewrite lookup_insert_ne; [done|congruence].
Qed.

(** The counters of the loop are positive when there is a node of their kind. *)
Lemma count_nodes (nodes : gmap string Node) :
  let c := map_fold count_node (0, 0) nodes in
  0 ≤ c.1 ∧ 0 ≤ c.2 ∧ (0 < c.1 ↔ some_node errored nodes) ∧ (0 < c.2 ↔ some_node probe_failed nodes).
Proof.
  apply (map_fold_weak_ind (λ c nodes, 0 ≤ c.1 ∧ 0 ≤ c.2 ∧ (0 < c.1 ↔ some_node errored nodes) ∧
                                       (0 < c.2 ↔ some_node probe_failed nodes))).
  - cbn. split_and!; [done|done|..]; (split; [lia|]); intros (k & n & Hl & _); by rewrite lookup_empty in Hl.
  - intros k n m [c1 c2] Hk. cbn beta. rewrite !some_node_insert by done. cbn. intros (H1 & H2 & He & Hp).
    rewrite <- He, <- Hp. unfold count_node, errored, probe_failed, dataless.
    destruct (_ && _) eqn:Hd; cbn; [split_and!; try lia; naive_solver lia|].
    destruct (str_eq (no_Phase n) FaultCompletedWithProbeFailure) eqn:Ep; cbn.
    + apply str_eq_true in Ep. rewrite Ep. cbn. split_and!; try lia; naive_solver lia.
    + destruct (str_eq (no_Phase n) FaultError); cbn; split_and!; try lia; naive_solver lia.
Qed.

(** The status of a run that has ended and was not stopped is the worst of
    its nodes: an error if an engine has no data or a node is in error, else a
    probe failure if a node has one, else the phase of the workflow. A run that
    was stopped or goes on keeps its phase, and only a run without a phase has
    no status. The order in which the nodes are visited does not matter. *)
Theorem status_is_the_worst event :
  match getExperimentStatus event with
  | Ok status =>
      we_Phase event ≠ "" ∧
      if str_eq (we_Phase event) "Stopped" || str_eq (we_FinishedAt event) "" then status = we_Phase event
      else (some_node errored (we_Nodes event) ∧ status = FaultError) ∨
           (¬ some_node errored (we_Nodes event) ∧ some_node probe_failed (we_Nodes event) ∧
            status = FaultCompletedWithProbeFailure) ∨
           (¬ some_node errored (we_Nodes event) ∧ ¬ some_node probe_failed (we_Nodes event) ∧ status = we_Phase event)
  | Err _ => we_Phase event = ""
  | Panic => False
  end.
Proof.
  unfold getExperimentStatus. destruct (str_eq (we_Phase event) "") eqn:E; [by apply str_eq_true in E|].
  apply str_eq_false in E. destruct (_ || _); [done|].
  pose proof (count_nodes (we_Nodes event)) as (H1 & H2 & He & Hp).
  destruct (map_fold _ _ _) as [c1 c2]. cbn in *.
  destruct (bool_decide_reflect (c1 > 0)); [|destruct (bool_decide_reflect (c2 > 0))]; rewrite <- He, <- Hp;
    (split; [done|]); [left|right; left|right; right]; split_and!; try lia; done.
Qed.

(** ** Events and workflows *)
Section handler.
Context {K S : Type} {kube : Cluster K} {endpoint : Endpoint S} {rt : Runtime} {mo : MapOrder} {codec : AgentCodec}
  {vc : VendorConstants} {Hmo : MapOrderLaws mo}.
Implicit Types (w : Agent K S).

(** Reading the cluster touches neither the memory of the agent nor the server. *)
Definition same_agent w w' : Prop := ag_events w' = ag_events w ∧ ag_server w' = ag_server w.
Lemma same_agent_trans w1 w2 w3 : same_agent w1 w2 → same_agent w2 w3 → same_agent w1 w3.
Proof. unfold same_agent. intuition congruence. Qed.

Lemma wp_cluster {A} (m : M K A) w :
  wp (cluster m) (λ r w', same_agent w w' ∧ r = (m (ag_cluster w)).1) w.
Proof. done. Qed.
Lemma wp_calls {A} (m : M K A) (Q : A → Agent K S → Prop) w :
  (∀ r w', same_agent w w' → Q r w') → wp (cluster m) Q w.
Proof. intros HQ. unfold wp. by apply HQ. Qed.

(** The engine that chaos data was read from: not older than the node. *)
Definition from_engine (startedAt : Z) (cd : ChaosData) : Prop :=
  ∃ k crd, (kc_Engine (xd_Namespace cd) (xd_EngineName cd) k).1 = Ok crd ∧ Unix startedAt ≤ Unix (ce_Created crd) ∧
           xd_EngineUID cd = ce_UID crd.

Lemma wp_getChaosData startedAt name ns w :
  wp (getChaosData startedAt name ns) (λ r w', same_agent w w' ∧ (∀ e, r ≠ Err e) ∧
    ∀ cd err, r = Ok (Some cd, err) → from_engine startedAt cd ∧ xd_Namespace cd = ns ∧ xd_EngineName cd = name) w.
Proof.
  unfold getChaosData. wp_step. eapply wp_mono; [apply wp_cluster|]. intros r w1 [Hw Hr].
  destruct r as [crd|e|]; [|by wp_step|done]. symmetry in Hr.
  destruct (bool_decide_reflect (Unix startedAt > Unix (ce_Created crd))); [by wp_step|].
  assert (∀ cd, xd_Namespace cd = ns → xd_EngineName cd = name → xd_EngineUID cd = ce_UID crd →
    from_engine startedAt cd ∧ xd_Namespace cd = ns ∧ xd_EngineName cd = name) as Hcd.
  { intros cd <- <- Hu. split; [|done]. exists (ag_cluster w), crd. split_and!; [done|lia|done]. }
  cbv zeta. destruct (ce_Experiments crd) as [|exp [|exp2 others]].
  - wp_step. split_and!; [done|done|]. intros cd err [= <- _]. by apply Hcd.
  - wp_step. apply wp_calls. intros [expRes|e|] w2 Hw2; [wp_step|wp_step|]; (split_and!; [by eapply same_agent_trans|done|]);
      intros cd err [=]; subst; by apply Hcd.
  - wp_step. split_and!; [done|done|]. intros cd err [= <- _]. by apply Hcd.
Qed.

(** The manifest of a node, decoded. *)
Definition engine_manifest (nodeStatus : NodeStatus) (obj : Unstructured) : Prop :=
  ∃ data rest, ns_Inputs nodeStatus = Some (Some data :: rest) ∧ decode_manifest data = Ok obj ∧ us_Kind obj = "ChaosEngine".

(** Chaos data belongs to a node: its manifest is that of an engine, and the data
    is of the engine of the namespace with the name of the manifest, or the name
    generated for it that the pod of the node logged, which is not older than
    the node. *)
Definition belongs (workflowNS chaosNS : string) (nodeStatus : NodeStatus) (cd : ChaosData) : Prop :=
  ∃ obj, engine_manifest nodeStatus obj ∧ from_engine (ns_StartedAt nodeStatus) cd ∧
         xd_Namespace cd = resolveEngineNamespace (us_Namespace obj) chaosNS ∧
         if str_eq (us_GenerateName obj) "" then xd_EngineName cd = us_Name obj
         else ∃ k log, (kc_PodLogs (ns_ID nodeStatus) workflowNS "main" k).1 = Ok log ∧ xd_EngineName cd = getNameFromLog log.

Lemma wp_GetLogs pod ns container w :
  wp (GetLogs pod ns container) (λ r w', same_agent w w' ∧
    ∀ log, r = Ok log → ∃ k, (kc_PodLogs pod ns container k).1 = Ok log) w.
Proof.
  unfold GetLogs. wp_step. apply wp_calls. intros [u|e|] w1 H1; [|by wp_step|done].
  wp_step. apply wp_calls. intros [u'|e|] w2 H2; [|wp_step|]; [|by split; [eapply same_agent_trans|]..].
  eapply wp_mono; [apply wp_cluster|]. intros r w3 [H3 ->]. split; [|by eauto].
  eapply same_agent_trans; [|done]. by eapply same_agent_trans.
Qed.

Lemma wp_CheckChaosData nodeStatus workflowNS chaosNS w :
  wp (CheckChaosData nodeStatus workflowNS chaosNS) (λ r w', same_agent w w' ∧
    match r with
    | Ok (_, cd, _) => ∀ c, cd = Some c → belongs workflowNS chaosNS nodeStatus c
    | Err _ => False
    | Panic => True
    end) w.
Proof.
  unfold CheckChaosData. destruct (ns_Inputs nodeStatus) as [[|[data|] rest]|] eqn:Ei; [by wp_step| |by wp_step..].
  destruct (decode_manifest data) as [obj|e|] eqn:Ed; [|by wp_step..].
  destruct (str_eq (us_Kind obj) "ChaosEngine") eqn:Ek; [|by wp_step]. apply str_eq_true in Ek.
  destruct (negb (str_eq (ns_Phase nodeStatus) "Pending")); [|by wp_step]. wp_step.
  eapply (wp_mono _ (λ r w', same_agent w w' ∧ ∀ name, r = Ok name →
    if str_eq (us_GenerateName obj) "" then name = us_Name obj
    else ∃ k log, (kc_PodLogs (ns_ID nodeStatus) workflowNS "main" k).1 = Ok log ∧ name = getNameFromLog log)).
  - destruct (str_eq (us_GenerateName obj) ""); cbn [negb].
    + wp_step. split; [done|]. by intros name [= <-].
    + wp_step. eapply wp_mono; [apply wp_GetLogs|]. intros [log|e|] w1 [H1 Hlog]; [|by wp_step|done].
      destruct (Hlog log eq_refl) as [k Hk]. cbv zeta. wp_step. split; [done|].
      intros name. destruct (str_eq _ _); [done|]. intros [= <-]. by exists k, log.
  - intros [name|e|] w1 [H1 Hname]; [|by wp_step..]. wp_step. eapply wp_mono; [apply wp_getChaosData|].
    intros [[cd err]|e|] w2 (H2 & Hne & Hcd); [|by destruct (Hne e)|by split; [eapply same_agent_trans|]].
    wp_step. cbn. split; [by eapply same_agent_trans|]. intros c ->.
    destruct (Hcd c err eq_refl) as (Hf & Hns & Hn). exists obj. split_and!; [by exists data, rest|done|done|].
    rewrite Hn. by apply Hname.
Qed.

(** A node of an event says what a node of the workflow is. *)
Definition describes (wf : Workflow) (chaosNS key : string) (n : Node) : Prop :=
  ∃ i ns, wf_Nodes wf !! i = Some ns ∧ ns_ID ns = key ∧ no_Name n = ns_DisplayName ns ∧ no_Children n = ns_Children ns ∧
          ∀ c, no_ChaosExp n = Some c → belongs (wf_Namespace wf) chaosNS ns c.

Lemma wp_handle_nodes oldObj wf chaosNS keys nodes w :
  wp (handle_nodes oldObj wf chaosNS keys nodes) (λ r w', same_agent w w' ∧
    match r with
    | Ok nodes' =>
        (∀ k n, nodes' !! k = Some n → nodes !! k = Some n ∨ describes wf chaosNS k n) ∧
        (∀ k, is_Some (nodes' !! k) ↔
              is_Some (nodes !! k) ∨ ∃ i ns, i ∈ keys ∧ wf_Nodes wf !! i = Some ns ∧ ns_ID ns = k)
    | Err _ => False
    | Panic => True
    end) w.
Proof.
  revert nodes w. induction keys as [|i keys IH]; intros nodes w; cbn [handle_nodes].
  { wp_step. split_and!; [done|by left|]. intros k. split; [by left|]. intros [?|(i & ns & Hi & _)]; [done|].
    by apply elem_of_nil in Hi. }
  destruct (wf_Nodes wf !! i) as [ns|] eqn:Ei.
  - wp_step. eapply (wp_mono _ (λ r w', same_agent w w' ∧
      match r with Ok (_, cd, _) => ∀ c, cd = Some c → belongs (wf_Namespace wf) chaosNS ns c | Err _ => False | Panic => True end)).
    { destruct (has_manifest ns); [apply wp_CheckChaosData|by wp_step]. }
    intros [[[nodeType cd] err]|e|] w1 [H1 Hcd]; [|done|done].
    eapply wp_mono; [apply IH|]. cbn beta. intros r w2 [H2 Hr]. split; [by eapply same_agent_trans|].
    destruct r as [nodes'|e|]; [|done|done]. destruct Hr as [Hn Hd]. split.
    + intros k n Hk. destruct (Hn k n Hk) as [Hold|?]; [|by right]. destruct (decide (ns_ID ns = k)) as [<-|Hne].
      * rewrite lookup_insert_eq in Hold. injection Hold as <-. right. by exists i, ns.
      * rewrite lookup_insert_ne in Hold by done. by left.
    + intros k. rewrite Hd. destruct (decide (ns_ID ns = k)) as [<-|Hne].
      * rewrite lookup_insert_eq. split; [intros _; right; exists i, ns; set_solver|by left].
      * rewrite lookup_insert_ne by done. split; (intros [?|(j & ns' & Hj & Hl & Hk)]; [by left|right; exists j, ns']).
        -- set_solver.
        -- split_and!; [|done..]. apply elem_of_cons in Hj as [->|?]; [congruence|done].
  - eapply wp_mono; [apply IH|]. cbn beta. intros r w2 [H2 Hr]. split; [done|]. destruct r as [nodes'|e|]; [|done|done].
    destruct Hr as [Hn Hd]. split; [done|]. intros k. rewrite Hd.
    split; (intros [?|(j & ns' & Hj & Hl & Hk)]; [by left|right; exists j, ns'; split_and!; [|done..]]).
    + set_solver.
    + apply elem_of_cons in Hj as [->|?]; [congruence|done].
Qed.

(** C19. An event says what the workflow is. Argo keeps the nodes of a workflow
    under their identifiers. The event of a run that is not ignored names the
    run; it has the nodes of the workflow and, when the workflow is shut down,
    the node of the workflow itself as stopped. Chaos data is only attributed
    to a node whose manifest is that of an engine, from an engine of that name, or
    of the generated name that the pod of the node logged,
    in the namespace of the manifest or of the workflow's settings, which was
    not created before the node started: an engine left over from an earlier
    run is not taken for this one. The memory of the agent and the server are
    not touched. *)
Theorem event_describes_workflow oldObj wf eventType startTime w :
  (∀ i ns, wf_Nodes wf !! i = Some ns → ns_ID ns = i) →
  wp (WorkflowEventHandler oldObj wf eventType startTime) (λ r w', same_agent w w' ∧
    match r with
    | Ok e =>
        (entry (wf_Labels wf) "workflow_id" = "" ∧ e = no_event) ∨
        (we_UID e = wf_UID wf ∧ we_WorkflowID e = entry (wf_Labels wf) "workflow_id" ∧ startTime ≤ wf_Created wf ∧
         (∀ k, is_Some (we_Nodes e !! k) ↔ is_Some (wf_Nodes wf !! k) ∨ (wf_Shutdown wf = true ∧ k = wf_Name wf)) ∧
         ∀ k n, we_Nodes e !! k = Some n →
           (wf_Shutdown wf = true ∧ k = wf_Name wf ∧ no_Phase n = "Stopped" ∧ no_ChaosExp n = None) ∨
           describes wf (getAdminModeNamespace (wf_Parameters wf) (wf_Namespace wf)) k n)
    | _ => True
    end) w.
Proof.
  intros Hid. unfold WorkflowEventHandler.
  destruct (str_eq (entry (wf_Labels wf) "workflow_id") "") eqn:El; [wp_step; apply str_eq_true in El; by split; [|left]|].
  destruct (bool_decide_reflect (wf_Created wf < startTime)) as [|Hstart]; [by wp_step|].
  wp_step. apply wp_calls. intros [u|e|] w1 H1; [|by wp_step|done].
  wp_step. apply wp_calls. intros [u'|e|] w2 H2; [|by wp_step; split; [eapply same_agent_trans|]|by split; [eapply same_agent_trans|]].
  cbv zeta. set (chaosNS := getAdminModeNamespace _ _). wp_step.
  eapply (wp_mono _ (λ keys w', same_agent w w' ∧ keys ≡ₚ (map_to_list (wf_Nodes wf)).*1)).
  { unfold wp, agent_range. cbn. split; [|apply map_order_perm]. destruct H1, H2. split; cbn; congruence. }
  intros keys w3 [H3 Hk]. wp_step. eapply wp_mono; [apply wp_handle_nodes|]. cbn beta.
  intros [nodes|e|] w4 [H4 Hr]; [|done|by split; [eapply same_agent_trans|]]. destruct Hr as [Hn Hd].
  assert (∀ k, is_Some (nodes !! k) ↔ is_Some (wf_Nodes wf !! k)) as Hdom.
  { intros k. rewrite Hd, lookup_empty. split.
    - intros [[? [=]]|(i & ns & _ & Hl & <-)]. by rewrite (Hid _ _ Hl), Hl.
    - intros [ns Hl]. right. exists k, ns. split_and!; [|done|by apply Hid]. rewrite Hk. apply list_elem_of_fmap.
      exists (k, ns). split; [done|]. by apply elem_of_map_to_list. }
  assert (∀ k n, nodes !! k = Some n → describes wf chaosNS k n) as Hdesc.
  { intros k n Hl. destruct (Hn k n Hl) as [Ho|]; [by rewrite lookup_empty in Ho|done]. }
  destruct (wf_Shutdown wf) eqn:Es.
  - wp_step. apply wp_ret. split; [eapply same_agent_trans; [by eapply same_agent_trans|done]|]. right.
    split_and!; [done|done|lia|..]; cbn; intros k.
    + destruct (decide (wf_Name wf = k)) as [<-|Hne].
      * rewrite lookup_insert_eq. split; [by right|done].
      * rewrite lookup_insert_ne, Hdom by done. naive_solver.
    + intros n. destruct (decide (wf_Name wf = k)) as [<-|Hne].
      * rewrite lookup_insert_eq. intros [= <-]. by left.
      * rewrite lookup_insert_ne by done. intros Hl. right. by apply Hdesc.
  - wp_step. split; [by eapply same_agent_trans|]. right. split_and!; [done|done|lia|..]; cbn; intros k.
    + rewrite Hdom. naive_solver.
    + intros n Hl. right. by apply Hdesc.
Qed.
End handler.
