(* ===== verification/AgentStart.v ===== *)
(** * AgentStart.v: the agent and the server agree on the access key

    The start of the agent ([init] of [subscriber/subscriber.go]) confirms the
    registration at the server, which gives it a new access key, and keeps the
    key in its cluster for the next start. Here both programs run together: the
    endpoint behind [SendRequest] is the model of the GraphQL server. *)
From S2P Require Import Prelude World MemMongo GoStd AuthEntities AuthRepo AuthSessions Fixtures.
From S2P Require Import GraphDocs Experiments RunScore RunEvent Pipelines Authorization AuthBridge.
From S2P Require Import Environments Infrastructure GraphFixtures Isolation ProjectRequests InfraTheorems.
From S2P Require Import Cluster AgentEvents AgentOps AgentRequests AgentFixtures.
From Stdlib Require Import Ascii.
Local Open Scope string_scope.
Local Open Scope Z_scope.

(** ** What start-up relies on *)

(** Nobody but the agent writes its config map and its secret; a write that
    reports an error may or may not have been applied; the API server merges
    [stringData] into the data of a secret. *)
Class RegistrationStore (K : Type) `{Cluster K} `{AgentEnv} := {
  config_of : K → gmap string string;
  secret_of : K → gmap string string;
  keeps_store (k k' : K) : Prop := config_of k' = config_of k ∧ secret_of k' = secret_of k;
  clientset_keeps : ∀ k, keeps_store k (kc_Clientset k).2;
  sleep_keeps : ∀ k, keeps_store k (kc_Sleep k).2;
  pods_keep : ∀ ns sel k, keeps_store k (kc_Pods ns sel k).2;
  config_read : ∀ k, keeps_store k (kc_ConfigMap InfraNamespace InfraConfigName k).2 ∧
    ∀ d, (kc_ConfigMap InfraNamespace InfraConfigName k).1 = Ok d → d = config_of k;
  secret_read : ∀ k, keeps_store k (kc_Secret InfraNamespace InfraSecretName k).2 ∧
    ∀ s, (kc_Secret InfraNamespace InfraSecretName k).1 = Ok s → sc_Data s = secret_of k;
  config_written : ∀ d k, let o := kc_UpdateConfigMap InfraNamespace InfraConfigName d k in
    secret_of o.2 = secret_of k ∧
    match o.1 with Ok _ => config_of o.2 = d | _ => config_of o.2 = config_of k ∨ config_of o.2 = d end;
  secret_written : ∀ s k, let o := kc_UpdateSecret InfraNamespace InfraSecretName s k in
    config_of o.2 = config_of k ∧
    match o.1 with
    | Ok _ => secret_of o.2 = sc_StringData s ∪ sc_Data s
    | _ => secret_of o.2 = secret_of k ∨ secret_of o.2 = sc_StringData s ∪ sc_Data s
    end;
}.

(** A text that needs no escapes in a payload. *)
Definition plain (s : string) : bool :=
  forallb (λ c, negb (bool_decide (c = char 34)) && negb (bool_decide (c = char 92)) && bool_decide (32 ≤ code c)) (chars s).
Definition agent_identity (infraData : gmap string string) : InfraIdentity :=
  mkInfraIdentity (entry infraData "INFRA_ID") (entry infraData "ACCESS_KEY") (entry infraData "VERSION").
Definition plain_identity (infraData : gmap string string) : bool :=
  plain (entry infraData "INFRA_ID") && plain (entry infraData "ACCESS_KEY") && plain (entry infraData "VERSION").

(** GraphQL over HTTP: a confirmation that is posted is served or lost, and an
    answer that decodes to a confirmation is the answer of the server. *)
Class ConfirmTransport `{Endpoint (World GraphDB)} `{AgentCodec} `{MongoDriver} `{Runtime} `{ServerConfig} `{InfraEnv} `{Crypto} : Prop :=
  confirm_served : ∀ addr infraData s, plain_identity infraData = true →
    let o := http_post addr (confirm_payload infraData) s in
    let served := ConfirmInfraRegistration (agent_identity infraData) s in
    (o.2 = s ∨ o.2 = served.2) ∧
    ∀ body c, o.1 = Ok body → unmarshal_confirm body = Ok c → cf_IsInfraConfirmed c = true →
      o.2 = served.2 ∧ ∃ id, served.1 = Ok (mkConfirmResponse true (Some (cf_NewAccessKey c)) id).

Section start.
Context {K : Type} {kube : Cluster K} {env : AgentEnv} {store : RegistrationStore K} {mo : MapOrder} {codec : AgentCodec}
  {vc : VendorConstants} {up : UnicodePrint}.
Context {drv : MongoDriver} {laws : MongoLaws drv} {rt : Runtime} {cr : Crypto} {cfg : ServerConfig} {ie : InfraEnv}
  {endpoint : Endpoint (World GraphDB)} {transport : ConfirmTransport}.
Local Abbreviation AW := (Agent K (World GraphDB)).
Implicit Types (w : AW) (infraData : gmap string string).

(** ** Code that changes neither the stored key nor the server *)
Definition kept w w' : Prop := keeps_store (ag_cluster w) (ag_cluster w') ∧ ag_server w' = ag_server w.
Definition frames {A} (m : M AW A) : Prop := ∀ w, kept w (m w).2.

#[local] Instance kept_preorder : PreOrder kept.
Proof.
  split; [done|]. intros w1 w2 w3 [[] ?] [[] ?]. repeat split; congruence.
Qed.
Lemma frames_ret {A} (a : A) : frames (mret a).
Proof. done. Qed.
Lemma frames_bind {A B} (m : M AW A) (k : A → M AW B) : frames m → (∀ a, frames (k a)) → frames (m ≫= k).
Proof. intros Hm Hk w. etrans; [apply Hm|apply Hk]. Qed.
Lemma frames_on_err {E A B} `{HasPanic B} (m : M AW (result E A)) h (k : A → M AW B) :
  frames m → (∀ e, frames (h e)) → (∀ a, frames (k a)) → frames (on_err m h k).
Proof. intros Hm Hh Hk. apply frames_bind; [done|]. by intros [a|e|]. Qed.
Lemma frames_cluster {A} (m : M K A) : (∀ k, keeps_store k (m k).2) → frames (cluster m).
Proof. intros Hm w. by split; [apply Hm|]. Qed.
Lemma frames_order l : frames (any_order l).
Proof. done. Qed.
Lemma frames_if {A} (b : bool) (m n : M AW A) : frames m → frames n → frames (if b then m else n).
Proof. by destruct b. Qed.

Lemma frames_live tries deployments : frames (live_check tries deployments).
Proof.
  assert (∀ ns l n, frames (count_failed ns l n)) as Hcount.
  { intros ns l. induction l as [|sel l IH]; intros n; [apply frames_ret|]. cbn. apply frames_on_err; [|done..].
    apply frames_on_err; [apply frames_cluster, pods_keep|done..]. }
  induction tries as [|tries IH]; [apply frames_ret|]. cbn. apply frames_on_err; [|done|].
  - unfold allDeploymentsHealthy. destruct deployments; [apply frames_ret|]. apply frames_bind; [apply frames_order|].
    intros l. by apply frames_on_err.
  - intros healthy. apply frames_if; [done|]. apply frames_bind; [|done]. destruct tries; [done|].
    apply frames_cluster, sleep_keeps.
Qed.
Lemma frames_Check components : frames (CheckComponentStatus components).
Proof.
  apply frames_if; [done|]. apply frames_on_err; [apply frames_cluster, clientset_keeps|done|]. intros _.
  apply frames_on_err; [apply frames_ret|done|]. apply frames_live.
Qed.
Lemma wp_frames {A} (m : M AW A) w : frames m → wp m (λ _ w', kept w w') w.
Proof. intros Hm. apply Hm. Qed.

(** ** The stored key *)
Definition is_confirmed w : Prop := entry (config_of (ag_cluster w)) "IS_INFRA_CONFIRMED" = "true".
Definition stored_key w : string := entry (secret_of (ag_cluster w)) "ACCESS_KEY".
Definition recognizes infraData (key : string) w : Prop :=
  confirmed_with (entry infraData "INFRA_ID") key (g_infras (db (ag_server w))).

(** The cluster says that the agent is confirmed only if the stored key is the
    one the server has. *)
Definition agreed infraData w : Prop := is_confirmed w → recognizes infraData (stored_key w) w.

Lemma kept_agreed w w' : kept w w' →
  (is_confirmed w' ↔ is_confirmed w) ∧ stored_key w' = stored_key w ∧ ag_server w' = ag_server w.
Proof. intros [[Hc Hs] Hw]. unfold is_confirmed, stored_key. by rewrite Hc, Hs. Qed.

(** The calls that read and write the config map and the secret. *)
Lemma wp_read_config w :
  wp (cluster (kc_ConfigMap InfraNamespace InfraConfigName))
    (λ r w', kept w w' ∧ ∀ d, r = Ok d → d = config_of (ag_cluster w)) w.
Proof. destruct (config_read (ag_cluster w)) as [Hk Hd]. by split. Qed.
Lemma wp_read_secret w :
  wp (cluster (kc_Secret InfraNamespace InfraSecretName))
    (λ r w', kept w w' ∧ ∀ s, r = Ok s → sc_Data s = secret_of (ag_cluster w)) w.
Proof. destruct (secret_read (ag_cluster w)) as [Hk Hd]. by split. Qed.
Lemma wp_write_config d w :
  wp (cluster (kc_UpdateConfigMap InfraNamespace InfraConfigName d)) (λ r w', ag_server w' = ag_server w ∧
    secret_of (ag_cluster w') = secret_of (ag_cluster w) ∧ (is_ok r = true → config_of (ag_cluster w') = d)) w.
Proof.
  pose proof (config_written d (ag_cluster w)) as [Hs Hc]. unfold wp. cbn. destruct (kc_UpdateConfigMap _ _ _ _) as [[u|e|] k'];
    by split_and!.
Qed.
Lemma wp_write_secret s w :
  wp (cluster (kc_UpdateSecret InfraNamespace InfraSecretName s)) (λ r w', ag_server w' = ag_server w ∧
    config_of (ag_cluster w') = config_of (ag_cluster w) ∧
    (is_ok r = true → secret_of (ag_cluster w') = sc_StringData s ∪ sc_Data s)) w.
Proof.
  pose proof (secret_written s (ag_cluster w)) as [Hc Hs]. unfold wp. cbn. destruct (kc_UpdateSecret _ _ _ _) as [[u|e|] k'];
    by split_and!.
Qed.

Lemma wp_IsAgentConfirmed w :
  wp IsAgentConfirmed (λ r w', kept w w' ∧ ∀ b key, r = Ok (b, key) →
    if (b : bool) then is_confirmed w ∧ key = stored_key w else ¬ is_confirmed w) w.
Proof.
  unfold IsAgentConfirmed. wp_step. wp_use (wp_frames _ w (frames_cluster _ clientset_keeps)).
  intros [u|e|] w1 H1; [|by wp_step|done]. destruct (kept_agreed w w1 H1) as (Hc1 & Hk1 & _).
  wp_step. wp_use wp_read_config. intros [d|e|] w2 [H2 Hd]; [|by wp_step; split; [etrans|]|by split; [etrans|]].
  rewrite (Hd d eq_refl). destruct (str_eq _ _) eqn:Et.
  - apply str_eq_true in Et. wp_step. wp_use wp_read_secret.
    assert (∀ w3, kept w2 w3 → kept w w3) as Htr by (intros w3 H3; etrans; [exact H1|by etrans]).
    intros [s|e|] w3 [H3 Hs]; [wp_step|wp_step; by split; [apply Htr|]|by split; [apply Htr|]].
    split; [by apply Htr|]. intros b key [= <- <-]. split; [by apply Hc1|].
    rewrite (Hs s eq_refl), <- Hk1. by destruct (kept_agreed w1 w2 H2) as (_ & <- & _).
  - apply str_eq_false in Et. wp_step. split; [by etrans|]. intros b key [= <- _] Hc. by apply Et, Hc1.
Qed.

Lemma wp_AgentRegister key w :
  wp (AgentRegister key) (λ r w', ag_server w' = ag_server w ∧
    (is_ok r = true → is_confirmed w' ∧ stored_key w' = key)) w.
Proof.
  unfold AgentRegister. wp_step. wp_use (wp_frames _ w (frames_cluster _ clientset_keeps)).
  intros [u|e|] w1 [_ H1]; [|by wp_step|done]. wp_step. wp_use wp_read_config.
  intros [d|e|] w2 [[_ H2] _]; [|by wp_step; split; [congruence|]|by split; [congruence|]]. wp_step. wp_use wp_read_secret.
  intros [s|e|] w3 [[_ H3] _]; [|by wp_step; split; [congruence|]|by split; [congruence|]]. wp_step. wp_use wp_write_config.
  intros [u'|e|] w4 (H4 & _ & Hc); [|by wp_step; split; [congruence|]|by split; [congruence|]]. wp_step. wp_use wp_write_secret.
  intros [u''|e|] w5 (H5 & Hkc & Hs); [|by wp_step; split; [congruence|]|by split; [congruence|]].
  wp_step. split; [congruence|]. intros _. unfold is_confirmed, stored_key. rewrite Hkc, (Hc eq_refl), (Hs eq_refl). cbn.
  unfold entry. rewrite lookup_insert_eq. split; [done|]. by rewrite lookup_union, lookup_insert_eq, union_Some_l.
Qed.

(** ** Confirming *)
Lemma entry_insert (d : gmap string string) k v : entry (<[k := v]> d) k = v.
Proof. unfold entry. by rewrite lookup_insert_eq. Qed.
Lemma entry_insert_ne (d : gmap string string) k k' v : k ≠ k' → entry (<[k := v]> d) k' = entry d k'.
Proof. intros Hk. unfold entry. by rewrite lookup_insert_ne. Qed.

Lemma wp_confirm_agent infraData w :
  plain_identity infraData = true → ¬ is_confirmed w →
  wp (confirm_agent infraData) (λ r w', ∀ d, r = Ok d → is_confirmed w' →
    recognizes infraData (entry d "ACCESS_KEY") w' ∧ stored_key w' = entry d "ACCESS_KEY") w.
Proof.
  intros Hp Hnot. unfold confirm_agent. wp_step.
  eapply (wp_mono _ (λ r w1, ag_cluster w1 = ag_cluster w ∧
    ∀ body c, r = Ok body → unmarshal_confirm body = Ok c → cf_IsInfraConfirmed c = true →
      recognizes infraData (cf_NewAccessKey c) w1)).
  { unfold AgentConfirm, wp. cbn. split; [done|]. intros body c Hb Hu Hc.
    destruct (confirm_served (entry infraData "SERVER_ADDR") infraData (ag_server w) Hp) as [_ Hserved].
    destruct (Hserved body c Hb Hu Hc) as [Ho [id Hid]].
    destruct (wp_run _ _ _ _ _ (wp_Confirm (agent_identity infraData) (ag_server w)) (surjective_pairing _) _ _ Hid) as [_ Hcw].
    unfold recognizes. cbn. rewrite Ho. exact Hcw. }
  intros [body|e|] w1 [Hk1 Hrec]; [|by wp_step|done]. wp_step. wp_step.
  destruct (unmarshal_confirm body) as [c|e|] eqn:Eu; [|by wp_step|done].
  destruct (cf_IsInfraConfirmed c) eqn:Ec.
  - specialize (Hrec body c eq_refl Eu Ec). wp_step. wp_use wp_AgentRegister.
    rewrite entry_insert_ne, entry_insert by done. intros [u|e|] w2 [Hs2 Hok]; [|by wp_step|done]. wp_step.
    intros d [= <-] _. destruct (Hok eq_refl) as [_ Hkey]. rewrite entry_insert_ne, entry_insert by done.
    split; [|done]. unfold recognizes. by rewrite Hs2.
  - wp_step. intros d [= <-] Hc2. destruct Hnot. unfold is_confirmed in *. by rewrite <- Hk1.
Qed.

Lemma wp_start_up infraData w :
  plain_identity infraData = true → agreed infraData w →
  wp (start_up infraData) (λ r w', ∀ d, r = Ok d → is_confirmed w' →
    recognizes infraData (entry d "ACCESS_KEY") w' ∧ stored_key w' = entry d "ACCESS_KEY" ∧
    (is_confirmed w → entry d "ACCESS_KEY" = stored_key w ∧ ag_server w' = ag_server w)) w.
Proof.
  intros Hp Hag. unfold start_up. wp_step. wp_use (wp_frames _ w (frames_Check _)).
  intros [u|e|] w1 H1; [|by wp_step|done]. destruct (kept_agreed w w1 H1) as (Hc1 & Hk1 & Hs1).
  wp_step. wp_use wp_IsAgentConfirmed. intros [[b key]|e|] w2 [H2 Hb]; [|by wp_step|done].
  destruct (kept_agreed w1 w2 H2) as (Hc2 & Hk2 & Hs2). specialize (Hb b key eq_refl). destruct b.
  - wp_step. intros d [= <-] _. destruct Hb as [Hconf ->]. rewrite entry_insert. unfold recognizes.
    rewrite Hs2, Hs1, Hk1. split_and!; [by apply Hag, Hc1|congruence|done].
  - eapply wp_mono; [by apply wp_confirm_agent; [|rewrite Hc2]|]. cbn beta. intros r w3 Hr d -> Hconf.
    destruct (Hr d eq_refl Hconf). split_and!; [done|done|]. intros Hw. destruct Hb. by apply Hc1.
Qed.

(** C17. The key the agent starts with is the one the server knows, as long as the
    config map says that the agent is confirmed only while the secret has the key
    of the server. This holds of a new installation, where the agent is not
    confirmed. Then a start that succeeds and leaves the agent confirmed gives it a
    key with which the server recognizes it, if the version fits and reads
    succeed, and the condition holds again; the next start, with the settings of
    the installation, gives it the same key and does not change the server, and so
    on for every later start. A start that is interrupted between its two writes to
    the cluster breaks the condition
    ([interrupted_registration_locks_agent_out]). *)
Theorem started_agent_is_recognized {Hreads : ReadsSucceed drv} infraData w :
  plain_identity infraData = true → agreed infraData w →
  wp (start_up infraData) (λ r1 w1, ∀ d1, r1 = Ok d1 → is_confirmed w1 →
    agreed infraData w1 ∧
    wp (VerifyInfra (mkInfraIdentity (entry infraData "INFRA_ID") (entry d1 "ACCESS_KEY") (entry infraData "VERSION")))
      (λ v _, is_ok v = true ↔ version_matches (entry infraData "VERSION") = true) (ag_server w1) ∧
    wp (start_up infraData) (λ r2 w2, ∀ d2, r2 = Ok d2 → is_confirmed w2 →
      entry d2 "ACCESS_KEY" = entry d1 "ACCESS_KEY" ∧ ag_server w2 = ag_server w1) w1) w.
Proof.
  intros Hp Hag. eapply wp_mono; [by apply wp_start_up|]. cbn beta. intros r1 w1 H1 d1 -> Hc1.
  destruct (H1 d1 eq_refl Hc1) as (Hrec & Hkey & _).
  assert (agreed infraData w1) as Hag1 by (intros _; by rewrite Hkey). split_and!; [done|..].
  - eapply wp_mono; [by apply wp_Verify_exact|]. cbn beta. naive_solver.
  - eapply wp_mono; [by apply wp_start_up|]. cbn beta. intros r2 w2 H2 d2 -> Hc2.
    destruct (H2 d2 eq_refl Hc2) as (_ & _ & Hsame). destruct (Hsame Hc1) as [-> ->]. by split.
Qed.
End start.

(** ** The concrete cluster and endpoint *)
#[export, refine] Instance mem_registration : RegistrationStore MemCluster := {|
  config_of := mc_config; secret_of := mc_secret
|}.
Proof.
  - done.
  - done.
  - done.
  - intros k. split; [done|]. by intros d [= <-].
  - intros k. split; [done|]. by intros s [= <-].
  - done.
  - intros s k. cbn. destruct (mc_secret_fails k); by repeat split; try left.
Defined.

Lemma plain_chars s : plain s = true → "\"%char ∉ chars s.
Proof.
  unfold plain. rewrite forallb_forall. intros Hs Hin%list_elem_of_In. specialize (Hs _ Hin).
  by apply andb_true_iff in Hs as [[_ Hs]%andb_true_iff _].
Qed.

Lemma chars_inj s t : chars s = chars t → s = t.
Proof. intros E. by rewrite <- (of_chars_chars s), E, of_chars_chars. Qed.
Lemma Split_bq a b : "\"%char ∉ chars a → Split (a +:+ bq +:+ b) bq = a :: Split b bq.
Proof.
  intros Ha. unfold Split. rewrite !chars_app. change (chars bq) with ("\"%char :: [char 34]).
  rewrite <- app_comm_cons. rewrite split_go_sep by done. cbn. by rewrite of_chars_chars.
Qed.
Lemma Split_bq_end a : "\"%char ∉ chars a → Split a bq = [a].
Proof. intros Ha. unfold Split. change (chars bq) with ("\"%char :: [char 34]). rewrite split_go_end by done. cbn. by rewrite of_chars_chars. Qed.

Definition payload_start : string :=
  "{" +:+ dq +:+ "query" +:+ dq +:+ ":" +:+ dq +:+ "mutation{ confirmInfraRegistration(request: {infraID: ".
Definition payload_end : string := "}){isInfraConfirmed newAccessKey infraID}}" +:+ dq +:+ "}".
Lemma confirm_pieces infraData : plain_identity infraData = true →
  Split (confirm_payload infraData) bq =
    [payload_start; entry infraData "INFRA_ID"; ", version: "; entry infraData "VERSION"; ", accessKey: ";
     entry infraData "ACCESS_KEY"; payload_end].
Proof.
  intros [[Hi%plain_chars Hk%plain_chars]%andb_true_iff Hv%plain_chars]%andb_true_iff.
  replace (confirm_payload infraData) with
    (payload_start +:+ bq +:+ entry infraData "INFRA_ID" +:+ bq +:+ ", version: " +:+ bq +:+ entry infraData "VERSION" +:+
     bq +:+ ", accessKey: " +:+ bq +:+ entry infraData "ACCESS_KEY" +:+ bq +:+ payload_end).
  - rewrite !Split_bq by (done || by apply (bool_decide_unpack _); vm_compute).
    rewrite Split_bq_end by (by apply (bool_decide_unpack _); vm_compute). done.
  - apply chars_inj. unfold confirm_payload, query_text, identity_text, payload_start, payload_end.
    rewrite !chars_app, <- !app_assoc. done.
Qed.

#[export] Instance fix_transport : ConfirmTransport.
Proof.
  intros addr infraData s Hp. unfold http_post, fix_endpoint. rewrite confirm_pieces by done.
  fold (agent_identity infraData). cbv zeta. split; [by right|]. intros body c [= <-]. cbn [snd].
  destruct (ConfirmInfraRegistration (agent_identity infraData) s) as [[[[] [key|] id]|e|] s']; intros [= <-]; [|done..].
  intros _. split; [done|]. by exists id.
Qed.

Lemma started_agent_is_recognized_witness :
  wp (start_up fix_infra_data) (λ r1 w1, ∃ d1, r1 = Ok d1 ∧ is_confirmed w1 ∧ agreed fix_infra_data w1 ∧
    wp (VerifyInfra (mkInfraIdentity "i1" (entry d1 "ACCESS_KEY") "3.20.0")) (λ v _, is_ok v = true) (ag_server w1) ∧
    wp (start_up fix_infra_data) (λ r2 w2, ∀ d2, r2 = Ok d2 → is_confirmed w2 →
      entry d2 "ACCESS_KEY" = entry d1 "ACCESS_KEY" ∧ ag_server w2 = ag_server w1) w1) (fix_agent false).
Proof.
  pose proof (started_agent_is_recognized fix_infra_data (fix_agent false)) as H.
  assert (is_ok (start_up fix_infra_data (fix_agent false)).1 = true ∧ is_confirmed (start_up fix_infra_data (fix_agent false)).2)
    as [Hok Hc] by (vm_compute; done).
  destruct (start_up fix_infra_data (fix_agent false)) as [r1 w1] eqn:E. unfold wp at 1. unfold wp at 1 in H.
  rewrite E in *. cbn [fst snd] in *.
  destruct r1 as [d1|?|]; [|done|done].
  destruct (H (eq_refl : plain_identity fix_infra_data = true) ltac:(by intros Hx; vm_compute in Hx) d1 eq_refl Hc) as (Hag & Hv & Hr).
  exists d1. split_and!; [done|done|done| |done]. eapply wp_mono; [exact Hv|]. cbn beta. intros v _ ->. vm_compute. done.
Defined.

(** A start that is interrupted locks the agent out. The server changes the
    key as it confirms; the agent then sets the flag in its config map before it
    writes the key to its secret. When that second write fails the process ends,
    and the next start takes the flag for granted: it succeeds with the old key
    from the secret, which the server refuses, and nothing asks for a new one. *)
Example interrupted_registration_locks_agent_out :
  wp (r1 ← start_up fix_infra_data; r2 ← start_up fix_infra_data;
      v ← server (VerifyInfra (mkInfraIdentity "i1" (match r2 with Ok d => entry d "ACCESS_KEY" | _ => "" end) "3.20.0"));
      mret (r1, r2, v)) (λ '(r1, r2, v) w', r1 = Panic ∧
    (match r2 with Ok d => entry d "ACCESS_KEY" | _ => "" end) = "key1" ∧ is_ok v = false) (fix_agent true).
Proof. vm_compute. done. Qed.
