(* ===== verification/AgentTheorems.v ===== *)
(** * AgentTheorems.v: requests to the agent, and runs of its code

    Requests of the server reach the code they are meant for, listing namespaces
    ends with all of them, the user of an action comes back with the events of its
    workflow; and the theorems of [AgentReports.v] applied to concrete events. *)
From S2P Require Import Prelude World MemMongo GoStd AuthEntities AuthRepo Fixtures GraphDocs Experiments RunScore RunEvent.
From S2P Require Import Pipelines Authorization AuthBridge Environments Infrastructure GraphFixtures.
From S2P Require Import Cluster AgentEvents AgentOps AgentRequests AgentFixtures AgentReports.
Local Open Scope string_scope.
Local Open Scope Z_scope.

Section agent.
Context {K S : Type} {kube : Cluster K} {endpoint : Endpoint S} {rt : Runtime} {mo : MapOrder} {codec : AgentCodec}
  {vc : VendorConstants} {env : AgentEnv} {up : UnicodePrint}.
Local Abbreviation AM := (M (Agent K S)).
Implicit Types w : Agent K S.

(** ** Namespaces *)

(** The API server pages a list of names: [pos] is the position a continue token
    stands for. A page may be of any size but starts where the one before
    ended, and only the last has no token. *)
Record paged (names : list string) (P : K → Prop) (pos : string → nat) : Prop := mkPaged {
  paged_start : pos "" = 0%nat;
  paged_client : ∀ k, P k → (kc_Clientset k).1 = Ok tt ∧ P (kc_Clientset k).2;
  paged_answer : ∀ k token, P k → token = "" ∨ (pos token < length names)%nat →
    let o := kc_Namespaces 500 token k in
    P o.2 ∧ ∃ size next, o.1 = Ok (mkNamespaceList (take size (drop (pos token) names)) next) ∧
      if str_eq next "" then (length names ≤ pos token + size)%nat
      else (0 < size ∧ pos next = pos token + size ∧ pos next < length names)%nat
}.

Lemma list_namespaces_all names P pos calls token acc w :
  paged names P pos → P (ag_cluster w) → token = "" ∨ (pos token < length names)%nat →
  (Nat.max 1 (length names - pos token) ≤ calls)%nat →
  (list_namespaces calls token acc w).1 = Ok (acc ++ drop (pos token) names)%list.
Proof.
  intros Hp. revert token acc w. induction calls as [|calls IH]; intros token acc w HP Ht Hc; [lia|]. cbn.
  destruct (paged_answer _ _ _ Hp (ag_cluster w) token HP Ht) as (HP' & size & next & Ho & Hn).
  unfold on_err, mbind, M_bind, cluster. cbn. rewrite Ho. cbn. destruct (str_eq next "") eqn:En.
  - cbn. by rewrite take_ge by (rewrite length_drop; lia).
  - destruct Hn as (Hs & Hnext & Hlt). rewrite IH; cbn; [|done|by right|lia].
    by rewrite Hnext, <- drop_drop, <- app_assoc, take_drop.
Qed.

(** Listing the namespaces ends, with all of them: however the API server
    cuts the list into pages, if the deadline allows a call for every name (and
    one for an empty list), the loop follows the continue tokens to the last page
    and returns the whole list in order; an empty list is an error. *)
Theorem namespaces_are_listed names P pos w :
  lower_eq InfraScope "namespace" = false → paged names P pos → P (ag_cluster w) →
  (Nat.max 1 (length names) ≤ kc_CallBudget)%nat →
  (GetKubernetesNamespaces w).1 =
    if bool_decide (names = []) then Err (ErrNew "No namespace available") else Ok names.
Proof.
  intros Hscope Hp HP Hcalls. unfold GetKubernetesNamespaces. rewrite Hscope.
  destruct (paged_client _ _ _ Hp _ HP) as [Hok HP']. unfold on_err at 1, mbind, M_bind at 1, cluster. cbn. rewrite Hok.
  set (w1 := mkAgent _ _ _ _).
  assert ((list_namespaces kc_CallBudget "" [] w1).1 = Ok names) as Hl.
  { rewrite (list_namespaces_all names P pos); [by rewrite (paged_start _ _ _ Hp)|done|done|by left|].
    rewrite (paged_start _ _ _ Hp). lia. }
  unfold on_err, mbind, M_bind. rewrite Hl. by case_bool_decide.
Qed.

(** ** Requests *)

(** The requests the server sends reach the code they are meant for, and no
    other: changes of objects the operations on the cluster, requests about
    workflows [WorkflowRequest], and the requests for logs, namespaces and
    objects their answers. *)
Theorem requests_reach_their_handler infraData action w :
  (ac_RequestType action ∈ ["create"; "update"; "delete"; "get"] →
   RequestProcessor infraData action w = failing "error performing infra operation: " (AgentOperations action) w) ∧
  (ac_RequestType action ∈ ["workflow_delete"; "workflow_run_delete"; "workflow_run_stop"] →
   RequestProcessor infraData action w =
     failing "error performing events operation: "
       (WorkflowRequest infraData (ac_RequestType action) (ac_ExternalData action)) w) ∧
  (ac_RequestType action = "logs" →
   RequestProcessor infraData action w =
     (let! podRequest := mret (unmarshal_log_request (ac_RequestID action) (ac_ExternalData action)) or e =>
        mret (Err (ErrNew ("error reading infra-action request [external-data]: " +:+ error_text e))) in
      SendPodLogs infraData podRequest) w) ∧
  (ac_RequestType action ∈ ["namespace"; "kubenamespace"] →
   RequestProcessor infraData action w =
     (let! request := mret (unmarshal_namespace_request (ac_RequestID action) (ac_ExternalData action)) or e =>
        mret (Err (ErrNew ("failed to json unmarshal: " +:+ error_text e))) in
      failing "error getting kubernetes namespace data: " (SendKubeNamespaces infraData request)) w) ∧
  (ac_RequestType action ∈ ["kubeobject"; "kubeobjects"] →
   RequestProcessor infraData action w =
     (let! request := mret (unmarshal_kube_request (ac_RequestID action) (ac_ExternalData action)) or e =>
        mret (Err (ErrNew ("failed to json unmarshal: " +:+ error_text e))) in
      failing "error getting kubernetes object data: " (SendKubeObjects infraData request)) w).
Proof.
  assert (∀ (m : AM (res unit)) w, (let? _ := m in mret (Ok tt)) w = m w) as Hret.
  { intros m w1. unfold on_err, mbind, M_bind. by destruct (m w1) as [[[]|e|] w2]. }
  unfold RequestProcessor, process_objects, process_namespaces, process_rest.
  destruct action as [id manifest data type user ns]. cbn [ac_RequestType ac_RequestID ac_ExternalData]. split_and!.
  - intros Ht. repeat (apply elem_of_cons in Ht as [->|Ht]; [done|]). by apply elem_of_nil in Ht.
  - intros Ht. repeat (apply elem_of_cons in Ht as [->|Ht]; [done|]). by apply elem_of_nil in Ht.
  - by intros ->.
  - intros Ht. repeat (apply elem_of_cons in Ht as [->|Ht]; [symmetry; etrans; [symmetry; apply Hret|done]|]). by apply elem_of_nil in Ht.
  - intros Ht. repeat (apply elem_of_cons in Ht as [->|Ht]; [symmetry; etrans; [symmetry; apply Hret|done]|]). by apply elem_of_nil in Ht.
Qed.

(** ** The user of an action *)

(** The name of the user travels through the cluster: the agent labels the
    objects of an action with the user in an encoding that labels allow; when
    the labelled object is a workflow, its events carry the label, and the server,
    which decodes it, finds the name, whatever characters it has. *)
Theorem user_returns_with_events username obj wf eventType status finished nodes :
  us_Labels (addCustomLabels {["updated_by" := raw_url_encode username]} obj) = Some (wf_Labels wf) →
  raw_url_decode (we_UpdatedBy (workflow_event wf eventType status finished nodes)) = Some username.
Proof.
  intros [= Hl]. cbn. unfold entry. rewrite <- Hl, lookup_union, lookup_singleton_eq, union_Some_l. cbn.
  apply raw_url_decode_encode.
Qed.
End agent.

(** ** Concrete runs *)

#[export] Instance fix_marshal_laws : MarshalLaws fix_agent_codec.
Proof. done. Qed.

Definition fix_names : list string := ["default"; "kube-system"; "litmus"; "shop"; "web"].
Definition token_pos (token : string) : nat := Z.to_nat (Atoi_value token).

Lemma fix_paged : paged fix_names (λ k, mc_namespaces k = fix_names) token_pos.
Proof.
  split; [done|done|]. intros k token Hk Ht. cbn. split; [done|]. rewrite Hk. unfold namespace_page. fold (token_pos token).
  eexists 2%nat, _. split; [done|].
  assert (token_pos token < 5)%nat as Hlt by (destruct Ht as [->|Ht]; [vm_compute; lia|done]).
  destruct (token_pos token) as [|[|[|[|[|n]]]]]; [vm_compute; repeat split; lia..|lia].
Qed.

Lemma namespaces_are_listed_witness :
  (GetKubernetesNamespaces (fix_agent false)).1 = Ok ["default"; "kube-system"; "litmus"; "shop"; "web"].
Proof.
  apply (namespaces_are_listed fix_names (λ k, mc_namespaces k = fix_names) token_pos (fix_agent false));
    [done|apply fix_paged|done|vm_compute; lia].
Defined.

Definition stop_action : Action := mkAgentAction "r1" "" "uid-1" "workflow_run_stop" "alice" "litmus".
Lemma requests_reach_their_handler_witness :
  RequestProcessor fix_infra_data stop_action (fix_agent false) =
  failing "error performing events operation: " (WorkflowRequest fix_infra_data "workflow_run_stop" "uid-1") (fix_agent false).
Proof.
  apply (requests_reach_their_handler fix_infra_data stop_action (fix_agent false)). repeat constructor.
Defined.

(** The run of the action does not exist: its workflow is nil, and the process
    ends. *)
Example stop_of_missing_run_ends_agent :
  (RequestProcessor fix_infra_data stop_action (fix_agent false)).1 = Panic.
Proof. vm_compute. done. Qed.

(** A workflow with one engine, and the events of its run. *)
Definition fix_workflow (shutdown : bool) : Workflow :=
  mkWorkflow "wf" "litmus" "u1" {["workflow_id" := "e1"; "updated_by" := raw_url_encode "alice"]} 1000 [] shutdown "Running" ""
    1000 zero_time
    {["n1" := mkNodeStatus "n1" "chaos" "Pod" "Running" "" 1500 zero_time [] (Some [Some "engine"]);
      "n2" := mkNodeStatus "n2" "steps" "Steps" "Running" "" 1000 zero_time ["n1"] None]}.
Lemma user_returns_with_events_witness :
  raw_url_decode (we_UpdatedBy (workflow_event (fix_workflow false) "ADD" "Running" "" ∅)) = Some "alice".
Proof.
  apply (user_returns_with_events "alice" (mkUnstructured "Workflow" "wf" "" "litmus" (Some {["workflow_id" := "e1"]}) "" "")
           (fix_workflow false) "ADD" "Running" "" ∅).
  vm_compute. reflexivity.
Defined.

Lemma event_describes_workflow_witness :
  wp (WorkflowEventHandler None (fix_workflow true) "UPDATE" 0) (λ r w', ∃ e, r = Ok e ∧ same_agent (fix_agent false) w' ∧
    we_UID e = "u1" ∧ is_Some (we_Nodes e !! "wf") ∧ ∀ n, we_Nodes e !! "n1" = Some n → describes (fix_workflow true) "litmus" "n1" n)
    (fix_agent false).
Proof.
  pose proof (event_describes_workflow None (fix_workflow true) "UPDATE" 0 (fix_agent false)) as H. unfold wp in *.
  assert (is_ok (WorkflowEventHandler None (fix_workflow true) "UPDATE" 0 (fix_agent false)).1 = true) as Hok by (vm_compute; done).
  destruct (WorkflowEventHandler None (fix_workflow true) "UPDATE" 0 (fix_agent false)) as [[e|?|] w']; [|done|done].
  cbn [fst snd] in *. destruct H as [Hs [[Hl _]|(Hu & _ & _ & Hd & Hn)]].
  - intros i ns Hi. apply (map_Forall_lookup_1 (λ i ns, ns_ID ns = i) (wf_Nodes (fix_workflow true))); [|done].
    apply (bool_decide_unpack _). vm_compute. done.
  - by vm_compute in Hl.
  - exists e. split_and!; [done|done|done|by apply Hd; right|]. intros n He. by destruct (Hn "n1" n He) as [(_ & [=] & _)|].
Defined.

(** Three events of a run and one of another: data is seen once. *)
Definition fix_data : ChaosData := mkChaosData "uid" "" "engine" "litmus" "pod-delete" "Running" "3" "Awaited" "pod" "runner" "100" "" None.
Definition run_event (uid finished : string) (data : option (option ChaosData)) : WorkflowEvent :=
  mkEvent "events" "" None "e1" "UPDATE" uid "litmus" "wf" "1" "Running" "" "1" finished
    (match data with
     | Some d => {["n1" := mkNode "chaos" "Running" "" "1" "" [] "ChaosEngine" d]}
     | None => ∅
     end) "".

Definition two_runs : list WorkflowEvent :=
  [run_event "u1" "8" None; run_event "u1" "" None; run_event "u1" "" (Some (Some fix_data)); run_event "u2" "" None; run_event "u1" "" (Some None)].
Lemma reports_carry_latest_data_witness :
  wp (WorkflowUpdates fix_infra_data two_runs) (λ _ w1, ∃ e n,
    SendWorkflowUpdates fix_infra_data (run_event "u1" "9" (Some None)) w1 =
      report fix_infra_data e (mkAgent (ag_cluster w1) (ag_server w1) (remember e (ag_events w1)) n) ∧
    we_UID e = "u1" ∧ we_FinishedAt e = "9" ∧ data_at "n1" e = Some fix_data) (fix_agent false).
Proof.
  apply (reports_carry_latest_data fix_infra_data "u1" "n1" two_runs [run_event "u1" "" None]
           [run_event "u1" "" (Some (Some fix_data)); run_event "u1" "" (Some None)]
           (run_event "u1" "9" (Some None)) (fix_agent false)); [done|reflexivity| | |done|done].
  - repeat constructor; done.
  - repeat constructor; try done; by intros x [= <-].
Defined.

(** Data of the events before the end of a run is not in the reports after it. *)
Example report_after_the_end_starts_anew :
  wp (WorkflowUpdates fix_infra_data [run_event "u1" "" (Some (Some fix_data)); run_event "u1" "8" (Some None)]) (λ _ w1,
    wp (SendWorkflowUpdates fix_infra_data (run_event "u1" "" (Some None)))
       (λ _ w2, data_at "n1" <$> ag_events w2 !! "u1" = Some None) w1) (fix_agent false).
Proof. vm_compute. reflexivity. Qed.

Lemma only_open_runs_are_remembered_witness :
  wp (WorkflowUpdates fix_infra_data [run_event "u1" "" None; run_event "u2" "" None; run_event "u1" "9" None]) (λ _ w',
    ag_events w' !! "u1" = None ∧ is_Some (ag_events w' !! "u2")) (fix_agent false).
Proof.
  apply wp_conj.
  - eapply wp_mono; [apply (only_open_runs_are_remembered fix_infra_data "u1")|]. cbn beta. intros _ w' Hiff.
    apply eq_None_not_Some. rewrite Hiff. by vm_compute.
  - eapply wp_mono; [apply (only_open_runs_are_remembered fix_infra_data "u2")|]. cbn beta. intros _ w' Hiff. by apply Hiff.
Defined.
