(* ===== verification/RunReports.v ===== *)
(** * RunReports.v: the runs of the server are what the agent reported

    Agent and server together: the reports of the agent ([SendWorkflowUpdates])
    go over HTTP to the resolver [ChaosExperimentRun], which records them
    ([ChaosExperimentRunEvent]). Whatever is lost on the way or fails in the
    database, a run of the server is as it was or exactly as one of the reports
    describes it. *)
From S2P Require Import Prelude World MemMongo GoStd Float64 GraphDocs Experiments RunScore RunScoreTheorems RunEvent RunTheorems.
From S2P Require Import Fixtures Pipelines Authorization Infrastructure GraphFixtures Cluster AgentEvents AgentReports AgentFixtures AgentStart AgentTheorems.
From Stdlib Require Import Ascii SpecFloat.
Local Open Scope string_scope.
Local Open Scope Z_scope.

(** ** From a report to a request *)

(** The texts of an event that go into the payload need no escapes. *)
Definition plain_event (e : WorkflowEvent) : bool :=
  plain (we_WorkflowID e) && plain (we_UID e) && plain (we_RevisionID e) && plain (default "" (we_NotifyID e)) &&
  plain (we_Name e) && plain (we_UpdatedBy e).
(** What the payload says, [data] being the JSON of the event. *)
Definition run_request (infraData : gmap string string) (e : WorkflowEvent) (data : string) : ExperimentRunRequest :=
  mkRunRequest (we_WorkflowID e) (we_NotifyID e) (we_UID e) (we_Name e) (std_encode data)
    (Some (agent_identity infraData)) (we_RevisionID e) (negb (str_eq (we_FinishedAt e) "")) None (we_UpdatedBy e).

(** The resolver. *)
Definition mutation_ChaosExperimentRun `{MongoDriver} `{MongoTxn} `{MongoAbort} `{Runtime} `{MapOrder} `{FloatToInt} `{Decoders}
    `{Positional} (request : ExperimentRunRequest) : GM (res string) := ChaosExperimentRunEvent request.

(** GraphQL over HTTP: a report that is posted is served or lost; an answer means
    that it was served, and an answer with data that the resolver had no error. *)
Class RunTransport `{Endpoint (World GraphDB)} `{AgentCodec} `{MongoDriver} `{MongoTxn} `{MongoAbort} `{Runtime}
    `{MapOrder} `{FloatToInt} `{Decoders} `{Positional} := {
  has_data : string → bool;
  run_served : ∀ addr infraData e data s, plain_identity infraData = true → plain_event e = true →
    marshal_event e = Ok data →
    let o := http_post addr (report_text infraData e) s in
    let served := mutation_ChaosExperimentRun (run_request infraData e data) s in
    (o.2 = s ∨ o.2 = served.2) ∧
    ∀ body, o.1 = Ok body → o.2 = served.2 ∧ (has_data body = true → is_ok served.1 = true);
}.
(** JSON: what the agent marshals as an event the server reads as execution data
    with the same phase. *)
Class EventJson `{AgentCodec} `{Decoders} : Prop :=
  event_json : ∀ e data, marshal_event e = Ok data →
    data ≠ "" ∧ ∃ d, execution_data data = Ok d ∧ ed_Phase d = we_Phase e.

(** The run [run] is what the event [e] says. *)
Definition described `{AgentCodec} (e : WorkflowEvent) (run : ChaosExperimentRun) : Prop :=
  cr_ExperimentID run = we_WorkflowID e ∧ cr_ExperimentRunID run = we_UID e ∧ cr_Phase run = we_Phase e ∧
  cr_Completed run = negb (str_eq (we_FinishedAt e) "") ∧ marshal_event e = Ok (cr_ExecutionData run).

Lemma std_encode_nonempty s : s ≠ "" → str_eq (std_encode s) "" = false.
Proof.
  intros Hs. apply str_eq_false. intros E. pose proof (std_decode_encode s) as Hd. rewrite E in Hd. by injection Hd.
Qed.

Section reports.
Context {K : Type} {kube : Cluster K} {codec : AgentCodec} {vc : VendorConstants} {endpoint : Endpoint (World GraphDB)}.
Context {drv : MongoDriver} {laws : MongoLaws drv} {tx : MongoTxn} {txlaws : MongoTxnLaws tx} {ab : MongoAbort}
  {rt : Runtime} {mo : MapOrder} {Hmo : MapOrderLaws mo} {fi : FloatToInt} {dec : Decoders} {ps : Positional}.
Context {Hmarshal : MarshalLaws codec} {transport : RunTransport} {json : EventJson}.
Implicit Types (w : Agent K (World GraphDB)) (s : GraphDB) (infraData : gmap string string) (event e : WorkflowEvent).

(** The run document of a report. *)
Lemma request_described infraData e data experiment wfRun :
  marshal_event e = Ok data → event_run (run_request infraData e data) experiment wfRun → described e wfRun.
Proof.
  intros Hm (_ & E1 & E2 & _ & E3 & _ & _ & _ & d' & Hdata & Ep). destruct (event_json _ _ Hm) as (Hne & d & Hd & Hph).
  unfold event_data in Hdata. cbn [run_request er_ExecutionData er_ExperimentID] in Hdata.
  rewrite std_encode_nonempty, std_decode_encode in Hdata by done. cbn [from_option id] in Hdata.
  rewrite Hd in Hdata. injection Hdata as Ed <-. unfold described. rewrite E1, E2, Ep, E3, <-Ed. done.
Qed.
Lemma merged_described infraData e data wfRun r :
  described e wfRun → event_query (run_request infraData e data) r = true → described e (merge_run wfRun r).
Proof.
  intros (E1 & E2 & E3 & E4 & E5) Hq. unfold event_query, run_query in Hq. cbn in Hq.
  apply andb_true_iff in Hq as [Hq%str_eq_true _]. by split_and!.
Qed.

(** The runs a committed report touches are as it describes, and it touches one
    when at most one run matches it. *)
Lemma committed_described infraData e data s s' :
  marshal_event e = Ok data → event_committed (run_request infraData e data) s s' →
  (∀ run, run ∈ g_runs s' → run ∈ g_runs s ∨ described e run) ∧
  ((length (List.filter (event_query (run_request infraData e data)) (g_runs s)) ≤ 1)%nat →
   ∃ run, run ∈ g_runs s' ∧ described e run).
Proof.
  intros Hm (experiment & wfRun & _ & _ & _ & Hr%request_described & _ & Hrec); [|done].
  destruct Hrec as [t t' dt _ _ _ _ _ [Hp _]|_ _ (l1 & r & l2 & E & [Hq _]%andb_true_iff & E')|Hlen _ E].
  - set (run := set_run_audit _ _) in Hp. assert (described e run) as Hd by done. split.
    + intros x. rewrite Hp, elem_of_cons. by intros [->|?]; [right|left].
    + intros _. exists run. rewrite Hp. split; [by left|done].
  - pose proof (merged_described _ _ _ _ _ Hr Hq) as Hd. rewrite E, E'. split.
    + intros x. rewrite !elem_of_app, !elem_of_cons. intros [?|[->|?]]; [by left; left|by right|by left; right; right].
    + intros _. exists (merge_run wfRun r). split; [set_solver|done].
  - rewrite E. split; [by left|lia].
Qed.

(** ** One report *)
Lemma wp_reported infraData event w :
  plain_identity infraData = true → plain_event event = true →
  wp (SendWorkflowUpdates infraData event) (λ r w', ∃ e data, completes (ag_events w) event e ∧ marshal_event e = Ok data ∧
    (db (ag_server w') = db (ag_server w) ∨ event_committed (run_request infraData e data) (db (ag_server w)) (db (ag_server w'))) ∧
    ∀ body, r = Ok body → has_data body = true →
      event_committed (run_request infraData e data) (db (ag_server w)) (db (ag_server w')) ∨
      no_match (λ x, same_experiment (run_request infraData e data) x && negb (au_IsRemoved (ex_Audit x))) (g_experiments (db (ag_server w)))) w.
Proof.
  intros Hi Hp. destruct (send_reports infraData event w) as (e & n & He & Hs). unfold wp. rewrite Hs. clear Hs.
  assert (plain_event e = true) as Hpe by (by destruct He as (keys & _ & ->)).
  pose proof (marshal_ok e) as Hok. destruct (marshal_event e) as [data|?|] eqn:Hm; try done. clear Hok.
  exists e, data. unfold report, server. cbn.
  destruct (run_served (entry infraData "SERVER_ADDR") infraData e data (ag_server w) Hi Hpe Hm) as [Ho Hb].
  destruct (http_post _ _ _) as [r s1]. cbn in *. unfold mutation_ChaosExperimentRun in *.
  pose proof (wp_event (run_request infraData e data) (ag_server w)) as Hw. unfold wp in Hw.
  destruct (ChaosExperimentRunEvent (run_request infraData e data) (ag_server w)) as [rs s2]. cbn in *.
  split_and!; [done..| |].
  - destruct Ho as [->| ->]; [by left|]. apply event_effect_cases in Hw. naive_solver.
  - intros body -> Hd. destruct (Hb body eq_refl) as [-> Hok]. specialize (Hok Hd). destruct rs; naive_solver.
Qed.

(** C32. Through any sequence of events of the agent, with any reports lost or
    refused and any failures of the database, every run of the server is as it
    was, or says what one of the events said, completed with what the agent knew
    at that time: its phase is the status the agent computed, its execution data
    the JSON of the event, and it is completed exactly if the event had an end. So
    the server never shows a run as ended that the agent did not see end. *)
Theorem server_runs_are_reported infraData events w :
  plain_identity infraData = true → Forall (λ e, plain_event e = true) events →
  wp (WorkflowUpdates infraData events) (λ _ w', ∀ run, run ∈ g_runs (db (ag_server w')) →
    run ∈ g_runs (db (ag_server w)) ∨
    ∃ l1 event l2 e, events = (l1 ++ event :: l2)%list ∧ completes (ag_events (WorkflowUpdates infraData l1 w).2) event e ∧ described e run) w.
Proof.
  intros Hi Hp. revert w. induction Hp as [|event events He Hp IH]; intros w; cbn [WorkflowUpdates]; [by left|].
  wp_step. eapply (wp_mono _ (λ r w1, (r, w1) = SendWorkflowUpdates infraData event w)); [by unfold wp; destruct (SendWorkflowUpdates _ _ _)|].
  intros r w1 E1. pose proof (wp_reported infraData event w Hi He) as Hr. unfold wp in Hr. rewrite <-E1 in Hr. cbn in Hr.
  destruct Hr as (e & data & Hc & Hm & Hd & _). wp_use IH. intros _ w2 H2 run [Hin|(l1 & ev & l2 & e' & -> & Hc' & Hd')]%H2.
  - destruct Hd as [E|[Hd _]%committed_described]; [left; by rewrite <-E| |done].
    destruct (Hd run Hin) as [?|?]; [by left|]. right. by exists [], event, events, e.
  - right. exists (event :: l1), ev, l2, e'. split_and!; [done| |done]. cbn. unfold mbind, M_bind. by rewrite <-E1.
Qed.

(** C33. A report that is answered with data has been recorded: the experiment it
    names is not there, or a run of the server says what the event said, unless
    several runs of the experiment match it. *)
Theorem answered_report_is_recorded infraData event w :
  plain_identity infraData = true → plain_event event = true →
  wp (SendWorkflowUpdates infraData event) (λ r w', ∀ body, r = Ok body → has_data body = true →
    no_match (λ x, str_eq (ex_ExperimentID x) (we_WorkflowID event) && negb (au_IsRemoved (ex_Audit x))) (g_experiments (db (ag_server w))) ∨
    (1 < length (List.filter (run_query (we_WorkflowID event) (we_UID event) (we_NotifyID event)) (g_runs (db (ag_server w)))))%nat ∨
    ∃ e run, completes (ag_events w) event e ∧ run ∈ g_runs (db (ag_server w')) ∧ described e run) w.
Proof.
  intros Hi Hp. eapply wp_mono; [by apply wp_reported|]. cbn beta. intros r w' (e & data & Hc & Hm & _ & Ha) body Hr Hb.
  assert (we_WorkflowID e = we_WorkflowID event ∧ we_UID e = we_UID event ∧ we_NotifyID e = we_NotifyID event) as (E1 & E2 & E3)
    by by destruct Hc as (keys & _ & ->).
  destruct (Ha body Hr Hb) as [Hco|Hno].
  - right. pose proof (committed_described _ _ _ _ _ Hm Hco) as [_ Hrec]. unfold event_query in Hrec. cbn in Hrec. rewrite E1, E2, E3 in Hrec.
    destruct (decide (1 < length (List.filter (run_query (we_WorkflowID event) (we_UID event) (we_NotifyID event)) (g_runs (db (ag_server w)))))%nat); [by left|right].
    destruct Hrec as (run & Hin & Hd); [lia|]. by exists e, run.
  - left. unfold same_experiment in Hno. cbn in Hno. by rewrite E1 in Hno.
Qed.

(** ** From the objects of the cluster *)

(** The watchers and the reports as one program: each notification is made an
    event, and the event, if any, reported. *)
Fixpoint watch (infraData : gmap string string) (startTime : Z) (l : list Notification) : M (Agent K (World GraphDB)) (res unit) :=
  match l with
  | [] => mret (Ok tt)
  | n :: l =>
      let? streamed := on_notification startTime n in
      _ ← match streamed with Some event => SendWorkflowUpdates infraData event | None => mret (Ok "") end;
      watch infraData startTime l
  end.

(** The run an object stands for, its experiment, and whether it has ended. *)
Definition subject (n : Notification) : string :=
  match n with WorkflowAdded wf | WorkflowUpdated _ wf => wf_UID wf | EngineAdded e | EngineUpdated e => ce_UID e end.
Definition labels_of (n : Notification) : gmap string string :=
  match n with WorkflowAdded wf | WorkflowUpdated _ wf => wf_Labels wf | EngineAdded e | EngineUpdated e => ce_Labels e end.
Definition name_of (n : Notification) : string :=
  match n with WorkflowAdded wf | WorkflowUpdated _ wf => wf_Name wf | EngineAdded e | EngineUpdated e => ce_Name e end.
Definition ended (n : Notification) : Prop :=
  match n with
  | WorkflowAdded wf | WorkflowUpdated _ wf => wf_Shutdown wf = true ∨ 0 ≤ wf_FinishedAt wf
  | EngineAdded e | EngineUpdated e => ce_EngineStatus e = EngineStatusCompleted ∨ ce_EngineStatus e = EngineStatusStopped
  end.
(** Names, identifiers and labels of Kubernetes have no quotes and backslashes. *)
Definition plain_notification (n : Notification) : bool :=
  plain (subject n) && plain (name_of n) &&
  forallb (λ k, plain (entry (labels_of n) k)) ["workflow_id"; "revision_id"; "notify_id"; "updated_by"].

(** The event of a notification: the empty one, or about its object. *)
Definition about (n : Notification) (e : WorkflowEvent) : Prop :=
  e = no_event ∨ we_UID e = subject n ∧ we_WorkflowID e = entry (labels_of n) "workflow_id" ∧ (we_FinishedAt e ≠ "" → ended n).

Lemma StrConvTime_set t : StrConvTime t ≠ "" → 0 ≤ t.
Proof. unfold StrConvTime. case_bool_decide; [done|lia]. Qed.

Lemma wp_handler oldObj wf eventType startTime w :
  wp (WorkflowEventHandler oldObj wf eventType startTime) (λ r w', same_agent w w' ∧ ∀ e, r = Ok e →
    e = no_event ∨ ∃ status fin nodes, e = workflow_event wf eventType status fin nodes ∧
      (wf_Shutdown wf = true ∨ fin = StrConvTime (Unix (wf_FinishedAt wf)))) w.
Proof.
  unfold WorkflowEventHandler. destruct (str_eq _ ""); [wp_step; by split; [|intros ? [= <-]; left]|].
  destruct (bool_decide _); [by wp_step|]. wp_step. apply wp_calls. intros [u|e|] w1 H1; [|by wp_step|done].
  wp_step. apply wp_calls. intros [u'|e|] w2 H2; [|by wp_step; split; [eapply same_agent_trans|]|by split; [eapply same_agent_trans|]].
  cbv zeta. wp_step. eapply (wp_mono _ (λ keys w', same_agent w w')).
  { unfold wp, agent_range. cbn. destruct H1, H2. split; cbn; congruence. }
  intros keys w3 H3. wp_step. eapply wp_mono; [apply wp_handle_nodes|]. cbn beta.
  intros [nodes|e|] w4 [H4 _]; [|split; [by eapply same_agent_trans|done]..].
  assert (same_agent w w4) by by eapply same_agent_trans.
  destruct (wf_Shutdown wf); (wp_step; [apply wp_ret|]) || wp_step; (split; [by eapply same_agent_trans|]); intros e [= <-]; right; eauto 10.
Qed.

Lemma wp_watched_workflow startTime oldObj n wf w :
  subject n = wf_UID wf → name_of n = wf_Name wf → labels_of n = wf_Labels wf →
  ended n = (wf_Shutdown wf = true ∨ 0 ≤ wf_FinishedAt wf) → plain_notification n = true →
  wp (startWatchWorkflow startTime oldObj wf) (λ r w', same_agent w w' ∧ ∀ e, r = Ok (Some e) → plain_event e = true ∧ about n e) w.
Proof.
  intros Eu En El Ee Hp. unfold plain_notification in Hp. cbn in Hp. rewrite Eu, En, El, !andb_true_iff in Hp.
  destruct Hp as [[P1 P2] (P3 & P4 & P5 & P6 & _)]. unfold about. rewrite Eu, El, Ee.
  unfold startWatchWorkflow, stream_workflow. wp_step. wp_step. eapply wp_mono; [apply wp_handler|]. cbn beta.
  intros [e|e|] w1 [Hs He]; [|wp_step; wp_step; split; [done|]; intros e' [= <-]; by split; [|left]|done].
  wp_step. wp_step. split; [done|]. intros e' [= <-]. destruct (He e eq_refl) as [->|(status & fin & nodes & -> & Hf)]; [by split; [|left]|].
  split; [unfold plain_event; cbn -[plain entry]; by rewrite P1, P2, P3, P4, P6, (P5 : plain (default "" _) = true)|].
  right. split_and!; [done..|]. cbn. intros Hfin. destruct Hf as [?| ->]; [by left|right].
  apply StrConvTime_set in Hfin. unfold Unix in Hfin. Z.to_euclidean_division_equations. lia.
Qed.

Lemma wp_watched_engine startTime eventType n engine w :
  subject n = ce_UID engine → name_of n = ce_Name engine → labels_of n = ce_Labels engine →
  ended n = (ce_EngineStatus engine = EngineStatusCompleted ∨ ce_EngineStatus engine = EngineStatusStopped) →
  plain_notification n = true →
  wp (chaosEventHandler engine eventType startTime) (λ r w', same_agent w w' ∧ ∀ e, r = Ok (Some e) → plain_event e = true ∧ about n e) w.
Proof.
  intros Eu En El Ee Hp. unfold plain_notification in Hp. cbn in Hp. rewrite Eu, En, El, !andb_true_iff in Hp.
  destruct Hp as [[P1 P2] (P3 & _)]. unfold about. rewrite Eu, El, Ee.
  unfold chaosEventHandler. destruct (str_eq _ ""); [by wp_step|]. destruct (bool_decide _); [by wp_step|].
  wp_step. apply wp_calls. intros [u|e|] w1 S1; [|by wp_step|done].
  wp_step. apply wp_calls. intros [u'|e|] w2 S2; [|by wp_step; split; [eapply same_agent_trans|]|by split; [eapply same_agent_trans|]].
  assert (same_agent w w2) by by eapply same_agent_trans.
  wp_step. eapply wp_mono; [apply wp_getChaosData|]. cbn beta. intros [data|e|] w3 [S3 [He _]]; [|by destruct (He e)|by split; [eapply same_agent_trans|]].
  wp_step. split; [by eapply same_agent_trans|]. intros e [= <-]. split; [unfold plain_event; cbn -[plain entry]; by rewrite P1, P2, P3|].
  right. split_and!; [done..|]. cbn. unfold engine_finished. intros Hfin%StrConvTime_set.
  destruct (str_eq _ EngineStatusCompleted) eqn:E1; [left; by apply str_eq_true|].
  destruct (str_eq _ EngineStatusStopped) eqn:E2; [right; by apply str_eq_true|]. by cbn in Hfin.
Qed.

Lemma wp_notification startTime n w :
  plain_notification n = true →
  wp (on_notification startTime n) (λ r w', same_agent w w' ∧ ∀ e, r = Ok (Some e) → plain_event e = true ∧ about n e) w.
Proof. destruct n; intros Hp; [by apply wp_watched_workflow..|by apply wp_watched_engine|by apply wp_watched_engine]. Qed.

(** C34. From the cluster to the server: through any notifications about workflows
    and engines, with any reports lost or refused and any failures of the
    database, a run that the server newly shows as completed is that of an object
    the agent was notified of, under the experiment of its label, and that object
    had ended or was being shut down. *)
Theorem server_completes_only_ended_runs infraData startTime l w :
  plain_identity infraData = true → Forall (λ n, plain_notification n = true) l →
  wp (watch infraData startTime l) (λ _ w', ∀ run, run ∈ g_runs (db (ag_server w')) → cr_Completed run = true →
    run ∈ g_runs (db (ag_server w)) ∨
    ∃ n, n ∈ l ∧ ended n ∧ cr_ExperimentRunID run = subject n ∧ cr_ExperimentID run = entry (labels_of n) "workflow_id") w.
Proof.
  intros Hi Hl. revert w. induction Hl as [|n l Hn Hl IH]; intros w; cbn [watch]; [by left|].
  wp_step. eapply wp_mono; [by apply wp_notification|]. cbn beta. intros [streamed|e|] w1 [[E1 E2] He]; [|wp_step; rewrite E2; by left|rewrite E2; by left].
  assert (∀ w2, (∀ run, run ∈ g_runs (db (ag_server w2)) → cr_Completed run = true → run ∈ g_runs (db (ag_server w)) ∨
      ended n ∧ cr_ExperimentRunID run = subject n ∧ cr_ExperimentID run = entry (labels_of n) "workflow_id") →
    wp (watch infraData startTime l) (λ _ w', ∀ run, run ∈ g_runs (db (ag_server w')) → cr_Completed run = true →
      run ∈ g_runs (db (ag_server w)) ∨
      ∃ n0, n0 ∈ n :: l ∧ ended n0 ∧ cr_ExperimentRunID run = subject n0 ∧ cr_ExperimentID run = entry (labels_of n0) "workflow_id") w2) as Hrest.
  { intros w2 H2. wp_use IH. intros _ w3 H3 run Hin Hc. destruct (H3 run Hin Hc) as [Hin2|(n0 & Hn0 & ?)]; [|by right; exists n0; split; [right|]].
    destruct (H2 run Hin2 Hc) as [?|?]; [by left|]. right. exists n. split; [by left|done]. }
  destruct streamed as [event|]; wp_step; [|wp_step; apply Hrest; rewrite E2; by left].
  destruct (He event eq_refl) as [Hp Ha]. eapply wp_mono; [by apply wp_reported|]. cbn beta.
  intros r w2 (e & data & Hc & Hm & Hd & _). apply Hrest. rewrite E2 in Hd. intros run Hin Hcomp.
  destruct Hd as [E|[Hd _]%committed_described]; [left; by rewrite <-E| |done].
  destruct (Hd run Hin) as [?|(D1 & D2 & _ & D4 & _)]; [by left|right].
  assert (we_WorkflowID e = we_WorkflowID event ∧ we_UID e = we_UID event ∧ we_FinishedAt e = we_FinishedAt event) as (F1 & F2 & F3)
    by by destruct Hc as (keys & _ & ->).
  rewrite D4, F3 in Hcomp. apply negb_true_iff, str_eq_false in Hcomp. rewrite D1, D2, F1, F2.
  destruct Ha as [->|(A1 & A2 & A3)]; [done|]. split_and!; [by apply A3|done..].
Qed.
End reports.

(** ** A concrete endpoint *)

(** JSON of an event is its phase, here. *)
#[local] Instance run_codec : AgentCodec := {|
  decode_manifest := @decode_manifest fix_agent_codec; json_to_yaml := @json_to_yaml fix_agent_codec;
  unmarshal_components := @unmarshal_components fix_agent_codec;
  marshal_event e := Ok ("P" +:+ we_Phase e);
  marshal_namespaces := @marshal_namespaces fix_agent_codec; marshal_objects := @marshal_objects fix_agent_codec;
  reencode_objects := @reencode_objects fix_agent_codec; marshal_log := @marshal_log fix_agent_codec;
  unmarshal_kube_request := @unmarshal_kube_request fix_agent_codec;
  unmarshal_namespace_request := @unmarshal_namespace_request fix_agent_codec;
  unmarshal_log_request := @unmarshal_log_request fix_agent_codec; unmarshal_confirm := @unmarshal_confirm fix_agent_codec;
|}.
#[local] Instance run_decoders : Decoders := {|
  workflow_templates := @workflow_templates fix_decoders; cron_workflow_templates := @cron_workflow_templates fix_decoders;
  chaos_engine := @chaos_engine fix_decoders; probe_annotations := @probe_annotations fix_decoders;
  execution_data s := match s with String "P" phase => Ok (mkExecutionData "" phase ∅) | _ => Err (ErrNew "invalid character") end;
|}.
#[local] Instance run_marshal : MarshalLaws run_codec.
Proof. done. Qed.
#[local] Instance run_json : EventJson.
Proof. intros e data [= <-]. split; [done|]. by eexists. Qed.

(** The texts between escaped quotes. *)
Definition is_completed (text : string) : bool := str_eq text ", completed: true, experimentName:".
#[local] Instance run_endpoint : Endpoint (World GraphDB) := λ addr payload s,
  let serve id uid rev notify c name cid version key by_ data :=
    let o := mutation_ChaosExperimentRun
      (mkRunRequest id notify uid name data (Some (mkInfraIdentity cid key version)) rev (is_completed c) None by_) s in
    (Ok (if is_ok o.1 then "data" else "errors"), o.2) in
  match Split payload bq with
  | [_; id; _; uid; _; rev; c; name; _; cid; _; version; _; key; _; by_; _; data; _] =>
      serve id uid rev None c name cid version key by_ data
  | [_; id; _; uid; _; rev; _; n; c; name; _; cid; _; version; _; key; _; by_; _; data; _] =>
      serve id uid rev (Some n) c name cid version key by_ data
  | _ => (Err (ErrNew "bad request"), s)
  end.

Lemma std_encode_plain s : plain (std_encode s) = true.
Proof. unfold plain, std_encode. rewrite chars_of_chars. apply b64_encode_forall; vm_compute; reflexivity. Qed.

Lemma Split_Join_bq l : l ≠ [] → Forall (λ x, "\"%char ∉ chars x) l → Split (Join l bq) bq = l.
Proof.
  intros Hl Hf. induction Hf as [|x [|y l] Hx Hf IH]; [done|by apply Split_bq_end|].
  change (Join (x :: y :: l) bq) with (x +:+ bq +:+ Join (y :: l) bq). rewrite Split_bq by done. by rewrite IH.
Qed.

Definition run_start : string := "{" +:+ dq +:+ "query" +:+ dq +:+ ":" +:+ dq +:+ "mutation { chaosExperimentRun(request:{ experimentID: ".
Definition run_end : string := "} )}" +:+ dq +:+ "}".
Definition completed_piece (e : WorkflowEvent) : string :=
  ", completed: " +:+ (if str_eq (we_FinishedAt e) "" then "false" else "true") +:+ ", experimentName:".
Lemma run_pieces infraData e data :
  plain_identity infraData = true → plain_event e = true → marshal_event e = Ok data →
  Split (report_text infraData e) bq =
    ([run_start; we_WorkflowID e; ", experimentRunID: "; we_UID e; ", revisionID:"; we_RevisionID e] ++
     match we_NotifyID e with Some n => [", notifyID:"; n] | None => [] end ++
     [completed_piece e; we_Name e; ", infraID: {infraID: "; entry infraData "INFRA_ID"; ", version: ";
      entry infraData "VERSION"; ", accessKey: "; entry infraData "ACCESS_KEY"; "}, updatedBy:"; we_UpdatedBy e;
      ", executionData:"; std_encode data; run_end])%list.
Proof.
  intros [[Hi%plain_chars Hk%plain_chars]%andb_true_iff Hv%plain_chars]%andb_true_iff.
  intros [[[[[H1%plain_chars H2%plain_chars]%andb_true_iff H3%plain_chars]%andb_true_iff H4%plain_chars]%andb_true_iff
    H5%plain_chars]%andb_true_iff H6%plain_chars]%andb_true_iff Hm.
  pose proof (plain_chars _ (std_encode_plain data)) as H7.
  assert ("\"%char ∉ chars (completed_piece e)) as H8.
  { unfold completed_piece. destruct (str_eq _ _); by apply (bool_decide_unpack _); vm_compute. }
  unfold report_text, GenerateWorkflowPayload. rewrite Hm.
  match goal with |- Split ?t _ = ?l => replace t with (Join l bq) end.
  - apply Split_Join_bq; [by destruct (we_NotifyID e)|]. destruct (we_NotifyID e); cbn [app];
      repeat (apply Forall_cons; split); try done; by apply (bool_decide_unpack _); vm_compute.
  - apply chars_inj. unfold query_text, identity_text, run_start, run_end, completed_piece.
    destruct (we_NotifyID e); cbn [app Join]; rewrite !chars_app, <-!app_assoc; done.
Qed.

#[local, refine] Instance run_transport : RunTransport := {| has_data body := str_eq body "data" |}.
Proof.
  intros addr infraData e data s Hi He Hm. unfold http_post, run_endpoint. rewrite (run_pieces _ _ data) by done.
  assert (is_completed (completed_piece e) = negb (str_eq (we_FinishedAt e) "")) as Hc.
  { unfold completed_piece. by destruct (str_eq (we_FinishedAt e) ""). }
  destruct (we_NotifyID e) eqn:En; cbn [app]; rewrite Hc; unfold run_request, agent_identity; rewrite En; cbv zeta;
    (destruct (mutation_ChaosExperimentRun _ s) as [r s']; cbn [fst snd]; split; [by right|];
     intros body [= <-]; split; [done|]; by destruct r).
Defined.

(** A run that is reported while it goes on and when it has ended. *)
Definition sent_event (phase finished : string) : WorkflowEvent :=
  mkEvent "events" "rev-e1" (Some "n1") "e1" "UPDATE" "run1" "litmus" "wf" "1" phase "" "1" finished ∅ "YWxpY2U".
Definition sent_events : list WorkflowEvent := [sent_event "Running" ""; sent_event "Succeeded" "9"].

Lemma server_runs_are_reported_witness :
  wp (WorkflowUpdates fix_infra_data sent_events) (λ _ w', ∃ run, g_runs (db (ag_server w')) = [run] ∧ cr_Completed run = true ∧
    ∃ l1 event l2 e, sent_events = (l1 ++ event :: l2)%list ∧ completes (ag_events (WorkflowUpdates fix_infra_data l1 (fix_agent false)).2) event e ∧
      described e run) (fix_agent false).
Proof.
  pose proof (server_runs_are_reported fix_infra_data sent_events (fix_agent false) ltac:(vm_compute; reflexivity)
    ltac:(apply (bool_decide_unpack _); vm_compute; exact I)) as H. unfold wp in *.
  set (w' := (WorkflowUpdates fix_infra_data sent_events (fix_agent false)).2) in *.
  assert (∃ run, g_runs (db (ag_server w')) = [run] ∧ cr_Completed run = true) as (run & E & Hc)
    by (eexists; vm_compute; split; reflexivity).
  exists run. split; [exact E|]. split; [exact Hc|]. destruct (H run) as [Hin|Hd]; [rewrite E; by left| |exact Hd].
  exfalso. vm_compute in Hin. by apply not_elem_of_nil in Hin.
Defined.
Lemma answered_report_is_recorded_witness :
  wp (SendWorkflowUpdates fix_infra_data (sent_event "Running" "")) (λ r w', r = Ok "data" ∧
    ∃ e run, completes ∅ (sent_event "Running" "") e ∧ run ∈ g_runs (db (ag_server w')) ∧ described e run) (fix_agent false).
Proof.
  pose proof (answered_report_is_recorded fix_infra_data (sent_event "Running" "") (fix_agent false) ltac:(vm_compute; reflexivity)
    ltac:(vm_compute; reflexivity)) as H. unfold wp in *.
  assert ((SendWorkflowUpdates fix_infra_data (sent_event "Running" "") (fix_agent false)).1 = Ok "data") as Hr by (vm_compute; reflexivity).
  split; [exact Hr|]. destruct (H "data" Hr eq_refl) as [Hno|[Hl|Hd]]; [| |exact Hd].
  - exfalso. apply Forall_cons in Hno as [Hno _]. vm_compute in Hno. done.
  - exfalso. vm_compute in Hl. lia.
Defined.

(** A workflow that is started and ends. *)
Definition ended_workflow : Workflow :=
  mkWorkflow "wf" "litmus" "u1" (wf_Labels (fix_workflow false)) 1000 [] false "Succeeded" "" 1000 9000 ∅.
Definition seen : list Notification := [WorkflowAdded (fix_workflow false); WorkflowUpdated (fix_workflow false) ended_workflow].
Lemma server_completes_only_ended_runs_witness :
  wp (watch fix_infra_data 0 seen) (λ _ w', ∃ run, g_runs (db (ag_server w')) = [run] ∧ cr_Completed run = true ∧
    ∃ n, n ∈ seen ∧ ended n ∧ cr_ExperimentRunID run = subject n ∧ cr_ExperimentID run = entry (labels_of n) "workflow_id") (fix_agent false).
Proof.
  pose proof (server_completes_only_ended_runs fix_infra_data 0 seen (fix_agent false) ltac:(vm_compute; reflexivity)
    ltac:(apply (bool_decide_unpack _); vm_compute; exact I)) as H. unfold wp in *.
  set (w' := (watch fix_infra_data 0 seen (fix_agent false)).2) in *.
  assert (∃ run, g_runs (db (ag_server w')) = [run] ∧ cr_Completed run = true) as (run & E & Hc)
    by (eexists; vm_compute; split; reflexivity).
  exists run. split; [exact E|]. split; [exact Hc|]. destruct (H run) as [Hin|Hd]; [rewrite E; by left|exact Hc| |exact Hd].
  exfalso. vm_compute in Hin. by apply not_elem_of_nil in Hin.
Defined.
